(** * The BJData decoder of pybj (src/decoder.c), embedded in Rocq

    The C decoder is written against the CPython C API: every function
    returns NULL (or a negative number, or a record flagged invalid) on
    failure and leaves the reason in the interpreter's error indicator.
    The embedding keeps that shape.  A computation is a function from a
    [world] (the decoder buffer together with the error indicator) to a
    [result] and a new world; [Null] is the C error return, and the
    exception, if any, is read from the world.

    Conventions used throughout:
    - a C [char] is a [byte]; integers are [Z], with the wrap-around of the
      C type written out where the source can overflow;
    - the host is LP64 and little-endian (the [islittle] branches of the
      integer decoders store bytes straight into the accumulator);
    - host allocation ([malloc], [PyList_New], [PyBytes_FromStringAndSize],
      [PyDict_New], [PyTuple_Pack]) is taken to succeed for lack of memory
      never; a negative size is refused, as the API documents.  An
      allocation that fails, and a write outside an allocated block, are
      outcomes the model does not have: a property that depends on a size
      taken from the input is stated for the results that come back, or
      for the inputs that bound the size ([read_fits_destination],
      [no_dimension_vector]);
    - loops that consume input take a [fuel] argument, since a user
      callable may supply bytes forever; [OutOfFuel] is distinct from every
      C outcome. *)

From Stdlib Require Import ZArith List Bool Lia String.
From Stdlib Require Import Strings.Byte.
Import ListNotations.
Open Scope Z_scope.

Set Implicit Arguments.
Set Warnings "-register-all".

(** ** Bytes *)

Definition byte_to_Z (b : byte) : Z := Z.of_N (Byte.to_N b).

Definition byte_eqb (a b : byte) : bool := Byte.eqb a b.

Definition Zlength' {A} (l : list A) : Z := Z.of_nat (List.length l).

(** [slice data off n]: the [n] bytes of [data] starting at offset [off]
    (what a pointer [&data[off]] gives access to for a length of [n]). *)
Definition slice {A} (data : list A) (off n : Z) : list A :=
  firstn (Z.to_nat n) (skipn (Z.to_nat off) data).

(** ** Markers *)

Module Markers.
(** Modelled from the spec: markers.h is not among the sources; the
    marker alphabet is the one of section 3 of the specification (the
    BJData/UBJSON byte assignments).  [TYPE_NONE] is the internal
    "no type" value, the zero byte, as the truth test
    [ndims && params.type] of [_decode_array] needs. *)
Definition TYPE_NONE       : byte := x00.
Definition TYPE_NULL       : byte := "Z".
Definition TYPE_NOOP       : byte := "N".
Definition TYPE_BOOL_TRUE  : byte := "T".
Definition TYPE_BOOL_FALSE : byte := "F".
Definition TYPE_INT8       : byte := "i".
Definition TYPE_UINT8      : byte := "U".
Definition TYPE_INT16      : byte := "I".
Definition TYPE_UINT16     : byte := "u".
Definition TYPE_INT32      : byte := "l".
Definition TYPE_UINT32     : byte := "m".
Definition TYPE_INT64      : byte := "L".
Definition TYPE_UINT64     : byte := "M".
Definition TYPE_FLOAT16    : byte := "h".
Definition TYPE_FLOAT32    : byte := "d".
Definition TYPE_FLOAT64    : byte := "D".
Definition TYPE_HIGH_PREC  : byte := "H".
Definition TYPE_CHAR       : byte := "C".
Definition TYPE_STRING     : byte := "S".
Definition OBJECT_START    : byte := "{".
Definition OBJECT_END      : byte := "}".
Definition ARRAY_START     : byte := "[".
Definition ARRAY_END       : byte := "]".
Definition CONTAINER_TYPE  : byte := "$".
Definition CONTAINER_COUNT : byte := "#".
End Markers.
Import Markers.

(** decoder buffer size when using fp *)
Definition BUFFER_FP_SIZE : Z := 256.
(** io.SEEK_CUR *)
Definition IO_SEEK_CUR : Z := 1.

(** ** Python values and exceptions *)

Inductive pyerr : Type :=
| DecoderException (msg : string) (at_byte : Z)
| OverflowError
| UnicodeDecodeError
| RecursionError
| TypeError
| SystemError
| RuntimeError (msg : string)
| HostFactoryError
| UserError (tag : Z).

Definition is_DecoderException (e : pyerr) : bool :=
  match e with DecoderException _ _ => true | _ => false end.

(** numpy's element type numbers, as far as [_get_type_info] names them *)
Inductive npy_type : Type :=
| PyArray_HALF | PyArray_FLOAT | PyArray_DOUBLE
| PyArray_BYTE | PyArray_UBYTE | PyArray_SHORT | PyArray_USHORT
| PyArray_INT | PyArray_UINT | PyArray_LONGLONG | PyArray_ULONGLONG
| PyArray_STRING | PyArray_USERDEF.

Inductive PyObject : Type :=
| Py_None
| Py_True
| Py_False
| PyLong (v : Z)
| PyFloat (width : Z) (bits : Z)
| PyUnicode (utf8 : list byte)
| PyDecimal (text : list byte)
| PyBytes (data : list byte)
| PyArray (dims : list Z) (elt : npy_type) (data : list byte)
| PyList (items : list PyObject)
| PyTuple (items : list PyObject)
| PyDict (entries : list (list byte * PyObject))
| PyOpaque (tag : Z).

(** A user hook is a Python callable: called on an object, it returns an
    object or raises. *)
Definition hook_fn : Type := PyObject -> pyerr + PyObject.

Inductive hook : Type :=
| HookNull                 (* NULL: no argument supplied *)
| HookNone                 (* Py_None *)
| HookCallable (f : hook_fn).

Record _bjdata_decoder_prefs_t : Type := mkPrefs {
  object_hook : hook;
  object_pairs_hook : hook;
  no_bytes : bool;
  intern_object_keys : bool;
  islittle : bool
}.

(** ** The host

    What the decoder calls but does not define: the user's input and seek
    callables (a stream object with state), the Decimal constructor, the
    numpy array constructor and the interpreter's recursion limit. *)
Class PyHost : Type := {
  stream : Type;
  (** [input(n)]: the bytes returned, or the exception raised (also when the
      returned object has no buffer interface) *)
  input_call : stream -> Z -> (pyerr + list byte) * stream;
  (** [seek(offset, whence)] *)
  seek_call : stream -> Z -> Z -> option pyerr * stream;
  (** does [decimal.Decimal(text)] accept the text *)
  Decimal_accepts : list byte -> bool;
  (** does [PyArray_SimpleNew(nd, dims, type)] return an array *)
  PyArray_SimpleNew_ok : Z -> list Z -> npy_type -> bool;
  (** the limit [Py_EnterRecursiveCall] checks the depth against *)
  recursion_limit : Z
}.

Inductive read_func_t : Type :=
| read_fixed
| read_callable
| read_buffered.

Inductive PyInput `{PyHost} : Type :=
| InBuffer (data : list byte)       (* supports the buffer interface *)
| InCallable (s : stream)           (* callable *)
| InOther.

Record _bjdata_decoder_buffer_t `{PyHost} : Type := mkBuffer {
  input : PyInput;
  seek : bool;                      (* false: NULL *)
  read_func : read_func_t;
  view : list byte;                 (* view.buf[0 .. view.len) *)
  view_set : bool;
  pos : Z;
  total_read : Z;
  tmp_dst : option (list byte);
  prefs : _bjdata_decoder_prefs_t
}.

(** The decoder buffer and the interpreter's error indicator. *)
Record world `{PyHost} : Type := mkWorld {
  buf : _bjdata_decoder_buffer_t;
  exc : option pyerr
}.

(** ** The outcome of a C call *)

Inductive result (A : Type) : Type :=
| Ret (a : A)
| Null
| OutOfFuel.
Arguments Null {A}.
Arguments OutOfFuel {A}.

Section Decoder.
Context `{Host : PyHost}.

Definition view_len (b : _bjdata_decoder_buffer_t) : Z := Zlength' (view b).

Definition set_input (i : PyInput) (b : _bjdata_decoder_buffer_t) :=
  mkBuffer i (seek b) (read_func b) (view b) (view_set b) (pos b)
           (total_read b) (tmp_dst b) (prefs b).
Definition set_view (v : list byte) (b : _bjdata_decoder_buffer_t) :=
  mkBuffer (input b) (seek b) (read_func b) v (view_set b) (pos b)
           (total_read b) (tmp_dst b) (prefs b).
Definition set_view_set (s : bool) (b : _bjdata_decoder_buffer_t) :=
  mkBuffer (input b) (seek b) (read_func b) (view b) s (pos b)
           (total_read b) (tmp_dst b) (prefs b).
Definition set_pos (p : Z) (b : _bjdata_decoder_buffer_t) :=
  mkBuffer (input b) (seek b) (read_func b) (view b) (view_set b) p
           (total_read b) (tmp_dst b) (prefs b).
Definition set_total_read (t : Z) (b : _bjdata_decoder_buffer_t) :=
  mkBuffer (input b) (seek b) (read_func b) (view b) (view_set b) (pos b)
           t (tmp_dst b) (prefs b).
Definition set_tmp_dst (t : option (list byte)) (b : _bjdata_decoder_buffer_t) :=
  mkBuffer (input b) (seek b) (read_func b) (view b) (view_set b) (pos b)
           (total_read b) t (prefs b).

Definition with_buf (f : _bjdata_decoder_buffer_t -> _bjdata_decoder_buffer_t)
  (w : world) : world := mkWorld (f (buf w)) (exc w).
Definition set_exc (e : option pyerr) (w : world) : world := mkWorld (buf w) e.

(** ** The computation type *)

Definition M (A : Type) : Type := world -> result A * world.

Definition ret {A} (a : A) : M A := fun w => (Ret a, w).

Definition bind {A B} (m : M A) (k : A -> M B) : M B :=
  fun w => match m w with
           | (Ret a, w') => k a w'
           | (Null, w') => (Null, w')
           | (OutOfFuel, w') => (OutOfFuel, w')
           end.

(** [goto bail] with the indicator as it stands *)
Definition bail {A} : M A := fun w => (Null, w).

Definition out_of_fuel {A} : M A := fun w => (OutOfFuel, w).

(** [PyErr_SetObject] / [PyErr_SetString] followed by [goto bail] *)
Definition raise {A} (e : pyerr) : M A := fun w => (Null, set_exc (Some e) w).

(** [RAISE_DECODER_EXCEPTION(msg)] *)
Definition RAISE_DECODER_EXCEPTION {A} (msg : string) : M A :=
  fun w => (Null, set_exc (Some (DecoderException msg (total_read (buf w)))) w).

Definition get_prefs : M _bjdata_decoder_prefs_t :=
  fun w => (Ret (prefs (buf w)), w).

End Decoder.

Declare Scope decoder_scope.
Delimit Scope decoder_scope with dec.
Notation "x <- m ;; k" := (bind m (fun x => k))
  (at level 61, m at next level, right associativity) : decoder_scope.
Notation "' p <- m ;; k" := (bind m (fun x => match x with p => k end))
  (at level 61, p pattern, m at next level, right associativity) : decoder_scope.
Notation "m ;;; k" := (bind m (fun _ => k))
  (at level 61, right associativity) : decoder_scope.
Open Scope decoder_scope.

Section Reading.
Context `{Host : PyHost}.

(** ** The three read backends

    A read returns the chunk pointer (NULL is [None]) and the updated
    [*len]; the chunk is the [*len] bytes the pointer gives access to.
    [dst] tells whether the caller supplied a destination buffer. *)

Definition read_out : Type := option (list byte) * Z.

(** [PyObject_CallFunction(buffer->input, "n", n)] followed by
    [PyObject_GetBuffer] on the result *)
Definition call_input (n : Z) (w : world) : (pyerr + list byte) * world :=
  match input (buf w) with
  | InCallable s =>
      let '(r, s') := input_call s n in
      (r, with_buf (set_input (InCallable s')) w)
  | _ => (inl TypeError, w)
  end.

Definition _decoder_buffer_read_fixed (len : Z) (dst : bool) (w : world)
  : read_out * world :=
  let b := buf w in
  if len =? 0 then ((None, len), w)
  else if total_read b <? view_len b then
    let len' := Z.min len (view_len b - total_read b) in
    let old_pos := total_read b in
    let w' := with_buf (set_total_read (total_read b + len')) w in
    ((Some (slice (view b) old_pos len'), len'), w')
  else ((None, 0), w).

Definition _decoder_buffer_read_callable (len : Z) (dst : bool) (w : world)
  : read_out * world :=
  if len =? 0 then ((None, len), w)
  else
    let w1 := if view_set (buf w) then with_buf (set_view_set false) w else w in
    match call_input len w1 with
    | (inl e, w2) => ((None, 1), set_exc (Some e) w2)
    | (inr data, w2) =>
        let w3 := with_buf (fun b => set_view_set true (set_view data b)) w2 in
        if view_len (buf w3) =? 0 then ((None, 0), w3)
        else
          let len' := view_len (buf w3) in
          ((Some data, len'),
           with_buf (fun b => set_total_read (total_read b + len') b) w3)
    end.

Definition _decoder_buffer_read_buffered (len : Z) (dst : bool) (w : world)
  : read_out * world :=
  if len =? 0 then ((None, len), w)
  else
    (* previously used temporary output no longer needed *)
    let w := with_buf (set_tmp_dst None) w in
    let b := buf w in
    if negb (view_set b) || (len >? view_len b - pos b) then
      (* copy remainder into buffer and release old view *)
      let '(remaining_old, old_bytes, b1) :=
        if view_set b then
          let r := view_len b - pos b in
          let b' := if r >? 0
                    then set_total_read (total_read b + r) (set_pos (view_len b) b)
                    else b in
          (r, slice (view b) (pos b) r, set_pos 0 (set_view_set false b'))
        else (0, [], b) in
      (* the temporary buffer, unless the caller supplied one; it holds the
         remainder of the old view so far.  Its [malloc] of [len] bytes is
         taken to succeed. *)
      let b1 := if dst then b1 else set_tmp_dst (Some old_bytes) b1 in
      let w1 := with_buf (fun _ => b1) w in
      match call_input (Z.max BUFFER_FP_SIZE (len - remaining_old)) w1 with
      | (inl e, w2) => ((None, 1), set_exc (Some e) w2)
      | (inr data, w2) =>
          let w3 := with_buf (fun b => set_view_set true (set_view data b)) w2 in
          let b3 := buf w3 in
          if (remaining_old =? 0) && (view_len b3 =? 0) then ((None, 0), w3)
          else
            let len' := Z.min len ((view_len b3 - pos b3) + remaining_old) in
            let pos' := len' - remaining_old in
            let chunk := old_bytes ++ slice (view b3) 0 pos' in
            let b4 := set_total_read (total_read b3 + pos') (set_pos pos' b3) in
            let b5 := if dst then b4 else set_tmp_dst (Some chunk) b4 in
            ((Some chunk, len'), with_buf (fun _ => b5) w3)
      end
    else
      (* enough data in existing view *)
      let old_pos := pos b in
      let b' := set_total_read (total_read b + len) (set_pos (pos b + len) b) in
      ((Some (slice (view b) old_pos len), len), with_buf (fun _ => b') w).

(** What holds of [pos] in every buffer made by
    [_bjdata_decoder_buffer_create] and used through the read functions
    only: without a view the position is zero ([calloc], and the reset after
    [PyBuffer_Release]); the plain callable backend never moves it. *)
Definition buffer_wf (b : _bjdata_decoder_buffer_t) : Prop :=
  match read_func b with
  | read_callable => pos b = 0
  | _ => view_set b = false -> pos b = 0
  end.

(** [READ_VIA_FUNC(buffer, readptr, dst)] *)
Definition READ_VIA_FUNC (len : Z) (dst : bool) (w : world) : read_out * world :=
  match read_func (buf w) with
  | read_fixed => _decoder_buffer_read_fixed len dst w
  | read_callable => _decoder_buffer_read_callable len dst w
  | read_buffered => _decoder_buffer_read_buffered len dst w
  end.

(** [ACTION_READ_ERROR] around a read of [len] bytes: the chunk pointer
    (NULL when nothing was asked for), or an error return. *)
Definition ACTION_READ (len : Z) (dst : bool) (item_str : string)
  : M (option (list byte)) :=
  fun w =>
    let '((ptr, read), w1) := READ_VIA_FUNC len dst w in
    match ptr with
    | None =>
        if read >? 0 then bail w1
        else if (len >? 0) || (read <? len)
        then RAISE_DECODER_EXCEPTION ("Insufficient input (" ++ item_str ++ ")") w1
        else ret None w1
    | Some chunk =>
        if read <? len
        then RAISE_DECODER_EXCEPTION
               ("Insufficient (partial) input (" ++ item_str ++ ")") w1
        else ret (Some chunk) w1
    end.

(** The [len] bytes a successful read hands to its caller. *)
Definition chunk_bytes (len : Z) (ptr : option (list byte)) : list byte :=
  match ptr with
  | Some chunk => firstn (Z.to_nat len) chunk
  | None => []
  end.

(** [READ_OR_BAIL(len, dst_buffer, item_str)] (and its [_CAST] form) *)
Definition READ_OR_BAIL (len : Z) (item_str : string) : M (list byte) :=
  ptr <- ACTION_READ len false item_str ;;
  ret (chunk_bytes len ptr).

(** [READ_INTO_OR_BAIL(len, dst_buffer, item_str)]: the destination's first
    [len] bytes afterwards.  The destination has room for [len] bytes, and
    the read function copies into it all the bytes it hands back; what the
    copy does when these are more than [len] is not part of the result
    here, and a property of a read with a destination holds of the reads
    picked out by [read_fits_destination]. *)
Definition READ_INTO_OR_BAIL (len : Z) (item_str : string) : M (list byte) :=
  ptr <- ACTION_READ len true item_str ;;
  ret (chunk_bytes len ptr).

(** The copy into a destination of [len] bytes stays inside it: the read
    function hands back ([*len] on return) no more than [len] bytes.  The
    fixed and the buffered backend cut the chunk to [len] themselves; the
    callable backend copies [view.len] bytes, as many as the user's [read]
    returned. *)
Definition read_fits_destination (len : Z) (w : world) : bool :=
  snd (fst (READ_VIA_FUNC len true w)) <=? len.

(** [READ_CHAR_OR_BAIL(dst_char, item_str)] *)
Definition READ_CHAR_OR_BAIL (item_str : string) : M byte :=
  tmp <- READ_OR_BAIL 1 item_str ;;
  ret (hd x00 tmp).

End Reading.

(** ** Host routines with a fixed meaning *)

(** [PyUnicode_FromStringAndSize] decodes strict UTF-8: it accepts exactly
    the well-formed byte sequences (no overlong forms, no surrogates,
    nothing above U+10FFFF). *)
Definition in_range (lo hi : Z) (b : byte) : bool :=
  (lo <=? byte_to_Z b) && (byte_to_Z b <=? hi).

Fixpoint utf8_valid (l : list byte) : bool :=
  match l with
  | [] => true
  | b0 :: r0 =>
      if in_range 0 127 b0 then utf8_valid r0
      else
        match r0 with
        | [] => false
        | b1 :: r1 =>
            if in_range 194 223 b0 then in_range 128 191 b1 && utf8_valid r1
            else
              match r1 with
              | [] => false
              | b2 :: r2 =>
                  if in_range 224 239 b0 then
                    (if byte_to_Z b0 =? 224 then in_range 160 191 b1
                     else if byte_to_Z b0 =? 237 then in_range 128 159 b1
                     else in_range 128 191 b1)
                    && in_range 128 191 b2 && utf8_valid r2
                  else
                    match r2 with
                    | [] => false
                    | b3 :: r3 =>
                        in_range 240 244 b0
                        && (if byte_to_Z b0 =? 240 then in_range 144 191 b1
                            else if byte_to_Z b0 =? 244 then in_range 128 143 b1
                            else in_range 128 191 b1)
                        && in_range 128 191 b2 && in_range 128 191 b3
                        && utf8_valid r3
                    end
              end
        end
  end.

(** Bytes stored one by one at [buf[i]] of a zeroed accumulator, on a
    little-endian host. *)
Fixpoint store_le (raw : list byte) : Z :=
  match raw with
  | [] => 0
  | b :: rest => Z.lor (byte_to_Z b) (Z.shiftl (store_le rest) 8)
  end.

(** [for (...) value = (value << 8) | *raw++;] *)
Definition shift_be (raw : list byte) : Z :=
  fold_left (fun value b => Z.lor (Z.shiftl value 8) (byte_to_Z b)) raw 0.

(** The value of a [w]-bit pattern read as a two's complement number. *)
Definition to_signed (w : Z) (x : Z) : Z :=
  let m := x mod 2 ^ w in
  if m <? 2 ^ (w - 1) then m else m - 2 ^ w.

Definition LLONG_MAX : Z := 2 ^ 63 - 1.
Definition fits_long_long (n : Z) : Prop := - 2 ^ 63 <= n < 2 ^ 63.
Definition SIZEOF_LONG : Z := 8.

(** Modelled from the spec: python_funcs.h is not among the sources;
    [_pyfuncs_ubj_PyFloat_Unpack4/8] are the "IEEE-754 routines with explicit
    endian selection" of section 4.2.  The double they return is carried as
    the width and the bit pattern of the encoded number. *)
Definition _pyfuncs_ubj_PyFloat_Unpack (raw : list byte) (le : bool) : Z :=
  if le then store_le raw else shift_be raw.

(** the bit patterns of -1.0, which the callers test for *)
Definition minus_one_bits (width : Z) : Z :=
  if width =? 4 then 3212836864 else 13830554455654793216.

Section Scalars.
Context `{Host : PyHost}.

(** [PyErr_Occurred()] *)
Definition PyErr_Occurred (w : world) : bool :=
  match exc w with Some _ => true | None => false end.

Definition signed_char (b : byte) : Z := to_signed 8 (byte_to_Z b).

Definition _decode_int8 : M PyObject :=
  value <- READ_CHAR_OR_BAIL "int8" ;;
  ret (PyLong (signed_char value)).

Definition _decode_uint8 : M PyObject :=
  value <- READ_CHAR_OR_BAIL "uint8" ;;
  ret (PyLong (byte_to_Z value)).

(** NOTE: size parameter can only be 2 or 4 (bytes) *)
Definition _decode_uint16_32 (size : Z) : M PyObject :=
  raw <- READ_OR_BAIL size "uint16/32" ;;
  p <- get_prefs ;;
  let value := if islittle p then store_le raw else shift_be raw in
  ret (PyLong value).

Definition _decode_int16_32 (size : Z) : M PyObject :=
  raw <- READ_OR_BAIL size "int16/32" ;;
  p <- get_prefs ;;
  let value := if islittle p then store_le raw else shift_be raw in
  (* extend signed bit *)
  let value :=
    if SIZEOF_LONG >? size
    then Z.lor value (- (Z.land value (Z.shiftl 1 (8 * size - 1))))
    else value in
  ret (PyLong value).

Definition _decode_uint64 : M PyObject :=
  raw <- READ_OR_BAIL 8 "uint64" ;;
  p <- get_prefs ;;
  let value := if islittle p then store_le raw else shift_be raw in
  ret (PyLong value).

Definition _decode_int64 : M PyObject :=
  raw <- READ_OR_BAIL 8 "int64" ;;
  p <- get_prefs ;;
  let value := if islittle p then store_le raw else shift_be raw in
  (* the accumulator is a signed 64-bit [long long] *)
  ret (PyLong (to_signed 64 value)).

(** The [switch (marker)] of [_decode_int_non_negative]. *)
Definition _decode_int_switch (marker : byte) : M PyObject :=
  if byte_eqb marker TYPE_UINT8 then _decode_uint8
  else if byte_eqb marker TYPE_INT8 then _decode_int8
  else if byte_eqb marker TYPE_UINT16 then _decode_uint16_32 2
  else if byte_eqb marker TYPE_INT16 then _decode_int16_32 2
  else if byte_eqb marker TYPE_UINT32 then _decode_uint16_32 4
  else if byte_eqb marker TYPE_INT32 then _decode_int16_32 4
  else if byte_eqb marker TYPE_UINT64 then _decode_uint64
  else if byte_eqb marker TYPE_INT64 then _decode_int64
  else RAISE_DECODER_EXCEPTION "Integer marker expected".

(** [PyLong_AsLongLong]: -1 with OverflowError outside the [long long] range *)
Definition PyLong_AsLongLong (o : PyObject) : world -> Z * world :=
  fun w =>
    match o with
    | PyLong v =>
        if (- LLONG_MAX - 1 <=? v) && (v <=? LLONG_MAX) then (v, w)
        else (-1, set_exc (Some OverflowError) w)
    | _ => (-1, set_exc (Some TypeError) w)
    end.

Definition negative_length_error (at_byte : Z) : pyerr :=
  DecoderException "Negative count/length unexpected" at_byte.

(** returns negative on error (exception set): here the error return *)
Definition _decode_int_non_negative (given_marker : option byte) : M Z :=
  marker <- match given_marker with
            | None => READ_CHAR_OR_BAIL "Length marker"
            | Some m => ret m
            end ;;
  int_obj <- _decode_int_switch marker ;;
  fun w =>
    let '(value, w1) := PyLong_AsLongLong int_obj w in
    if PyErr_Occurred w1 then bail w1
    else if value <? 0
    then RAISE_DECODER_EXCEPTION "Negative count/length unexpected" w1
    else ret value w1.

(** [DECODE_LENGTH_OR_BAIL(length)] *)
Definition DECODE_LENGTH_OR_BAIL : M Z := _decode_int_non_negative None.

(** [DECODE_LENGTH_OR_BAIL_MARKER(length, marker)] *)
Definition DECODE_LENGTH_OR_BAIL_MARKER (marker : byte) : M Z :=
  _decode_int_non_negative (Some marker).

(** [DECODE_UNICODE_OR_BAIL(dst_obj, raw, length, item_str)] *)
Definition DECODE_UNICODE_OR_BAIL (raw : list byte) (item_str : string)
  : M PyObject :=
  if utf8_valid raw then ret (PyUnicode raw)
  else RAISE_DECODER_EXCEPTION ("Failed to decode utf8: " ++ item_str).

Definition _decode_float (width : Z) (item_str : string) : M PyObject :=
  raw <- READ_OR_BAIL width item_str ;;
  p <- get_prefs ;;
  let value := _pyfuncs_ubj_PyFloat_Unpack raw (islittle p) in
  fun w =>
    if (value =? minus_one_bits width) && PyErr_Occurred w then bail w
    else ret (PyFloat width value) w.

Definition _decode_float32 : M PyObject := _decode_float 4 "float32".
Definition _decode_float64 : M PyObject := _decode_float 8 "float64".

Definition _decode_high_prec : M PyObject :=
  length <- DECODE_LENGTH_OR_BAIL ;;
  raw <- READ_OR_BAIL length "highprec" ;;
  num_str <- DECODE_UNICODE_OR_BAIL raw "highprec" ;;
  if Decimal_accepts raw then ret (PyDecimal raw)
  else raise HostFactoryError.

Definition _decode_char : M PyObject :=
  value <- READ_CHAR_OR_BAIL "char" ;;
  DECODE_UNICODE_OR_BAIL [value] "char".

Definition _decode_string : M PyObject :=
  length <- DECODE_LENGTH_OR_BAIL ;;
  if length >? 0 then
    raw <- READ_OR_BAIL length "string" ;;
    DECODE_UNICODE_OR_BAIL raw "string"
  else ret (PyUnicode []).

(** same as string, except there is no 'S' marker *)
Definition _decode_object_key (marker : byte) (intern : bool) : M (list byte) :=
  length <- DECODE_LENGTH_OR_BAIL_MARKER marker ;;
  raw <- READ_OR_BAIL length "string" ;;
  if utf8_valid raw then ret raw
  else raise UnicodeDecodeError.

(** [DECODE_OBJECT_KEY_OR_RAISE_ENCODER_EXCEPTION(context_str, intern)] *)
Definition DECODE_OBJECT_KEY_OR_RAISE_ENCODER_EXCEPTION
  (marker : byte) (context_str : string) (intern : bool) : M (list byte) :=
  fun w =>
    match _decode_object_key marker intern w with
    | (Null, w') =>
        RAISE_DECODER_EXCEPTION
          ("Failed to decode object key (" ++ context_str ++ ")") w'
    | r => r
    end.

End Scalars.

(** ** Container headers *)

Record _container_params_t : Type := mkParams {
  (* next marker after container parameters *)
  marker : byte;
  (* indicates whether countainer has count specified *)
  counting : bool;
  (* number of elements in container (if counting or 1 if not) *)
  count : Z;
  (* type of container values, if typed, otherwise TYPE_NONE *)
  type : byte;
  (* the parameter specification is invalid (an exception will have been set) *)
  invalid : bool
}.

(** the projection under a name no local variable hides *)
Definition marker_of (p : _container_params_t) : byte := marker p.

(** [_container_params_t params = {0};] *)
Definition params_zero : _container_params_t := mkParams x00 false 0 x00 false.

Definition set_marker (m : byte) (p : _container_params_t) :=
  mkParams m (counting p) (count p) (type p) (invalid p).
Definition set_counting (c : bool) (p : _container_params_t) :=
  mkParams (marker p) c (count p) (type p) (invalid p).
Definition set_count (n : Z) (p : _container_params_t) :=
  mkParams (marker p) (counting p) n (type p) (invalid p).
Definition set_type (t : byte) (p : _container_params_t) :=
  mkParams (marker p) (counting p) (count p) t (invalid p).
Definition set_invalid (i : bool) (p : _container_params_t) :=
  mkParams (marker p) (counting p) (count p) (type p) i.

(** The byte values accepted after ['$']. *)
Definition is_container_type (m : byte) : bool :=
  existsb (byte_eqb m)
    [TYPE_NULL; TYPE_BOOL_TRUE; TYPE_BOOL_FALSE; TYPE_CHAR; TYPE_STRING;
     TYPE_INT8; TYPE_UINT8; TYPE_INT16; TYPE_INT32; TYPE_INT64;
     TYPE_FLOAT32; TYPE_FLOAT64;
     TYPE_UINT16; TYPE_UINT32; TYPE_UINT64; TYPE_FLOAT16;
     TYPE_HIGH_PREC; ARRAY_START; OBJECT_START].

Definition _is_no_data_type (t : byte) : bool :=
  byte_eqb TYPE_NULL t || byte_eqb TYPE_BOOL_TRUE t || byte_eqb TYPE_BOOL_FALSE t.

Definition _is_fixed_len_type (t : byte) : bool :=
  byte_eqb TYPE_INT8 t || byte_eqb TYPE_UINT8 t || byte_eqb TYPE_INT16 t
  || byte_eqb TYPE_UINT16 t || byte_eqb TYPE_INT32 t || byte_eqb TYPE_UINT32 t
  || byte_eqb TYPE_INT64 t || byte_eqb TYPE_UINT64 t || byte_eqb TYPE_CHAR t
  || byte_eqb TYPE_FLOAT16 t || byte_eqb TYPE_FLOAT32 t || byte_eqb TYPE_FLOAT64 t.

(** Note: Does NOT reserve a new reference *)
Definition _get_type_info (t : byte) : npy_type * Z :=
  if byte_eqb t TYPE_FLOAT16 then (PyArray_HALF, 2)
  else if byte_eqb t TYPE_FLOAT32 then (PyArray_FLOAT, 4)
  else if byte_eqb t TYPE_FLOAT64 then (PyArray_DOUBLE, 8)
  else if byte_eqb t TYPE_INT8 then (PyArray_BYTE, 1)
  else if byte_eqb t TYPE_UINT8 then (PyArray_UBYTE, 1)
  else if byte_eqb t TYPE_INT16 then (PyArray_SHORT, 2)
  else if byte_eqb t TYPE_UINT16 then (PyArray_USHORT, 2)
  else if byte_eqb t TYPE_INT32 then (PyArray_INT, 4)
  else if byte_eqb t TYPE_UINT32 then (PyArray_UINT, 4)
  else if byte_eqb t TYPE_INT64 then (PyArray_LONGLONG, 8)
  else if byte_eqb t TYPE_UINT64 then (PyArray_ULONGLONG, 8)
  else if byte_eqb t TYPE_CHAR then (PyArray_STRING, 1)
  else (PyArray_USERDEF, 0).

(** How [_get_container_params] is left: normally, through [bail] (with the
    record as it stands), or because the model ran out of fuel. *)
Inductive gresult (A : Type) : Type :=
| GRet (a : A)
| GBail (p : _container_params_t)
| GFuel.
Arguments GFuel {A}.
Arguments GBail {A} p.

Section Containers.
Context `{Host : PyHost}.

(** *** Leaving [_get_container_params] through [bail]

    [goto bail] returns the record as it stands at that point, flagged
    invalid.  [G] is [M] with that early exit. *)

Definition G (A : Type) : Type := world -> gresult A * world.

Definition gret {A} (a : A) : G A := fun w => (GRet a, w).

Definition gbind {A B} (m : G A) (k : A -> G B) : G B :=
  fun w => match m w with
           | (GRet a, w') => k a w'
           | (GBail p, w') => (GBail p, w')
           | (GFuel, w') => (GFuel, w')
           end.

(** Leaving through [bail] flags the record invalid. *)
Definition bails_invalid {A} (m : G A) : Prop :=
  forall w q w', m w = (GBail q, w') -> invalid q = true.

(** run [m]; if it fails, bail out with [params] *)
Definition or_bail {A} (params : _container_params_t) (m : M A) : G A :=
  fun w => match m w with
           | (Ret a, w') => (GRet a, w')
           | (Null, w') => (GBail (set_invalid true params), w')
           | (OutOfFuel, w') => (GFuel, w')
           end.

Notation "x <-[ p ] m ;; k" := (gbind (or_bail p m) (fun x => k))
  (at level 61, m at next level, right associativity).
Notation "x <~ m ;; k" := (gbind m (fun x => k))
  (at level 61, m at next level, right associativity).
Notation "' p <~ m ;; k" := (gbind m (fun x => match x with p => k end))
  (at level 61, p pattern, m at next level, right associativity).

(** The length loop of a counted dimension vector:
    [for(i=0;i<dims.count;i++)], [n] iterations left.  The lengths are
    collected in a list; the C block they are stored in has room for
    [(unsigned int) dims.count] of them and is not checked, so the list
    stands for the block only when [*nd_ndim] is the number of lengths
    read. *)
Fixpoint nd_dims_counted (params : _container_params_t) (dims_type : byte)
  (n : nat) (nd_dims : list Z) : G (_container_params_t * list Z) :=
  match n with
  | O => gret (params, nd_dims)
  | S n' =>
      length <-[ params ] DECODE_LENGTH_OR_BAIL_MARKER dims_type ;;
      let params := set_count (to_signed 64 (count params * length)) params in
      nd_dims_counted params dims_type n' (nd_dims ++ [length])
  end.

(** The length loop of a terminated dimension vector:
    [while (ARRAY_END != marker)]. *)
Fixpoint nd_dims_uncounted (fuel : nat) (params : _container_params_t)
  (marker : byte) (nd_dims : list Z) : G (_container_params_t * byte * list Z) :=
  if byte_eqb ARRAY_END marker then gret (params, marker, nd_dims)
  else
    match fuel with
    | O => fun w => (GFuel, w)
    | S fuel' =>
        length <-[ params ] DECODE_LENGTH_OR_BAIL_MARKER marker ;;
        let params := set_count (to_signed 64 (count params * length)) params in
        let nd_dims := nd_dims ++ [length] in
        marker <-[ params ] READ_CHAR_OR_BAIL "Length marker" ;;
        nd_dims_uncounted fuel' params marker nd_dims
    end.

(** The ['$'] part of the header: the record with [type] set, and the
    marker read after it. *)
Definition header_type : G (_container_params_t * byte) :=
  let params := params_zero in
  (* fixed type for all values *)
  marker <-[ params ] READ_CHAR_OR_BAIL "container type, count or 1st key/value type" ;;
  if byte_eqb CONTAINER_TYPE marker then
    marker <-[ params ] READ_CHAR_OR_BAIL "container type" ;;
    if is_container_type marker then
      let params := set_type marker params in
      marker <-[ params ] READ_CHAR_OR_BAIL "container count or 1st key/value type" ;;
      gret (params, marker)
    else
      _ <-[ params ] RAISE_DECODER_EXCEPTION (A:=unit) "Invalid container type" ;;
      gret (params, marker)
  else
    (* container type not fixed *)
    gret (set_type TYPE_NONE params, marker).

(** The ['#'] part up to the point where [params.count] is known: the
    record, the marker variable, and the N-D out-parameters. *)
Definition header_count (self : M _container_params_t) (fuel : nat)
  (nd : bool) (params : _container_params_t)
  : G (_container_params_t * byte * (Z * list Z)) :=
  let params := set_counting true params in
  marker <-[ params ]
    READ_CHAR_OR_BAIL
      "container count marker or optimized ND-array dimension array marker" ;;
  (* obtain the total number of elements of an optimized ND array header *)
  if byte_eqb ARRAY_START marker && nd then
    dims <-[ params ] self ;;
    let params := set_count 1 params in
    if counting dims then
      let nd_ndim := count dims mod 2 ^ 32 in
      '(params, nd_dims) <~
        nd_dims_counted params (type dims) (Z.to_nat (count dims)) [] ;;
      gret (params, marker, (nd_ndim, nd_dims))
    else
      let marker := marker_of dims in
      '(params, marker, nd_dims) <~
        nd_dims_uncounted fuel params marker [] ;;
      gret (params, marker, (Zlength' nd_dims mod 2 ^ 32, nd_dims))
  else
    fun w =>
      match DECODE_LENGTH_OR_BAIL_MARKER marker w with
      | (Ret n, w') => (GRet (set_count n params, marker, (0, [])), w')
      | (Null, w') => (GBail (set_invalid true (set_count (-1) params)), w')
      | (OutOfFuel, w') => (GFuel, w')
      end.

(** The look-ahead once the count is known. *)
Definition header_prefetch (in_mapping : bool) (params : _container_params_t)
  (marker : byte) : G byte :=
  (* reading ahead just to capture type, which will not exist if type is fixed *)
  if (count params >? 0) && (in_mapping || byte_eqb TYPE_NONE (type params)) then
    marker <-[ params ] READ_CHAR_OR_BAIL "1st key/value type" ;;
    gret marker
  else gret (type params).

Definition get_container_params_body (self : M _container_params_t)
  (fuel : nat) (in_mapping nd : bool) : G (_container_params_t * (Z * list Z)) :=
  '(params, marker) <~ header_type ;;
  (* container value count *)
  if byte_eqb CONTAINER_COUNT marker then
    '(params, marker, nds) <~ header_count self fuel nd params ;;
    marker <~ header_prefetch in_mapping params marker ;;
    gret (set_invalid false (set_marker marker params), nds)
  else if byte_eqb TYPE_NONE (type params) then
    (* count not provided but indicate that *)
    let params := set_counting false (set_count 1 params) in
    gret (set_invalid false (set_marker marker params), (0, []))
  else
    _ <-[ params ] RAISE_DECODER_EXCEPTION (A:=unit) "Container type without count" ;;
    gret (params, (0, [])).

Definition run_G {A} (m : G (_container_params_t * A)) (dflt : A)
  : M (_container_params_t * A) :=
  fun w => match m w with
           | (GRet r, w') => (Ret r, w')
           | (GBail p, w') => (Ret (p, dflt), w')
           | (GFuel, w') => (OutOfFuel, w')
           end.

(** [_get_container_params(buffer, 0, NULL, NULL)]: without the N-D
    out-parameters the function never calls itself. *)
Definition _get_container_params_flat (in_mapping : bool) : M _container_params_t :=
  r <- run_G (get_container_params_body bail O in_mapping false) (0, []) ;;
  ret (fst r).

(** [_get_container_params(buffer, in_mapping, nd_ndim, nd_dims)]; [nd] tells
    whether the out-parameters are given.  The one recursive call is made
    with [in_mapping = 0] and without out-parameters.  The result is the
    record (flagged invalid after [bail]) with [*nd_ndim] and the lengths
    stored in [*nd_dims]. *)
Definition _get_container_params (fuel : nat) (in_mapping nd : bool)
  : M (_container_params_t * (Z * list Z)) :=
  run_G (get_container_params_body (_get_container_params_flat false)
           fuel in_mapping nd) (0, []).

End Containers.

(** ** Dictionaries

    A Python dict keeps its keys in insertion order; setting a key that is
    present replaces the value in place. *)

Fixpoint bytes_eqb (a b : list byte) : bool :=
  match a, b with
  | [], [] => true
  | x :: a', y :: b' => byte_eqb x y && bytes_eqb a' b'
  | _, _ => false
  end.

Fixpoint PyDict_SetItem (d : list (list byte * PyObject)) (key : list byte)
  (value : PyObject) : list (list byte * PyObject) :=
  match d with
  | [] => [(key, value)]
  | (k, v) :: rest =>
      if bytes_eqb key k then (k, value) :: rest
      else (k, v) :: PyDict_SetItem rest key value
  end.

Fixpoint PyDict_GetItem (d : list (list byte * PyObject)) (key : list byte)
  : option PyObject :=
  match d with
  | [] => None
  | (k, v) :: rest => if bytes_eqb key k then Some v else PyDict_GetItem rest key
  end.

(** A sequence of decoded (key, value) pairs: as the items of a pair list,
    as the dict built by setting them in order, and the value of the last
    pair with a given key. *)
Definition items_of (kvs : list (list byte * PyObject)) : list PyObject :=
  map (fun kv => PyTuple [PyUnicode (fst kv); snd kv]) kvs.

Definition dict_of (kvs : list (list byte * PyObject))
  : list (list byte * PyObject) :=
  fold_left (fun d kv => PyDict_SetItem d (fst kv) (snd kv)) kvs [].

Definition last_value (key : list byte) (kvs : list (list byte * PyObject))
  : option PyObject :=
  option_map snd (find (fun kv => bytes_eqb key (fst kv)) (rev kvs)).

Section Values.
Context `{Host : PyHost}.

(** Note: Does NOT reserve a new reference *)
Definition _no_data_type (t : byte) : M PyObject :=
  if byte_eqb t TYPE_NULL then ret Py_None
  else if byte_eqb t TYPE_BOOL_TRUE then ret Py_True
  else if byte_eqb t TYPE_BOOL_FALSE then ret Py_False
  else raise (RuntimeError "Internal error - _no_data_type").

(** [PyObject_CallFunctionObjArgs(hook, arg, NULL)] *)
Definition call_hook (h : hook) (arg : PyObject) : M PyObject :=
  match h with
  | HookCallable f =>
      match f arg with
      | inr obj => ret obj
      | inl e => raise e
      end
  | _ => raise TypeError
  end.

(** [PyList_New(size)] and [PyBytes_FromStringAndSize(NULL, size)]: a new
    object of that size; a negative size is an error.  A size that the
    allocator does not serve (MemoryError) is not modelled: what is proved
    of a counted container is about the value that comes back. *)
Definition PyList_New (size : Z) : M unit :=
  if size <? 0 then raise SystemError else ret tt.

Definition PyBytes_FromStringAndSize (size : Z) : M unit :=
  if size <? 0 then raise SystemError else ret tt.

(** [PyArray_SimpleNew] then [READ_INTO_OR_BAIL] into the array's storage.
    [dims] stands for the [ndims] entries the C code copies from the
    dimension block, which it does when [ndims] is the length of [dims]. *)
Definition read_packed_array (ndims : Z) (dims : list Z) (t : byte) (count : Z)
  (item_str : string) : M PyObject :=
  let '(pytype, bytelen) := _get_type_info t in
  (match pytype with
   | PyArray_USERDEF =>
       (* [_get_type_info] sets an error and the caller goes on *)
       fun w => ret tt (set_exc (Some (RuntimeError "Internal error - _get_type_info")) w)
   | _ => ret tt
   end) ;;;
  (if PyArray_SimpleNew_ok ndims dims pytype then ret tt
   else raise HostFactoryError) ;;;
  data <- READ_INTO_OR_BAIL (to_signed 64 (bytelen * count)) item_str ;;
  ret (PyArray dims pytype data).

Section Loops.
(** the recursive calls [_bjdata_decode_value(buffer, given_marker)] *)
Variable decode_value : option byte -> M PyObject.

(** [while (params.count > 0)] of the counted array *)
Fixpoint array_loop_counted (fuel : nat) (type : byte) (count : Z)
  (marker : byte) (lst : list PyObject) : M (list PyObject) :=
  if count >? 0 then
    match fuel with
    | O => out_of_fuel
    | S fuel' =>
        if byte_eqb TYPE_NOOP marker then
          marker <- READ_CHAR_OR_BAIL "array value type marker (sized, after no-op)" ;;
          array_loop_counted fuel' type count marker lst
        else
          value <- decode_value (Some marker) ;;
          let lst := lst ++ [value] in
          let count := count - 1 in
          if (count >? 0) && byte_eqb TYPE_NONE type then
            marker <- READ_CHAR_OR_BAIL "array value type marker (sized)" ;;
            array_loop_counted fuel' type count marker lst
          else array_loop_counted fuel' type count marker lst
    end
  else ret lst.

(** [while (ARRAY_END != marker)] of the terminated array *)
Fixpoint array_loop_uncounted (fuel : nat) (type : byte) (marker : byte)
  (lst : list PyObject) : M (list PyObject) :=
  if byte_eqb ARRAY_END marker then ret lst
  else
    match fuel with
    | O => out_of_fuel
    | S fuel' =>
        if byte_eqb TYPE_NOOP marker then
          marker <- READ_CHAR_OR_BAIL "array value type marker (after no-op)" ;;
          array_loop_uncounted fuel' type marker lst
        else
          value <- decode_value (Some marker) ;;
          let lst := lst ++ [value] in
          if byte_eqb TYPE_NONE type then
            marker <- READ_CHAR_OR_BAIL "array value type marker" ;;
            array_loop_uncounted fuel' type marker lst
          else array_loop_uncounted fuel' type marker lst
    end.

Definition _decode_array (fuel : nat) : M PyObject :=
  '(params, (ndims, dims)) <- _get_container_params fuel false true ;;
  if invalid params then bail
  else
    let marker := marker params in
    prefs <- get_prefs ;;
    if counting params then
      (* special case - byte array *)
      if byte_eqb TYPE_UINT8 (type params) && negb (no_bytes prefs) && (ndims =? 0) then
        PyBytes_FromStringAndSize (count params) ;;;
        data <- READ_INTO_OR_BAIL (count params) "bytes array" ;;
        ret (PyBytes data)
      (* special case - nd-array *)
      else if negb (ndims =? 0) && negb (byte_eqb (type params) x00) then
        read_packed_array ndims dims (type params) (count params) "ND array"
      (* special case - no data types *)
      else if _is_no_data_type (type params) then
        PyList_New (count params) ;;;
        value <- _no_data_type (type params) ;;
        ret (PyList (repeat value (Z.to_nat (count params))))
      else if _is_fixed_len_type (type params) && (count params >? 0) then
        (* 1d packed array *)
        read_packed_array 1 [count params] (type params) (count params)
          "1D packed array"
      (* take advantage of faster creation/setting of list since count known *)
      else
        PyList_New (count params) ;;;
        lst <- array_loop_counted fuel (type params) (count params) marker [] ;;
        ret (PyList lst)
    else
      lst <- array_loop_uncounted fuel (type params) marker [] ;;
      ret (PyList lst).

(** [PyTuple_Pack(2, key, value)] *)
Definition pack_item (key : list byte) (value : PyObject) : PyObject :=
  PyTuple [PyUnicode key; value].

(** special case: no data values (keys only), pair list; [n] keys left *)
Fixpoint pairs_loop_no_data (n : nat) (intern : bool) (value : PyObject)
  (marker : byte) (lst : list PyObject) : M (list PyObject) :=
  match n with
  | O => ret lst
  | S n' =>
      key <- DECODE_OBJECT_KEY_OR_RAISE_ENCODER_EXCEPTION marker "sized, no data" intern ;;
      let lst := lst ++ [pack_item key value] in
      match n' with
      | O => pairs_loop_no_data n' intern value marker lst
      | S _ =>
          marker <- READ_CHAR_OR_BAIL "object key length" ;;
          pairs_loop_no_data n' intern value marker lst
      end
  end.

Fixpoint pairs_loop_counted (fuel : nat) (intern : bool) (fixed_type : option byte)
  (count : Z) (marker : byte) (lst : list PyObject) : M (list PyObject) :=
  if count >? 0 then
    match fuel with
    | O => out_of_fuel
    | S fuel' =>
        if byte_eqb TYPE_NOOP marker then
          marker <- READ_CHAR_OR_BAIL "object key length (sized, after no-op)" ;;
          pairs_loop_counted fuel' intern fixed_type count marker lst
        else
          key <- DECODE_OBJECT_KEY_OR_RAISE_ENCODER_EXCEPTION marker "sized" intern ;;
          value <- decode_value fixed_type ;;
          let lst := lst ++ [pack_item key value] in
          let count := count - 1 in
          if count >? 0 then
            marker <- READ_CHAR_OR_BAIL "object key length (sized)" ;;
            pairs_loop_counted fuel' intern fixed_type count marker lst
          else pairs_loop_counted fuel' intern fixed_type count marker lst
    end
  else ret lst.

Fixpoint pairs_loop_uncounted (fuel : nat) (intern : bool)
  (fixed_type : option byte) (marker : byte) (lst : list PyObject)
  : M (list PyObject) :=
  if byte_eqb OBJECT_END marker then ret lst
  else
    match fuel with
    | O => out_of_fuel
    | S fuel' =>
        if byte_eqb TYPE_NOOP marker then
          marker <- READ_CHAR_OR_BAIL "object key length (after no-op)" ;;
          pairs_loop_uncounted fuel' intern fixed_type marker lst
        else
          key <- DECODE_OBJECT_KEY_OR_RAISE_ENCODER_EXCEPTION marker "unsized" intern ;;
          value <- decode_value fixed_type ;;
          let lst := lst ++ [pack_item key value] in
          marker <- READ_CHAR_OR_BAIL "object key length" ;;
          pairs_loop_uncounted fuel' intern fixed_type marker lst
    end.

(** [fixed_type = (TYPE_NONE == params.type) ? NULL : &params.type] *)
Definition fixed_type_of (params : _container_params_t) : option byte :=
  if byte_eqb TYPE_NONE (type params) then None else Some (type params).

(** The three loops of [_decode_object_with_pairs_hook], chosen by the
    header: the list of pairs they build. *)
Definition collect_pairs (fuel : nat) (intern : bool)
  (params : _container_params_t) : M (list PyObject) :=
  let marker := marker params in
  (* take advantage of faster creation/setting of list since count known *)
  if counting params then
    PyList_New (count params) ;;;
    (* special case: no data values (keys only) *)
    if _is_no_data_type (type params) then
      value <- _no_data_type (type params) ;;
      pairs_loop_no_data (Z.to_nat (count params)) intern value marker []
    else
      pairs_loop_counted fuel intern (fixed_type_of params) (count params)
        marker []
  else
    pairs_loop_uncounted fuel intern (fixed_type_of params) marker [].

Definition _decode_object_with_pairs_hook (fuel : nat) : M PyObject :=
  '(params, _) <- _get_container_params fuel true false ;;
  prefs <- get_prefs ;;
  let intern := intern_object_keys prefs in
  if invalid params then bail
  else
    lst <- collect_pairs fuel intern params ;;
    call_hook (object_pairs_hook prefs) (PyList lst).

(** special case: no data values (keys only), dict; [n] keys left *)
Fixpoint object_loop_no_data (n : nat) (intern : bool) (value : PyObject)
  (marker : byte) (obj : list (list byte * PyObject))
  : M (list (list byte * PyObject)) :=
  match n with
  | O => ret obj
  | S n' =>
      key <- DECODE_OBJECT_KEY_OR_RAISE_ENCODER_EXCEPTION marker "sized, no data" intern ;;
      let obj := PyDict_SetItem obj key value in
      match n' with
      | O => object_loop_no_data n' intern value marker obj
      | S _ =>
          marker <- READ_CHAR_OR_BAIL "object key length" ;;
          object_loop_no_data n' intern value marker obj
      end
  end.

(** [while (params.count > 0 && (params.counting || (OBJECT_END != marker)))] *)
Fixpoint object_loop (fuel : nat) (intern : bool) (fixed_type : option byte)
  (counting : bool) (count : Z) (marker : byte)
  (obj : list (list byte * PyObject)) : M (list (list byte * PyObject)) :=
  if (count >? 0) && (counting || negb (byte_eqb OBJECT_END marker)) then
    match fuel with
    | O => out_of_fuel
    | S fuel' =>
        if byte_eqb TYPE_NOOP marker then
          marker <- READ_CHAR_OR_BAIL "object key length" ;;
          object_loop fuel' intern fixed_type counting count marker obj
        else
          key <- DECODE_OBJECT_KEY_OR_RAISE_ENCODER_EXCEPTION marker "sized/unsized" intern ;;
          value <- decode_value fixed_type ;;
          let obj := PyDict_SetItem obj key value in
          let count := if counting then count - 1 else count in
          if count >? 0 then
            marker <- READ_CHAR_OR_BAIL "object key length" ;;
            object_loop fuel' intern fixed_type counting count marker obj
          else object_loop fuel' intern fixed_type counting count marker obj
    end
  else ret obj.

(** The two loops of [_decode_object], chosen by the header: the dict they
    fill. *)
Definition collect_dict (fuel : nat) (intern : bool)
  (params : _container_params_t) : M (list (list byte * PyObject)) :=
  let marker := marker params in
  (* special case: no data values (keys only) *)
  if counting params && _is_no_data_type (type params) then
    value <- _no_data_type (type params) ;;
    object_loop_no_data (Z.to_nat (count params)) intern value marker []
  else
    object_loop fuel intern (fixed_type_of params) (counting params)
      (count params) marker [].

(** [NULL != buffer->prefs.object_hook]: the dict, or what the hook makes
    of it *)
Definition finish_object (prefs : _bjdata_decoder_prefs_t)
  (obj : list (list byte * PyObject)) : M PyObject :=
  match object_hook prefs with
  | HookNull => ret (PyDict obj)
  | h => call_hook h (PyDict obj)
  end.

Definition _decode_object (fuel : nat) : M PyObject :=
  '(params, _) <- _get_container_params fuel true false ;;
  prefs <- get_prefs ;;
  let intern := intern_object_keys prefs in
  if invalid params then bail
  else
    obj <- collect_dict fuel intern params ;;
    finish_object prefs obj.

End Loops.

(** only used by _bjdata_decode_value *)
Definition RETURN_OR_RAISE_DECODER_EXCEPTION (item : M PyObject)
  (item_str : string) : M PyObject :=
  fun w =>
    match item w with
    | (Null, w') =>
        match exc w' with
        | Some (DecoderException _ _) => bail w'
        | _ => RAISE_DECODER_EXCEPTION ("Failed to decode " ++ item_str) w'
        end
    | r => r
    end.

(** [RECURSE_AND_RETURN_OR_BAIL(action, recurse_msg)]: [depth] is the
    interpreter's recursion depth at the call. *)
Definition RECURSE_AND_RETURN_OR_BAIL (depth : Z) (action : Z -> M PyObject)
  : M PyObject :=
  if depth + 1 >? recursion_limit then raise RecursionError
  else action (depth + 1).

Fixpoint _bjdata_decode_value (fuel : nat) (depth : Z)
  (given_marker : option byte) : M PyObject :=
  marker <- match given_marker with
            | None => READ_CHAR_OR_BAIL "Type marker"
            | Some m => ret m
            end ;;
  if byte_eqb marker TYPE_NULL then ret Py_None
  else if byte_eqb marker TYPE_BOOL_TRUE then ret Py_True
  else if byte_eqb marker TYPE_BOOL_FALSE then ret Py_False
  else if byte_eqb marker TYPE_CHAR then
    RETURN_OR_RAISE_DECODER_EXCEPTION _decode_char "char"
  else if byte_eqb marker TYPE_STRING then
    RETURN_OR_RAISE_DECODER_EXCEPTION _decode_string "string"
  else if byte_eqb marker TYPE_INT8 then
    RETURN_OR_RAISE_DECODER_EXCEPTION _decode_int8 "int8"
  else if byte_eqb marker TYPE_INT16 then
    RETURN_OR_RAISE_DECODER_EXCEPTION (_decode_int16_32 2) "int16"
  else if byte_eqb marker TYPE_INT32 then
    RETURN_OR_RAISE_DECODER_EXCEPTION (_decode_int16_32 4) "int32"
  else if byte_eqb marker TYPE_INT64 then
    RETURN_OR_RAISE_DECODER_EXCEPTION _decode_int64 "int64"
  else if byte_eqb marker TYPE_UINT8 then
    RETURN_OR_RAISE_DECODER_EXCEPTION _decode_uint8 "uint8"
  else if byte_eqb marker TYPE_FLOAT16 || byte_eqb marker TYPE_UINT16 then
    RETURN_OR_RAISE_DECODER_EXCEPTION (_decode_uint16_32 2) "uint16"
  else if byte_eqb marker TYPE_UINT32 then
    RETURN_OR_RAISE_DECODER_EXCEPTION (_decode_uint16_32 4) "uint32"
  else if byte_eqb marker TYPE_UINT64 then
    RETURN_OR_RAISE_DECODER_EXCEPTION _decode_uint64 "uint64"
  else if byte_eqb marker TYPE_FLOAT32 then
    RETURN_OR_RAISE_DECODER_EXCEPTION _decode_float32 "float32"
  else if byte_eqb marker TYPE_FLOAT64 then
    RETURN_OR_RAISE_DECODER_EXCEPTION _decode_float64 "float64"
  else if byte_eqb marker TYPE_HIGH_PREC then
    RETURN_OR_RAISE_DECODER_EXCEPTION _decode_high_prec "highprec"
  else if byte_eqb marker ARRAY_START then
    match fuel with
    | O => out_of_fuel
    | S fuel' =>
        RECURSE_AND_RETURN_OR_BAIL depth
          (fun depth' => _decode_array (_bjdata_decode_value fuel' depth') fuel')
    end
  else if byte_eqb marker OBJECT_START then
    match fuel with
    | O => out_of_fuel
    | S fuel' =>
        prefs <- get_prefs ;;
        match object_pairs_hook prefs with
        | HookNull =>
            RECURSE_AND_RETURN_OR_BAIL depth
              (fun depth' => _decode_object (_bjdata_decode_value fuel' depth') fuel')
        | _ =>
            RECURSE_AND_RETURN_OR_BAIL depth
              (fun depth' =>
                 _decode_object_with_pairs_hook
                   (_bjdata_decode_value fuel' depth') fuel')
        end
    end
  else RAISE_DECODER_EXCEPTION "Invalid marker".

End Values.

(** ** Predicates used in the properties *)

(** [params.count *= length] over the dimensions, in [long long]. *)
Definition wrapped_product (dims : list Z) : Z :=
  fold_left (fun c l => to_signed 64 (c * l)) dims 1.

(** numpy makes no array whose size in bytes, computed as the decoder
    computes it, is negative. *)
Definition numpy_sizes_sane `{PyHost} : Prop :=
  forall (nd : Z) (dims : list Z) (t : byte),
    PyArray_SimpleNew_ok nd dims (fst (_get_type_info t)) = true ->
    0 <= to_signed 64 (snd (_get_type_info t) * wrapped_product dims).

(** What holds of every buffer made by [_bjdata_decoder_buffer_create] and
    used through the read functions only, besides [buffer_wf]: the counters
    are not negative and [pos] stays within the view. *)
Definition buffer_ok `{PyHost} (b : _bjdata_decoder_buffer_t) : Prop :=
  buffer_wf b /\ 0 <= total_read b /\ 0 <= pos b <= view_len b.

(** The number a byte string denotes, most significant byte first. *)
Definition be_value (raw : list byte) : Z :=
  fold_left (fun acc b => 256 * acc + byte_to_Z b) raw 0.

(** The markers [_decode_int_non_negative] accepts. *)
Definition is_integer_marker (m : byte) : bool :=
  existsb (byte_eqb m)
    [TYPE_UINT8; TYPE_INT8; TYPE_UINT16; TYPE_INT16; TYPE_UINT32; TYPE_INT32;
     TYPE_UINT64; TYPE_INT64].

(** The markers of the values that are no containers and carry data. *)
Definition is_scalar_marker (m : byte) : bool :=
  existsb (byte_eqb m)
    [TYPE_CHAR; TYPE_STRING; TYPE_INT8; TYPE_INT16; TYPE_INT32; TYPE_INT64;
     TYPE_UINT8; TYPE_FLOAT16; TYPE_UINT16; TYPE_UINT32; TYPE_UINT64;
     TYPE_FLOAT32; TYPE_FLOAT64; TYPE_HIGH_PREC].

(** What [_decode_int_non_negative] can return. *)
Definition is_length (d : Z) : Prop := 0 <= d <= LLONG_MAX.

(** The header up to the dimension vector of an N-D array: the ['$'] part
    ended on ['#'], ['['] followed, and the vector's own header came back
    as [ds].  [t] is the element type of the outer header. *)
Definition vector_header_read `{PyHost} (w w3 : world) (t : byte)
  (ds : _container_params_t) : Prop :=
  exists (p0 : _container_params_t) (w1 w2 : world) (s : string),
    header_type w = (GRet (p0, CONTAINER_COUNT), w1)
    /\ type p0 = t
    /\ READ_CHAR_OR_BAIL s w1 = (Ret ARRAY_START, w2)
    /\ _get_container_params_flat false w2 = (Ret ds, w3).

(** No dimension vector anywhere in [data]: the count marker ['#'] is
    nowhere followed by ['['].  These two bytes, read one after the other,
    are the only way into the N-D branch of [_get_container_params], and
    with it to the dimension block and to the N-D branch of
    [_decode_array]. *)
Fixpoint no_dimension_vector (data : list byte) : bool :=
  match data with
  | [] => true
  | a :: rest =>
      negb (byte_eqb a CONTAINER_COUNT
            && match rest with
               | b :: _ => byte_eqb b ARRAY_START
               | [] => false
               end)
      && no_dimension_vector rest
  end.

(** A decoder over the fixed buffer [data] of which [consumed] bytes have
    been read, with [e] in the error indicator. *)
Definition fixed_world `{PyHost} (p : _bjdata_decoder_prefs_t)
  (data : list byte) (consumed : Z) (e : option pyerr) : world :=
  mkWorld (mkBuffer (InBuffer data) false read_fixed data true 0 consumed None p)
          e.

(** ** Invariants of a whole decode *)

(** What is to hold of the world a computation ends in, by the way it
    ends: with a value, with the C error return, or with the model out of
    fuel.  [on_ret] is also what the computation may assume at its start. *)
Record outcome_spec `{PyHost} : Type := mkSpec {
  on_ret : world -> Prop;
  on_null : world -> Prop;
  on_fuel : world -> Prop
}.

Definition sat `{PyHost} (S : outcome_spec) {A} (m : M A) : Prop :=
  forall w, on_ret S w ->
    match fst (m w) with
    | Ret _ => on_ret S (snd (m w))
    | Null => on_null S (snd (m w))
    | OutOfFuel => on_fuel S (snd (m w))
    end.

Definition gsat `{PyHost} (S : outcome_spec) {A} (m : G A) : Prop :=
  forall w, on_ret S w ->
    match fst (m w) with
    | GRet _ => on_ret S (snd (m w))
    | GBail _ => on_null S (snd (m w))
    | GFuel => on_fuel S (snd (m w))
    end.

(** The same for a function that reports failure in the record it returns,
    as [_get_container_params] does. *)
Definition hsat `{PyHost} (S : outcome_spec) {A}
  (params_of : A -> _container_params_t) (m : M A) : Prop :=
  forall w, on_ret S w ->
    match fst (m w) with
    | Ret a => if invalid (params_of a) then on_null S (snd (m w))
               else on_ret S (snd (m w))
    | Null => on_null S (snd (m w))
    | OutOfFuel => on_fuel S (snd (m w))
    end.

(** [total_read] is at least [t0] and the buffer is in a state the read
    functions keep, however the computation ends. *)
Definition from_total_read `{PyHost} (t0 : Z) : outcome_spec :=
  let inv w := buffer_ok (buf w) /\ t0 <= total_read (buf w) in
  mkSpec inv inv inv.

(** A failure leaves an exception in the error indicator. *)
Definition exception_on_failure `{PyHost} : outcome_spec :=
  mkSpec (fun _ => True) (fun w => exc w <> None) (fun _ => True).

(** An exception is pending, however the computation ends. *)
Definition exception_pending `{PyHost} : outcome_spec :=
  let inv w := exc w <> None in
  mkSpec inv inv inv.

(** The buffer is the fixed buffer over [data], untouched but for
    [total_read], which lies between [c0] and the end of [data]. *)
Definition within_fixed `{PyHost} (p : _bjdata_decoder_prefs_t)
  (data : list byte) (c0 : Z) : outcome_spec :=
  let inv w := exists c, w = fixed_world p data c (exc w)
                         /\ c0 <= c <= Zlength' data in
  mkSpec inv inv inv.

(** ** Creating and freeing the decoder buffer *)

Inductive event : Type :=
| EvSeek (offset whence : Z)      (* the seek callable is called *)
| EvReleaseView                   (* PyBuffer_Release(&buffer->view) *)
| EvFreeTmp                       (* free(buffer->tmp_dst) *)
| EvClearInput                    (* Py_CLEAR(buffer->input) *)
| EvClearSeek                     (* Py_CLEAR(buffer->seek) *)
| EvFreeBuffer.                   (* free(buffer) *)

Section Lifecycle.
Context `{Host : PyHost}.

(** What [_bjdata_decoder_buffer_free] leaves behind: its return value, the
    error indicator, the input object, and what it did, in order. *)
Record free_out : Type := mkFreeOut {
  failed : bool;
  exc_after : option pyerr;
  input_after : option PyInput;
  trace : list event
}.

(** [PyObject_CallFunction(seek, "nn", offset, whence)] on the stream
    behind the input object *)
Definition call_seek (offset whence : Z) (i : PyInput) : option pyerr * PyInput :=
  match i with
  | InCallable s =>
      let '(r, s') := seek_call s offset whence in (r, InCallable s')
  | _ => (Some TypeError, i)
  end.

(** Returns non-zero if buffer cleanup/finalisation failed and no other
    exception was set already *)
Definition _bjdata_decoder_buffer_free (buffer : option _bjdata_decoder_buffer_t)
  (exc : option pyerr) : free_out :=
  match buffer with
  | None => mkFreeOut false exc None []
  | Some b =>
      let '(failed, exc, inp, tr) :=
        if view_set b then
          (* In buffered mode, rewind to position in stream up to which
             actually read (rather than buffered) *)
          if seek b && (view_len b >? pos b) then
            (* preserve the previous exception, if set *)
            let prior := exc in
            let '(seek_error, inp) :=
              call_seek (pos b - view_len b) IO_SEEK_CUR (input b) in
            let tr := [EvSeek (pos b - view_len b) IO_SEEK_CUR; EvReleaseView] in
            match prior with
            | Some e => (false, Some e, inp, tr)
            | None =>
                match seek_error with
                | Some e => (true, Some e, inp, tr)
                | None => (false, None, inp, tr)
                end
            end
          else (false, exc, input b, [EvReleaseView])
        else (false, exc, input b, []) in
      let tr := match tmp_dst b with
                | Some _ => tr ++ [EvFreeTmp]
                | None => tr
                end in
      mkFreeOut failed exc (Some inp) (tr ++ [EvClearInput; EvClearSeek; EvFreeBuffer])
  end.

(** Returns new decoder buffer or NULL on failure (an exception will be
    set).  Input must either support buffer interface or be callable. *)
Definition _bjdata_decoder_buffer_create (p : _bjdata_decoder_prefs_t)
  (inp : PyInput) (seek : bool) : option _bjdata_decoder_buffer_t * option pyerr :=
  (* treat Py_None as no argument being supplied *)
  let unset h := match h with HookNone => HookNull | _ => h end in
  let p' := mkPrefs (unset (object_hook p)) (unset (object_pairs_hook p))
                    (no_bytes p) (intern_object_keys p) (islittle p) in
  match inp with
  | InBuffer data =>
      (Some (mkBuffer inp false read_fixed data true 0 0 None p'), None)
  | InCallable _ =>
      if seek
      then (Some (mkBuffer inp true read_buffered [] false 0 0 None p'), None)
      else (Some (mkBuffer inp false read_callable [] false 0 0 None p'), None)
  | InOther =>
      (* Should have been checked a level above *)
      (None, Some TypeError)
  end.

End Lifecycle.

(** ** A host to run examples on

    The stream is an in-memory file: the bytes and the cursor.  [read(n)]
    returns up to [n] bytes from the cursor on and advances it; [seek]
    relative to the cursor moves it and raises if that would leave the
    file's start.  Decimal accepts non-empty digit strings; numpy accepts
    every shape of a named element type. *)
Module BytesIO.

Definition file : Type := (list byte * Z)%type.

Definition read (f : file) (n : Z) : (pyerr + list byte) * file :=
  let '(data, cur) := f in
  let chunk := slice data cur n in
  (inr chunk, (data, cur + Zlength' chunk)).

Definition seek (f : file) (offset whence : Z) : option pyerr * file :=
  let '(data, cur) := f in
  if (whence =? IO_SEEK_CUR) && (0 <=? cur + offset)
  then (None, (data, cur + offset))
  else (Some (UserError 22), f).

Definition digits (text : list byte) : bool :=
  negb (Nat.eqb (List.length text) 0) && forallb (in_range 48 57) text.

(** numpy's element sizes; [NPY_USERDEF] names no registered type *)
Definition itemsize (t : npy_type) : option Z :=
  match t with
  | PyArray_HALF | PyArray_SHORT | PyArray_USHORT => Some 2
  | PyArray_FLOAT | PyArray_INT | PyArray_UINT => Some 4
  | PyArray_DOUBLE | PyArray_LONGLONG | PyArray_ULONGLONG => Some 8
  | PyArray_BYTE | PyArray_UBYTE | PyArray_STRING => Some 1
  | PyArray_USERDEF => None
  end.

(** numpy's size check when it makes an array: negative dimensions are
    refused, and so is a size in bytes beyond [npy_intp]; dimensions of 0
    are passed over. *)
Fixpoint nbytes_of (dims : list Z) (nbytes : Z) : option Z :=
  match dims with
  | [] => Some nbytes
  | d :: rest =>
      if d =? 0 then nbytes_of rest nbytes
      else if d <? 0 then None
      else if LLONG_MAX <? nbytes * d then None
      else nbytes_of rest (nbytes * d)
  end.

Definition PyArray_SimpleNew (nd : Z) (dims : list Z) (t : npy_type) : bool :=
  match itemsize t with
  | Some size =>
      match nbytes_of dims size with Some _ => true | None => false end
  | None => false
  end.

#[export] Instance host : PyHost :=
  {| stream := file;
     input_call := read;
     seek_call := seek;
     Decimal_accepts := digits;
     PyArray_SimpleNew_ok := PyArray_SimpleNew;
     recursion_limit := 1000 |}.

Definition prefs0 : _bjdata_decoder_prefs_t :=
  mkPrefs HookNull HookNull false false false.

(** a decoder over a fixed byte buffer, ready to decode *)
Definition fixed (p : _bjdata_decoder_prefs_t) (data : list byte) : world :=
  mkWorld (mkBuffer (InBuffer data) false read_fixed data true 0 0 None p) None.

(** a decoder over a seekable file, ready to decode *)
Definition seekable (p : _bjdata_decoder_prefs_t) (data : list byte) : world :=
  mkWorld (mkBuffer (InCallable (data, 0)) true read_buffered [] false 0 0 None p)
          None.

(** a decoder over a read callable without seek *)
Definition callable (p : _bjdata_decoder_prefs_t) (data : list byte) : world :=
  mkWorld (mkBuffer (InCallable (data, 0)) false read_callable [] false 0 0 None p)
          None.

(** *** Example inputs *)

(** a seekable buffer holding a three byte view of which one byte is used *)
Definition look_ahead_buffer : _bjdata_decoder_buffer_t :=
  mkBuffer (InCallable ([x01; x02; x03], 3)) true read_buffered
           [x01; x02; x03] true 1 1 None prefs0.

(** the half-precision number 1.0 after its marker, big-endian *)
Definition half_one : list byte := ["h"; x3c; x00]%byte.

(** a counted object of type null with a no-op before its only key:
    [{ $ Z # U 1 N U 1 a] *)
Definition no_data_object_with_noop : list byte :=
  ["{"; "$"; "Z"; "#"; "U"; x01; "N"; "U"; x01; "a"]%byte.

(** the same with element type uint8: [{ $ U # U 1 N U 1 a 7] *)
Definition uint8_object_with_noop : list byte :=
  ["{"; "$"; "U"; "#"; "U"; x01; "N"; "U"; x01; "a"; x07]%byte.

(** what follows ['['] in an empty counted int8 array: [$ i # U 0] *)
Definition empty_int8_array_body : list byte := ["$"; "i"; "#"; "U"; x00]%byte.

(** what follows ['['] in an empty counted uint8 array: [$ U # U 0] *)
Definition empty_uint8_array_body : list byte := ["$"; "U"; "#"; "U"; x00]%byte.

(** what follows ['['] in the uint8 array of scenario 4: [$ U # U 3 1 2 3] *)
Definition uint8_array_body : list byte :=
  ["$"; "U"; "#"; "U"; x03; x01; x02; x03]%byte.

(** what follows ['{'] in a counted uint8 object: [$ U # U 1 U 1 a 7] *)
Definition uint8_object_body : list byte :=
  ["$"; "U"; "#"; "U"; x01; "U"; x01; "a"; x07]%byte.

(** what follows ['['] in scenario 8: [$ U U 1 U 2 ]] *)
Definition typed_uncounted_body : list byte :=
  ["$"; "U"; "U"; x01; "U"; x02; "]"]%byte.

(** what follows ['['] in a counted array without type: [# U 2 U 1 U 2] *)
Definition counted_untyped_body : list byte :=
  ["#"; "U"; x02; "U"; x01; "U"; x02]%byte.

(** scenario 7: [S i FF] *)
Definition negative_string : list byte := ["S"; "i"; xff]%byte.

(** an N-D header with a negative dimension: [[ $ U # [ $ i # U 1 FF] *)
Definition negative_dimension : list byte :=
  ["["; "$"; "U"; "#"; "["; "$"; "i"; "#"; "U"; x01; xff]%byte.

(** an object whose first key has a negative length: [{ i FF] *)
Definition negative_key : list byte := ["{"; "i"; xff]%byte.

(** scenario 6: [{ U 1 a U 2 U 1 a U 5 }] *)
Definition duplicate_key_object : list byte :=
  ["{"; "U"; x01; "a"; "U"; x02; "U"; x01; "a"; "U"; x05; "}"]%byte.

(** what follows ['{'] in scenario 6 *)
Definition duplicate_key_body : list byte :=
  ["U"; x01; "a"; "U"; x02; "U"; x01; "a"; "U"; x05; "}"]%byte.

Definition prefs_pairs_hook (f : hook_fn) : _bjdata_decoder_prefs_t :=
  mkPrefs HookNull (HookCallable f) false false false.

(** scenario 4 whole: [[ $ U # U 3 1 2 3] *)
Definition uint8_array : list byte := "["%byte :: uint8_array_body.

Definition prefs_no_bytes : _bjdata_decoder_prefs_t :=
  mkPrefs HookNull HookNull true false false.

(** a hook that returns its argument *)
Definition id_hook : hook := HookCallable (fun o => inr o).

Definition prefs_pairs : _bjdata_decoder_prefs_t :=
  mkPrefs HookNull id_hook false false false.

(** the outcome of decoding one value from a fixed buffer: the result, the
    number of bytes consumed and the pending exception *)
Definition decode_fixed (p : _bjdata_decoder_prefs_t) (fuel : nat)
  (data : list byte) : result PyObject * Z * option pyerr :=
  let '(r, w) := _bjdata_decode_value fuel 0 None (fixed p data) in
  (r, total_read (buf w), exc w).

Definition three_bytes : list byte := [x01; x02; x03]%byte.
Definition two_bytes : list byte := [xff; xfe]%byte.
Definition eight_ff : list byte := [xff; xff; xff; xff; xff; xff; xff; xff]%byte.

(** the Latin-1 encoding of e with acute accent: no UTF-8 *)
Definition e_acute_latin1 : list byte := [xe9]%byte.

(** a high-precision number that is none, after its marker: [U 1 x] *)
Definition bad_decimal : list byte := ["U"; x01; "x"]%byte.

(** [$ N]: a type prefix naming the no-op marker *)
Definition noop_typed_body : list byte := ["$"; "N"]%byte.

(** a 2 x 3 uint8 array after its ['[']: [$ U # [ $ U # U 2 2 3] and six
    bytes *)
Definition nd_array_body : list byte :=
  ["$"; "U"; "#"; "["; "$"; "U"; "#"; "U"; x02; x02; x03;
   x0a; x0b; x0c; x0d; x0e; x0f]%byte.

(** a counted dimension vector without type: [$ U # [ # U 2 3 4] *)
Definition untyped_vector_body : list byte :=
  ["$"; "U"; "#"; "["; "#"; "U"; x02; x03; x04]%byte.

(** a dimension vector with a negative count: [# [ # i FF i 5] *)
Definition failed_vector_body : list byte :=
  ["#"; "["; "#"; "i"; xff; "i"; x05]%byte.

(** three times true: [$ T # U 3] *)
Definition three_true_body : list byte := ["$"; "T"; "#"; "U"; x03]%byte.

(** whole arrays of a no-data type: [[ $ Z # U 3], [[ $ T # U 3] and
    [[ $ F # U 2] *)
Definition three_null_array : list byte := ["["; "$"; "Z"; "#"; "U"; x03]%byte.
Definition three_true_array : list byte := "["%byte :: three_true_body.
Definition two_false_array : list byte := ["["; "$"; "F"; "#"; "U"; x02]%byte.

(** scenario 6 with a count: [{ # U 2 U 1 a U 2 U 1 a U 5] *)
Definition counted_duplicate_key_object : list byte :=
  ["{"; "#"; "U"; x02; "U"; x01; "a"; "U"; x02; "U"; x01; "a"; "U"; x05]%byte.

(** a counted object of type true with the key [a] twice:
    [{ $ T # U 2 U 1 a U 1 a] *)
Definition no_data_duplicate_key_object : list byte :=
  ["{"; "$"; "T"; "#"; "U"; x02; "U"; x01; "a"; "U"; x01; "a"]%byte.

End BytesIO.

(** The buffered backend over the in-memory file [data] opened at offset
    [base]: the file's cursor is ahead of the bytes handed out by exactly
    the look-ahead left in the view. *)
Definition cursor_ahead (data : list byte) (base : Z)
  (b : @_bjdata_decoder_buffer_t BytesIO.host) : Prop :=
  read_func b = read_buffered /\ seek b = true
  /\ 0 <= total_read b /\ 0 <= pos b <= view_len b
  /\ (view_set b = false -> pos b = 0)
  /\ input b
     = @InCallable BytesIO.host (data,
                   base + total_read b
                   + (if view_set b then view_len b - pos b else 0)).

Definition at_cursor (data : list byte) (base : Z) : @outcome_spec BytesIO.host :=
  let inv w := cursor_ahead data base (buf w) in
  mkSpec inv inv inv.

(** The plain callable backend over the same file: nothing is read ahead,
    so the cursor is where [total_read] says. *)
Definition cursor_exact (data : list byte) (base : Z)
  (b : @_bjdata_decoder_buffer_t BytesIO.host) : Prop :=
  read_func b = read_callable
  /\ input b = @InCallable BytesIO.host (data, base + total_read b).

Definition at_exact_cursor (data : list byte) (base : Z)
  : @outcome_spec BytesIO.host :=
  let inv w := cursor_exact data base (buf w) in
  mkSpec inv inv inv.

(** ** Decoders over the same bytes *)

(** A decoder reading the in-memory bytes [data], by whichever backend,
    of which the first [total_read] have been handed out.  The fixed
    backend has them in its view; the callable backend has the file's
    cursor there; the buffered backend has a view that is a piece of
    [data] ending at the file's cursor, [pos] marking the next byte. *)
Definition over_data (p : _bjdata_decoder_prefs_t) (data : list byte)
  (b : @_bjdata_decoder_buffer_t BytesIO.host) : Prop :=
  prefs b = p /\ 0 <= total_read b <= Zlength' data
  /\ match read_func b with
     | read_fixed => view b = data
     | read_callable =>
         input b = @InCallable BytesIO.host (data, total_read b)
     | read_buffered =>
         if view_set b then
           0 <= pos b <= view_len b /\ pos b <= total_read b
           /\ (exists n, 0 <= n /\ view b = slice data (total_read b - pos b) n)
           /\ input b = @InCallable BytesIO.host
                          (data, total_read b + (view_len b - pos b))
         else
           pos b = 0
           /\ input b = @InCallable BytesIO.host (data, total_read b)
     end.

(** Two decoders over the same bytes, at the same place, with the same
    pending exception. *)
Definition same_state (p : _bjdata_decoder_prefs_t) (data : list byte)
  (w1 w2 : @world BytesIO.host) : Prop :=
  over_data p data (buf w1) /\ over_data p data (buf w2)
  /\ total_read (buf w1) = total_read (buf w2)
  /\ exc w1 = exc w2.

(** A computation that cannot tell such decoders apart. *)
Definition agrees (p : _bjdata_decoder_prefs_t) (data : list byte) {A}
  (m : @M BytesIO.host A) : Prop :=
  forall w1 w2, same_state p data w1 w2 ->
    fst (m w1) = fst (m w2) /\ same_state p data (snd (m w1)) (snd (m w2)).

Definition gagrees (p : _bjdata_decoder_prefs_t) (data : list byte) {A}
  (m : @G BytesIO.host A) : Prop :=
  forall w1 w2, same_state p data w1 w2 ->
    fst (m w1) = fst (m w2) /\ same_state p data (snd (m w1)) (snd (m w2)).

(** What a read of [len] bytes comes to when [c] bytes of [data] have been
    handed out: the result, the new [total_read] and the error indicator. *)
Definition read_outcome (data : list byte) (c len : Z) (s : string)
  (e : option pyerr) : result (option (list byte)) * Z * option pyerr :=
  if len =? 0 then (Ret None, c, e)
  else if c + len <=? Zlength' data
  then (Ret (Some (slice data c len)), c + len, e)
  else (Null, Zlength' data,
        Some (DecoderException
                ((if c <? Zlength' data
                  then "Insufficient (partial) input ("
                  else "Insufficient input (") ++ s ++ ")")
                (Zlength' data))).

(** ** Ending *)

(** A computation that ends, and moves on in the input: started over
    [data] with fewer than [F] bytes left, it does not run out of fuel; it
    stays over [data], [total_read] does not go back, and when it returns
    a value at least [k] bytes have been handed out. *)
Definition progress (p : _bjdata_decoder_prefs_t) (data : list byte)
  (F k : Z) {A} (m : @M BytesIO.host A) : Prop :=
  forall w, over_data p data (buf w) ->
    Zlength' data - total_read (buf w) < F ->
    over_data p data (buf (snd (m w)))
    /\ match fst (m w) with
       | Ret _ => total_read (buf w) + k <= total_read (buf (snd (m w)))
       | Null => total_read (buf w) <= total_read (buf (snd (m w)))
       | OutOfFuel => False
       end.

Definition gprogress (p : _bjdata_decoder_prefs_t) (data : list byte)
  (F k : Z) {A} (m : @G BytesIO.host A) : Prop :=
  forall w, over_data p data (buf w) ->
    Zlength' data - total_read (buf w) < F ->
    over_data p data (buf (snd (m w)))
    /\ match fst (m w) with
       | GRet _ => total_read (buf w) + k <= total_read (buf (snd (m w)))
       | GBail _ => total_read (buf w) <= total_read (buf (snd (m w)))
       | GFuel => False
       end.

(** The same for a container header, which reports failure in the record
    it returns: a header that is not flagged invalid took at least one
    byte. *)
Definition hprogress (p : _bjdata_decoder_prefs_t) (data : list byte)
  (F : Z) {A} (params_of : A -> _container_params_t)
  (m : @M BytesIO.host A) : Prop :=
  forall w, over_data p data (buf w) ->
    Zlength' data - total_read (buf w) < F ->
    over_data p data (buf (snd (m w)))
    /\ match fst (m w) with
       | Ret a => total_read (buf w)
                  + (if invalid (params_of a) then 0 else 1)
                  <= total_read (buf (snd (m w)))
       | Null => total_read (buf w) <= total_read (buf (snd (m w)))
       | OutOfFuel => False
       end.

(** Does decoding a value take input: always when the marker is still to
    be read, and with a given marker unless the value is in the marker. *)
Definition takes_input (given_marker : option byte) : bool :=
  match given_marker with
  | None => true
  | Some m => negb (_is_no_data_type m)
  end.

(** ** Bytes that follow *)

(** Two decoders at the same place, one over [data] and one over [data]
    followed by more bytes, with the same pending exception. *)
Definition same_place (p : _bjdata_decoder_prefs_t) (data extra : list byte)
  (w1 w2 : @world BytesIO.host) : Prop :=
  over_data p data (buf w1) /\ over_data p (data ++ extra) (buf w2)
  /\ total_read (buf w1) = total_read (buf w2)
  /\ exc w1 = exc w2.

(** A computation that stays over [data] and leaves a pending exception
    pending. *)
Definition keeps_exception (p : _bjdata_decoder_prefs_t) (data : list byte)
  {R} (m : @world BytesIO.host -> R * @world BytesIO.host) : Prop :=
  forall w, over_data p data (buf w) ->
    over_data p data (buf (snd (m w)))
    /\ (exc w <> None -> exc (snd (m w)) <> None).

(** A computation that, when it ends over [data] with no exception
    pending, does the same over [data] followed by more bytes. *)
Definition unaffected (p : _bjdata_decoder_prefs_t) (data extra : list byte)
  {R} (m : @world BytesIO.host -> R * @world BytesIO.host) : Prop :=
  keeps_exception p data m
  /\ forall w1 w2, same_place p data extra w1 w2 ->
       exc (snd (m w1)) = None ->
       fst (m w1) = fst (m w2)
       /\ same_place p data extra (snd (m w1)) (snd (m w2)).

(** * Properties *)

(** Boolean tests in the hypotheses, as facts about [Z]. *)
Ltac bool_to_Z :=
  repeat match goal with
    | H : (_ && _) = true |- _ => apply andb_true_iff in H; destruct H
    | H : (_ || _) = false |- _ => apply orb_false_iff in H; destruct H
    | H : negb _ = true |- _ => apply negb_true_iff in H
    | H : negb _ = false |- _ => apply negb_false_iff in H
    | H : (_ <? _) = true |- _ => apply Z.ltb_lt in H
    | H : (_ <? _) = false |- _ => apply Z.ltb_ge in H
    | H : (_ <=? _) = true |- _ => apply Z.leb_le in H
    | H : (_ <=? _) = false |- _ => apply Z.leb_gt in H
    | H : (_ >? _) = true |- _ => apply Z.gtb_lt in H
    | H : (_ >? _) = false |- _ => rewrite Z.gtb_ltb in H; apply Z.ltb_ge in H
    | H : (_ =? _) = true |- _ => apply Z.eqb_eq in H
    | H : (_ =? _) = false |- _ => apply Z.eqb_neq in H
    end.

Section ReadFacts.
Context `{Host : PyHost}.

Lemma view_len_nonneg (b : _bjdata_decoder_buffer_t) : 0 <= view_len b.
Proof. unfold view_len, Zlength'. apply Nat2Z.is_nonneg. Qed.

(** A call of the input callable touches nothing of the buffer but the
    stream behind [input], and leaves the error indicator alone. *)
Lemma call_input_frame (n : Z) (w : world) :
  exists i, snd (call_input n w) = with_buf (set_input i) w.
Proof.
  destruct w as [[i0 sk rf v vs p tr td pf] e]. unfold call_input. simpl.
  destruct i0 as [data|s|]; simpl.
  - exists (InBuffer data). reflexivity.
  - destruct (input_call s n) as [r s']. exists (InCallable s'). reflexivity.
  - exists InOther. reflexivity.
Qed.

Lemma read_fixed_total_read (len : Z) (dst : bool) (w : world) :
  0 <= len ->
  total_read (buf w) <= total_read (buf (snd (_decoder_buffer_read_fixed len dst w))).
Proof.
  intros Hlen. unfold _decoder_buffer_read_fixed.
  destruct (len =? 0); [simpl; lia|].
  destruct (total_read (buf w) <? view_len (buf w)) eqn:Hlt; [|simpl; lia].
  bool_to_Z. simpl. lia.
Qed.

Lemma read_callable_total_read (len : Z) (dst : bool) (w : world) :
  total_read (buf w) <= total_read (buf (snd (_decoder_buffer_read_callable len dst w))).
Proof.
  unfold _decoder_buffer_read_callable.
  destruct (len =? 0); [simpl; lia|].
  set (w1 := if view_set (buf w) then with_buf (set_view_set false) w else w).
  assert (H1 : total_read (buf w1) = total_read (buf w))
    by (unfold w1; destruct (view_set (buf w)); reflexivity).
  destruct (call_input_frame len w1) as [i Hi].
  destruct (call_input len w1) as [[e|data] w2]; simpl in Hi; subst w2; simpl; [lia|].
  unfold view_len; simpl.
  assert (0 <= Zlength' data) by (unfold Zlength'; lia).
  destruct (Zlength' data =? 0); simpl; lia.
Qed.

Lemma read_buffered_total_read (len : Z) (dst : bool) (w : world) :
  0 <= len ->
  (view_set (buf w) = false -> pos (buf w) = 0) ->
  total_read (buf w) <= total_read (buf (snd (_decoder_buffer_read_buffered len dst w))).
Proof.
  intros Hlen Hwf. unfold _decoder_buffer_read_buffered.
  destruct (len =? 0) eqn:Hz; [simpl; lia|].
  destruct w as [b e]. simpl in Hwf |- *.
  pose proof (view_len_nonneg b) as Hv.
  change (view_len (set_tmp_dst None b)) with (view_len b).
  destruct (negb (view_set b) || (len >? view_len b - pos b)) eqn:Hmore;
    [|simpl; lia].
  destruct dst; destruct (view_set b) eqn:Hvs; simpl in Hmore |- *;
    match goal with |- context [call_input ?n ?w1] =>
      destruct (call_input_frame n w1) as [i Hi];
      destruct (call_input n w1) as [[e'|data] w2] end;
    simpl in Hi; subst w2; simpl;
    repeat match goal with
      | |- context [view_len (set_view_set true (set_view ?d ?x))] =>
          change (view_len (set_view_set true (set_view d x))) with (Zlength' d)
      end;
    try (assert (0 <= Zlength' data) by (unfold Zlength'; lia));
    try rewrite (Hwf eq_refl);
    repeat match goal with
      | |- context [if ?c then _ else _] => destruct c eqn:?; simpl
      end;
    bool_to_Z; lia.
Qed.

Lemma read_fixed_wf (len : Z) (dst : bool) (w : world) :
  buffer_wf (buf w) -> buffer_wf (buf (snd (_decoder_buffer_read_fixed len dst w))).
Proof.
  unfold _decoder_buffer_read_fixed.
  destruct (len =? 0); [trivial|].
  destruct (total_read (buf w) <? view_len (buf w)); trivial.
Qed.

Lemma read_callable_wf (len : Z) (dst : bool) (w : world) :
  read_func (buf w) = read_callable ->
  buffer_wf (buf w) -> buffer_wf (buf (snd (_decoder_buffer_read_callable len dst w))).
Proof.
  unfold buffer_wf. intros Hrf. rewrite Hrf. intros Hp.
  unfold _decoder_buffer_read_callable.
  destruct (len =? 0); [simpl; rewrite Hrf; trivial|].
  set (w1 := if view_set (buf w) then with_buf (set_view_set false) w else w).
  assert (H1 : pos (buf w1) = 0 /\ read_func (buf w1) = read_callable)
    by (unfold w1; destruct (view_set (buf w)); simpl; auto).
  destruct H1 as [H1 H2].
  destruct (call_input_frame len w1) as [i Hi].
  destruct (call_input len w1) as [[e|data] w2]; simpl in Hi; subst w2; simpl.
  - rewrite H2. exact H1.
  - destruct (view_len _ =? 0); simpl; rewrite H2; exact H1.
Qed.

Lemma read_buffered_wf (len : Z) (dst : bool) (w : world) :
  read_func (buf w) = read_buffered ->
  buffer_wf (buf w) -> buffer_wf (buf (snd (_decoder_buffer_read_buffered len dst w))).
Proof.
  unfold buffer_wf. intros Hrf. rewrite Hrf. intros Hwf.
  unfold _decoder_buffer_read_buffered.
  destruct (len =? 0) eqn:Hz; [simpl; rewrite Hrf; trivial|].
  destruct w as [b e]. simpl in Hwf, Hrf |- *.
  change (view_len (set_tmp_dst None b)) with (view_len b).
  destruct (negb (view_set b) || (len >? view_len b - pos b)) eqn:Hmore.
  - destruct dst; destruct (view_set b) eqn:Hvs; simpl in Hmore |- *;
      match goal with |- context [call_input ?n ?w1] =>
        destruct (call_input_frame n w1) as [i Hi];
        destruct (call_input n w1) as [[e'|data] w2] end;
      simpl in Hi; subst w2; simpl;
      repeat match goal with
        | |- context [if ?c then _ else _] => destruct c; simpl
        end;
      rewrite ?Hrf; simpl; auto; try discriminate.
  - destruct (view_set b) eqn:Hvs; simpl in Hmore; [|discriminate].
    simpl. rewrite Hrf. simpl. rewrite Hvs. discriminate.
Qed.

(** Every backend at once. *)
Lemma total_read_never_decreases_aux (len : Z) (dst : bool) (w : world) :
  0 <= len -> buffer_wf (buf w) ->
  total_read (buf w) <= total_read (buf (snd (READ_VIA_FUNC len dst w)))
  /\ buffer_wf (buf (snd (READ_VIA_FUNC len dst w))).
Proof.
  intros Hlen Hwf. unfold READ_VIA_FUNC. split.
  - unfold buffer_wf in Hwf.
    destruct (read_func (buf w)) eqn:Hrf.
    + apply read_fixed_total_read; assumption.
    + apply read_callable_total_read.
    + apply read_buffered_total_read; assumption.
  - destruct (read_func (buf w)) eqn:Hrf.
    + apply read_fixed_wf; assumption.
    + apply read_callable_wf; assumption.
    + apply read_buffered_wf; assumption.
Qed.

(** A buffer fresh from [_bjdata_decoder_buffer_create] is well formed. *)
Lemma buffer_create_wf (p : _bjdata_decoder_prefs_t) (inp : PyInput)
  (sk : bool) (b : _bjdata_decoder_buffer_t) (e : option pyerr) :
  _bjdata_decoder_buffer_create p inp sk = (Some b, e) ->
  buffer_wf b /\ total_read b = 0 /\ e = None.
Proof.
  unfold _bjdata_decoder_buffer_create.
  destruct inp as [data|s|]; [|destruct sk|]; intros H; inversion H; subst;
    unfold buffer_wf; simpl; auto.
Qed.

Lemma slice_length {A} (data : list A) (off n : Z) :
  0 <= off -> 0 <= n -> off + n <= Zlength' data ->
  Zlength' (slice data off n) = n.
Proof.
  unfold slice, Zlength'. intros Hoff Hn Hle.
  rewrite length_firstn, length_skipn. lia.
Qed.

(** On the fixed backend, reading [len] bytes that are there delivers the
    next [len] bytes of the input and advances [total_read] by [len]. *)
Lemma READ_INTO_OR_BAIL_fixed (len : Z) (item_str : string) (w : world) :
  read_func (buf w) = read_fixed ->
  0 <= len ->
  total_read (buf w) + len <= view_len (buf w) ->
  READ_INTO_OR_BAIL len item_str w
  = (Ret (slice (view (buf w)) (total_read (buf w)) len),
     with_buf (set_total_read (total_read (buf w) + len)) w).
Proof.
  intros Hrf Hlen Hle.
  unfold READ_INTO_OR_BAIL, bind, ACTION_READ, READ_VIA_FUNC. rewrite Hrf.
  unfold _decoder_buffer_read_fixed.
  destruct (len =? 0) eqn:Hz.
  - bool_to_Z. subst len. simpl.
    unfold ret, slice. simpl.
    replace (total_read (buf w) + 0) with (total_read (buf w)) by lia.
    destruct w as [[i0 sk rf v vs p tr td pf] e]. reflexivity.
  - bool_to_Z.
    assert (Hlt : (total_read (buf w) <? view_len (buf w)) = true)
      by (apply Z.ltb_lt; lia).
    rewrite Hlt. cbv zeta.
    rewrite Z.min_l by lia.
    assert (Hnlt : (len <? len) = false) by (apply Z.ltb_irrefl).
    rewrite Hnlt. unfold ret, chunk_bytes, slice.
    rewrite firstn_firstn, Nat.min_id. reflexivity.
Qed.

End ReadFacts.

Section MonadFacts.
Context `{Host : PyHost}.

Lemma bind_ret {A B} (m : M A) (k : A -> M B) (w w' : world) (a : A) :
  m w = (Ret a, w') -> bind m k w = k a w'.
Proof. unfold bind. intros ->. reflexivity. Qed.

Lemma bind_null {A B} (m : M A) (k : A -> M B) (w w' : world) :
  m w = (Null, w') -> bind m k w = (Null, w').
Proof. unfold bind. intros ->. reflexivity. Qed.

Lemma bind_inv {A B} (m : M A) (k : A -> M B) (w w' : world) (b : B) :
  bind m k w = (Ret b, w') ->
  exists a w1, m w = (Ret a, w1) /\ k a w1 = (Ret b, w').
Proof.
  unfold bind. destruct (m w) as [[a| |] w1]; intros H; try discriminate.
  exists a, w1. auto.
Qed.

Lemma bind_get_prefs {B} (k : _bjdata_decoder_prefs_t -> M B) (w : world) :
  bind get_prefs k w = k (prefs (buf w)) w.
Proof. reflexivity. Qed.

End MonadFacts.

(** * The claims *)

Section Teardown.
Context `{Host : PyHost}.

(** C8.  Teardown of a seekable buffer that holds unread look-ahead bytes
    (a view is held and [view.len > pos]): the seek callable is called
    once, with offset [pos - view.len] and whence [IO_SEEK_CUR], and the
    view is released after that; an exception that was pending before
    teardown is the one pending afterwards, whether or not seek raised,
    and teardown then reports no failure; with nothing pending, an
    exception raised by seek stays pending and teardown reports failure. *)
Theorem teardown_rewinds_look_ahead
  (b : _bjdata_decoder_buffer_t) (prior : option pyerr) :
  seek b = true -> view_set b = true -> pos b < view_len b ->
  let out := _bjdata_decoder_buffer_free (Some b) prior in
  let seek_result := call_seek (pos b - view_len b) IO_SEEK_CUR (input b) in
  (exists rest,
      trace out = EvSeek (pos b - view_len b) IO_SEEK_CUR :: EvReleaseView :: rest
      /\ (forall o wh, ~ In (EvSeek o wh) rest))
  /\ input_after out = Some (snd seek_result)
  /\ (forall e, prior = Some e -> exc_after out = Some e /\ failed out = false)
  /\ (prior = None -> forall e, fst seek_result = Some e ->
      exc_after out = Some e /\ failed out = true)
  /\ (prior = None -> fst seek_result = None ->
      exc_after out = None /\ failed out = false).
Proof.
  intros Hseek Hvs Hpos out seek_result. subst out seek_result.
  unfold _bjdata_decoder_buffer_free. rewrite Hvs, Hseek.
  assert (Hgt : (view_len b >? pos b) = true) by (apply Z.gtb_lt; exact Hpos).
  rewrite Hgt. simpl andb. cbv iota.
  destruct (call_seek (pos b - view_len b) IO_SEEK_CUR (input b)) as [se inp].
  simpl fst. simpl snd.
  destruct prior as [e0|]; [|destruct se as [e1|]];
    (split; [|split; [reflexivity|]]).
  - destruct (tmp_dst b); simpl; eexists; split; try reflexivity;
      intros o wh; simpl; intuition discriminate.
  - repeat split; intros; try congruence; destruct (tmp_dst b); simpl; congruence.
  - destruct (tmp_dst b); simpl; eexists; split; try reflexivity;
      intros o wh; simpl; intuition discriminate.
  - repeat split; intros; try congruence; destruct (tmp_dst b); simpl; congruence.
  - destruct (tmp_dst b); simpl; eexists; split; try reflexivity;
      intros o wh; simpl; intuition discriminate.
  - repeat split; intros; try congruence; destruct (tmp_dst b); simpl; congruence.
Qed.

End Teardown.

Lemma teardown_rewinds_look_ahead_witness :
  let out := _bjdata_decoder_buffer_free (Some BytesIO.look_ahead_buffer)
               (Some RecursionError) in
  exc_after out = Some RecursionError /\ failed out = false
  /\ trace out = [EvSeek (-2) 1; EvReleaseView; EvClearInput; EvClearSeek; EvFreeBuffer]
  /\ input_after out = Some (@InCallable BytesIO.host ([x01; x02; x03], 1)).
Proof.
  destruct (teardown_rewinds_look_ahead BytesIO.look_ahead_buffer
              (Some RecursionError) eq_refl eq_refl
              ltac:(vm_compute; reflexivity)) as (_ & _ & H & _).
  destruct (H _ eq_refl) as [H1 H2].
  split; [exact H1|]. split; [exact H2|]. split; reflexivity.
Defined.

Section ReadMonotone.
Context `{Host : PyHost}.

(** C9.  Across a read operation of any of the three backends, whatever
    its outcome, [total_read] does not decrease.  The requested length is a
    byte count (not negative) and the buffer is one the decoder can be in
    ([buffer_wf], which every read keeps); raising the decoder's own
    exception after the read leaves [total_read] as the read left it. *)
Theorem total_read_never_decreases (len : Z) (dst : bool) (w : world) :
  0 <= len -> buffer_wf (buf w) ->
  let w' := snd (READ_VIA_FUNC len dst w) in
  total_read (buf w) <= total_read (buf w')
  /\ buffer_wf (buf w')
  /\ (forall item_str,
       total_read (buf (snd (ACTION_READ len dst item_str w))) = total_read (buf w')).
Proof.
  intros Hlen Hwf w'. subst w'.
  destruct (@total_read_never_decreases_aux _ len dst w Hlen Hwf) as [H1 H2].
  split; [exact H1|]. split; [exact H2|].
  intros item_str. unfold ACTION_READ, READ_VIA_FUNC.
    destruct (read_func (buf w));
      match goal with |- context [?f len dst w] =>
        destruct (f len dst w) as [[[chunk|] rd] w1] end; simpl;
      repeat match goal with
        | |- context [if ?c then _ else _] => destruct c; simpl
        end; reflexivity.
Qed.

End ReadMonotone.

Lemma total_read_never_decreases_witness :
  let w := BytesIO.seekable BytesIO.prefs0 [x01; x02; x03] in
  0 <= 2 /\ buffer_wf (buf w)
  /\ total_read (buf w) <= total_read (buf (snd (READ_VIA_FUNC 2 false w))).
Proof.
  assert (Hlen : 0 <= 2) by lia.
  assert (Hwf : buffer_wf (buf (BytesIO.seekable BytesIO.prefs0 [x01; x02; x03])))
    by (intros _; reflexivity).
  split; [exact Hlen|]. split; [exact Hwf|].
  exact (proj1 (@total_read_never_decreases BytesIO.host 2 false _ Hlen Hwf)).
Defined.

(** C1 (what the code does).  At a scalar position the float16 marker is
    handled by the uint16 case of the dispatcher: two bytes are read and
    the result is the integer they spell, not a float.  The encoding of 1.0,
    [h 3C 00], decodes to the integer 15360. *)
Theorem float16_scalar_decoded_as_uint16 :
  (forall (Host : PyHost) (fuel : nat) (depth : Z) (w : world),
      _bjdata_decode_value fuel depth (Some TYPE_FLOAT16) w
      = RETURN_OR_RAISE_DECODER_EXCEPTION (_decode_uint16_32 2) "uint16" w)
  /\ (forall (Host : PyHost) (fuel : nat) (depth : Z) (w : world),
      _bjdata_decode_value fuel depth (Some TYPE_FLOAT16) w
      = _bjdata_decode_value fuel depth (Some TYPE_UINT16) w)
  /\ (forall fuel : nat,
      BytesIO.decode_fixed BytesIO.prefs0 fuel BytesIO.half_one
      = (Ret (PyLong 15360), 3, None)).
Proof.
  split; [|split].
  - intros Host fuel depth w. destruct fuel; reflexivity.
  - intros Host fuel depth w. destruct fuel; reflexivity.
  - intros fuel. destruct fuel; vm_compute; reflexivity.
Qed.

(** C3 (what the code does).  The keys-only loops of a counted object whose
    type is null, true or false do not test for the no-op marker: with ['N']
    at a key position the key decoder is called on it and the object fails
    with "Failed to decode object key (sized, no data)".  The loops of the
    other counted objects and of the counted array do skip it: they read
    the next marker and go on with the same count and the same elements. *)
Theorem noop_in_no_data_object_is_fatal :
  (forall (Host : PyHost) (n : nat) (intern : bool) (value : PyObject)
          (obj : list (list byte * PyObject)) (w : world),
      object_loop_no_data (S n) intern value TYPE_NOOP obj w
      = (Null,
         set_exc (Some (DecoderException
                          "Failed to decode object key (sized, no data)"
                          (total_read (buf w)))) w))
  /\ (forall (Host : PyHost) (n : nat) (intern : bool) (value : PyObject)
          (lst : list PyObject) (w : world),
      pairs_loop_no_data (S n) intern value TYPE_NOOP lst w
      = (Null,
         set_exc (Some (DecoderException
                          "Failed to decode object key (sized, no data)"
                          (total_read (buf w)))) w))
  /\ (forall (Host : PyHost) (decode_value : option byte -> M PyObject)
             (fuel : nat) (intern : bool) (fixed_type : option byte)
             (count : positive) (obj : list (list byte * PyObject)) (w : world),
         object_loop decode_value (S fuel) intern fixed_type true (Z.pos count)
           TYPE_NOOP obj w
         = (marker <- READ_CHAR_OR_BAIL "object key length" ;;
            object_loop decode_value fuel intern fixed_type true (Z.pos count)
              marker obj) w)
  /\ (forall (Host : PyHost) (decode_value : option byte -> M PyObject)
             (fuel : nat) (intern : bool) (fixed_type : option byte)
             (count : positive) (lst : list PyObject) (w : world),
         pairs_loop_counted decode_value (S fuel) intern fixed_type (Z.pos count)
           TYPE_NOOP lst w
         = (marker <- READ_CHAR_OR_BAIL "object key length (sized, after no-op)" ;;
            pairs_loop_counted decode_value fuel intern fixed_type (Z.pos count)
              marker lst) w)
  /\ (forall (Host : PyHost) (decode_value : option byte -> M PyObject)
             (fuel : nat) (type : byte) (count : positive)
             (lst : list PyObject) (w : world),
         array_loop_counted decode_value (S fuel) type (Z.pos count)
           TYPE_NOOP lst w
         = (marker <- READ_CHAR_OR_BAIL
                        "array value type marker (sized, after no-op)" ;;
            array_loop_counted decode_value fuel type (Z.pos count)
              marker lst) w)
  /\ BytesIO.decode_fixed BytesIO.prefs0 5 BytesIO.no_data_object_with_noop
     = (Null, 7,
        Some (DecoderException "Failed to decode object key (sized, no data)" 7))
  /\ BytesIO.decode_fixed BytesIO.prefs_pairs 5 BytesIO.no_data_object_with_noop
     = (Null, 7,
        Some (DecoderException "Failed to decode object key (sized, no data)" 7))
  /\ BytesIO.decode_fixed BytesIO.prefs0 5 BytesIO.uint8_object_with_noop
     = (Ret (PyDict [(["a"%byte], PyLong 7)]), 11, None).
Proof.
  split; [|split; [|split; [|split; [|split; [|split; [|split]]]]]].
  - intros. reflexivity.
  - intros. reflexivity.
  - intros. reflexivity.
  - intros. reflexivity.
  - intros. reflexivity.
  - vm_compute. reflexivity.
  - vm_compute. reflexivity.
  - vm_compute. reflexivity.
Qed.

Section HeaderFacts.
Context `{Host : PyHost}.

Lemma gbind_inv {A B} (m : G A) (k : A -> G B) (w w' : world) (b : B) :
  gbind m k w = (GRet b, w') ->
  exists a w1, m w = (GRet a, w1) /\ k a w1 = (GRet b, w').
Proof.
  unfold gbind. destruct (m w) as [[a| |] w1]; intros H; try discriminate.
  exists a, w1. auto.
Qed.

Lemma or_bail_inv {A} (p : _container_params_t) (m : M A) (w w' : world) (a : A) :
  or_bail p m w = (GRet a, w') -> m w = (Ret a, w').
Proof.
  unfold or_bail. destruct (m w) as [[x| |] w1]; intros H; try discriminate.
  congruence.
Qed.

Lemma gbind_ret {A B} (m : G A) (k : A -> G B) (w w' : world) (a : A) :
  m w = (GRet a, w') -> gbind m k w = k a w'.
Proof. unfold gbind. intros ->. reflexivity. Qed.

Lemma or_bail_ret {A} (p : _container_params_t) (m : M A) (w w' : world) (a : A) :
  m w = (Ret a, w') -> or_bail p m w = (GRet a, w').
Proof. unfold or_bail. intros ->. reflexivity. Qed.

Lemma or_bail_null {A} (p : _container_params_t) (m : M A) (w w' : world) :
  m w = (Null, w') -> or_bail p m w = (GBail (set_invalid true p), w').
Proof. unfold or_bail. intros ->. reflexivity. Qed.

(** A decoded length is a non-negative [long long]. *)
Lemma _decode_int_non_negative_range (gm : option byte) (w w' : world) (v : Z) :
  _decode_int_non_negative gm w = (Ret v, w') -> 0 <= v <= LLONG_MAX.
Proof.
  unfold _decode_int_non_negative. intros H.
  apply bind_inv in H. destruct H as (m & w1 & _ & H).
  apply bind_inv in H. destruct H as (o & w2 & _ & H).
  unfold PyLong_AsLongLong in H.
  destruct o; cbv beta iota in H;
    try (unfold PyErr_Occurred in H; simpl in H; discriminate).
  destruct ((- LLONG_MAX - 1 <=? v0) && (v0 <=? LLONG_MAX)) eqn:Hr.
  - destruct (PyErr_Occurred w2); [discriminate|].
    destruct (v0 <? 0) eqn:Hneg; [discriminate|].
    unfold ret in H. inversion H; subst. bool_to_Z. lia.
  - unfold PyErr_Occurred in H. simpl in H. discriminate.
Qed.

Lemma to_signed_fits (x : Z) : fits_long_long (to_signed 64 x).
Proof.
  unfold fits_long_long, to_signed.
  pose proof (Z.mod_pos_bound x (2 ^ 64) ltac:(lia)) as Hm.
  destruct (x mod 2 ^ 64 <? 2 ^ (64 - 1)) eqn:Hlt; bool_to_Z;
    change (2 ^ (64 - 1)) with (2 ^ 63) in *; lia.
Qed.

Lemma to_signed_id (x : Z) : fits_long_long x -> to_signed 64 x = x.
Proof.
  unfold fits_long_long, to_signed. intros Hx.
  change (2 ^ (64 - 1)) with (2 ^ 63).
  destruct (Z_lt_dec x 0) as [Hneg|Hpos].
  - replace (x mod 2 ^ 64) with (x + 2 ^ 64)
      by (apply (Z.mod_unique x (2 ^ 64) (-1)); lia).
    destruct (x + 2 ^ 64 <? 2 ^ 63) eqn:Hlt; bool_to_Z; lia.
  - rewrite Z.mod_small by lia.
    destruct (x <? 2 ^ 63) eqn:Hlt; bool_to_Z; lia.
Qed.

Lemma nd_dims_counted_fits (n : nat) :
  forall (p : _container_params_t) (t : byte) (l : list Z) (w w' : world)
         (p' : _container_params_t) (l' : list Z),
    nd_dims_counted p t n l w = (GRet (p', l'), w') ->
    (fits_long_long (count p) -> fits_long_long (count p'))
    /\ counting p' = counting p /\ type p' = type p
    /\ (l' = [] -> count p' = count p).
Proof.
  induction n as [|n IH]; intros p t l w w' p' l' H; simpl in H.
  - unfold gret in H. inversion H; subst. auto.
  - apply gbind_inv in H. destruct H as (len & w1 & _ & H).
    pose proof (IH _ _ _ _ _ _ _ H) as (H1 & H2 & H3 & H4). simpl in *.
    split; [intros _; apply H1, to_signed_fits|].
    split; [exact H2|]. split; [exact H3|].
    intros ->. clear - H.
    assert (Hne : forall n p l w w' p' l',
               nd_dims_counted p t n l w = (GRet (p', l'), w') ->
               l' = [] -> l = []).
    { clear. induction n as [|n IH]; intros p l w w' p' l' H Hl; simpl in H.
      - unfold gret in H. inversion H; subst. reflexivity.
      - apply gbind_inv in H. destruct H as (len & w1 & _ & H).
        apply IH in H; [|exact Hl]. destruct l; discriminate H. }
    apply Hne in H; [|reflexivity]. destruct l; discriminate H.
Qed.

Lemma nd_dims_uncounted_fits (fuel : nat) :
  forall (p : _container_params_t) (m : byte) (l : list Z) (w w' : world)
         (p' : _container_params_t) (m' : byte) (l' : list Z),
    nd_dims_uncounted fuel p m l w = (GRet (p', m', l'), w') ->
    (fits_long_long (count p) -> fits_long_long (count p'))
    /\ counting p' = counting p /\ type p' = type p
    /\ (l' = [] -> count p' = count p).
Proof.
  assert (Hne : forall fuel p m l w w' p' m' l',
             nd_dims_uncounted fuel p m l w = (GRet (p', m', l'), w') ->
             l' = [] -> l = []).
  { clear. induction fuel as [|fuel IH]; intros p m l w w' p' m' l' H Hl;
      simpl in H.
    - destruct (byte_eqb ARRAY_END m); [|discriminate].
      unfold gret in H. inversion H; subst. reflexivity.
    - destruct (byte_eqb ARRAY_END m).
      + unfold gret in H. inversion H; subst. reflexivity.
      + apply gbind_inv in H. destruct H as (len & w1 & _ & H).
        apply gbind_inv in H. destruct H as (m1 & w2 & _ & H).
        apply IH in H; [|exact Hl]. destruct l; discriminate H. }
  induction fuel as [|fuel IH]; intros p m l w w' p' m' l' H; simpl in H.
  - destruct (byte_eqb ARRAY_END m); [|discriminate].
    unfold gret in H. inversion H; subst. auto.
  - destruct (byte_eqb ARRAY_END m).
    + unfold gret in H. inversion H; subst. auto.
    + apply gbind_inv in H. destruct H as (len & w1 & _ & H).
      apply gbind_inv in H. destruct H as (m1 & w2 & _ & H).
      pose proof (IH _ _ _ _ _ _ _ _ H) as (H1 & H2 & H3 & H4). simpl in *.
      split; [intros _; apply H1, to_signed_fits|].
      split; [exact H2|]. split; [exact H3|].
      intros ->. apply Hne in H; [|reflexivity]. destruct l; discriminate H.
Qed.

Lemma header_count_fits (self : M _container_params_t) (fuel : nat) (nd : bool)
  (p0 p : _container_params_t) (m : byte) (nds : Z * list Z) (w w' : world) :
  header_count self fuel nd p0 w = (GRet (p, m, nds), w') ->
  fits_long_long (count p) /\ counting p = true /\ type p = type p0
  /\ (snd nds = [] -> 0 <= count p).
Proof.
  unfold header_count. intros H.
  apply gbind_inv in H. destruct H as (m2 & w1 & _ & H).
  destruct (byte_eqb ARRAY_START m2 && nd).
  - apply gbind_inv in H. destruct H as (dims & w2 & _ & H).
    destruct (counting dims).
    + apply gbind_inv in H. destruct H as ([p1 l1] & w3 & H1 & H).
      unfold gret in H. inversion H; subst.
      apply nd_dims_counted_fits in H1. simpl in H1.
      destruct H1 as (Hf & Hc & Ht & Hl).
      split; [apply Hf; unfold fits_long_long; lia|].
      split; [exact Hc|]. split; [exact Ht|].
      simpl. intros Hnil. rewrite (Hl Hnil). lia.
    + apply gbind_inv in H. destruct H as ([[p1 m1] l1] & w3 & H1 & H).
      unfold gret in H. inversion H; subst.
      apply nd_dims_uncounted_fits in H1. simpl in H1.
      destruct H1 as (Hf & Hc & Ht & Hl).
      split; [apply Hf; unfold fits_long_long; lia|].
      split; [exact Hc|]. split; [exact Ht|].
      simpl. intros Hnil. rewrite (Hl Hnil). lia.
  - destruct (DECODE_LENGTH_OR_BAIL_MARKER m2 w1) as [[n| |] w2] eqn:Hn;
      try discriminate.
    inversion H; subst. simpl.
    unfold DECODE_LENGTH_OR_BAIL_MARKER in Hn.
    apply _decode_int_non_negative_range in Hn.
    unfold fits_long_long, LLONG_MAX in *.
    split; [lia|]. split; [reflexivity|]. split; [reflexivity|]. intros _. lia.
Qed.

Lemma header_type_result (p : _container_params_t) (m : byte) (w w' : world) :
  header_type w = (GRet (p, m), w') ->
  counting p = false /\ count p = 0
  /\ (type p = TYPE_NONE \/ is_container_type (type p) = true).
Proof.
  unfold header_type. intros H.
  apply gbind_inv in H. destruct H as (m1 & w1 & _ & H).
  destruct (byte_eqb CONTAINER_TYPE m1).
  - apply gbind_inv in H. destruct H as (m2 & w2 & _ & H).
    destruct (is_container_type m2) eqn:Ht.
    + apply gbind_inv in H. destruct H as (m3 & w3 & _ & H).
      unfold gret in H. inversion H; subst. simpl. auto.
    + apply gbind_inv in H. destruct H as (u & w3 & H & _).
      apply or_bail_inv in H. discriminate.
  - unfold gret in H. inversion H; subst. simpl. auto.
Qed.

Lemma header_prefetch_inv (im : bool) (p : _container_params_t) (m m' : byte)
  (w w' : world) :
  header_prefetch im p m w = (GRet m', w') ->
  if (count p >? 0) && (im || byte_eqb TYPE_NONE (type p))
  then READ_CHAR_OR_BAIL "1st key/value type" w = (Ret m', w')
  else m' = type p /\ w' = w.
Proof.
  unfold header_prefetch.
  destruct ((count p >? 0) && (im || byte_eqb TYPE_NONE (type p))); intros H.
  - apply gbind_inv in H. destruct H as (m1 & w1 & H & H').
    apply or_bail_inv in H. unfold gret in H'. congruence.
  - unfold gret in H. inversion H; auto.
Qed.

Lemma bails_gret {A} (a : A) : bails_invalid (gret a).
Proof. intros w q w' H. discriminate. Qed.

Lemma bails_or_bail {A} (p : _container_params_t) (m : M A) :
  bails_invalid (or_bail p m).
Proof.
  intros w q w' H. unfold or_bail in H.
  destruct (m w) as [[a| |] w1]; inversion H; reflexivity.
Qed.

Lemma bails_gbind {A B} (m : G A) (k : A -> G B) :
  bails_invalid m -> (forall a, bails_invalid (k a)) -> bails_invalid (gbind m k).
Proof.
  intros Hm Hk w q w' H. unfold gbind in H.
  destruct (m w) as [[a| q1|] w1] eqn:Hmw; try discriminate.
  - exact (Hk a _ _ _ H).
  - inversion H; subst. exact (Hm _ _ _ Hmw).
Qed.

Ltac bails :=
  repeat first
    [ apply bails_gret
    | apply bails_or_bail
    | apply bails_gbind; [|intros ?]
    | match goal with
      | |- bails_invalid (match ?x with _ => _ end) => destruct x
      | |- bails_invalid (if ?c then _ else _) => destruct c
      end ].

Lemma bails_nd_dims_counted (n : nat) :
  forall p t l, bails_invalid (nd_dims_counted p t n l).
Proof. induction n as [|n IH]; intros p t l; simpl; bails. apply IH. Qed.

Lemma bails_nd_dims_uncounted (fuel : nat) :
  forall p m l, bails_invalid (nd_dims_uncounted fuel p m l).
Proof.
  induction fuel as [|fuel IH]; intros p m l; simpl.
  - destruct (byte_eqb ARRAY_END m); [bails|]. intros w q w' H. discriminate.
  - bails. apply IH.
Qed.

Lemma bails_header_count (self : M _container_params_t) (fuel : nat) (nd : bool)
  (p : _container_params_t) : bails_invalid (header_count self fuel nd p).
Proof.
  unfold header_count. bails.
  - apply bails_nd_dims_counted.
  - apply bails_nd_dims_uncounted.
  - intros w q w' H.
    destruct (DECODE_LENGTH_OR_BAIL_MARKER a w) as [[n| |] w1];
      inversion H; reflexivity.
Qed.

Lemma bails_body (self : M _container_params_t) (fuel : nat) (im nd : bool) :
  bails_invalid (get_container_params_body self fuel im nd).
Proof.
  unfold get_container_params_body.
  apply bails_gbind; [unfold header_type; bails|]. intros [p m].
  destruct (byte_eqb CONTAINER_COUNT m); [|bails].
  apply bails_gbind; [apply bails_header_count|]. intros [[p1 m1] n1].
  unfold header_prefetch. bails.
Qed.

Lemma byte_eqb_eq (a b : byte) : byte_eqb a b = true <-> a = b.
Proof.
  unfold byte_eqb. split.
  - apply Byte.byte_dec_bl.
  - apply Byte.byte_dec_lb.
Qed.

(** What a header that was accepted looks like. *)
Lemma _get_container_params_valid (fuel : nat) (im nd : bool) (w w' : world)
  (p : _container_params_t) (nds : Z * list Z) :
  _get_container_params fuel im nd w = (Ret (p, nds), w') ->
  invalid p = false ->
  fits_long_long (count p)
  /\ (counting p = false -> count p = 1 /\ type p = TYPE_NONE /\ nds = (0, []))
  /\ (snd nds = [] -> 0 <= count p).
Proof.
  unfold _get_container_params, run_G. intros H Hv.
  destruct (get_container_params_body _ fuel im nd w) as [[r| q|] w1] eqn:Hb;
    try discriminate.
  - inversion H; subst. clear H.
    unfold get_container_params_body in Hb.
    apply gbind_inv in Hb. destruct Hb as ([p0 m0] & w0 & Hh & Hb).
    apply header_type_result in Hh. destruct Hh as (Hc0 & Hn0 & Ht0).
    destruct (byte_eqb CONTAINER_COUNT m0).
    + apply gbind_inv in Hb. destruct Hb as ([[p1 m1] n1] & w2 & Hc & Hb).
      apply header_count_fits in Hc. destruct Hc as (Hf & Hcnt & Hty & Hnn).
      apply gbind_inv in Hb. destruct Hb as (m2 & w3 & _ & Hb).
      unfold gret in Hb. inversion Hb; subst. simpl.
      split; [exact Hf|]. split; [rewrite Hcnt; discriminate|exact Hnn].
    + destruct (byte_eqb TYPE_NONE (type p0)) eqn:Hnone.
      * unfold gret in Hb. inversion Hb; subst. simpl.
        apply byte_eqb_eq in Hnone.
        split; [unfold fits_long_long; lia|]. split; [auto|]. intros _. lia.
      * apply gbind_inv in Hb. destruct Hb as (u & w3 & Hb & _).
        apply or_bail_inv in Hb. discriminate.
  - inversion H; subst.
    pose proof (@bails_body _ fuel im nd _ _ _ Hb) as Hq. congruence.
Qed.

End HeaderFacts.

Section ReadRequests.
Context `{Host : PyHost}.

(** Asking for no bytes reads nothing. *)
Lemma READ_VIA_FUNC_zero (dst : bool) (w : world) :
  READ_VIA_FUNC 0 dst w = ((None, 0), w).
Proof. unfold READ_VIA_FUNC. destruct (read_func (buf w)); reflexivity. Qed.

Lemma READ_INTO_OR_BAIL_zero (item_str : string) (w : world) :
  READ_INTO_OR_BAIL 0 item_str w = (Ret [], w).
Proof.
  unfold READ_INTO_OR_BAIL, bind, ACTION_READ. rewrite READ_VIA_FUNC_zero.
  reflexivity.
Qed.

(** The item name only shows in error messages. *)
Lemma ACTION_READ_item (len : Z) (dst : bool) (s s' : string) (w w' : world)
  (ptr : option (list byte)) :
  ACTION_READ len dst s w = (Ret ptr, w') ->
  ACTION_READ len dst s' w = (Ret ptr, w').
Proof.
  unfold ACTION_READ.
  destruct (READ_VIA_FUNC len dst w) as [[[chunk|] rd] w1].
  - destruct (rd <? len); [discriminate|]. trivial.
  - destruct (rd >? 0); [discriminate|].
    destruct ((len >? 0) || (rd <? len)); [discriminate|]. trivial.
Qed.

Lemma READ_INTO_OR_BAIL_item (len : Z) (s s' : string) (w w' : world)
  (data : list byte) :
  READ_INTO_OR_BAIL len s w = (Ret data, w') ->
  READ_INTO_OR_BAIL len s' w = (Ret data, w').
Proof.
  unfold READ_INTO_OR_BAIL. intros H.
  apply bind_inv in H. destruct H as (ptr & w1 & H & Hr).
  erewrite bind_ret by (eapply ACTION_READ_item; exact H). exact Hr.
Qed.

Lemma READ_OR_BAIL_item (len : Z) (s s' : string) (w w' : world)
  (data : list byte) :
  READ_OR_BAIL len s w = (Ret data, w') ->
  READ_OR_BAIL len s' w = (Ret data, w').
Proof.
  unfold READ_OR_BAIL. intros H.
  apply bind_inv in H. destruct H as (ptr & w1 & H & Hr).
  erewrite bind_ret by (eapply ACTION_READ_item; exact H). exact Hr.
Qed.

Lemma READ_CHAR_OR_BAIL_item (s s' : string) (w w' : world) (c : byte) :
  READ_CHAR_OR_BAIL s w = (Ret c, w') ->
  READ_CHAR_OR_BAIL s' w = (Ret c, w').
Proof.
  unfold READ_CHAR_OR_BAIL. intros H.
  apply bind_inv in H. destruct H as (tmp & w1 & H & Hr).
  erewrite bind_ret by (eapply READ_OR_BAIL_item; exact H). exact Hr.
Qed.

End ReadRequests.

Lemma fixed_len_not_no_data (t : byte) :
  _is_fixed_len_type t = true -> _is_no_data_type t = false.
Proof. destruct t; intros H; try discriminate H; reflexivity. Qed.

Lemma fixed_len_not_none (t : byte) :
  _is_fixed_len_type t = true -> byte_eqb t x00 = false.
Proof. destruct t; intros H; try discriminate H; reflexivity. Qed.

Section EmptyArrays.
Context `{Host : PyHost}.
Variable decode_value : option byte -> M PyObject.

(** C10.  A counted array with count 0 and no N-D header (the header was
    accepted, [params.counting] is set, [params.count] is 0, [ndims] is 0
    and no dimension was read): with type uint8 and [no_bytes] unset the result is the empty bytes
    object, and with any other fixed-width type (or uint8 with [no_bytes]
    set) it is the empty list, not a packed array.  In both cases the
    buffer is left as the header left it: no payload byte is read. *)
Theorem empty_counted_array (fuel : nat) (w w1 : world)
  (params : _container_params_t) :
  _get_container_params fuel false true w = (Ret (params, (0, [])), w1) ->
  invalid params = false ->
  counting params = true ->
  count params = 0 ->
  (type params = TYPE_UINT8 -> no_bytes (prefs (buf w1)) = false ->
   _decode_array decode_value fuel w = (Ret (PyBytes []), w1))
  /\ (_is_fixed_len_type (type params) = true ->
      type params <> TYPE_UINT8 \/ no_bytes (prefs (buf w1)) = true ->
      _decode_array decode_value fuel w = (Ret (PyList []), w1)).
Proof.
  intros Hhdr Hinv Hcnt Hzero.
  unfold _decode_array. erewrite bind_ret by exact Hhdr.
  cbv beta iota. rewrite Hinv, Hcnt, Hzero.
  rewrite bind_get_prefs.
  split.
  - intros Hty Hnb. rewrite Hty, Hnb. simpl.
    unfold bind at 1. simpl.
    erewrite bind_ret by apply READ_INTO_OR_BAIL_zero. reflexivity.
  - intros Hfixed Hother.
    assert (Hfirst : byte_eqb TYPE_UINT8 (type params)
                     && negb (no_bytes (prefs (buf w1))) && (0 =? 0) = false).
    { destruct Hother as [Hne|Hnb].
      - destruct (byte_eqb TYPE_UINT8 (type params)) eqn:He; [|reflexivity].
        apply byte_eqb_eq in He. congruence.
      - rewrite Hnb. rewrite andb_false_r. reflexivity. }
    rewrite Hfirst. simpl negb. simpl andb.
    rewrite (fixed_len_not_no_data _ Hfixed). rewrite Hfixed.
    simpl andb. cbv iota.
    destruct fuel; reflexivity.
Qed.

End EmptyArrays.

Lemma empty_counted_array_witness :
  fst (_decode_array (fun _ => bail) 0
         (BytesIO.fixed BytesIO.prefs0 BytesIO.empty_uint8_array_body))
  = Ret (PyBytes [])
  /\ fst (_decode_array (fun _ => bail) 0
            (BytesIO.fixed BytesIO.prefs0 BytesIO.empty_int8_array_body))
     = Ret (PyList []).
Proof.
  split.
  - set (w := BytesIO.fixed BytesIO.prefs0 BytesIO.empty_uint8_array_body).
    assert (Hhdr : _get_container_params 0 false true w
                   = (Ret (mkParams "U" true 0 "U" false, (0, [])),
                      with_buf (set_total_read 5) w))
      by (vm_compute; reflexivity).
    pose proof (@empty_counted_array BytesIO.host (fun _ => bail) 0 w _ _
                  Hhdr) as X.
    specialize (X eq_refl eq_refl eq_refl). destruct X as [H _].
    specialize (H eq_refl eq_refl). rewrite H. reflexivity.
  - set (w := BytesIO.fixed BytesIO.prefs0 BytesIO.empty_int8_array_body).
    assert (Hhdr : _get_container_params 0 false true w
                   = (Ret (mkParams "i" true 0 "i" false, (0, [])),
                      with_buf (set_total_read 5) w))
      by (vm_compute; reflexivity).
    pose proof (@empty_counted_array BytesIO.host (fun _ => bail) 0 w _ _
                  Hhdr) as X.
    specialize (X eq_refl eq_refl eq_refl). destruct X as [_ H].
    assert (Hne : type (mkParams "i" true 0 "i" false) <> TYPE_UINT8)
      by discriminate.
    specialize (H eq_refl (or_introl Hne)). rewrite H. reflexivity.
Defined.

Section ByteArrays.
Context `{Host : PyHost}.
Variable decode_value : option byte -> M PyObject.

(** C2 (as the code has it).  A counted array of type uint8 without N-D
    header ([ndims] is 0 and no dimension was read), whose [count] payload
    bytes are read in full as [data] by a read that hands back no more
    than the [count] bytes the destination has room for: with
    [no_bytes] unset the result is the bytes object of the payload; with
    [no_bytes] set and a positive count it is the one-dimensional packed
    uint8 array of shape [[count]] over the payload (when numpy makes the
    array), and with [no_bytes] set and count 0 it is the empty list. *)
Theorem uint8_counted_array (fuel : nat) (w w1 w2 : world)
  (params : _container_params_t) (data : list byte)
  (item_str : string) :
  _get_container_params fuel false true w = (Ret (params, (0, [])), w1) ->
  invalid params = false ->
  counting params = true ->
  type params = TYPE_UINT8 ->
  read_fits_destination (count params) w1 = true ->
  READ_INTO_OR_BAIL (count params) item_str w1 = (Ret data, w2) ->
  (no_bytes (prefs (buf w1)) = false ->
   _decode_array decode_value fuel w = (Ret (PyBytes data), w2))
  /\ (no_bytes (prefs (buf w1)) = true -> count params > 0 ->
      PyArray_SimpleNew_ok 1 [count params] PyArray_UBYTE = true ->
      _decode_array decode_value fuel w
      = (Ret (PyArray [count params] PyArray_UBYTE data), w2))
  /\ (no_bytes (prefs (buf w1)) = true -> count params = 0 ->
      _decode_array decode_value fuel w = (Ret (PyList []), w1)).
Proof.
  intros Hhdr Hinv Hcnt Hty _ Hread.
  destruct (_get_container_params_valid _ _ _ _ Hhdr Hinv) as (Hfits & _ & Hnn).
  specialize (Hnn eq_refl).
  unfold _decode_array. erewrite bind_ret by exact Hhdr.
  cbv beta iota. rewrite Hinv, Hcnt, Hty.
  rewrite bind_get_prefs.
  split; [|split].
  - intros Hnb. rewrite Hnb. simpl.
    unfold PyBytes_FromStringAndSize.
    assert (Hlt : (count params <? 0) = false) by (apply Z.ltb_ge; exact Hnn).
    rewrite Hlt. unfold bind at 1. simpl.
    erewrite bind_ret by (eapply READ_INTO_OR_BAIL_item; exact Hread).
    reflexivity.
  - intros Hnb Hpos Hnumpy. rewrite Hnb. simpl.
    assert (Hgt : (count params >? 0) = true) by (apply Z.gtb_lt; lia).
    rewrite Hgt. unfold read_packed_array. simpl.
    unfold bind at 1. simpl. rewrite Hnumpy. unfold bind at 1. simpl.
    replace (to_signed 64 match count params with
                          | 0 => 0
                          | Z.pos y' => Z.pos y'
                          | Z.neg y' => Z.neg y'
                          end) with (count params).
    + erewrite bind_ret by (eapply READ_INTO_OR_BAIL_item; exact Hread).
      reflexivity.
    + rewrite <- (to_signed_id Hfits) at 1. f_equal. destruct (count params); reflexivity.
  - intros Hnb Hzero. rewrite Hnb, Hzero. simpl.
    destruct fuel; reflexivity.
Qed.

End ByteArrays.

Lemma uint8_counted_array_witness :
  fst (_decode_array (fun _ => bail) 0
         (BytesIO.fixed BytesIO.prefs0 BytesIO.uint8_array_body))
  = Ret (PyBytes [x01; x02; x03])
  /\ fst (_decode_array (fun _ => bail) 0
            (BytesIO.callable BytesIO.prefs_no_bytes BytesIO.uint8_array_body))
     = Ret (PyArray [3] PyArray_UBYTE [x01; x02; x03]).
Proof.
  split.
  - set (w := BytesIO.fixed BytesIO.prefs0 BytesIO.uint8_array_body).
    assert (Hhdr : _get_container_params 0 false true w
                   = (Ret (mkParams "U" true 3 "U" false, (0, [])),
                      with_buf (set_total_read 5) w))
      by (vm_compute; reflexivity).
    assert (Hread : READ_INTO_OR_BAIL 3 "payload" (with_buf (set_total_read 5) w)
                    = (Ret [x01; x02; x03], with_buf (set_total_read 8) w))
      by (vm_compute; reflexivity).
    pose proof (@uint8_counted_array BytesIO.host (fun _ => bail) 0 w _ _ _ _ _
                  Hhdr eq_refl eq_refl eq_refl eq_refl Hread) as X.
    destruct X as [H _].
    specialize (H eq_refl). rewrite H. reflexivity.
  - set (w := BytesIO.callable BytesIO.prefs_no_bytes BytesIO.uint8_array_body).
    set (w1 := snd (_get_container_params 0 false true w)).
    set (w2 := snd (READ_INTO_OR_BAIL 3 "payload" w1)).
    assert (Hhdr : _get_container_params 0 false true w
                   = (Ret (mkParams "U" true 3 "U" false, (0, [])), w1))
      by (vm_compute; reflexivity).
    assert (Hfits : read_fits_destination 3 w1 = true)
      by (vm_compute; reflexivity).
    assert (Hread : READ_INTO_OR_BAIL 3 "payload" w1 = (Ret [x01; x02; x03], w2))
      by (vm_compute; reflexivity).
    pose proof (@uint8_counted_array BytesIO.host (fun _ => bail) 0 w _ _ _ _ _
                  Hhdr eq_refl eq_refl eq_refl Hfits Hread) as X.
    destruct X as (_ & H & _).
    assert (Hpos : 3 > 0) by lia.
    specialize (H eq_refl Hpos eq_refl). rewrite H. reflexivity.
Defined.

(** C2, as stated, fails: with [no_bytes] set, the array [[ $ U # U 3 1 2 3]
    of scenario 4 decodes to a packed uint8 array of shape [[3]], which is
    not a list. *)
Lemma no_bytes_uint8_array_is_not_a_list :
  BytesIO.decode_fixed BytesIO.prefs_no_bytes 5 BytesIO.uint8_array
  = (Ret (PyArray [3] PyArray_UBYTE [x01; x02; x03]), 9, None)
  /\ ~ (exists items,
          fst (fst (BytesIO.decode_fixed BytesIO.prefs_no_bytes 5 BytesIO.uint8_array))
          = Ret (PyList items)).
Proof.
  assert (H : BytesIO.decode_fixed BytesIO.prefs_no_bytes 5 BytesIO.uint8_array
              = (Ret (PyArray [3] PyArray_UBYTE [x01; x02; x03]), 9, None))
    by (vm_compute; reflexivity).
  split; [exact H|]. rewrite H. intros [items Hitems]. discriminate Hitems.
Qed.

Section FixedReads.
Context `{Host : PyHost}.

(** On the fixed backend a successful one-byte read consumes one byte. *)
Lemma READ_CHAR_OR_BAIL_fixed (s : string) (w w' : world) (c : byte) :
  read_func (buf w) = read_fixed ->
  READ_CHAR_OR_BAIL s w = (Ret c, w') ->
  total_read (buf w') = total_read (buf w) + 1.
Proof.
  intros Hrf H. unfold READ_CHAR_OR_BAIL in H.
  apply bind_inv in H. destruct H as (tmp & w1 & H & Hret).
  unfold ret in Hret. inversion Hret; subst. clear Hret.
  unfold READ_OR_BAIL in H.
  apply bind_inv in H. destruct H as (ptr & w2 & H & Hret).
  unfold ret in Hret. inversion Hret; subst. clear Hret.
  unfold ACTION_READ, READ_VIA_FUNC in H. rewrite Hrf in H.
  unfold _decoder_buffer_read_fixed in H. simpl in H.
  destruct (total_read (buf w) <? view_len (buf w)) eqn:Hlt.
  - cbv beta iota zeta in H.
    destruct (Z.min 1 (view_len (buf w) - total_read (buf w)) <? 1) eqn:Hmin;
      [discriminate|].
    unfold ret in H. inversion H; subst. simpl. bool_to_Z. lia.
  - simpl in H. discriminate.
Qed.

End FixedReads.

Section Prefetch.
Context `{Host : PyHost}.

(** C6.  In [_get_container_params], once ['#'] was seen and the count is
    decoded ([params], with the marker variable [m] and the N-D results
    [nds], in world [w2]): if [count > 0] and the container is an object or
    has no global type, one more marker is read with [READ_CHAR_OR_BAIL] and
    is the marker returned (on the fixed backend that is one byte more in
    [total_read]); otherwise the marker returned is [params.type] and the
    buffer stays as it was when the count was known. *)
Theorem prefetch_after_count (fuel : nat) (in_mapping nd : bool)
  (w w1 w2 : world) (p0 params : _container_params_t) (m : byte)
  (nds : Z * list Z) :
  header_type w = (GRet (p0, CONTAINER_COUNT), w1) ->
  header_count (_get_container_params_flat false) fuel nd p0 w1
  = (GRet (params, m, nds), w2) ->
  (count params > 0 -> in_mapping = true \/ type params = TYPE_NONE ->
   forall (c : byte) (w3 : world),
     READ_CHAR_OR_BAIL "1st key/value type" w2 = (Ret c, w3) ->
     _get_container_params fuel in_mapping nd w
     = (Ret (set_invalid false (set_marker c params), nds), w3)
     /\ (read_func (buf w2) = read_fixed ->
         total_read (buf w3) = total_read (buf w2) + 1))
  /\ (~ (count params > 0 /\ (in_mapping = true \/ type params = TYPE_NONE)) ->
      _get_container_params fuel in_mapping nd w
      = (Ret (set_invalid false (set_marker (type params) params), nds), w2)).
Proof.
  intros Htype Hcount.
  unfold _get_container_params, run_G, get_container_params_body.
  erewrite gbind_ret by exact Htype. cbv beta iota.
  change (byte_eqb CONTAINER_COUNT CONTAINER_COUNT) with true. cbv iota.
  erewrite gbind_ret by exact Hcount. cbv beta iota.
  unfold header_prefetch.
  split.
  - intros Hpos Hwhich c w3 Hread.
    assert (Hcond : (count params >? 0)
                    && (in_mapping || byte_eqb TYPE_NONE (type params)) = true).
    { apply andb_true_iff. split.
      - apply Z.gtb_lt. lia.
      - destruct Hwhich as [->|Hnone]; [reflexivity|].
        rewrite Hnone. apply orb_true_r. }
    rewrite Hcond. split.
    + erewrite gbind_ret; [|erewrite gbind_ret; [reflexivity|]].
      * reflexivity.
      * apply or_bail_ret. exact Hread.
    + intros Hfixed. eapply READ_CHAR_OR_BAIL_fixed; eassumption.
  - intros Hnot.
    assert (Hcond : (count params >? 0)
                    && (in_mapping || byte_eqb TYPE_NONE (type params)) = false).
    { destruct ((count params >? 0)
                && (in_mapping || byte_eqb TYPE_NONE (type params))) eqn:Hc;
        [|reflexivity].
      exfalso. apply Hnot.
      apply andb_true_iff in Hc. destruct Hc as [Hc1 Hc2].
      apply Z.gtb_lt in Hc1. split; [lia|].
      apply orb_true_iff in Hc2. destruct Hc2 as [Hc2|Hc2].
      - left. assumption.
      - right. apply byte_eqb_eq in Hc2. congruence. }
    rewrite Hcond. reflexivity.
Qed.

End Prefetch.

Lemma prefetch_after_count_witness :
  (let w := BytesIO.fixed BytesIO.prefs0 BytesIO.uint8_object_body in
   _get_container_params 0 true false w
   = (Ret (mkParams "U" true 1 "U" false, (0, [])), with_buf (set_total_read 6) w))
  /\ (let w := BytesIO.fixed BytesIO.prefs0 BytesIO.uint8_array_body in
      _get_container_params 0 false true w
      = (Ret (mkParams "U" true 3 "U" false, (0, [])), with_buf (set_total_read 5) w)).
Proof.
  split.
  - intros w.
    assert (Htype : header_type w
                    = (GRet (mkParams x00 false 0 "U" false, CONTAINER_COUNT),
                       with_buf (set_total_read 3) w))
      by (vm_compute; reflexivity).
    assert (Hcount : header_count (_get_container_params_flat false) 0 false
                       (mkParams x00 false 0 "U" false)
                       (with_buf (set_total_read 3) w)
                     = (GRet (mkParams x00 true 1 "U" false, "U"%byte, (0, [])),
                        with_buf (set_total_read 5) w))
      by (vm_compute; reflexivity).
    assert (Hread : READ_CHAR_OR_BAIL "1st key/value type"
                      (with_buf (set_total_read 5) w)
                    = (Ret "U"%byte, with_buf (set_total_read 6) w))
      by (vm_compute; reflexivity).
    assert (Hpos : 1 > 0) by lia.
    pose proof (@prefetch_after_count BytesIO.host 0 true false w _ _ _ _ _ _
                  Htype Hcount) as [H _].
    exact (proj1 (H Hpos (or_introl eq_refl) _ _ Hread)).
  - intros w.
    assert (Htype : header_type w
                    = (GRet (mkParams x00 false 0 "U" false, CONTAINER_COUNT),
                       with_buf (set_total_read 3) w))
      by (vm_compute; reflexivity).
    assert (Hcount : header_count (_get_container_params_flat false) 0 true
                       (mkParams x00 false 0 "U" false)
                       (with_buf (set_total_read 3) w)
                     = (GRet (mkParams x00 true 3 "U" false, "U"%byte, (0, [])),
                        with_buf (set_total_read 5) w))
      by (vm_compute; reflexivity).
    pose proof (@prefetch_after_count BytesIO.host 0 false true w _ _ _ _ _ _
                  Htype Hcount) as [_ H].
    apply H. intros [_ [Hf|Hf]]; discriminate Hf.
Defined.

Lemma byte_eqb_neq (a b : byte) : a <> b -> byte_eqb a b = false.
Proof.
  intros Hne. destruct (byte_eqb a b) eqn:He; [|reflexivity].
  apply byte_eqb_eq in He. contradiction.
Qed.

Lemma container_type_not_none (t : byte) :
  is_container_type t = true -> byte_eqb TYPE_NONE t = false.
Proof. destruct t; intros H; try discriminate H; reflexivity. Qed.

Section TypedWithoutCount.
Context `{Host : PyHost}.
Variable decode_value : option byte -> M PyObject.

Ltac read_step H :=
  erewrite gbind_ret
    by (apply or_bail_ret; eapply READ_CHAR_OR_BAIL_item; exact H);
  cbv beta iota.

(** C4.  A container header that starts with ['$'], a valid type byte and
    then a byte other than ['#'] is refused: the record comes back invalid,
    "Container type without count" is raised with the bytes consumed so
    far, and the array and object decoders fail with that exception.  A
    header that starts with ['#'] (no type) and a length is accepted: the
    record comes back valid, counting, without type, after the look-ahead
    of one marker when the count is positive. *)
Theorem typed_container_needs_count :
  (forall (fuel : nat) (in_mapping nd : bool) (w w1 w2 w3 : world)
          (t m : byte) (s1 s2 s3 : string),
      READ_CHAR_OR_BAIL s1 w = (Ret CONTAINER_TYPE, w1) ->
      READ_CHAR_OR_BAIL s2 w1 = (Ret t, w2) ->
      is_container_type t = true ->
      READ_CHAR_OR_BAIL s3 w2 = (Ret m, w3) ->
      m <> CONTAINER_COUNT ->
      let w' := set_exc (Some (DecoderException "Container type without count"
                                 (total_read (buf w3)))) w3 in
      _get_container_params fuel in_mapping nd w
      = (Ret (mkParams x00 false 0 t true, (0, [])), w')
      /\ _decode_array decode_value fuel w = (Null, w')
      /\ _decode_object decode_value fuel w = (Null, w')
      /\ _decode_object_with_pairs_hook decode_value fuel w = (Null, w'))
  /\ (forall (fuel : nat) (in_mapping nd : bool) (w w1 w2 w3 : world)
             (m2 : byte) (n : Z) (s1 s2 : string),
         READ_CHAR_OR_BAIL s1 w = (Ret CONTAINER_COUNT, w1) ->
         READ_CHAR_OR_BAIL s2 w1 = (Ret m2, w2) ->
         nd = false \/ m2 <> ARRAY_START ->
         DECODE_LENGTH_OR_BAIL_MARKER m2 w2 = (Ret n, w3) ->
         (n = 0 ->
          _get_container_params fuel in_mapping nd w
          = (Ret (mkParams TYPE_NONE true 0 TYPE_NONE false, (0, [])), w3))
         /\ (n > 0 -> forall (s3 : string) (c : byte) (w4 : world),
                READ_CHAR_OR_BAIL s3 w3 = (Ret c, w4) ->
                _get_container_params fuel in_mapping nd w
                = (Ret (mkParams c true n TYPE_NONE false, (0, [])), w4))).
Proof.
  split.
  - intros fuel in_mapping nd w w1 w2 w3 t m s1 s2 s3 H1 H2 Ht H3 Hm w'.
    assert (Hhdr : forall im nd',
               _get_container_params fuel im nd' w
               = (Ret (mkParams x00 false 0 t true, (0, [])), w')).
    { intros im nd'.
      unfold _get_container_params, run_G, get_container_params_body, header_type.
      erewrite gbind_ret.
      2:{ read_step H1. change (byte_eqb CONTAINER_TYPE CONTAINER_TYPE) with true.
          cbv iota. read_step H2. rewrite Ht. read_step H3. reflexivity. }
      cbv beta iota.
      rewrite (byte_eqb_neq (not_eq_sym Hm)).
      change (type (set_type t params_zero)) with t.
      rewrite (container_type_not_none _ Ht). reflexivity. }
    split; [apply Hhdr|].
    split; [|split].
    + unfold _decode_array. erewrite bind_ret by apply Hhdr. reflexivity.
    + unfold _decode_object. erewrite bind_ret by apply Hhdr. reflexivity.
    + unfold _decode_object_with_pairs_hook.
      erewrite bind_ret by apply Hhdr. reflexivity.
  - intros fuel in_mapping nd w w1 w2 w3 m2 n s1 s2 H1 H2 Hnd Hn.
    assert (Hbranch : byte_eqb ARRAY_START m2 && nd = false).
    { destruct Hnd as [->|Hne]; [apply andb_false_r|].
      rewrite (byte_eqb_neq (not_eq_sym Hne)). reflexivity. }
    assert (Hcounted :
              gbind header_type
                (fun x => let (params, marker) := x in
                          if byte_eqb CONTAINER_COUNT marker
                          then header_count (_get_container_params_flat false)
                                 fuel nd params
                          else fun w0 => (GFuel, w0)) w
              = (GRet (mkParams x00 true n TYPE_NONE false, m2, (0, [])), w3)).
    { unfold header_type.
      erewrite gbind_ret.
      2:{ read_step H1.
          change (byte_eqb CONTAINER_TYPE CONTAINER_COUNT) with false.
          reflexivity. }
      cbv beta iota.
      change (byte_eqb CONTAINER_COUNT CONTAINER_COUNT) with true. cbv iota.
      unfold header_count. read_step H2. rewrite Hbranch. rewrite Hn.
      reflexivity. }
    unfold _get_container_params, run_G, get_container_params_body.
    unfold gbind in Hcounted |- *.
    destruct (header_type w) as [[[p0 m0]|q|] w0]; try discriminate Hcounted.
    destruct (byte_eqb CONTAINER_COUNT m0); [|discriminate Hcounted].
    rewrite Hcounted. unfold header_prefetch. cbn [count type].
    change (byte_eqb TYPE_NONE TYPE_NONE) with true. rewrite orb_true_r.
    rewrite andb_true_r.
    split.
    + intros ->. reflexivity.
    + intros Hpos s3 c w4 H3.
      assert (Hgt : (n >? 0) = true) by (apply Z.gtb_lt; lia).
      rewrite Hgt. unfold gbind.
      erewrite or_bail_ret by (eapply READ_CHAR_OR_BAIL_item; exact H3).
      reflexivity.
Qed.

End TypedWithoutCount.

Lemma typed_container_needs_count_witness :
  (let w := BytesIO.fixed BytesIO.prefs0 BytesIO.typed_uncounted_body in
   _decode_array (fun _ => bail) 0 w
   = (Null,
      set_exc (Some (DecoderException "Container type without count" 3))
        (with_buf (set_total_read 3) w)))
  /\ (let w := BytesIO.fixed BytesIO.prefs0 BytesIO.counted_untyped_body in
      _get_container_params 0 false true w
      = (Ret (mkParams "U" true 2 TYPE_NONE false, (0, [])),
         with_buf (set_total_read 4) w)).
Proof.
  split.
  - intros w.
    assert (H1 : READ_CHAR_OR_BAIL "a" w
                 = (Ret CONTAINER_TYPE, with_buf (set_total_read 1) w))
      by (vm_compute; reflexivity).
    assert (H2 : READ_CHAR_OR_BAIL "b" (with_buf (set_total_read 1) w)
                 = (Ret "U"%byte, with_buf (set_total_read 2) w))
      by (vm_compute; reflexivity).
    assert (H3 : READ_CHAR_OR_BAIL "c" (with_buf (set_total_read 2) w)
                 = (Ret "U"%byte, with_buf (set_total_read 3) w))
      by (vm_compute; reflexivity).
    assert (Hm : "U"%byte <> CONTAINER_COUNT) by discriminate.
    pose proof (proj1 (@typed_container_needs_count BytesIO.host (fun _ => bail))
                  0%nat false true w _ _ _ _ _ _ _ _ H1 H2 eq_refl H3 Hm) as H.
    exact (proj1 (proj2 H)).
  - intros w.
    assert (H1 : READ_CHAR_OR_BAIL "a" w
                 = (Ret CONTAINER_COUNT, with_buf (set_total_read 1) w))
      by (vm_compute; reflexivity).
    assert (H2 : READ_CHAR_OR_BAIL "b" (with_buf (set_total_read 1) w)
                 = (Ret "U"%byte, with_buf (set_total_read 2) w))
      by (vm_compute; reflexivity).
    assert (Hn : DECODE_LENGTH_OR_BAIL_MARKER "U" (with_buf (set_total_read 2) w)
                 = (Ret 2, with_buf (set_total_read 3) w))
      by (vm_compute; reflexivity).
    assert (H3 : READ_CHAR_OR_BAIL "c" (with_buf (set_total_read 3) w)
                 = (Ret "U"%byte, with_buf (set_total_read 4) w))
      by (vm_compute; reflexivity).
    assert (Hnd : true = false \/ "U"%byte <> ARRAY_START)
      by (right; discriminate).
    assert (Hpos : 2 > 0) by lia.
    pose proof (proj2 (@typed_container_needs_count BytesIO.host (fun _ => bail))
                  0%nat false true w _ _ _ _ _ _ _ H1 H2 Hnd Hn) as H.
    exact (proj2 H Hpos _ _ _ H3).
Defined.

(** ** Integer ranges *)

Lemma land_le_l (y x : Z) : 0 <= y -> 0 <= Z.land y x <= y.
Proof.
  intros Hy. split; [apply Z.land_nonneg; left; exact Hy|].
  pose proof (Z.lor_ldiff_and y x) as Hsplit.
  pose proof (Z.add_lor_land (Z.ldiff y x) (Z.land y x)) as Hadd.
  assert (Hdisj : Z.land (Z.ldiff y x) (Z.land y x) = 0).
  { rewrite (Z.land_comm y x), Z.land_assoc, Z.land_ldiff. apply Z.land_0_l. }
  assert (Hnn : 0 <= Z.ldiff y x)
    by (rewrite Z.ldiff_land; apply Z.land_nonneg; left; exact Hy).
  rewrite Hsplit, Hdisj in Hadd. lia.
Qed.

Lemma lor_ge_r (a b : Z) : 0 <= a -> b <= Z.lor a b.
Proof.
  intros Ha. pose proof (Z.add_lor_land a b) as Hadd.
  pose proof (land_le_l b Ha). lia.
Qed.

Lemma byte_to_Z_range (b : byte) : 0 <= byte_to_Z b < 256.
Proof.
  unfold byte_to_Z. pose proof (Byte.to_N_bounded b). lia.
Qed.

Lemma store_le_nonneg (raw : list byte) : 0 <= store_le raw.
Proof.
  induction raw as [|b rest IH]; cbn [store_le]; [lia|].
  apply Z.lor_nonneg. split.
  - apply byte_to_Z_range.
  - apply Z.shiftl_nonneg. exact IH.
Qed.

Lemma shift_be_nonneg (raw : list byte) : 0 <= shift_be raw.
Proof.
  unfold shift_be.
  assert (H : forall acc, 0 <= acc ->
            0 <= fold_left (fun value b => Z.lor (Z.shiftl value 8) (byte_to_Z b))
                   raw acc).
  { induction raw as [|b rest IH]; intros acc Hacc; cbn [fold_left];
      [exact Hacc|].
    apply IH. apply Z.lor_nonneg. split.
    - apply Z.shiftl_nonneg. exact Hacc.
    - apply byte_to_Z_range. }
  apply H. lia.
Qed.

(** The sign extension of [_decode_int16_32] never goes below the least
    number of the encoded width. *)
Lemma sign_extend_lower (value k : Z) :
  0 <= value -> 0 <= k ->
  - 2 ^ k <= Z.lor value (- Z.land value (Z.shiftl 1 k)).
Proof.
  intros Hv Hk.
  rewrite Z.shiftl_1_l.
  assert (Hmask : 0 <= Z.land value (2 ^ k) <= 2 ^ k).
  { rewrite Z.land_comm. apply land_le_l. apply Z.pow_nonneg. lia. }
  pose proof (lor_ge_r (- Z.land value (2 ^ k)) Hv). lia.
Qed.

Lemma to_signed_lower (w x : Z) : 0 < w -> - 2 ^ (w - 1) <= to_signed w x.
Proof.
  intros Hw. unfold to_signed.
  assert (Hpow : 2 ^ w = 2 * 2 ^ (w - 1)).
  { replace w with (Z.succ (w - 1)) at 1 by lia. apply Z.pow_succ_r. lia. }
  pose proof (Z.mod_pos_bound x (2 ^ w) ltac:(apply Z.pow_pos_nonneg; lia)).
  destruct (x mod 2 ^ w <? 2 ^ (w - 1)) eqn:Hlt; bool_to_Z; lia.
Qed.

Section IntegerFacts.
Context `{Host : PyHost}.

(** Whatever the integer decoders return fits the low end of [long long]. *)
Lemma _decode_int_switch_lower (m : byte) (w w' : world) (o : PyObject) :
  _decode_int_switch m w = (Ret o, w') ->
  exists v, o = PyLong v /\ - 2 ^ 63 <= v.
Proof.
  unfold _decode_int_switch.
  repeat match goal with
    | |- context [if byte_eqb m ?t then _ else _] => destruct (byte_eqb m t)
    end; intros H; try discriminate H.
  - unfold _decode_uint8 in H. apply bind_inv in H.
    destruct H as (c & w1 & _ & H). inversion H; subst.
    eexists; split; [reflexivity|]. pose proof (byte_to_Z_range c). lia.
  - unfold _decode_int8 in H. apply bind_inv in H.
    destruct H as (c & w1 & _ & H). inversion H; subst.
    eexists; split; [reflexivity|]. unfold signed_char.
    pose proof (@to_signed_lower 8 (byte_to_Z c) ltac:(lia)).
    change (2 ^ (8 - 1)) with 128 in *. lia.
  - unfold _decode_uint16_32 in H. apply bind_inv in H.
    destruct H as (raw & w1 & _ & H). inversion H; subst.
    eexists; split; [reflexivity|].
    destruct (islittle _);
      [pose proof (store_le_nonneg raw) | pose proof (shift_be_nonneg raw)]; lia.
  - unfold _decode_int16_32 in H. apply bind_inv in H.
    destruct H as (raw & w1 & _ & H). inversion H; subst.
    eexists; split; [reflexivity|].
    change (SIZEOF_LONG >? 2) with true. cbv iota.
    change (8 * 2 - 1) with 15.
    destruct (islittle _);
      [pose proof (@sign_extend_lower (store_le raw) 15 (store_le_nonneg raw) ltac:(lia))
      |pose proof (@sign_extend_lower (shift_be raw) 15 (shift_be_nonneg raw) ltac:(lia))];
      change (Z.shiftl 1 15) with 32768 in *; lia.
  - unfold _decode_uint16_32 in H. apply bind_inv in H.
    destruct H as (raw & w1 & _ & H). inversion H; subst.
    eexists; split; [reflexivity|].
    destruct (islittle _);
      [pose proof (store_le_nonneg raw) | pose proof (shift_be_nonneg raw)]; lia.
  - unfold _decode_int16_32 in H. apply bind_inv in H.
    destruct H as (raw & w1 & _ & H). inversion H; subst.
    eexists; split; [reflexivity|].
    change (SIZEOF_LONG >? 4) with true. cbv iota.
    change (8 * 4 - 1) with 31.
    destruct (islittle _);
      [pose proof (@sign_extend_lower (store_le raw) 31 (store_le_nonneg raw) ltac:(lia))
      |pose proof (@sign_extend_lower (shift_be raw) 31 (shift_be_nonneg raw) ltac:(lia))];
      change (Z.shiftl 1 31) with 2147483648 in *; lia.
  - unfold _decode_uint64 in H. apply bind_inv in H.
    destruct H as (raw & w1 & _ & H). inversion H; subst.
    eexists; split; [reflexivity|].
    destruct (islittle _);
      [pose proof (store_le_nonneg raw) | pose proof (shift_be_nonneg raw)]; lia.
  - unfold _decode_int64 in H. apply bind_inv in H.
    destruct H as (raw & w1 & _ & H). inversion H; subst.
    eexists; split; [reflexivity|].
    match goal with |- _ <= to_signed 64 ?x =>
      pose proof (@to_signed_lower 64 x ltac:(lia)) end.
    change (2 ^ (64 - 1)) with (2 ^ 63) in *. lia.
Qed.

End IntegerFacts.



(** ** Dictionaries and pair lists *)

Lemma bytes_eqb_eq (a b : list byte) : bytes_eqb a b = true <-> a = b.
Proof.
  revert b. induction a as [|x a IH]; intros [|y b]; simpl;
    try (split; [discriminate|discriminate]); try tauto.
  rewrite andb_true_iff, byte_eqb_eq, IH. split.
  - intros [-> ->]. reflexivity.
  - intros H. inversion H. auto.
Qed.

Lemma PyDict_GetItem_SetItem (d : list (list byte * PyObject))
  (k k' : list byte) (v : PyObject) :
  PyDict_GetItem (PyDict_SetItem d k' v) k
  = if bytes_eqb k k' then Some v else PyDict_GetItem d k.
Proof.
  induction d as [|[k0 v0] rest IH]; simpl.
  - reflexivity.
  - destruct (bytes_eqb k' k0) eqn:Hk; simpl.
    + apply bytes_eqb_eq in Hk. subst k0.
      destruct (bytes_eqb k k'); reflexivity.
    + rewrite IH. destruct (bytes_eqb k k0) eqn:Hk0; [|reflexivity].
      apply bytes_eqb_eq in Hk0. subst k0.
      destruct (bytes_eqb k k') eqn:Hkk; [|reflexivity].
      apply bytes_eqb_eq in Hkk. subst k'.
      assert (Hrefl : bytes_eqb k k = true) by (apply bytes_eqb_eq; reflexivity).
      congruence.
Qed.

Lemma dict_of_snoc (kvs : list (list byte * PyObject)) (k : list byte)
  (v : PyObject) :
  dict_of (kvs ++ [(k, v)]) = PyDict_SetItem (dict_of kvs) k v.
Proof. unfold dict_of. rewrite fold_left_app. reflexivity. Qed.

Lemma items_of_snoc (kvs : list (list byte * PyObject)) (k : list byte)
  (v : PyObject) :
  items_of (kvs ++ [(k, v)]) = items_of kvs ++ [PyTuple [PyUnicode k; v]].
Proof. unfold items_of. rewrite map_app. reflexivity. Qed.

(** In the dict built from a pair sequence each key is bound to the value
    of its last pair. *)
Lemma dict_of_last_value (kvs : list (list byte * PyObject)) (k : list byte) :
  PyDict_GetItem (dict_of kvs) k = last_value k kvs.
Proof.
  induction kvs as [|[k' v'] kvs IH] using rev_ind.
  - reflexivity.
  - rewrite dict_of_snoc, PyDict_GetItem_SetItem.
    unfold last_value. rewrite rev_app_distr. simpl.
    destruct (bytes_eqb k k'); [reflexivity|]. exact IH.
Qed.

Section ObjectLoops.
Context `{Host : PyHost}.
Variable decode_value : option byte -> M PyObject.

(** The context string of a key only shows in the error message. *)
Lemma DECODE_OBJECT_KEY_ctx (m : byte) (ctx ctx' : string) (intern : bool)
  (w w' : world) (k : list byte) :
  DECODE_OBJECT_KEY_OR_RAISE_ENCODER_EXCEPTION m ctx intern w = (Ret k, w') ->
  DECODE_OBJECT_KEY_OR_RAISE_ENCODER_EXCEPTION m ctx' intern w = (Ret k, w').
Proof.
  unfold DECODE_OBJECT_KEY_OR_RAISE_ENCODER_EXCEPTION.
  destruct (_decode_object_key m intern w) as [[k0| |] w0]; intros H;
    try discriminate H; exact H.
Qed.

Lemma pairs_no_data_lockstep (n : nat) :
  forall (intern : bool) (value : PyObject) (m : byte)
         (acc : list (list byte * PyObject)) (w w' : world) (lst : list PyObject),
    pairs_loop_no_data n intern value m (items_of acc) w = (Ret lst, w') ->
    exists kvs,
      lst = items_of (acc ++ kvs)
      /\ object_loop_no_data n intern value m (dict_of acc) w
         = (Ret (dict_of (acc ++ kvs)), w')
      /\ List.length kvs = n.
Proof.
  induction n as [|n IH]; intros intern value m acc w w' lst H.
  - simpl in H. inversion H; subst. exists []. rewrite app_nil_r. auto.
  - cbn [pairs_loop_no_data] in H. apply bind_inv in H.
    destruct H as (key & w1 & Hkey & H).
    unfold pack_item in H. rewrite <- items_of_snoc in H.
    cbn [object_loop_no_data]. erewrite bind_ret by exact Hkey.
    rewrite <- dict_of_snoc.
    destruct n as [|n'].
    + apply IH in H. destruct H as (kvs & -> & Hd & Hl).
      exists ((key, value) :: kvs). rewrite <- app_assoc in *. simpl in *.
      auto.
    + apply bind_inv in H. destruct H as (m1 & w2 & Hm1 & H).
      erewrite bind_ret by exact Hm1.
      apply IH in H. destruct H as (kvs & -> & Hd & Hl).
      exists ((key, value) :: kvs). rewrite <- app_assoc in *. simpl in *.
      auto.
Qed.

Lemma pairs_counted_lockstep (fuel : nat) :
  forall (intern : bool) (ft : option byte) (count : Z) (m : byte)
         (acc : list (list byte * PyObject)) (w w' : world) (lst : list PyObject),
    pairs_loop_counted decode_value fuel intern ft count m (items_of acc) w
    = (Ret lst, w') ->
    exists kvs,
      lst = items_of (acc ++ kvs)
      /\ object_loop decode_value fuel intern ft true count m (dict_of acc) w
         = (Ret (dict_of (acc ++ kvs)), w')
      /\ Zlength' kvs = Z.max 0 count.
Proof.
  induction fuel as [|fuel IH]; intros intern ft count m acc w w' lst H.
  - cbn [pairs_loop_counted] in H. cbn [object_loop]. simpl orb.
    rewrite andb_true_r.
    destruct (count >? 0) eqn:Hc; [discriminate H|].
    inversion H; subst. exists []. rewrite app_nil_r. bool_to_Z.
    repeat split; auto. unfold Zlength'. simpl. lia.
  - cbn [pairs_loop_counted] in H. cbn [object_loop]. simpl orb.
    rewrite andb_true_r.
    destruct (count >? 0) eqn:Hc.
    2:{ inversion H; subst. exists []. rewrite app_nil_r. bool_to_Z.
        repeat split; auto. unfold Zlength'. simpl. lia. }
    destruct (byte_eqb TYPE_NOOP m).
    + apply bind_inv in H. destruct H as (m1 & w1 & Hm1 & H).
      erewrite bind_ret by (eapply READ_CHAR_OR_BAIL_item; exact Hm1).
      apply IH in H. exact H.
    + apply bind_inv in H. destruct H as (key & w1 & Hkey & H).
      apply bind_inv in H. destruct H as (value & w2 & Hval & H).
      erewrite bind_ret by (eapply DECODE_OBJECT_KEY_ctx; exact Hkey).
      erewrite bind_ret by exact Hval.
      unfold pack_item in H. rewrite <- items_of_snoc in H.
      rewrite <- dict_of_snoc. bool_to_Z.
      destruct (count - 1 >? 0) eqn:Hc1.
      * apply bind_inv in H. destruct H as (m1 & w3 & Hm1 & H).
        erewrite bind_ret by (eapply READ_CHAR_OR_BAIL_item; exact Hm1).
        apply IH in H. destruct H as (kvs & -> & Hd & Hl).
        exists ((key, value) :: kvs). rewrite <- app_assoc in *.
        repeat split; auto. unfold Zlength' in *. simpl List.length. lia.
      * apply IH in H. destruct H as (kvs & -> & Hd & Hl).
        exists ((key, value) :: kvs). rewrite <- app_assoc in *.
        repeat split; auto. bool_to_Z. unfold Zlength' in *. simpl List.length. lia.
Qed.

Lemma pairs_uncounted_lockstep (fuel : nat) :
  forall (intern : bool) (ft : option byte) (m : byte)
         (acc : list (list byte * PyObject)) (w w' : world) (lst : list PyObject),
    pairs_loop_uncounted decode_value fuel intern ft m (items_of acc) w
    = (Ret lst, w') ->
    exists kvs,
      lst = items_of (acc ++ kvs)
      /\ object_loop decode_value fuel intern ft false 1 m (dict_of acc) w
         = (Ret (dict_of (acc ++ kvs)), w').
Proof.
  induction fuel as [|fuel IH]; intros intern ft m acc w w' lst H.
  - cbn [pairs_loop_uncounted] in H. cbn [object_loop].
    change (1 >? 0) with true.
    destruct (byte_eqb OBJECT_END m); [|discriminate H].
    inversion H; subst. exists []. rewrite app_nil_r. auto.
  - cbn [pairs_loop_uncounted] in H. cbn [object_loop].
    change (1 >? 0) with true.
    destruct (byte_eqb OBJECT_END m).
    { inversion H; subst. exists []. rewrite app_nil_r. auto. }
    cbn [andb orb negb].
    destruct (byte_eqb TYPE_NOOP m).
    + apply bind_inv in H. destruct H as (m1 & w1 & Hm1 & H).
      apply IH in H. destruct H as (kvs & -> & Hd).
      exists kvs. split; [reflexivity|].
      erewrite bind_ret by (eapply READ_CHAR_OR_BAIL_item; exact Hm1).
      exact Hd.
    + apply bind_inv in H. destruct H as (key & w1 & Hkey & H).
      apply bind_inv in H. destruct H as (value & w2 & Hval & H).
      apply bind_inv in H. destruct H as (m1 & w3 & Hm1 & H).
      unfold pack_item in H. rewrite <- items_of_snoc in H.
      apply IH in H. destruct H as (kvs & -> & Hd).
      exists ((key, value) :: kvs). rewrite <- app_assoc in *.
      split; [reflexivity|].
      erewrite bind_ret by (eapply DECODE_OBJECT_KEY_ctx; exact Hkey).
      erewrite bind_ret by exact Hval.
      erewrite bind_ret by (eapply READ_CHAR_OR_BAIL_item; exact Hm1).
      rewrite <- dict_of_snoc. exact Hd.
Qed.

(** The other way round: where the mapping-mode loop fills a dict, the
    pair-mode loop on the same input builds the list of the same pairs. *)
Lemma dict_no_data_lockstep (n : nat) :
  forall (intern : bool) (value : PyObject) (m : byte)
         (acc : list (list byte * PyObject)) (w w' : world)
         (d : list (list byte * PyObject)),
    object_loop_no_data n intern value m (dict_of acc) w = (Ret d, w') ->
    exists kvs,
      d = dict_of (acc ++ kvs)
      /\ pairs_loop_no_data n intern value m (items_of acc) w
         = (Ret (items_of (acc ++ kvs)), w')
      /\ List.length kvs = n.
Proof.
  induction n as [|n IH]; intros intern value m acc w w' d H.
  - simpl in H. inversion H; subst. exists []. rewrite app_nil_r. auto.
  - cbn [object_loop_no_data] in H. apply bind_inv in H.
    destruct H as (key & w1 & Hkey & H).
    rewrite <- dict_of_snoc in H.
    cbn [pairs_loop_no_data]. erewrite bind_ret by exact Hkey.
    unfold pack_item. rewrite <- items_of_snoc.
    destruct n as [|n'].
    + apply IH in H. destruct H as (kvs & -> & Hl & Hn).
      exists ((key, value) :: kvs). rewrite <- app_assoc in *. simpl in *.
      auto.
    + apply bind_inv in H. destruct H as (m1 & w2 & Hm1 & H).
      erewrite bind_ret by exact Hm1.
      apply IH in H. destruct H as (kvs & -> & Hl & Hn).
      exists ((key, value) :: kvs). rewrite <- app_assoc in *. simpl in *.
      auto.
Qed.

Lemma dict_counted_lockstep (fuel : nat) :
  forall (intern : bool) (ft : option byte) (count : Z) (m : byte)
         (acc : list (list byte * PyObject)) (w w' : world)
         (d : list (list byte * PyObject)),
    object_loop decode_value fuel intern ft true count m (dict_of acc) w
    = (Ret d, w') ->
    exists kvs,
      d = dict_of (acc ++ kvs)
      /\ pairs_loop_counted decode_value fuel intern ft count m (items_of acc) w
         = (Ret (items_of (acc ++ kvs)), w')
      /\ Zlength' kvs = Z.max 0 count.
Proof.
  induction fuel as [|fuel IH]; intros intern ft count m acc w w' d H.
  - cbn [object_loop] in H. cbn [pairs_loop_counted]. simpl orb in H.
    rewrite andb_true_r in H.
    destruct (count >? 0) eqn:Hc; [discriminate H|].
    inversion H; subst. exists []. rewrite app_nil_r. bool_to_Z.
    repeat split; auto. unfold Zlength'. simpl. lia.
  - cbn [object_loop] in H. cbn [pairs_loop_counted]. simpl orb in H.
    rewrite andb_true_r in H.
    destruct (count >? 0) eqn:Hc.
    2:{ inversion H; subst. exists []. rewrite app_nil_r. bool_to_Z.
        repeat split; auto. unfold Zlength'. simpl. lia. }
    destruct (byte_eqb TYPE_NOOP m).
    + apply bind_inv in H. destruct H as (m1 & w1 & Hm1 & H).
      erewrite bind_ret by (eapply READ_CHAR_OR_BAIL_item; exact Hm1).
      apply IH in H. exact H.
    + apply bind_inv in H. destruct H as (key & w1 & Hkey & H).
      apply bind_inv in H. destruct H as (value & w2 & Hval & H).
      erewrite bind_ret by (eapply DECODE_OBJECT_KEY_ctx; exact Hkey).
      erewrite bind_ret by exact Hval.
      rewrite <- dict_of_snoc in H.
      unfold pack_item. rewrite <- items_of_snoc. bool_to_Z.
      cbv zeta in H |- *.
      destruct (count - 1 >? 0) eqn:Hc1.
      * apply bind_inv in H. destruct H as (m1 & w3 & Hm1 & H).
        erewrite bind_ret by (eapply READ_CHAR_OR_BAIL_item; exact Hm1).
        apply IH in H. destruct H as (kvs & -> & Hl & Hn).
        exists ((key, value) :: kvs). rewrite <- app_assoc in *.
        repeat split; auto. unfold Zlength' in *. simpl List.length. lia.
      * apply IH in H. destruct H as (kvs & -> & Hl & Hn).
        exists ((key, value) :: kvs). rewrite <- app_assoc in *.
        repeat split; auto. bool_to_Z. unfold Zlength' in *.
        simpl List.length. lia.
Qed.

Lemma dict_uncounted_lockstep (fuel : nat) :
  forall (intern : bool) (ft : option byte) (m : byte)
         (acc : list (list byte * PyObject)) (w w' : world)
         (d : list (list byte * PyObject)),
    object_loop decode_value fuel intern ft false 1 m (dict_of acc) w
    = (Ret d, w') ->
    exists kvs,
      d = dict_of (acc ++ kvs)
      /\ pairs_loop_uncounted decode_value fuel intern ft m (items_of acc) w
         = (Ret (items_of (acc ++ kvs)), w').
Proof.
  induction fuel as [|fuel IH]; intros intern ft m acc w w' d H.
  - cbn [object_loop] in H. cbn [pairs_loop_uncounted].
    change (1 >? 0) with true in H.
    destruct (byte_eqb OBJECT_END m); [|discriminate H].
    inversion H; subst. exists []. rewrite app_nil_r. auto.
  - cbn [object_loop] in H. cbn [pairs_loop_uncounted].
    change (1 >? 0) with true in H.
    destruct (byte_eqb OBJECT_END m).
    { inversion H; subst. exists []. rewrite app_nil_r. auto. }
    cbn [andb orb negb] in H.
    destruct (byte_eqb TYPE_NOOP m).
    + apply bind_inv in H. destruct H as (m1 & w1 & Hm1 & H).
      apply IH in H. destruct H as (kvs & -> & Hl).
      exists kvs. split; [reflexivity|].
      erewrite bind_ret by (eapply READ_CHAR_OR_BAIL_item; exact Hm1).
      exact Hl.
    + apply bind_inv in H. destruct H as (key & w1 & Hkey & H).
      apply bind_inv in H. destruct H as (value & w2 & Hval & H).
      cbv zeta in H. change (1 >? 0) with true in H. cbv iota in H.
      apply bind_inv in H. destruct H as (m1 & w3 & Hm1 & H).
      rewrite <- dict_of_snoc in H.
      apply IH in H. destruct H as (kvs & -> & Hl).
      exists ((key, value) :: kvs). rewrite <- app_assoc in *.
      split; [reflexivity|].
      erewrite bind_ret by (eapply DECODE_OBJECT_KEY_ctx; exact Hkey).
      erewrite bind_ret by exact Hval.
      erewrite bind_ret by (eapply READ_CHAR_OR_BAIL_item; exact Hm1).
      unfold pack_item. rewrite <- items_of_snoc. exact Hl.
Qed.

(** Without the N-D out-parameters no dimension comes back. *)
Lemma _get_container_params_no_dims (fuel : nat) (im : bool) (w w' : world)
  (p : _container_params_t) (nds : Z * list Z) :
  _get_container_params fuel im false w = (Ret (p, nds), w') -> nds = (0, []).
Proof.
  unfold _get_container_params, run_G. intros H.
  destruct (get_container_params_body _ fuel im false w) as [[r| q|] w1] eqn:Hb;
    try discriminate; [|inversion H; reflexivity].
  inversion H; subst. clear H.
  unfold get_container_params_body in Hb.
  apply gbind_inv in Hb. destruct Hb as ([p0 m0] & w0 & _ & Hb).
  destruct (byte_eqb CONTAINER_COUNT m0).
  - apply gbind_inv in Hb. destruct Hb as ([[p1 m1] n1] & w2 & Hc & Hb).
    apply gbind_inv in Hb. destruct Hb as (m2 & w3 & _ & Hb).
    unfold gret in Hb. inversion Hb; subst. clear Hb.
    unfold header_count in Hc.
    apply gbind_inv in Hc. destruct Hc as (m3 & w4 & _ & Hc).
    rewrite andb_false_r in Hc.
    destruct (DECODE_LENGTH_OR_BAIL_MARKER m3 w4) as [[n| |] w5];
      inversion Hc; reflexivity.
  - destruct (byte_eqb TYPE_NONE (type p0)).
    + unfold gret in Hb. inversion Hb; reflexivity.
    + apply gbind_inv in Hb. destruct Hb as (u & w3 & Hb & _).
      apply or_bail_inv in Hb. discriminate.
Qed.

End ObjectLoops.

(** C7.  An object whose header was accepted.  Where the pair-mode loops
    decode its pairs as the list [lst], [lst] is the sequence [kvs] of
    decoded (key, value) pairs, one item per pair in the order of decoding
    with duplicates kept (as many as the count, when counted); it is the
    list the pairs hook is called on, and on the same input the
    mapping-mode loops build the dict that binds each key to the value of
    its last pair in [kvs].  The other way round, where the mapping-mode
    loops fill a dict, the pair-mode loops produce the list of the same
    pairs: the two modes decode the same objects, whichever loop the
    header selects (counted without data, counted, terminated).  Scenario
    6, the same object with a count, and a counted object of type true
    with the key [a] twice decode to [{"a": 5}], [{"a": 5}] and
    [{"a": true}] in mapping mode, and in pair mode the hook receives both
    pairs of each, in order. *)
Theorem duplicate_keys_last_wins_pairs_keep_all :
  (forall (Host : PyHost) (decode_value : option byte -> M PyObject)
          (fuel : nat) (w w1 : world) (params : _container_params_t)
          (nds : Z * list Z),
      _get_container_params fuel true false w = (Ret (params, nds), w1) ->
      invalid params = false ->
      let intern := intern_object_keys (prefs (buf w1)) in
      (forall (lst : list PyObject) (w2 : world),
          collect_pairs decode_value fuel intern params w1 = (Ret lst, w2) ->
          exists kvs,
            lst = items_of kvs
            /\ collect_dict decode_value fuel intern params w1
               = (Ret (dict_of kvs), w2)
            /\ _decode_object_with_pairs_hook decode_value fuel w
               = call_hook (object_pairs_hook (prefs (buf w1)))
                   (PyList (items_of kvs)) w2
            /\ _decode_object decode_value fuel w
               = finish_object (prefs (buf w1)) (dict_of kvs) w2
            /\ (forall k, PyDict_GetItem (dict_of kvs) k = last_value k kvs)
            /\ (counting params = true
                -> Zlength' kvs = Z.max 0 (count params)))
      /\ (forall (d : list (list byte * PyObject)) (w2 : world),
             collect_dict decode_value fuel intern params w1 = (Ret d, w2) ->
             exists kvs,
               d = dict_of kvs
               /\ collect_pairs decode_value fuel intern params w1
                  = (Ret (items_of kvs), w2)
               /\ _decode_object_with_pairs_hook decode_value fuel w
                  = call_hook (object_pairs_hook (prefs (buf w1)))
                      (PyList (items_of kvs)) w2
               /\ _decode_object decode_value fuel w
                  = finish_object (prefs (buf w1)) (dict_of kvs) w2
               /\ (forall k, PyDict_GetItem d k = last_value k kvs)
               /\ (counting params = true
                   -> Zlength' kvs = Z.max 0 (count params))))
  /\ BytesIO.decode_fixed BytesIO.prefs0 5 BytesIO.duplicate_key_object
     = (Ret (PyDict [(["a"%byte], PyLong 5)]), 12, None)
  /\ BytesIO.decode_fixed BytesIO.prefs0 5 BytesIO.counted_duplicate_key_object
     = (Ret (PyDict [(["a"%byte], PyLong 5)]), 14, None)
  /\ BytesIO.decode_fixed BytesIO.prefs0 5 BytesIO.no_data_duplicate_key_object
     = (Ret (PyDict [(["a"%byte], Py_True)]), 12, None)
  /\ (forall f : hook_fn,
         let outcome (n : Z) (lst : list PyObject) :=
           match f (PyList lst) with
           | inr obj => (Ret obj, n, None)
           | inl e => (Null, n, Some e)
           end in
         BytesIO.decode_fixed (BytesIO.prefs_pairs_hook f) 5
           BytesIO.duplicate_key_object
         = outcome 12 [PyTuple [PyUnicode ["a"%byte]; PyLong 2];
                       PyTuple [PyUnicode ["a"%byte]; PyLong 5]]
         /\ BytesIO.decode_fixed (BytesIO.prefs_pairs_hook f) 5
              BytesIO.counted_duplicate_key_object
            = outcome 14 [PyTuple [PyUnicode ["a"%byte]; PyLong 2];
                          PyTuple [PyUnicode ["a"%byte]; PyLong 5]]
         /\ BytesIO.decode_fixed (BytesIO.prefs_pairs_hook f) 5
              BytesIO.no_data_duplicate_key_object
            = outcome 12 [PyTuple [PyUnicode ["a"%byte]; Py_True];
                          PyTuple [PyUnicode ["a"%byte]; Py_True]]).
Proof.
  split; [|split; [|split; [|split]]].
  - intros Host decode_value fuel w w1 params [ndims dims] Hhdr Hinv intern.
    destruct (_get_container_params_valid _ _ _ _ Hhdr Hinv) as (_ & Hunc & Hnn).
    pose proof (_get_container_params_no_dims _ _ _ Hhdr) as Hflat.
    inversion Hflat; subst ndims dims. clear Hflat. cbn [snd] in Hnn.
    assert (Hobj : forall kvs w2,
               collect_pairs decode_value fuel intern params w1
               = (Ret (items_of kvs), w2) ->
               collect_dict decode_value fuel intern params w1
               = (Ret (dict_of kvs), w2) ->
               _decode_object_with_pairs_hook decode_value fuel w
               = call_hook (object_pairs_hook (prefs (buf w1)))
                   (PyList (items_of kvs)) w2
               /\ _decode_object decode_value fuel w
                  = finish_object (prefs (buf w1)) (dict_of kvs) w2
               /\ (forall k, PyDict_GetItem (dict_of kvs) k = last_value k kvs)).
    { intros kvs w2 Hpairs Hdict. split; [|split].
      - unfold _decode_object_with_pairs_hook. erewrite bind_ret by exact Hhdr.
        cbv beta iota. rewrite bind_get_prefs. rewrite Hinv.
        erewrite bind_ret by exact Hpairs. reflexivity.
      - unfold _decode_object. erewrite bind_ret by exact Hhdr.
        cbv beta iota. rewrite bind_get_prefs. rewrite Hinv.
        erewrite bind_ret by exact Hdict. reflexivity.
      - intros k. apply dict_of_last_value. }
    split.
    + intros lst w2 Hpairs.
      assert (Hlock : exists kvs,
                 lst = items_of kvs
                 /\ collect_dict decode_value fuel intern params w1
                    = (Ret (dict_of kvs), w2)
                 /\ (counting params = true
                     -> Zlength' kvs = Z.max 0 (count params))).
      { unfold collect_pairs in Hpairs. unfold collect_dict.
        destruct (counting params) eqn:Hc.
        - apply bind_inv in Hpairs. destruct Hpairs as (u & w0 & Hnew & Hpairs).
          unfold PyList_New in Hnew.
          destruct (count params <? 0); [discriminate Hnew|].
          inversion Hnew; subst w0. clear Hnew.
          destruct (_is_no_data_type (type params)); cbn [andb].
          + apply bind_inv in Hpairs. destruct Hpairs as (value & w3 & Hv & Hl).
            apply (pairs_no_data_lockstep _ _ _ _ []) in Hl.
            destruct Hl as (kvs & -> & Hd & Hn).
            exists kvs. split; [reflexivity|]. split.
            * erewrite bind_ret by exact Hv. exact Hd.
            * intros _. unfold Zlength'. rewrite Hn. lia.
          + apply (pairs_counted_lockstep _ _ _ _ _ _ []) in Hpairs.
            destruct Hpairs as (kvs & -> & Hd & Hn).
            exists kvs. auto.
        - destruct (Hunc eq_refl) as (Hone & _ & _). rewrite Hone. cbn [andb].
          apply (pairs_uncounted_lockstep _ _ _ _ _ []) in Hpairs.
          destruct Hpairs as (kvs & -> & Hd).
          exists kvs. split; [reflexivity|]. split; [exact Hd|discriminate]. }
      destruct Hlock as (kvs & -> & Hdict & Hlen).
      destruct (Hobj kvs w2 Hpairs Hdict) as (H1 & H2 & H3).
      exists kvs. repeat split; assumption.
    + intros d w2 Hdict.
      assert (Hlock : exists kvs,
                 d = dict_of kvs
                 /\ collect_pairs decode_value fuel intern params w1
                    = (Ret (items_of kvs), w2)
                 /\ (counting params = true
                     -> Zlength' kvs = Z.max 0 (count params))).
      { unfold collect_dict in Hdict. unfold collect_pairs.
        destruct (counting params) eqn:Hc.
        - specialize (Hnn eq_refl).
          unfold PyList_New.
          replace (count params <? 0) with false
            by (symmetry; apply Z.ltb_ge; exact Hnn).
          unfold bind at 1. cbn [ret].
          destruct (_is_no_data_type (type params)); cbn [andb] in Hdict.
          + apply bind_inv in Hdict. destruct Hdict as (value & w3 & Hv & Hl).
            apply (dict_no_data_lockstep _ _ _ _ []) in Hl.
            destruct Hl as (kvs & -> & Hd & Hn).
            exists kvs. split; [reflexivity|]. split.
            * erewrite bind_ret by exact Hv. exact Hd.
            * intros _. unfold Zlength'. rewrite Hn. lia.
          + apply (dict_counted_lockstep _ _ _ _ _ _ []) in Hdict.
            destruct Hdict as (kvs & -> & Hd & Hn).
            exists kvs. auto.
        - destruct (Hunc eq_refl) as (Hone & _ & _).
          rewrite Hone in Hdict. cbn [andb] in Hdict.
          apply (dict_uncounted_lockstep _ _ _ _ _ []) in Hdict.
          destruct Hdict as (kvs & -> & Hd).
          exists kvs. split; [reflexivity|]. split; [exact Hd|discriminate]. }
      destruct Hlock as (kvs & -> & Hpairs & Hlen).
      destruct (Hobj kvs w2 Hpairs Hdict) as (H1 & H2 & H3).
      exists kvs. repeat split; assumption.
  - vm_compute. reflexivity.
  - vm_compute. reflexivity.
  - vm_compute. reflexivity.
  - intros f outcome. subst outcome. cbv beta.
    repeat split; vm_compute; destruct (f _); reflexivity.
Qed.

Lemma duplicate_keys_last_wins_pairs_keep_all_witness :
  let w := BytesIO.fixed BytesIO.prefs0 BytesIO.duplicate_key_body in
  let dv := _bjdata_decode_value 3 1 in
  exists kvs,
    [PyTuple [PyUnicode ["a"%byte]; PyLong 2];
     PyTuple [PyUnicode ["a"%byte]; PyLong 5]] = items_of kvs
    /\ fst (_decode_object dv 5 w) = Ret (PyDict (dict_of kvs))
    /\ PyDict_GetItem (dict_of kvs) ["a"%byte] = last_value ["a"%byte] kvs.
Proof.
  intros w dv.
  assert (Hhdr : _get_container_params 5 true false w
                 = (Ret (mkParams "U" false 1 x00 false, (0, [])),
                    with_buf (set_total_read 1) w))
    by (vm_compute; reflexivity).
  assert (Hpairs : collect_pairs dv 5 false (mkParams "U" false 1 x00 false)
                     (with_buf (set_total_read 1) w)
                   = (Ret [PyTuple [PyUnicode ["a"%byte]; PyLong 2];
                           PyTuple [PyUnicode ["a"%byte]; PyLong 5]],
                      with_buf (set_total_read 11) w))
    by (vm_compute; reflexivity).
  destruct (proj1 (proj1 duplicate_keys_last_wins_pairs_keep_all
                     BytesIO.host dv 5%nat w _ _ _ Hhdr eq_refl)
              _ _ Hpairs)
    as (kvs & Hitems & _ & _ & Hobj & Hlast & _).
  exists kvs. split; [exact Hitems|]. split.
  - rewrite Hobj. reflexivity.
  - apply Hlast.
Defined.



Section HeaderProducts.
Context `{Host : PyHost}.

(** ** The element count of an N-D header *)

Lemma nd_dims_counted_product (n : nat) :
  forall (p : _container_params_t) (t : byte) (l : list Z) (w w' : world)
         (p' : _container_params_t) (l' : list Z),
    nd_dims_counted p t n l w = (GRet (p', l'), w') ->
    exists ls, l' = l ++ ls
               /\ count p' = fold_left (fun c x => to_signed 64 (c * x)) ls (count p).
Proof.
  induction n as [|n IH]; intros p t l w w' p' l' H; simpl in H.
  - unfold gret in H. inversion H; subst. exists []. rewrite app_nil_r. auto.
  - apply gbind_inv in H. destruct H as (len & w1 & _ & H).
    apply IH in H. destruct H as (ls & -> & Hc). simpl in Hc.
    exists (len :: ls). rewrite <- app_assoc. auto.
Qed.

Lemma nd_dims_uncounted_product (fuel : nat) :
  forall (p : _container_params_t) (m : byte) (l : list Z) (w w' : world)
         (p' : _container_params_t) (m' : byte) (l' : list Z),
    nd_dims_uncounted fuel p m l w = (GRet (p', m', l'), w') ->
    exists ls, l' = l ++ ls
               /\ count p' = fold_left (fun c x => to_signed 64 (c * x)) ls (count p).
Proof.
  induction fuel as [|fuel IH]; intros p m l w w' p' m' l' H; simpl in H.
  - destruct (byte_eqb ARRAY_END m); [|discriminate].
    unfold gret in H. inversion H; subst. exists []. rewrite app_nil_r. auto.
  - destruct (byte_eqb ARRAY_END m).
    + unfold gret in H. inversion H; subst. exists []. rewrite app_nil_r. auto.
    + apply gbind_inv in H. destruct H as (len & w1 & _ & H).
      apply gbind_inv in H. destruct H as (m1 & w2 & _ & H).
      apply IH in H. destruct H as (ls & -> & Hc). simpl in Hc.
      exists (len :: ls). rewrite <- app_assoc. auto.
Qed.

Lemma header_count_product (self : M _container_params_t) (fuel : nat)
  (nd : bool) (p0 p : _container_params_t) (m : byte) (ndims : Z)
  (dims : list Z) (w w' : world) :
  header_count self fuel nd p0 w = (GRet (p, m, (ndims, dims)), w') ->
  ndims <> 0 -> count p = wrapped_product dims.
Proof.
  unfold header_count. intros H Hnd.
  apply gbind_inv in H. destruct H as (m2 & w1 & _ & H).
  destruct (byte_eqb ARRAY_START m2 && nd).
  - apply gbind_inv in H. destruct H as (ds & w2 & _ & H).
    destruct (counting ds).
    + apply gbind_inv in H. destruct H as ([p1 l1] & w3 & H1 & H).
      unfold gret in H. inversion H; subst.
      apply nd_dims_counted_product in H1. destruct H1 as (ls & Hl & Hc).
      simpl in Hl, Hc. subst. exact Hc.
    + apply gbind_inv in H. destruct H as ([[p1 m1] l1] & w3 & H1 & H).
      unfold gret in H. inversion H; subst.
      apply nd_dims_uncounted_product in H1. destruct H1 as (ls & Hl & Hc).
      simpl in Hl, Hc. subst. exact Hc.
  - destruct (DECODE_LENGTH_OR_BAIL_MARKER m2 w1) as [[n| |] w2];
      try discriminate.
    inversion H; subst. contradiction.
Qed.

Lemma _get_container_params_product (fuel : nat) (im nd : bool) (w w' : world)
  (p : _container_params_t) (ndims : Z) (dims : list Z) :
  _get_container_params fuel im nd w = (Ret (p, (ndims, dims)), w') ->
  invalid p = false -> ndims <> 0 -> count p = wrapped_product dims.
Proof.
  unfold _get_container_params, run_G. intros H Hv Hnd.
  destruct (get_container_params_body _ fuel im nd w) as [[r| q|] w1] eqn:Hb;
    try discriminate.
  - inversion H; subst. clear H.
    unfold get_container_params_body in Hb.
    apply gbind_inv in Hb. destruct Hb as ([p0 m0] & w0 & Hh & Hb).
    destruct (byte_eqb CONTAINER_COUNT m0).
    + apply gbind_inv in Hb. destruct Hb as ([[p1 m1] [n1 d1]] & w2 & Hc & Hb).
      apply gbind_inv in Hb. destruct Hb as (m2 & w3 & _ & Hb).
      unfold gret in Hb. inversion Hb; subst. simpl.
      eapply header_count_product; eassumption.
    + destruct (byte_eqb TYPE_NONE (type p0)).
      * unfold gret in Hb. inversion Hb; subst. contradiction.
      * apply gbind_inv in Hb. destruct Hb as (u & w3 & Hb & _).
        apply or_bail_inv in Hb. discriminate.
  - inversion H; subst. contradiction.
Qed.

End HeaderProducts.

(** ** What the whole decoder keeps

    Whatever the reads keep, every function of the decoder keeps: the
    lemmas below carry a property of [ACTION_READ] through the scalars,
    the headers, the loops and [_bjdata_decode_value]. *)

Section Triples.
Context `{Host : PyHost}.
Variable S : outcome_spec.
(** the lengths a read may be asked for *)
Variable LenOk : Z -> Prop.

Hypothesis ret_exc : forall w e, on_ret S w -> on_ret S (set_exc (Some e) w).
Hypothesis null_raise : forall w e, on_ret S w -> on_null S (set_exc (Some e) w).
Hypothesis null_bail : forall w, on_ret S w -> exc w <> None -> on_null S w.
Hypothesis null_again : forall w e, on_null S w -> on_null S (set_exc (Some e) w).
Hypothesis null_ret : forall w, on_null S w -> on_ret S w.
Hypothesis fuel_ret : forall w, on_ret S w -> on_fuel S w.
Hypothesis LenOk_nonneg : forall len, 0 <= len -> LenOk len.
Hypothesis LenOk_numpy :
  forall (nd : Z) (dims : list Z) (t : byte),
    PyArray_SimpleNew_ok nd dims (fst (_get_type_info t)) = true ->
    LenOk (to_signed 64 (snd (_get_type_info t) * wrapped_product dims)).
Hypothesis read_sat :
  forall len dst s, LenOk len -> sat S (ACTION_READ len dst s).

Lemma sat_ret {A} (a : A) : sat S (ret a).
Proof. intros w Hw. exact Hw. Qed.

Lemma sat_out_of_fuel {A} : sat S (@out_of_fuel _ A).
Proof. intros w Hw. apply fuel_ret. exact Hw. Qed.

Lemma sat_raise {A} (e : pyerr) : sat S (@raise _ A e).
Proof. intros w Hw. apply null_raise. exact Hw. Qed.

Lemma sat_RAISE {A} (msg : string) : sat S (@RAISE_DECODER_EXCEPTION _ A msg).
Proof. intros w Hw. apply null_raise. exact Hw. Qed.

Lemma sat_get_prefs : sat S get_prefs.
Proof. intros w Hw. exact Hw. Qed.

(** The continuation need only behave on what the first part can return. *)
Lemma sat_bind {A B} (m : M A) (k : A -> M B) :
  sat S m ->
  (forall w a w', m w = (Ret a, w') -> sat S (k a)) ->
  sat S (bind m k).
Proof.
  intros Hm Hk w Hw. unfold bind. specialize (Hm w Hw).
  destruct (m w) as [[a| |] w1] eqn:Hmw; simpl in Hm |- *; try exact Hm.
  apply (Hk _ _ _ Hmw). exact Hm.
Qed.

Lemma sat_bind_any {A B} (m : M A) (k : A -> M B) :
  sat S m -> (forall a, sat S (k a)) -> sat S (bind m k).
Proof. intros Hm Hk. apply sat_bind; auto. Qed.

Lemma sat_READ_OR_BAIL (len : Z) (s : string) :
  LenOk len -> sat S (READ_OR_BAIL len s).
Proof.
  intros Hlen. unfold READ_OR_BAIL. apply sat_bind_any.
  - apply read_sat. exact Hlen.
  - intros ptr. apply sat_ret.
Qed.

Lemma sat_READ_INTO_OR_BAIL (len : Z) (s : string) :
  LenOk len -> sat S (READ_INTO_OR_BAIL len s).
Proof.
  intros Hlen. unfold READ_INTO_OR_BAIL. apply sat_bind_any.
  - apply read_sat. exact Hlen.
  - intros ptr. apply sat_ret.
Qed.

Lemma sat_READ_CHAR_OR_BAIL (s : string) : sat S (READ_CHAR_OR_BAIL s).
Proof.
  unfold READ_CHAR_OR_BAIL. apply sat_bind_any.
  - apply sat_READ_OR_BAIL. apply LenOk_nonneg. lia.
  - intros tmp. apply sat_ret.
Qed.

Create HintDb sat.
#[local] Hint Resolve sat_ret sat_out_of_fuel sat_raise sat_RAISE sat_get_prefs
  sat_READ_CHAR_OR_BAIL : sat.

Ltac sat_step :=
  repeat first
    [ solve [auto with sat nocore]
    | apply sat_bind_any; [|intros ?]
    | match goal with
      | |- sat _ (if ?c then _ else _) => destruct c
      | |- sat _ (match ?x with _ => _ end) => destruct x
      end ].

Lemma sat__decode_int8 : sat S _decode_int8.
Proof. unfold _decode_int8. sat_step. Qed.

Lemma sat__decode_uint8 : sat S _decode_uint8.
Proof. unfold _decode_uint8. sat_step. Qed.

Lemma sat__decode_uint16_32 (size : Z) :
  0 <= size -> sat S (_decode_uint16_32 size).
Proof.
  intros Hs. unfold _decode_uint16_32.
  apply sat_bind_any; [apply sat_READ_OR_BAIL; auto|]. intros raw. sat_step.
Qed.

Lemma sat__decode_int16_32 (size : Z) :
  0 <= size -> sat S (_decode_int16_32 size).
Proof.
  intros Hs. unfold _decode_int16_32.
  apply sat_bind_any; [apply sat_READ_OR_BAIL; auto|]. intros raw. sat_step.
Qed.

Lemma sat__decode_uint64 : sat S _decode_uint64.
Proof.
  unfold _decode_uint64.
  apply sat_bind_any; [apply sat_READ_OR_BAIL; apply LenOk_nonneg; lia|].
  intros raw. sat_step.
Qed.

Lemma sat__decode_int64 : sat S _decode_int64.
Proof.
  unfold _decode_int64.
  apply sat_bind_any; [apply sat_READ_OR_BAIL; apply LenOk_nonneg; lia|].
  intros raw. sat_step.
Qed.

#[local] Hint Resolve sat__decode_int8 sat__decode_uint8
  sat__decode_uint64 sat__decode_int64 : sat.

Lemma sat__decode_int_switch (m : byte) : sat S (_decode_int_switch m).
Proof.
  unfold _decode_int_switch.
  repeat match goal with
    | |- sat _ (if ?c then _ else _) => destruct c
    end; auto with sat nocore;
    first [apply sat__decode_uint16_32 | apply sat__decode_int16_32];
    lia.
Qed.

Lemma PyErr_Occurred_exc (w : world) : PyErr_Occurred w = true -> exc w <> None.
Proof. unfold PyErr_Occurred. destruct (exc w); [discriminate|discriminate]. Qed.

Lemma sat__decode_int_non_negative (gm : option byte) :
  sat S (_decode_int_non_negative gm).
Proof.
  unfold _decode_int_non_negative.
  apply sat_bind_any; [destruct gm; auto with sat nocore|]. intros m.
  apply sat_bind_any; [apply sat__decode_int_switch|]. intros o.
  intros w Hw. unfold PyLong_AsLongLong.
  destruct o;
    try (cbn [fst snd]; unfold PyErr_Occurred; cbn [set_exc exc bail fst snd];
         apply null_raise; exact Hw).
  destruct ((- LLONG_MAX - 1 <=? v) && (v <=? LLONG_MAX)).
  - destruct (PyErr_Occurred w) eqn:He.
    + cbn [bail fst snd]. apply null_bail; [exact Hw|].
      apply PyErr_Occurred_exc. exact He.
    + destruct (v <? 0).
      * cbn [fst snd RAISE_DECODER_EXCEPTION]. apply null_raise. exact Hw.
      * exact Hw.
  - unfold PyErr_Occurred. cbn [set_exc exc bail fst snd].
    apply null_raise. exact Hw.
Qed.

#[local] Hint Resolve sat__decode_int_switch sat__decode_int_non_negative : sat.

Lemma sat_DECODE_UNICODE_OR_BAIL (raw : list byte) (s : string) :
  sat S (DECODE_UNICODE_OR_BAIL raw s).
Proof. unfold DECODE_UNICODE_OR_BAIL. sat_step. Qed.

#[local] Hint Resolve sat_DECODE_UNICODE_OR_BAIL : sat.

Lemma sat__decode_float (width : Z) (s : string) :
  0 <= width -> sat S (_decode_float width s).
Proof.
  intros Hw. unfold _decode_float.
  apply sat_bind_any; [apply sat_READ_OR_BAIL; auto|]. intros raw.
  apply sat_bind_any; [auto with sat nocore|]. intros p.
  intros w Hinv.
  destruct (_pyfuncs_ubj_PyFloat_Unpack raw (islittle p) =? minus_one_bits width);
    [|exact Hinv].
  destruct (PyErr_Occurred w) eqn:He; [|exact Hinv].
  cbn [andb bail fst snd]. apply null_bail; [exact Hinv|].
  apply PyErr_Occurred_exc. exact He.
Qed.

Lemma sat__decode_float32 : sat S _decode_float32.
Proof. apply sat__decode_float. lia. Qed.

Lemma sat__decode_float64 : sat S _decode_float64.
Proof. apply sat__decode_float. lia. Qed.

Lemma sat__decode_high_prec : sat S _decode_high_prec.
Proof.
  unfold _decode_high_prec, DECODE_LENGTH_OR_BAIL.
  apply sat_bind; [auto with sat nocore|]. intros w length w' Hlen.
  apply _decode_int_non_negative_range in Hlen.
  apply sat_bind_any; [apply sat_READ_OR_BAIL; apply LenOk_nonneg; lia|].
  intros raw. sat_step.
Qed.

Lemma sat__decode_char : sat S _decode_char.
Proof. unfold _decode_char. sat_step. Qed.

Lemma sat__decode_string : sat S _decode_string.
Proof.
  unfold _decode_string, DECODE_LENGTH_OR_BAIL.
  apply sat_bind; [auto with sat nocore|]. intros w length w' Hlen.
  apply _decode_int_non_negative_range in Hlen.
  destruct (length >? 0); [|auto with sat nocore].
  apply sat_bind_any; [apply sat_READ_OR_BAIL; apply LenOk_nonneg; lia|].
  intros raw. sat_step.
Qed.

Lemma sat__decode_object_key (m : byte) (intern : bool) :
  sat S (_decode_object_key m intern).
Proof.
  unfold _decode_object_key, DECODE_LENGTH_OR_BAIL_MARKER.
  apply sat_bind; [auto with sat nocore|]. intros w length w' Hlen.
  apply _decode_int_non_negative_range in Hlen.
  apply sat_bind_any; [apply sat_READ_OR_BAIL; apply LenOk_nonneg; lia|].
  intros raw. sat_step.
Qed.

Lemma sat_DECODE_OBJECT_KEY (m : byte) (ctx : string) (intern : bool) :
  sat S (DECODE_OBJECT_KEY_OR_RAISE_ENCODER_EXCEPTION m ctx intern).
Proof.
  intros w Hw. unfold DECODE_OBJECT_KEY_OR_RAISE_ENCODER_EXCEPTION.
  pose proof (sat__decode_object_key m intern w Hw) as H.
  destruct (_decode_object_key m intern w) as [[k| |] w1]; simpl in H |- *;
    try exact H.
  apply null_again. exact H.
Qed.

#[local] Hint Resolve sat__decode_float32 sat__decode_float64
  sat__decode_high_prec sat__decode_char sat__decode_string
  sat_DECODE_OBJECT_KEY : sat.

(** *** Headers *)

Lemma gsat_gret {A} (a : A) : gsat S (gret a).
Proof. intros w Hw. exact Hw. Qed.

Lemma gsat_gbind {A B} (m : G A) (k : A -> G B) :
  gsat S m ->
  (forall w a w', m w = (GRet a, w') -> gsat S (k a)) ->
  gsat S (gbind m k).
Proof.
  intros Hm Hk w Hw. unfold gbind. specialize (Hm w Hw).
  destruct (m w) as [[a| q|] w1] eqn:Hmw; simpl in Hm |- *; try exact Hm.
  apply (Hk _ _ _ Hmw). exact Hm.
Qed.

Lemma gsat_gbind_any {A B} (m : G A) (k : A -> G B) :
  gsat S m -> (forall a, gsat S (k a)) -> gsat S (gbind m k).
Proof. intros Hm Hk. apply gsat_gbind; auto. Qed.

Lemma gsat_or_bail {A} (p : _container_params_t) (m : M A) :
  sat S m -> gsat S (or_bail p m).
Proof.
  intros Hm w Hw. unfold or_bail. specialize (Hm w Hw).
  destruct (m w) as [[a| |] w1]; exact Hm.
Qed.

(** A record that came back invalid does not stop [_get_container_params]
    where it reads the dimension vector: it goes on from the state the
    failure left. *)
Lemma gsat_or_bail_unchecked {A} (p : _container_params_t)
  (params_of : A -> _container_params_t) (m : M A) :
  hsat S params_of m -> gsat S (or_bail p m).
Proof.
  intros Hm w Hw. unfold or_bail. specialize (Hm w Hw).
  destruct (m w) as [[a| |] w1]; simpl in Hm |- *; try exact Hm.
  destruct (invalid (params_of a)); [apply null_ret|]; exact Hm.
Qed.

Ltac gsat_step :=
  repeat first
    [ apply gsat_gret
    | apply gsat_or_bail; solve [auto with sat nocore]
    | apply gsat_gbind_any; [|intros ?]
    | match goal with
      | |- gsat _ (if ?c then _ else _) => destruct c
      | |- gsat _ (match ?x with _ => _ end) => destruct x
      end ].

Lemma gsat_header_type : gsat S header_type.
Proof. unfold header_type. gsat_step. Qed.

Lemma gsat_nd_dims_counted (n : nat) :
  forall p t l, gsat S (nd_dims_counted p t n l).
Proof.
  induction n as [|n IH]; intros p t l; cbn [nd_dims_counted].
  - apply gsat_gret.
  - apply gsat_gbind_any.
    + apply gsat_or_bail. unfold DECODE_LENGTH_OR_BAIL_MARKER.
      auto with sat nocore.
    + intros len. apply IH.
Qed.

Lemma gsat_nd_dims_uncounted (fuel : nat) :
  forall p m l, gsat S (nd_dims_uncounted fuel p m l).
Proof.
  induction fuel as [|fuel IH]; intros p m l; cbn [nd_dims_uncounted];
    destruct (byte_eqb ARRAY_END m); try apply gsat_gret.
  - intros w Hw. apply fuel_ret. exact Hw.
  - apply gsat_gbind_any.
    + apply gsat_or_bail. unfold DECODE_LENGTH_OR_BAIL_MARKER.
      auto with sat nocore.
    + intros len. apply gsat_gbind_any.
      * apply gsat_or_bail. auto with sat nocore.
      * intros m1. apply IH.
Qed.

Lemma gsat_header_count (self : M _container_params_t) (fuel : nat)
  (nd : bool) (p : _container_params_t) :
  nd = false \/ hsat S (fun q => q) self ->
  gsat S (header_count self fuel nd p).
Proof.
  intros Hself. unfold header_count.
  apply gsat_gbind_any; [apply gsat_or_bail; auto with sat nocore|].
  intros m.
  destruct (byte_eqb ARRAY_START m && nd) eqn:Hnd.
  - destruct Hself as [->|Hself]; [rewrite andb_false_r in Hnd; discriminate|].
    apply gsat_gbind_any;
      [apply gsat_or_bail_unchecked with (params_of := fun q => q); exact Hself|].
    intros dims. cbv zeta.
    destruct (counting dims).
    + apply gsat_gbind_any; [apply gsat_nd_dims_counted|].
      intros [p1 l1]. apply gsat_gret.
    + apply gsat_gbind_any; [apply gsat_nd_dims_uncounted|].
      intros [[p1 m1] l1]. apply gsat_gret.
  - intros w Hw.
    pose proof (sat__decode_int_non_negative (Some m) w Hw) as H.
    unfold DECODE_LENGTH_OR_BAIL_MARKER.
    destruct (_decode_int_non_negative (Some m) w) as [[n| |] w1]; exact H.
Qed.

Lemma gsat_body (self : M _container_params_t) (fuel : nat) (im nd : bool) :
  nd = false \/ hsat S (fun q => q) self ->
  gsat S (get_container_params_body self fuel im nd).
Proof.
  intros Hself. unfold get_container_params_body.
  apply gsat_gbind_any; [apply gsat_header_type|]. intros [p m].
  destruct (byte_eqb CONTAINER_COUNT m).
  - apply gsat_gbind_any; [apply gsat_header_count; exact Hself|].
    intros [[p1 m1] nds].
    apply gsat_gbind_any; [unfold header_prefetch; gsat_step|].
    intros m2. apply gsat_gret.
  - gsat_step.
Qed.

(** A header that comes back through [gret] is not flagged invalid. *)
Lemma body_valid (self : M _container_params_t) (fuel : nat) (im nd : bool)
  (w w' : world) (p : _container_params_t) (nds : Z * list Z) :
  get_container_params_body self fuel im nd w = (GRet (p, nds), w') ->
  invalid p = false.
Proof.
  unfold get_container_params_body. intros Hb.
  apply gbind_inv in Hb. destruct Hb as ([p0 m0] & w0 & Hh & Hb).
  destruct (byte_eqb CONTAINER_COUNT m0).
  - apply gbind_inv in Hb. destruct Hb as ([[p1 m1] n1] & w2 & Hc & Hb).
    apply gbind_inv in Hb. destruct Hb as (m2 & w3 & _ & Hb).
    unfold gret in Hb. inversion Hb; subst. reflexivity.
  - destruct (byte_eqb TYPE_NONE (type p0)).
    + unfold gret in Hb. inversion Hb; subst. reflexivity.
    + apply gbind_inv in Hb. destruct Hb as (u & w3 & Hb & _).
      apply or_bail_inv in Hb. discriminate.
Qed.

Lemma hsat_run_body (self : M _container_params_t) (fuel : nat) (im nd : bool) :
  nd = false \/ hsat S (fun q => q) self ->
  hsat S fst (run_G (get_container_params_body self fuel im nd) (0, [])).
Proof.
  intros Hself w Hw. unfold run_G.
  pose proof (gsat_body fuel im Hself w Hw) as H.
  destruct (get_container_params_body self fuel im nd w) as [[[p nds]| q|] w1]
    eqn:Hb; simpl in H |- *.
  - rewrite (body_valid _ _ _ _ _ Hb). exact H.
  - rewrite (@bails_body _ self fuel im nd _ _ _ Hb). exact H.
  - exact H.
Qed.

Lemma hsat__get_container_params_flat (im : bool) :
  hsat S (fun q => q) (_get_container_params_flat im).
Proof.
  intros w Hw. unfold _get_container_params_flat, bind.
  pose proof (@hsat_run_body bail O im false (or_introl eq_refl) w Hw) as H.
  destruct (run_G _ _ w) as [[[p nds]| |] w1]; exact H.
Qed.

Lemma hsat__get_container_params (fuel : nat) (im nd : bool) :
  hsat S fst (_get_container_params fuel im nd).
Proof.
  unfold _get_container_params. apply hsat_run_body. right.
  apply hsat__get_container_params_flat.
Qed.

(** What follows a header: nothing when the header is invalid. *)
Lemma sat_after_header {A B} (params_of : A -> _container_params_t)
  (m : M A) (k : A -> M B) :
  hsat S params_of m ->
  (forall w a w', m w = (Ret a, w') -> invalid (params_of a) = true ->
                  k a w' = (Null, w')) ->
  (forall w a w', m w = (Ret a, w') -> invalid (params_of a) = false ->
                  sat S (k a)) ->
  sat S (bind m k).
Proof.
  intros Hm Hbad Hgood w Hw. unfold bind. specialize (Hm w Hw).
  destruct (m w) as [[a| |] w1] eqn:Hmw; simpl in Hm |- *; try exact Hm.
  destruct (invalid (params_of a)) eqn:Hinv.
  - rewrite (Hbad _ _ _ Hmw Hinv). exact Hm.
  - apply (Hgood _ _ _ Hmw Hinv). exact Hm.
Qed.

#[local] Hint Resolve hsat__get_container_params : sat.

(** *** Arrays, objects and values *)

Lemma sat__no_data_type (t : byte) : sat S (_no_data_type t).
Proof. unfold _no_data_type. sat_step. Qed.

Lemma sat_call_hook (h : hook) (arg : PyObject) : sat S (call_hook h arg).
Proof. unfold call_hook. sat_step. Qed.

Lemma sat_PyList_New (n : Z) : sat S (PyList_New n).
Proof. unfold PyList_New. sat_step. Qed.

#[local] Hint Resolve sat__no_data_type sat_call_hook sat_PyList_New : sat.

Section WithValues.
Variable decode_value : option byte -> M PyObject.
Hypothesis sat_decode_value : forall gm, sat S (decode_value gm).

Lemma sat_read_packed_array (ndims : Z) (dims : list Z) (t : byte) (n : Z)
  (s : string) :
  n = wrapped_product dims -> sat S (read_packed_array ndims dims t n s).
Proof.
  intros Hn. unfold read_packed_array.
  pose proof (LenOk_numpy ndims dims t) as Hsane.
  destruct (_get_type_info t) as [pytype bytelen]. cbn [fst snd] in Hsane.
  apply sat_bind_any.
  - destruct pytype; try apply sat_ret.
    intros w Hw. apply ret_exc. exact Hw.
  - intros _. apply sat_bind.
    + destruct (PyArray_SimpleNew_ok ndims dims pytype); auto with sat nocore.
    + intros w u w' Hret.
      destruct (PyArray_SimpleNew_ok ndims dims pytype) eqn:Hok;
        [|discriminate Hret].
      apply sat_bind_any; [|intros data; apply sat_ret].
      apply sat_READ_INTO_OR_BAIL. subst n. apply Hsane. reflexivity.
Qed.

Lemma sat_array_loop_counted (fuel : nat) :
  forall t n m lst, sat S (array_loop_counted decode_value fuel t n m lst).
Proof.
  induction fuel as [|fuel IH]; intros t n m lst; cbn [array_loop_counted];
    destruct (n >? 0); auto with sat nocore.
  destruct (byte_eqb TYPE_NOOP m).
  - apply sat_bind_any; [auto with sat nocore|]. intros m1. apply IH.
  - apply sat_bind_any; [apply sat_decode_value|]. intros v.
    cbv zeta. destruct ((n - 1 >? 0) && byte_eqb TYPE_NONE t); [|apply IH].
    apply sat_bind_any; [auto with sat nocore|]. intros m1. apply IH.
Qed.

Lemma sat_array_loop_uncounted (fuel : nat) :
  forall t m lst, sat S (array_loop_uncounted decode_value fuel t m lst).
Proof.
  induction fuel as [|fuel IH]; intros t m lst; cbn [array_loop_uncounted];
    destruct (byte_eqb ARRAY_END m); auto with sat nocore.
  destruct (byte_eqb TYPE_NOOP m).
  - apply sat_bind_any; [auto with sat nocore|]. intros m1. apply IH.
  - apply sat_bind_any; [apply sat_decode_value|]. intros v.
    cbv zeta. destruct (byte_eqb TYPE_NONE t); [|apply IH].
    apply sat_bind_any; [auto with sat nocore|]. intros m1. apply IH.
Qed.

Lemma sat__decode_array (fuel : nat) : sat S (_decode_array decode_value fuel).
Proof.
  unfold _decode_array.
  apply sat_after_header with (params_of := fst);
    [apply hsat__get_container_params| |].
  { intros w [params [ndims dims]] w' _ Hinv. cbn [fst] in Hinv.
    rewrite Hinv. reflexivity. }
  intros w [params [ndims dims]] w' Hhdr Hinv. cbn [fst] in Hinv.
  rewrite Hinv.
  destruct (_get_container_params_valid _ _ _ _ Hhdr Hinv) as (Hfits & _ & _).
  cbv zeta. apply sat_bind_any; [auto with sat nocore|]. intros prefs.
  destruct (counting params).
  - destruct (byte_eqb TYPE_UINT8 (type params) && negb (no_bytes prefs)
              && (ndims =? 0)).
    { apply sat_bind.
      - unfold PyBytes_FromStringAndSize. sat_step.
      - intros w0 u w1 Hnew. unfold PyBytes_FromStringAndSize in Hnew.
        destruct (count params <? 0) eqn:Hneg; [discriminate Hnew|].
        bool_to_Z.
        apply sat_bind_any; [|intros data; apply sat_ret].
        apply sat_READ_INTO_OR_BAIL. apply LenOk_nonneg. exact Hneg. }
    destruct (negb (ndims =? 0) && negb (byte_eqb (type params) x00)) eqn:Hnd.
    { apply sat_read_packed_array.
      bool_to_Z. eapply _get_container_params_product; eassumption. }
    destruct (_is_no_data_type (type params)); [sat_step|].
    destruct (_is_fixed_len_type (type params) && (count params >? 0)).
    { apply sat_read_packed_array.
      unfold wrapped_product. cbn [fold_left]. rewrite Z.mul_1_l.
      symmetry. apply to_signed_id. exact Hfits. }
    apply sat_bind_any; [auto with sat nocore|]. intros _.
    apply sat_bind_any; [apply sat_array_loop_counted|].
    intros lst. apply sat_ret.
  - apply sat_bind_any; [apply sat_array_loop_uncounted|].
    intros lst. apply sat_ret.
Qed.

Lemma sat_pairs_loop_no_data (n : nat) :
  forall intern value m lst, sat S (pairs_loop_no_data n intern value m lst).
Proof.
  induction n as [|n IH]; intros intern value m lst; cbn [pairs_loop_no_data];
    [auto with sat nocore|].
  apply sat_bind_any; [auto with sat nocore|]. intros key. cbv zeta.
  destruct n; [apply IH|].
  apply sat_bind_any; [auto with sat nocore|]. intros m1. apply IH.
Qed.

Lemma sat_object_loop_no_data (n : nat) :
  forall intern value m obj, sat S (object_loop_no_data n intern value m obj).
Proof.
  induction n as [|n IH]; intros intern value m obj; cbn [object_loop_no_data];
    [auto with sat nocore|].
  apply sat_bind_any; [auto with sat nocore|]. intros key. cbv zeta.
  destruct n; [apply IH|].
  apply sat_bind_any; [auto with sat nocore|]. intros m1. apply IH.
Qed.

Lemma sat_pairs_loop_counted (fuel : nat) :
  forall intern ft n m lst,
    sat S (pairs_loop_counted decode_value fuel intern ft n m lst).
Proof.
  induction fuel as [|fuel IH]; intros intern ft n m lst;
    cbn [pairs_loop_counted]; destruct (n >? 0); auto with sat nocore.
  destruct (byte_eqb TYPE_NOOP m).
  - apply sat_bind_any; [auto with sat nocore|]. intros m1. apply IH.
  - apply sat_bind_any; [auto with sat nocore|]. intros key.
    apply sat_bind_any; [apply sat_decode_value|]. intros v.
    cbv zeta. destruct (n - 1 >? 0); [|apply IH].
    apply sat_bind_any; [auto with sat nocore|]. intros m1. apply IH.
Qed.

Lemma sat_pairs_loop_uncounted (fuel : nat) :
  forall intern ft m lst,
    sat S (pairs_loop_uncounted decode_value fuel intern ft m lst).
Proof.
  induction fuel as [|fuel IH]; intros intern ft m lst;
    cbn [pairs_loop_uncounted]; destruct (byte_eqb OBJECT_END m);
    auto with sat nocore.
  destruct (byte_eqb TYPE_NOOP m).
  - apply sat_bind_any; [auto with sat nocore|]. intros m1. apply IH.
  - apply sat_bind_any; [auto with sat nocore|]. intros key.
    apply sat_bind_any; [apply sat_decode_value|]. intros v.
    cbv zeta.
    apply sat_bind_any; [auto with sat nocore|]. intros m1. apply IH.
Qed.

Lemma sat_object_loop (fuel : nat) :
  forall intern ft c n m obj,
    sat S (object_loop decode_value fuel intern ft c n m obj).
Proof.
  induction fuel as [|fuel IH]; intros intern ft c n m obj; cbn [object_loop];
    destruct ((n >? 0) && (c || negb (byte_eqb OBJECT_END m)));
    auto with sat nocore.
  destruct (byte_eqb TYPE_NOOP m).
  - apply sat_bind_any; [auto with sat nocore|]. intros m1. apply IH.
  - apply sat_bind_any; [auto with sat nocore|]. intros key.
    apply sat_bind_any; [apply sat_decode_value|]. intros v.
    cbv zeta. destruct ((if c then n - 1 else n) >? 0); [|apply IH].
    apply sat_bind_any; [auto with sat nocore|]. intros m1. apply IH.
Qed.

Lemma sat__decode_object_with_pairs_hook (fuel : nat) :
  sat S (_decode_object_with_pairs_hook decode_value fuel).
Proof.
  unfold _decode_object_with_pairs_hook.
  apply sat_after_header with (params_of := fst);
    [apply hsat__get_container_params| |].
  { intros w [params nds] w' _ Hinv. cbn [fst] in Hinv.
    rewrite bind_get_prefs. cbv zeta. rewrite Hinv. reflexivity. }
  intros w [params nds] w' _ Hinv. cbn [fst] in Hinv.
  apply sat_bind_any; [auto with sat nocore|]. intros prefs. cbv zeta.
  rewrite Hinv.
  apply sat_bind_any; [|intros lst; auto with sat nocore].
  unfold collect_pairs. cbv zeta.
  destruct (counting params).
  - apply sat_bind_any; [auto with sat nocore|]. intros _.
    destruct (_is_no_data_type (type params)).
    + apply sat_bind_any; [auto with sat nocore|]. intros v.
      apply sat_pairs_loop_no_data.
    + apply sat_pairs_loop_counted.
  - apply sat_pairs_loop_uncounted.
Qed.

Lemma sat__decode_object (fuel : nat) : sat S (_decode_object decode_value fuel).
Proof.
  unfold _decode_object.
  apply sat_after_header with (params_of := fst);
    [apply hsat__get_container_params| |].
  { intros w [params nds] w' _ Hinv. cbn [fst] in Hinv.
    rewrite bind_get_prefs. cbv zeta. rewrite Hinv. reflexivity. }
  intros w [params nds] w' _ Hinv. cbn [fst] in Hinv.
  apply sat_bind_any; [auto with sat nocore|]. intros prefs. cbv zeta.
  rewrite Hinv.
  apply sat_bind_any.
  - unfold collect_dict. cbv zeta.
    destruct (counting params && _is_no_data_type (type params)).
    + apply sat_bind_any; [auto with sat nocore|]. intros v.
      apply sat_object_loop_no_data.
    + apply sat_object_loop.
  - intros obj. unfold finish_object.
    destruct (object_hook prefs); auto with sat nocore.
Qed.

End WithValues.

Lemma sat_RETURN_OR_RAISE (item : M PyObject) (s : string) :
  sat S item -> sat S (RETURN_OR_RAISE_DECODER_EXCEPTION item s).
Proof.
  intros Hitem w Hw. unfold RETURN_OR_RAISE_DECODER_EXCEPTION.
  specialize (Hitem w Hw).
  destruct (item w) as [[o| |] w1]; simpl in Hitem |- *; try exact Hitem.
  destruct (exc w1) as [[]|]; simpl; try exact Hitem;
    apply null_again; exact Hitem.
Qed.

(** The whole decoder keeps what its reads keep. *)
Lemma sat__bjdata_decode_value (fuel : nat) :
  forall (depth : Z) (gm : option byte),
    sat S (_bjdata_decode_value fuel depth gm).
Proof.
  assert (Hstep :
            forall (depth : Z) (gm : option byte) (fuel : nat),
              (forall f, (f < fuel)%nat -> forall d g,
                    sat S (_bjdata_decode_value f d g)) ->
              sat S (_bjdata_decode_value fuel depth gm)).
  { intros depth gm f IH.
    destruct f as [|f]; cbn [_bjdata_decode_value];
      (apply sat_bind_any; [destruct gm; auto with sat nocore|]);
      intros m;
      repeat match goal with
        | |- sat _ (if ?c then _ else _) => destruct c
        end;
      auto with sat nocore;
      try (apply sat_RETURN_OR_RAISE; auto with sat nocore;
           first [apply sat__decode_int16_32
                 |apply sat__decode_uint16_32]; lia).
    - unfold RECURSE_AND_RETURN_OR_BAIL.
      destruct (depth + 1 >? recursion_limit); [auto with sat nocore|].
      apply sat__decode_array.
      intros g. apply IH. lia.
    - apply sat_bind_any; [auto with sat nocore|]. intros prefs.
      unfold RECURSE_AND_RETURN_OR_BAIL.
      destruct (object_pairs_hook prefs);
        (destruct (depth + 1 >? recursion_limit); [auto with sat nocore|]).
      + apply sat__decode_object. intros g. apply IH. lia.
      + apply sat__decode_object_with_pairs_hook. intros g. apply IH. lia.
      + apply sat__decode_object_with_pairs_hook. intros g. apply IH. lia. }
  induction fuel as [fuel IH] using (well_founded_induction lt_wf).
  intros depth gm. apply Hstep. exact IH.
Qed.

End Triples.

Section BytesIOFacts.
Import BytesIO.

Lemma nbytes_of_wrapped (size : Z) (dims : list Z) :
  forall (c nb : Z) (r : Z),
    1 <= size ->
    c = 0 \/ (0 < c /\ size * c = nb /\ nb <= LLONG_MAX) ->
    nbytes_of dims nb = Some r ->
    0 <= to_signed 64 (size * fold_left (fun c l => to_signed 64 (c * l)) dims c).
Proof.
  induction dims as [|d rest IH]; intros c nb r Hsize Hinv Hnb;
    cbn [nbytes_of fold_left] in *.
  - destruct Hinv as [->|(Hc & Hmul & Hmax)].
    + rewrite Z.mul_0_r. vm_compute. discriminate.
    + rewrite to_signed_id; [nia|].
      unfold fits_long_long, LLONG_MAX in *. nia.
  - destruct (d =? 0) eqn:Hd0; bool_to_Z.
    { subst d. rewrite Z.mul_0_r.
      apply (IH _ nb r Hsize); [left; vm_compute; reflexivity|exact Hnb]. }
    destruct (d <? 0) eqn:Hdneg; [discriminate Hnb|]. bool_to_Z.
    destruct (LLONG_MAX <? nb * d) eqn:Hbig; [discriminate Hnb|]. bool_to_Z.
    destruct Hinv as [->|(Hc & Hmul & Hmax)].
    + rewrite Z.mul_0_l.
      apply (IH _ (nb * d) r Hsize); [left; vm_compute; reflexivity|exact Hnb].
    + assert (Hfit : fits_long_long (c * d))
        by (unfold fits_long_long, LLONG_MAX in *; nia).
      rewrite (to_signed_id Hfit).
      apply (IH _ (nb * d) r Hsize); [right|exact Hnb].
      split; [nia|]. split; [nia|lia].
Qed.

Lemma itemsize_get_type_info (t : byte) (size : Z) :
  itemsize (fst (_get_type_info t)) = Some size ->
  snd (_get_type_info t) = size /\ 1 <= size.
Proof.
  unfold _get_type_info.
  repeat match goal with
    | |- context [if ?c then _ else _] => destruct c
    end; simpl; intros H; inversion H; subst; split; (reflexivity || lia).
Qed.

(** The model of numpy used in the examples makes only arrays of a sane
    size. *)
Lemma BytesIO_numpy_sizes_sane : @numpy_sizes_sane BytesIO.host.
Proof.
  intros nd dims t Hok. simpl in Hok. unfold PyArray_SimpleNew in Hok.
  destruct (itemsize (fst (_get_type_info t))) as [size|] eqn:Hsize;
    [|discriminate Hok].
  destruct (nbytes_of dims size) as [r|] eqn:Hnb; [|discriminate Hok].
  destruct (itemsize_get_type_info _ Hsize) as [-> Hpos].
  unfold wrapped_product.
  apply (@nbytes_of_wrapped size dims 1 size r Hpos); [right|exact Hnb].
  split; [lia|]. split; [lia|].
  clear - Hsize. destruct (fst (_get_type_info t)); simpl in Hsize;
    inversion Hsize; unfold LLONG_MAX; lia.
Qed.

End BytesIOFacts.
(** * Further properties of the decoder *)

Ltac eval_byte_eqb :=
  repeat match goal with
    | |- context [byte_eqb ?a ?b] =>
        let v := eval vm_compute in (byte_eqb a b) in
        change (byte_eqb a b) with v
    end.

Ltac eval_byte_eqb_in H :=
  repeat match type of H with
    | context [byte_eqb ?a ?b] =>
        let v := eval vm_compute in (byte_eqb a b) in
        change (byte_eqb a b) with v in H
    end.

(** evaluate the left-hand side of an equation and compare *)
Ltac run :=
  match goal with
  | |- ?l = _ => let v := eval vm_compute in l in change l with v
  end; reflexivity.


Lemma BytesIO_fixed_ok (p : _bjdata_decoder_prefs_t) (data : list byte) :
  @buffer_ok BytesIO.host (buf (BytesIO.fixed p data)).
Proof.
  unfold buffer_ok, buffer_wf, view_len, Zlength'. simpl.
  split; [intros H; discriminate H|]. lia.
Defined.

Section ReadLengths.
Context `{Host : PyHost}.


Lemma Zlength'_app {A} (a b : list A) :
  Zlength' (a ++ b) = Zlength' a + Zlength' b.
Proof. unfold Zlength'. rewrite length_app. lia. Qed.

Lemma Zlength'_nonneg {A} (a : list A) : 0 <= Zlength' a.
Proof. unfold Zlength'. lia. Qed.

(** What a read that returns a chunk has done: the chunk holds as many
    bytes as [*len] says, and [total_read] went up by that number. *)
Lemma read_fixed_chunk (len : Z) (dst : bool) (w w' : world)
  (chunk : list byte) (rd : Z) :
  buffer_ok (buf w) -> 0 <= len ->
  _decoder_buffer_read_fixed len dst w = ((Some chunk, rd), w') ->
  Zlength' chunk = rd /\ rd <= len
  /\ total_read (buf w') = total_read (buf w) + rd
  /\ buffer_ok (buf w').
Proof.
  intros (Hwf & Htr & Hpos) Hlen. unfold _decoder_buffer_read_fixed.
  destruct (len =? 0) eqn:Hz; [discriminate|].
  destruct (total_read (buf w) <? view_len (buf w)) eqn:Hlt; [|discriminate].
  cbv zeta. intros H. inversion H; subst. clear H. bool_to_Z.
  split; [apply slice_length; unfold view_len in *; lia|].
  split; [lia|]. split; [reflexivity|].
  unfold buffer_ok, buffer_wf in *. simpl. repeat split; try tauto; lia.
Qed.

Lemma read_fixed_ok (len : Z) (dst : bool) (w : world) :
  buffer_ok (buf w) -> 0 <= len ->
  buffer_ok (buf (snd (_decoder_buffer_read_fixed len dst w))).
Proof.
  intros Hok Hlen.
  destruct (_decoder_buffer_read_fixed len dst w) as [[[chunk|] rd] w'] eqn:H.
  - eapply read_fixed_chunk; eassumption.
  - unfold _decoder_buffer_read_fixed in H.
    destruct (len =? 0); [inversion H; subst; exact Hok|].
    destruct (total_read (buf w) <? view_len (buf w)); [discriminate|].
    inversion H; subst; exact Hok.
Qed.

Lemma read_callable_chunk (len : Z) (dst : bool) (w w' : world)
  (chunk : list byte) (rd : Z) :
  read_func (buf w) = read_callable ->
  buffer_ok (buf w) ->
  _decoder_buffer_read_callable len dst w = ((Some chunk, rd), w') ->
  Zlength' chunk = rd
  /\ total_read (buf w') = total_read (buf w) + rd
  /\ buffer_ok (buf w').
Proof.
  intros Hrf (Hwf & Htr & Hpos). unfold buffer_wf in Hwf. rewrite Hrf in Hwf.
  unfold _decoder_buffer_read_callable.
  destruct (len =? 0); [discriminate|].
  set (w1 := if view_set (buf w) then with_buf (set_view_set false) w else w).
  assert (H1 : pos (buf w1) = 0 /\ read_func (buf w1) = read_callable
               /\ total_read (buf w1) = total_read (buf w))
    by (unfold w1; destruct (view_set (buf w)); simpl; auto).
  destruct H1 as (H1 & H2 & H3).
  destruct (call_input_frame len w1) as [i Hi].
  destruct (call_input len w1) as [[e|data] w2]; simpl in Hi; subst w2;
    [discriminate|].
  cbn [buf with_buf]. 
  change (view_len (set_view_set true (set_view data (set_input i (buf w1)))))
    with (Zlength' data).
  destruct (Zlength' data =? 0); [discriminate|].
  intros H. inversion H; subst. clear H. simpl.
  split; [reflexivity|]. split; [lia|].
  unfold buffer_ok, buffer_wf, view_len. simpl. rewrite H2, H1.
  pose proof (Zlength'_nonneg chunk). repeat split; lia.
Qed.

Lemma read_callable_ok (len : Z) (dst : bool) (w : world) :
  read_func (buf w) = read_callable ->
  buffer_ok (buf w) ->
  buffer_ok (buf (snd (_decoder_buffer_read_callable len dst w))).
Proof.
  intros Hrf Hok.
  destruct (_decoder_buffer_read_callable len dst w) as [[[chunk|] rd] w'] eqn:H.
  - eapply read_callable_chunk; eassumption.
  - revert H. unfold _decoder_buffer_read_callable.
    destruct (len =? 0); [intros H; inversion H; subst; exact Hok|].
    destruct Hok as (Hwf & Htr & Hpos). unfold buffer_wf in Hwf.
    rewrite Hrf in Hwf.
    set (w1 := if view_set (buf w) then with_buf (set_view_set false) w else w).
    assert (H1 : pos (buf w1) = 0 /\ read_func (buf w1) = read_callable
                 /\ total_read (buf w1) = total_read (buf w)
                 /\ 0 <= view_len (buf w1))
      by (unfold w1; destruct (view_set (buf w)); simpl;
          pose proof (view_len_nonneg (buf w)); auto).
    destruct H1 as (H1 & H2 & H3 & H4).
    destruct (call_input_frame len w1) as [i Hi].
    destruct (call_input len w1) as [[e|data] w2]; simpl in Hi; subst w2.
    + intros H. inversion H; subst. unfold buffer_ok, buffer_wf. simpl.
      rewrite H2, H1, H3. unfold view_len in *. simpl. repeat split; lia.
    + cbn [buf with_buf].
      change (view_len (set_view_set true (set_view data (set_input i (buf w1)))))
        with (Zlength' data).
      destruct (Zlength' data =? 0) eqn:Hz; [|discriminate].
      intros H. inversion H; subst. unfold buffer_ok, buffer_wf, view_len. simpl.
      rewrite H2, H1, H3. pose proof (Zlength'_nonneg data). repeat split; lia.
Qed.

Lemma read_buffered_spec (len : Z) (dst : bool) (w : world) :
  read_func (buf w) = read_buffered ->
  buffer_ok (buf w) -> 0 <= len ->
  buffer_ok (buf (snd (_decoder_buffer_read_buffered len dst w)))
  /\ forall chunk rd,
       fst (_decoder_buffer_read_buffered len dst w) = (Some chunk, rd) ->
       Zlength' chunk = rd /\ rd <= len
       /\ total_read (buf (snd (_decoder_buffer_read_buffered len dst w)))
          = total_read (buf w) + rd.
Proof.
  intros Hrf Hok Hlen.
  unfold _decoder_buffer_read_buffered.
  destruct (len =? 0) eqn:Hz.
  { split; [exact Hok|]. intros chunk rd H. discriminate H. }
  destruct Hok as (Hwf & Htr & Hpos). unfold buffer_wf in Hwf.
  rewrite Hrf in Hwf.
  destruct w as [b e]. simpl in Hwf, Hrf, Htr, Hpos |- *.
  pose proof (view_len_nonneg b) as Hv.
  change (view_len (set_tmp_dst None b)) with (view_len b).
  bool_to_Z.
  destruct (negb (view_set b) || (len >? view_len b - pos b)) eqn:Hmore.
  - destruct dst; destruct (view_set b) eqn:Hvs; simpl in Hmore |- *;
      match goal with |- context [call_input ?n ?w1] =>
        destruct (call_input_frame n w1) as [i Hi];
        destruct (call_input n w1) as [[e'|data] w2] end;
      simpl in Hi; subst w2; cbn [fst snd buf with_buf set_exc];
      repeat match goal with
        | |- context [view_len (set_view_set true (set_view ?d ?x))] =>
            change (view_len (set_view_set true (set_view d x))) with (Zlength' d)
        end;
      try (pose proof (Zlength'_nonneg data) as Hd);
      try rewrite (Hwf eq_refl) in *;
      bool_to_Z;
      repeat match goal with
        | |- context [if ?c then _ else _] => destruct c eqn:?; bool_to_Z
        end;
      cbn [fst snd buf with_buf set_exc];
      (split;
       [unfold buffer_ok, buffer_wf, view_len in *; simpl; rewrite ?Hrf;
        repeat split; try discriminate; try lia
       |intros chunk rd Hc; inversion Hc; subst; clear Hc; simpl;
        rewrite ?Zlength'_app, ?slice_length; unfold view_len in *;
        simpl; repeat split; lia]).
  - bool_to_Z. cbn [fst snd buf with_buf]. split.
    + unfold buffer_ok, buffer_wf, view_len in *. simpl. rewrite Hrf.
      repeat split; try lia. intros Hf. simpl in Hf. congruence.
    + intros chunk rd Hc. inversion Hc; subst. clear Hc. simpl.
      rewrite slice_length; unfold view_len in *; lia.
Qed.

(** Every backend at once. *)
Lemma READ_VIA_FUNC_spec (len : Z) (dst : bool) (w : world) :
  buffer_ok (buf w) -> 0 <= len ->
  buffer_ok (buf (snd (READ_VIA_FUNC len dst w)))
  /\ forall chunk rd,
       fst (READ_VIA_FUNC len dst w) = (Some chunk, rd) ->
       Zlength' chunk = rd
       /\ total_read (buf (snd (READ_VIA_FUNC len dst w)))
          = total_read (buf w) + rd.
Proof.
  intros Hok Hlen. unfold READ_VIA_FUNC.
  destruct (read_func (buf w)) eqn:Hrf.
  - split; [apply read_fixed_ok; assumption|]. intros chunk rd H.
    destruct (_decoder_buffer_read_fixed len dst w) as [[p r] w'] eqn:Hr.
    simpl in H. inversion H; subst.
    destruct (read_fixed_chunk dst w Hok Hlen Hr) as (H1 & _ & H2 & _).
    auto.
  - split; [apply read_callable_ok; assumption|]. intros chunk rd H.
    destruct (_decoder_buffer_read_callable len dst w) as [[p r] w'] eqn:Hr.
    simpl in H. inversion H; subst.
    destruct (read_callable_chunk len dst w Hrf Hok Hr) as (H1 & H2 & _).
    auto.
  - destruct (read_buffered_spec dst w Hrf Hok Hlen) as [H1 H2].
    split; [exact H1|]. intros chunk rd H.
    destruct (H2 _ _ H) as (H3 & _ & H4). auto.
Qed.

Lemma ACTION_READ_length (len : Z) (dst : bool) (s : string) (w w' : world)
  (ptr : option (list byte)) :
  buffer_ok (buf w) -> 0 <= len ->
  ACTION_READ len dst s w = (Ret ptr, w') ->
  Zlength' (chunk_bytes len ptr) = len
  /\ total_read (buf w) + len <= total_read (buf w')
  /\ buffer_ok (buf w').
Proof.
  intros Hok Hlen. unfold ACTION_READ.
  destruct (READ_VIA_FUNC_spec dst w Hok Hlen) as [Hok' Hchunk].
  destruct (total_read_never_decreases_aux dst w Hlen (proj1 Hok)) as [Hmono _].
  destruct (READ_VIA_FUNC len dst w) as [[[chunk|] rd] w1].
  - simpl in Hok', Hchunk. destruct (Hchunk _ _ eq_refl) as [Hl Ht].
    destruct (rd <? len) eqn:Hshort; [discriminate|]. bool_to_Z.
    intros Hr. inversion Hr; subst. clear Hr.
    split; [|split; [lia|exact Hok']].
    unfold chunk_bytes, Zlength' in *. rewrite length_firstn. lia.
  - simpl in Hok', Hmono. destruct (rd >? 0) eqn:Hrd; [discriminate|].
    destruct ((len >? 0) || (rd <? len)) eqn:Hc; [discriminate|].
    bool_to_Z. intros Hr. inversion Hr; subst. clear Hr.
    assert (len = 0) by lia. subst len.
    split; [reflexivity|]. split; [lia|exact Hok'].
Qed.

Lemma READ_OR_BAIL_length (len : Z) (s : string) (w w' : world)
  (raw : list byte) :
  buffer_ok (buf w) -> 0 <= len ->
  READ_OR_BAIL len s w = (Ret raw, w') ->
  Zlength' raw = len
  /\ total_read (buf w) + len <= total_read (buf w')
  /\ buffer_ok (buf w').
Proof.
  intros Hok Hlen H. unfold READ_OR_BAIL in H.
  apply bind_inv in H. destruct H as (ptr & w1 & H & Hr).
  inversion Hr; subst. eapply ACTION_READ_length; eassumption.
Qed.

Lemma READ_INTO_OR_BAIL_length (len : Z) (s : string) (w w' : world)
  (raw : list byte) :
  buffer_ok (buf w) -> 0 <= len ->
  READ_INTO_OR_BAIL len s w = (Ret raw, w') ->
  Zlength' raw = len
  /\ total_read (buf w) + len <= total_read (buf w')
  /\ buffer_ok (buf w').
Proof.
  intros Hok Hlen H. unfold READ_INTO_OR_BAIL in H.
  apply bind_inv in H. destruct H as (ptr & w1 & H & Hr).
  inversion Hr; subst. eapply ACTION_READ_length; eassumption.
Qed.

Lemma READ_CHAR_OR_BAIL_ok (s : string) (w w' : world) (c : byte) :
  buffer_ok (buf w) ->
  READ_CHAR_OR_BAIL s w = (Ret c, w') ->
  total_read (buf w) + 1 <= total_read (buf w') /\ buffer_ok (buf w').
Proof.
  intros Hok H. unfold READ_CHAR_OR_BAIL in H.
  apply bind_inv in H. destruct H as (raw & w1 & H & Hr).
  inversion Hr; subst.
  assert (Hone : 0 <= 1) by lia.
  destruct (READ_OR_BAIL_length _ _ Hok Hone H) as (_ & H1 & H2). auto.
Qed.

(** The fixed and the buffered backend hand back no more than was asked
    for; only the callable backend leaves that to the stream. *)
Lemma read_fits_destination_unless_callable (len : Z) (w : world) :
  0 <= len -> read_func (buf w) <> read_callable ->
  read_fits_destination len w = true.
Proof.
  intros Hlen Hrf. unfold read_fits_destination, READ_VIA_FUNC.
  apply Z.leb_le.
  destruct (read_func (buf w)); [|congruence|].
  - unfold _decoder_buffer_read_fixed.
    destruct (len =? 0) eqn:Hz; bool_to_Z; [simpl; lia|].
    destruct (total_read (buf w) <? view_len (buf w)); simpl; lia.
  - unfold _decoder_buffer_read_buffered.
    destruct (len =? 0) eqn:Hz; bool_to_Z; [simpl; lia|].
    destruct (negb _ || _); [|simpl; lia].
    destruct (if view_set _ then _ else _) as [[r old] b1].
    destruct (call_input _ _) as [[e|data] w2]; [simpl; lia|].
    cbv zeta. destruct ((r =? 0) && _); simpl; lia.
Qed.

(** X1.  A read that succeeds hands its caller exactly the number of bytes
    asked for, on every backend: input that falls short is an error, never
    a shorter chunk.  At least that many bytes have then been consumed.
    This holds of a read that returns the chunk, and of a read into a
    destination when the read function hands back no more than the
    destination has room for. *)
Theorem read_delivers_requested_bytes (len : Z) (s : string) (w w' : world)
  (raw : list byte) :
  buffer_ok (buf w) -> 0 <= len ->
  READ_OR_BAIL len s w = (Ret raw, w')
  \/ (read_fits_destination len w = true
      /\ READ_INTO_OR_BAIL len s w = (Ret raw, w')) ->
  Zlength' raw = len
  /\ total_read (buf w) + len <= total_read (buf w')
  /\ buffer_ok (buf w').
Proof.
  intros Hok Hlen [H|[_ H]].
  - eapply READ_OR_BAIL_length; eassumption.
  - eapply READ_INTO_OR_BAIL_length; eassumption.
Qed.

(** X2.  The three outcomes of a read from a fixed buffer: with enough
    bytes left, the next [len] bytes; with some but too few, the error
    "Insufficient (partial) input", raised after [total_read] has moved to
    the end of the input; with none, "Insufficient input" and nothing
    consumed. *)
Theorem fixed_read_outcomes (len : Z) (s : string) (w : world) :
  read_func (buf w) = read_fixed -> 0 < len ->
  READ_OR_BAIL len s w =
    let left := view_len (buf w) - total_read (buf w) in
    if len <=? left then
      (Ret (slice (view (buf w)) (total_read (buf w)) len),
       with_buf (set_total_read (total_read (buf w) + len)) w)
    else if 0 <? left then
      (Null,
       set_exc (Some (DecoderException
                        ("Insufficient (partial) input (" ++ s ++ ")")
                        (view_len (buf w))))
         (with_buf (set_total_read (view_len (buf w))) w))
    else
      (Null,
       set_exc (Some (DecoderException ("Insufficient input (" ++ s ++ ")")
                        (total_read (buf w)))) w).
Proof.
  intros Hrf Hlen. cbv zeta.
  unfold READ_OR_BAIL, bind, ACTION_READ, READ_VIA_FUNC. rewrite Hrf.
  unfold _decoder_buffer_read_fixed.
  replace (len =? 0) with false by (symmetry; apply Z.eqb_neq; lia).
  replace (len >? 0) with true by (symmetry; apply Z.gtb_lt; lia).
  destruct (len <=? view_len (buf w) - total_read (buf w)) eqn:Hfit; bool_to_Z.
  - assert (Hlt : (total_read (buf w) <? view_len (buf w)) = true)
      by (apply Z.ltb_lt; lia).
    rewrite Hlt. cbv zeta. rewrite Z.min_l by lia.
    rewrite Z.ltb_irrefl. unfold ret, chunk_bytes, slice.
    rewrite firstn_firstn, Nat.min_id. reflexivity.
  - destruct (0 <? view_len (buf w) - total_read (buf w)) eqn:Hsome; bool_to_Z.
    + assert (Hlt : (total_read (buf w) <? view_len (buf w)) = true)
        by (apply Z.ltb_lt; lia).
      rewrite Hlt. cbv zeta. rewrite Z.min_r by lia.
      assert (Hshort : (view_len (buf w) - total_read (buf w) <? len) = true)
        by (apply Z.ltb_lt; lia).
      rewrite Hshort. unfold RAISE_DECODER_EXCEPTION. simpl.
      replace (total_read (buf w) + (view_len (buf w) - total_read (buf w)))
        with (view_len (buf w)) by lia.
      reflexivity.
    + assert (Hlt : (total_read (buf w) <? view_len (buf w)) = false)
        by (apply Z.ltb_ge; lia).
      rewrite Hlt. reflexivity.
Qed.

End ReadLengths.

Lemma read_delivers_requested_bytes_witness :
  (exists raw w',
      READ_OR_BAIL 2 "int16" (BytesIO.seekable BytesIO.prefs0 BytesIO.three_bytes)
      = (Ret raw, w')
      /\ Zlength' raw = 2
      /\ 2 <= total_read (buf w')
      /\ buffer_ok (buf w'))
  /\ (exists raw w',
         READ_INTO_OR_BAIL 2 "payload"
           (BytesIO.callable BytesIO.prefs0 BytesIO.three_bytes)
         = (Ret raw, w')
         /\ Zlength' raw = 2
         /\ 2 <= total_read (buf w')
         /\ buffer_ok (buf w')).
Proof.
  split.
  - eexists. eexists. split; [run|].
    apply (@read_delivers_requested_bytes BytesIO.host 2 "int16"
             (BytesIO.seekable BytesIO.prefs0 BytesIO.three_bytes)).
    + unfold buffer_ok, buffer_wf, view_len, Zlength'. simpl.
      split; [intros _; reflexivity|]. lia.
    + lia.
    + left. run.
  - eexists. eexists. split; [run|].
    apply (@read_delivers_requested_bytes BytesIO.host 2 "payload"
             (BytesIO.callable BytesIO.prefs0 BytesIO.three_bytes)).
    + unfold buffer_ok, buffer_wf, view_len, Zlength'. simpl.
      split; [reflexivity|]. lia.
    + lia.
    + right. split; [vm_compute; reflexivity|run].
Defined.

Lemma fixed_read_outcomes_witness :
  READ_OR_BAIL 4 "int32" (BytesIO.fixed BytesIO.prefs0 BytesIO.two_bytes)
  = (Null,
     set_exc (Some (DecoderException "Insufficient (partial) input (int32)" 2))
       (with_buf (set_total_read 2) (BytesIO.fixed BytesIO.prefs0 BytesIO.two_bytes))).
Proof.
  exact (@fixed_read_outcomes BytesIO.host 4 "int32"
           (BytesIO.fixed BytesIO.prefs0 BytesIO.two_bytes) eq_refl eq_refl).
Defined.

Lemma lor_shiftl_byte (a : Z) (b : byte) :
  Z.lor (Z.shiftl a 8) (byte_to_Z b) = 256 * a + byte_to_Z b.
Proof.
  pose proof (byte_to_Z_range b) as Hb.
  pose proof (Z.add_lor_land (Z.shiftl a 8) (byte_to_Z b)) as Hadd.
  assert (Hdisj : Z.land (Z.shiftl a 8) (byte_to_Z b) = 0).
  { apply Z.bits_inj'. intros n Hn. rewrite Z.land_spec, Z.bits_0.
    destruct (Z_lt_dec n 8) as [Hlow|Hhigh].
    - rewrite Z.shiftl_spec_low by exact Hlow. reflexivity.
    - rewrite (Z.bits_above_log2 (byte_to_Z b) n); [apply andb_false_r|lia|].
      destruct (Z.eq_dec (byte_to_Z b) 0) as [Hz|Hnz];
        [rewrite Hz; simpl; lia|].
      apply Z.log2_lt_pow2; [lia|].
      apply Z.lt_le_trans with (2 ^ 8); [lia|].
      apply Z.pow_le_mono_r; lia. }
  rewrite Z.shiftl_mul_pow2 in * by lia. change (2 ^ 8) with 256 in *. lia.
Qed.

Lemma shift_be_be_value (raw : list byte) : shift_be raw = be_value raw.
Proof.
  unfold shift_be, be_value. generalize 0.
  induction raw as [|b rest IH]; intros acc; cbn [fold_left]; [reflexivity|].
  rewrite lor_shiftl_byte. apply IH.
Qed.

Lemma be_value_snoc (raw : list byte) (b : byte) :
  be_value (raw ++ [b]) = 256 * be_value raw + byte_to_Z b.
Proof. unfold be_value. rewrite fold_left_app. reflexivity. Qed.

Lemma store_le_be_value (raw : list byte) : store_le raw = be_value (rev raw).
Proof.
  induction raw as [|b rest IH]; cbn [store_le rev]; [reflexivity|].
  rewrite be_value_snoc, <- IH, Z.lor_comm. apply lor_shiftl_byte.
Qed.

Lemma be_value_range (raw : list byte) :
  0 <= be_value raw < 256 ^ Zlength' raw.
Proof.
  induction raw as [|b rest IH] using rev_ind.
  - unfold be_value, Zlength'. simpl. lia.
  - rewrite be_value_snoc, Zlength'_app.
    change (Zlength' [b]) with 1.
    pose proof (byte_to_Z_range b). pose proof (Zlength'_nonneg rest).
    rewrite Z.pow_add_r by lia. change (256 ^ 1) with 256. nia.
Qed.

Lemma Zlength'_rev {A} (l : list A) : Zlength' (rev l) = Zlength' l.
Proof. unfold Zlength'. rewrite length_rev. reflexivity. Qed.

(** [value |= -(value & (1L << k))] on a [k+1]-bit pattern is its two's
    complement reading. *)
Lemma sign_extend_to_signed (value k : Z) :
  0 <= k -> 0 <= value < 2 ^ (k + 1) ->
  Z.lor value (- Z.land value (Z.shiftl 1 k)) = to_signed (k + 1) value.
Proof.
  intros Hk Hv. rewrite Z.shiftl_1_l.
  assert (Hpow : 2 ^ (k + 1) = 2 * 2 ^ k) by (rewrite Z.pow_add_r by lia; lia).
  assert (Hpk : 0 < 2 ^ k) by (apply Z.pow_pos_nonneg; lia).
  unfold to_signed. replace (k + 1 - 1) with k by lia.
  rewrite Z.mod_small by lia.
  assert (Hbit : Z.land value (2 ^ k) = if Z.testbit value k then 2 ^ k else 0).
  { apply Z.bits_inj'. intros n Hn. rewrite Z.land_spec, Z.pow2_bits_eqb by lia.
    destruct (Z.eqb_spec k n) as [->|Hne].
    - rewrite andb_true_r. destruct (Z.testbit value n);
        [rewrite Z.pow2_bits_true by lia|rewrite Z.bits_0]; reflexivity.
    - rewrite andb_false_r. destruct (Z.testbit value k);
        [rewrite Z.pow2_bits_false by lia|rewrite Z.bits_0]; reflexivity. }
  assert (Htest : Z.testbit value k = negb (value <? 2 ^ k)).
  { destruct (value <? 2 ^ k) eqn:Hlt; bool_to_Z; simpl.
    - apply Z.testbit_false; [lia|]. rewrite Z.div_small by lia. reflexivity.
    - apply Z.testbit_true; [lia|].
      assert (value / 2 ^ k = 1)
        by (symmetry; apply Z.div_unique with (value - 2 ^ k); lia).
      replace (value / 2 ^ k) with 1. reflexivity. }
  rewrite Hbit, Htest.
  destruct (value <? 2 ^ k) eqn:Hlt; bool_to_Z; simpl.
  - apply Z.lor_0_r.
  - (* value = 2^k + low *)
    pose proof (Z.add_lor_land value (- 2 ^ k)) as Hadd.
    assert (Hland : Z.land value (- 2 ^ k) = 2 ^ k).
    { replace (- 2 ^ k) with (Z.lnot (Z.ones k))
        by (rewrite Z.ones_equiv; unfold Z.lnot; lia).
      rewrite <- Z.ldiff_land, Z.ldiff_ones_r by lia.
      rewrite Z.shiftr_div_pow2, Z.shiftl_mul_pow2 by lia.
      assert (value / 2 ^ k = 1)
        by (symmetry; apply Z.div_unique with (value - 2 ^ k); lia).
      replace (value / 2 ^ k) with 1. lia. }
    lia.
Qed.

Section IntegerValues.
Context `{Host : PyHost}.

Lemma pow_256 (n : Z) : 0 <= n -> 256 ^ n = 2 ^ (8 * n).
Proof. intros Hn. change 256 with (2 ^ 8). rewrite <- Z.pow_mul_r by lia. reflexivity. Qed.

(** X3.  [_decode_uint16_32] and [_decode_int16_32] on the same [size]
    bytes (2 or 4): the unsigned decoder returns the number the bytes
    denote, most significant byte first, or least significant first under
    [islittle]; it is below [2 ^ (8 * size)]; the signed decoder returns
    the two's complement reading of the same bit pattern. *)
Theorem int16_32_values (size : Z) (s : string) (w w' : world) (raw : list byte) :
  buffer_ok (buf w) -> size = 2 \/ size = 4 ->
  READ_OR_BAIL size s w = (Ret raw, w') ->
  let u := if islittle (prefs (buf w')) then be_value (rev raw)
           else be_value raw in
  0 <= u < 2 ^ (8 * size)
  /\ _decode_uint16_32 size w = (Ret (PyLong u), w')
  /\ _decode_int16_32 size w = (Ret (PyLong (to_signed (8 * size) u)), w').
Proof.
  intros Hok Hsize Hread u.
  assert (Hlen : 0 <= size) by lia.
  destruct (READ_OR_BAIL_length _ _ Hok Hlen Hread) as (Hraw & _ & _).
  assert (Hu : 0 <= u < 2 ^ (8 * size)).
  { unfold u. rewrite <- pow_256, <- Hraw by lia.
    destruct (islittle _);
      [rewrite <- Zlength'_rev|]; apply be_value_range. }
  split; [exact Hu|]. split.
  - unfold _decode_uint16_32.
    erewrite bind_ret by (eapply READ_OR_BAIL_item; exact Hread).
    unfold bind, get_prefs, ret. cbv zeta. unfold u.
    rewrite store_le_be_value, shift_be_be_value. reflexivity.
  - unfold _decode_int16_32.
    erewrite bind_ret by (eapply READ_OR_BAIL_item; exact Hread).
    unfold bind, get_prefs, ret. cbv zeta.
    rewrite store_le_be_value, shift_be_be_value. fold u.
    replace (SIZEOF_LONG >? size) with true
      by (unfold SIZEOF_LONG; destruct Hsize; subst; reflexivity).
    rewrite sign_extend_to_signed by (replace (8 * size - 1 + 1) with (8 * size); lia).
    replace (8 * size - 1 + 1) with (8 * size) by lia. reflexivity.
Qed.

(** X4.  [_decode_uint64] and [_decode_int64] on the same eight bytes:
    the unsigned value is the number the bytes denote in the selected byte
    order, below [2 ^ 64]; the signed value is its two's complement
    reading, so it fits [long long]. *)
Theorem int64_values (s : string) (w w' : world) (raw : list byte) :
  buffer_ok (buf w) ->
  READ_OR_BAIL 8 s w = (Ret raw, w') ->
  let u := if islittle (prefs (buf w')) then be_value (rev raw)
           else be_value raw in
  0 <= u < 2 ^ 64
  /\ _decode_uint64 w = (Ret (PyLong u), w')
  /\ _decode_int64 w = (Ret (PyLong (to_signed 64 u)), w')
  /\ fits_long_long (to_signed 64 u).
Proof.
  intros Hok Hread u.
  assert (Hlen : 0 <= 8) by lia.
  destruct (READ_OR_BAIL_length _ _ Hok Hlen Hread) as (Hraw & _ & _).
  assert (Hu : 0 <= u < 2 ^ 64).
  { unfold u. change (2 ^ 64) with (256 ^ 8). rewrite <- Hraw.
    destruct (islittle _);
      [rewrite <- Zlength'_rev|]; apply be_value_range. }
  split; [exact Hu|]. split; [|split].
  - unfold _decode_uint64.
    erewrite bind_ret by (eapply READ_OR_BAIL_item; exact Hread).
    unfold bind, get_prefs, ret. cbv zeta. unfold u.
    rewrite store_le_be_value, shift_be_be_value. reflexivity.
  - unfold _decode_int64.
    erewrite bind_ret by (eapply READ_OR_BAIL_item; exact Hread).
    unfold bind, get_prefs, ret. cbv zeta. unfold u.
    rewrite store_le_be_value, shift_be_be_value. reflexivity.
  - apply to_signed_fits.
Qed.

End IntegerValues.

Lemma int16_32_values_witness :
  let w := BytesIO.fixed BytesIO.prefs0 BytesIO.two_bytes in
  let w' := with_buf (set_total_read 2) w in
  _decode_uint16_32 2 w = (Ret (PyLong 65534), w')
  /\ _decode_int16_32 2 w = (Ret (PyLong (-2)), w').
Proof.
  intros w w'.
  assert (Hread : READ_OR_BAIL 2 "int16" w = (Ret BytesIO.two_bytes, w')) by run.
  destruct (@int16_32_values BytesIO.host 2 "int16" w w' BytesIO.two_bytes
              (BytesIO_fixed_ok _ _) (or_introl eq_refl) Hread)
    as (_ & Hu & Hs).
  split; [exact Hu|exact Hs].
Defined.

Lemma int64_values_witness :
  let w := BytesIO.fixed BytesIO.prefs0 BytesIO.eight_ff in
  let w' := with_buf (set_total_read 8) w in
  _decode_uint64 w = (Ret (PyLong 18446744073709551615), w')
  /\ _decode_int64 w = (Ret (PyLong (-1)), w').
Proof.
  intros w w'.
  assert (Hread : READ_OR_BAIL 8 "int64" w = (Ret BytesIO.eight_ff, w')) by run.
  destruct (@int64_values BytesIO.host "int64" w w' BytesIO.eight_ff
              (BytesIO_fixed_ok _ _) Hread)
    as (_ & Hu & Hs & _).
  split; [exact Hu|exact Hs].
Defined.

Section LengthErrors.
Context `{Host : PyHost}.

(** X5.  Two ways a length or count fails before its sign is looked at: a
    marker that is no integer marker is refused with "Integer marker
    expected" and nothing is consumed; a uint64 above [LLONG_MAX] leaves
    the interpreter's OverflowError, not the decoder's exception. *)
Theorem length_marker_errors :
  (forall (m : byte) (w : world),
      is_integer_marker m = false ->
      _decode_int_non_negative (Some m) w
      = (Null, set_exc (Some (DecoderException "Integer marker expected"
                                (total_read (buf w)))) w))
  /\ (forall (w w' : world) (v : Z),
         _decode_uint64 w = (Ret (PyLong v), w') ->
         LLONG_MAX < v ->
         _decode_int_non_negative (Some TYPE_UINT64) w
         = (Null, set_exc (Some OverflowError) w')).
Proof.
  split.
  - intros m w Hm. unfold is_integer_marker in Hm. cbn [existsb] in Hm.
    repeat (apply orb_false_iff in Hm; destruct Hm as [? Hm]).
    unfold _decode_int_non_negative, bind, ret, _decode_int_switch.
    repeat match goal with
      | H : byte_eqb m _ = false |- _ => rewrite H; clear H
      end.
    reflexivity.
  - intros w w' v Hv Hbig.
    unfold _decode_int_non_negative, bind, ret, _decode_int_switch.
    cbn [byte_eqb Byte.eqb]. change (byte_eqb TYPE_UINT64 TYPE_UINT8) with false.
    change (byte_eqb TYPE_UINT64 TYPE_INT8) with false.
    change (byte_eqb TYPE_UINT64 TYPE_UINT16) with false.
    change (byte_eqb TYPE_UINT64 TYPE_INT16) with false.
    change (byte_eqb TYPE_UINT64 TYPE_UINT32) with false.
    change (byte_eqb TYPE_UINT64 TYPE_INT32) with false.
    change (byte_eqb TYPE_UINT64 TYPE_UINT64) with true.
    cbv iota. rewrite Hv. unfold PyLong_AsLongLong.
    replace (v <=? LLONG_MAX) with false by (symmetry; apply Z.leb_gt; lia).
    rewrite andb_false_r. reflexivity.
Qed.

End LengthErrors.

Section Chars.
Context `{Host : PyHost}.

Lemma utf8_valid_single (c : byte) : utf8_valid [c] = (byte_to_Z c <? 128).
Proof.
  cbn [utf8_valid]. unfold in_range.
  pose proof (byte_to_Z_range c) as Hc.
  destruct (byte_to_Z c <? 128) eqn:Hlt; bool_to_Z.
  - replace (0 <=? byte_to_Z c) with true by (symmetry; apply Z.leb_le; lia).
    replace (byte_to_Z c <=? 127) with true by (symmetry; apply Z.leb_le; lia).
    reflexivity.
  - replace (byte_to_Z c <=? 127) with false by (symmetry; apply Z.leb_gt; lia).
    rewrite andb_false_r. reflexivity.
Qed.

(** X6.  A ['C'] value is one byte decoded as UTF-8 on its own: bytes
    below 128 give the one-character string, every other byte fails with
    "Failed to decode utf8: char", raised after the byte was consumed. *)
Theorem char_is_ascii_only (s : string) (w w' : world) (c : byte) :
  READ_CHAR_OR_BAIL s w = (Ret c, w') ->
  _decode_char w
  = if byte_to_Z c <? 128 then (Ret (PyUnicode [c]), w')
    else (Null,
          set_exc (Some (DecoderException "Failed to decode utf8: char"
                           (total_read (buf w')))) w').
Proof.
  intros H. unfold _decode_char.
  erewrite bind_ret by (eapply READ_CHAR_OR_BAIL_item; exact H).
  unfold DECODE_UNICODE_OR_BAIL. rewrite utf8_valid_single.
  destruct (byte_to_Z c <? 128); reflexivity.
Qed.

End Chars.

Lemma length_marker_errors_witness :
  let w := BytesIO.fixed BytesIO.prefs0 BytesIO.eight_ff in
  _decode_int_non_negative (Some TYPE_UINT64) w
  = (Null, set_exc (Some OverflowError) (with_buf (set_total_read 8) w))
  /\ _decode_int_non_negative (Some TYPE_STRING) w
     = (Null, set_exc (Some (DecoderException "Integer marker expected" 0)) w).
Proof.
  intros w. destruct (@length_marker_errors BytesIO.host) as [Hm Ho]. split.
  - apply (Ho w (with_buf (set_total_read 8) w) 18446744073709551615).
    + run.
    + reflexivity.
  - apply (Hm TYPE_STRING w). reflexivity.
Defined.

Lemma char_is_ascii_only_witness :
  let w := BytesIO.fixed BytesIO.prefs0 BytesIO.e_acute_latin1 in
  _decode_char w
  = (Null,
     set_exc (Some (DecoderException "Failed to decode utf8: char" 1))
       (with_buf (set_total_read 1) w)).
Proof.
  intros w.
  assert (Hread : READ_CHAR_OR_BAIL "char" w
                  = (Ret xe9, with_buf (set_total_read 1) w)) by run.
  exact (@char_is_ascii_only BytesIO.host "char" w _ xe9 Hread).
Defined.

Section HeaderErrors.
Context `{Host : PyHost}.
Variable decode_value : option byte -> M PyObject.

Ltac read_step H :=
  erewrite gbind_ret
    by (apply or_bail_ret; eapply READ_CHAR_OR_BAIL_item; exact H);
  cbv beta iota.

(** X7.  After ['$'] only a value type may follow.  Any other byte (the
    no-op marker, a closing bracket, ['$'] or ['#'] among them) makes the
    header invalid with "Invalid container type", raised after that byte
    was consumed, and the array and object decoders fail with it. *)
Theorem invalid_container_type :
  is_container_type TYPE_NOOP = false
  /\ is_container_type ARRAY_END = false
  /\ is_container_type OBJECT_END = false
  /\ is_container_type CONTAINER_TYPE = false
  /\ is_container_type CONTAINER_COUNT = false
  /\ forall (fuel : nat) (in_mapping nd : bool) (w w1 w2 : world)
            (t : byte) (s1 s2 : string),
      READ_CHAR_OR_BAIL s1 w = (Ret CONTAINER_TYPE, w1) ->
      READ_CHAR_OR_BAIL s2 w1 = (Ret t, w2) ->
      is_container_type t = false ->
      let w' := set_exc (Some (DecoderException "Invalid container type"
                                 (total_read (buf w2)))) w2 in
      _get_container_params fuel in_mapping nd w
      = (Ret (mkParams x00 false 0 x00 true, (0, [])), w')
      /\ _decode_array decode_value fuel w = (Null, w')
      /\ _decode_object decode_value fuel w = (Null, w')
      /\ _decode_object_with_pairs_hook decode_value fuel w = (Null, w').
Proof.
  repeat (split; [reflexivity|]).
  intros fuel in_mapping nd w w1 w2 t s1 s2 H1 H2 Ht w'.
  assert (Hhdr : forall im nd',
             _get_container_params fuel im nd' w
             = (Ret (mkParams x00 false 0 x00 true, (0, [])), w')).
  { intros im nd'.
    unfold _get_container_params, run_G, get_container_params_body, header_type.
    unfold gbind at 1.
    read_step H1. change (byte_eqb CONTAINER_TYPE CONTAINER_TYPE) with true.
    cbv iota. read_step H2. rewrite Ht. reflexivity. }
  split; [apply Hhdr|].
  split; [|split].
  - unfold _decode_array. erewrite bind_ret by apply Hhdr. reflexivity.
  - unfold _decode_object. erewrite bind_ret by apply Hhdr. reflexivity.
  - unfold _decode_object_with_pairs_hook.
    erewrite bind_ret by apply Hhdr. reflexivity.
Qed.

End HeaderErrors.

Section Dimensions.
Context `{Host : PyHost}.


Lemma nd_dims_counted_dims (n : nat) :
  forall (p : _container_params_t) (t : byte) (l : list Z) (w w' : world)
         (p' : _container_params_t) (l' : list Z),
    nd_dims_counted p t n l w = (GRet (p', l'), w') ->
    exists ls, l' = l ++ ls /\ List.length ls = n /\ Forall is_length ls.
Proof.
  induction n as [|n IH]; intros p t l w w' p' l' H; simpl in H.
  - unfold gret in H. inversion H; subst. exists []. rewrite app_nil_r. auto.
  - apply gbind_inv in H. destruct H as (len & w1 & Hlen & H).
    apply or_bail_inv in Hlen. unfold DECODE_LENGTH_OR_BAIL_MARKER in Hlen.
    apply _decode_int_non_negative_range in Hlen.
    apply IH in H. destruct H as (ls & -> & Hn & Hall).
    exists (len :: ls). rewrite <- app_assoc. simpl.
    split; [reflexivity|]. split; [lia|]. constructor; assumption.
Qed.

Lemma nd_dims_uncounted_dims (fuel : nat) :
  forall (p : _container_params_t) (m : byte) (l : list Z) (w w' : world)
         (p' : _container_params_t) (m' : byte) (l' : list Z),
    nd_dims_uncounted fuel p m l w = (GRet (p', m', l'), w') ->
    exists ls, l' = l ++ ls /\ Forall is_length ls.
Proof.
  induction fuel as [|fuel IH]; intros p m l w w' p' m' l' H; simpl in H.
  - destruct (byte_eqb ARRAY_END m); [|discriminate].
    unfold gret in H. inversion H; subst. exists []. rewrite app_nil_r. auto.
  - destruct (byte_eqb ARRAY_END m).
    + unfold gret in H. inversion H; subst. exists []. rewrite app_nil_r. auto.
    + apply gbind_inv in H. destruct H as (len & w1 & Hlen & H).
      apply or_bail_inv in Hlen. unfold DECODE_LENGTH_OR_BAIL_MARKER in Hlen.
      apply _decode_int_non_negative_range in Hlen.
      apply gbind_inv in H. destruct H as (m1 & w2 & _ & H).
      apply IH in H. destruct H as (ls & -> & Hall).
      exists (len :: ls). rewrite <- app_assoc. simpl.
      split; [reflexivity|]. constructor; assumption.
Qed.

Lemma header_count_dims (self : M _container_params_t) (fuel : nat)
  (nd : bool) (p0 p : _container_params_t) (m : byte) (ndims : Z)
  (dims : list Z) (w w' : world) :
  header_count self fuel nd p0 w = (GRet (p, m, (ndims, dims)), w') ->
  Forall is_length dims
  /\ (ndims = Zlength' dims mod 2 ^ 32 \/ dims = []).
Proof.
  unfold header_count. intros H.
  apply gbind_inv in H. destruct H as (m2 & w1 & _ & H).
  destruct (byte_eqb ARRAY_START m2 && nd).
  - apply gbind_inv in H. destruct H as (ds & w2 & _ & H).
    destruct (counting ds).
    + apply gbind_inv in H. destruct H as ([p1 l1] & w3 & H1 & H).
      unfold gret in H. inversion H; subst.
      apply nd_dims_counted_dims in H1. destruct H1 as (ls & Hl & Hn & Hall).
      simpl in Hl. subst. split; [exact Hall|].
      destruct (Z_lt_dec (count ds) 0) as [Hneg|Hpos].
      * right. destruct ls; [reflexivity|]. simpl in Hn. lia.
      * left. unfold Zlength'. rewrite Hn, Z2Nat.id by lia. reflexivity.
    + apply gbind_inv in H. destruct H as ([[p1 m1] l1] & w3 & H1 & H).
      unfold gret in H. inversion H; subst.
      apply nd_dims_uncounted_dims in H1. destruct H1 as (ls & Hl & Hall).
      simpl in Hl. subst. auto.
  - destruct (DECODE_LENGTH_OR_BAIL_MARKER m2 w1) as [[n| |] w2];
      try discriminate.
    inversion H; subst. auto.
Qed.

(** X8.  What an accepted header with an N-D dimension vector says:
    the container is counted, its count is the product of the dimensions
    as [long long] computes it, every dimension is a length between 0 and
    [LLONG_MAX], and [ndims] is the number of dimensions as an
    [unsigned int] (or no dimension was read at all). *)
Theorem nd_header_facts (fuel : nat) (im : bool) (w w' : world)
  (p : _container_params_t) (ndims : Z) (dims : list Z) :
  _get_container_params fuel im true w = (Ret (p, (ndims, dims)), w') ->
  invalid p = false -> ndims <> 0 ->
  counting p = true
  /\ count p = wrapped_product dims
  /\ Forall (fun d => 0 <= d <= LLONG_MAX) dims
  /\ (ndims = Zlength' dims mod 2 ^ 32 \/ dims = []).
Proof.
  intros H Hv Hnd.
  pose proof (_get_container_params_product _ _ _ _ H Hv Hnd) as Hprod.
  destruct (_get_container_params_valid _ _ _ _ H Hv) as (_ & Hunc & _).
  split.
  { destruct (counting p); [reflexivity|].
    destruct (Hunc eq_refl) as (_ & _ & Hnds). inversion Hnds. contradiction. }
  split; [exact Hprod|].
  unfold _get_container_params, run_G in H.
  destruct (get_container_params_body _ fuel im true w) as [[r| q|] w1] eqn:Hb;
    try discriminate.
  - inversion H; subst. clear H.
    unfold get_container_params_body in Hb.
    apply gbind_inv in Hb. destruct Hb as ([p0 m0] & w0 & Hh & Hb).
    destruct (byte_eqb CONTAINER_COUNT m0).
    + apply gbind_inv in Hb. destruct Hb as ([[p1 m1] [n1 d1]] & w2 & Hc & Hb).
      apply gbind_inv in Hb. destruct Hb as (m2 & w3 & _ & Hb).
      unfold gret in Hb. inversion Hb; subst.
      apply header_count_dims in Hc. exact Hc.
    + destruct (byte_eqb TYPE_NONE (type p0)).
      * unfold gret in Hb. inversion Hb; subst. contradiction.
      * apply gbind_inv in Hb. destruct Hb as (u & w3 & Hb & _).
        apply or_bail_inv in Hb. discriminate.
  - inversion H; subst. contradiction.
Qed.

End Dimensions.

Section DimensionVectors.
Context `{Host : PyHost}.

Lemma header_type_fields (p : _container_params_t) (m : byte) (w w' : world) :
  header_type w = (GRet (p, m), w') ->
  p = mkParams x00 false 0 (type p) false.
Proof.
  unfold header_type. intros H.
  apply gbind_inv in H. destruct H as (m1 & w1 & _ & H).
  destruct (byte_eqb CONTAINER_TYPE m1).
  - apply gbind_inv in H. destruct H as (m2 & w2 & _ & H).
    destruct (is_container_type m2) eqn:Ht.
    + apply gbind_inv in H. destruct H as (m3 & w3 & _ & H).
      unfold gret in H. inversion H; subst. reflexivity.
    + apply gbind_inv in H. destruct H as (u & w3 & H & _).
      apply or_bail_inv in H. discriminate.
  - unfold gret in H. inversion H; subst. reflexivity.
Qed.


Lemma vector_header_body (fuel : nat) (im : bool) (w w3 : world) (t : byte)
  (ds : _container_params_t) :
  vector_header_read w w3 t ds ->
  get_container_params_body (_get_container_params_flat false) fuel im true w
  = gbind
      (let params := mkParams x00 true 1 t false in
       if counting ds then
         gbind (nd_dims_counted params (type ds) (Z.to_nat (count ds)) [])
           (fun x => let (params, nd_dims) := x in
                     gret (params, ARRAY_START, (count ds mod 2 ^ 32, nd_dims)))
       else
         gbind (nd_dims_uncounted fuel params (marker_of ds) [])
           (fun x => let '(params, marker, nd_dims) := x in
                     gret (params, marker, (Zlength' nd_dims mod 2 ^ 32, nd_dims))))
      (fun x => let '(params, marker, nds) := x in
                gbind (header_prefetch im params marker)
                  (fun marker => gret (set_invalid false (set_marker marker params), nds)))
      w3.
Proof.
  intros (p0 & w1 & w2 & s & Hh & Ht & Hr & Hf).
  pose proof (header_type_fields _ Hh) as Hp0. rewrite Ht in Hp0.
  unfold get_container_params_body.
  erewrite gbind_ret by exact Hh. cbv beta iota.
  change (byte_eqb CONTAINER_COUNT CONTAINER_COUNT) with true. cbv iota.
  unfold header_count. unfold gbind at 1. unfold gbind at 1.
  erewrite or_bail_ret by (eapply READ_CHAR_OR_BAIL_item; exact Hr).
  change (byte_eqb ARRAY_START ARRAY_START && true) with true. cbv iota.
  unfold gbind at 1. erewrite or_bail_ret by exact Hf.
  subst p0. reflexivity.
Qed.

(** X9.  The dimension vector of an N-D header must be typed when it is
    counted: the lengths of a counted vector are decoded with the vector's
    type as marker, so a counted vector without type (['#'] and a positive
    count, without ['$']) is refused with "Integer marker expected" before
    any dimension is read. *)
Theorem untyped_counted_dimensions_fail (fuel : nat) (im : bool)
  (w w3 : world) (t : byte) (ds : _container_params_t) :
  vector_header_read w w3 t ds ->
  counting ds = true -> type ds = TYPE_NONE -> 0 < count ds ->
  _get_container_params fuel im true w
  = (Ret (mkParams x00 true 1 t true, (0, [])),
     set_exc (Some (DecoderException "Integer marker expected"
                      (total_read (buf w3)))) w3).
Proof.
  intros Hv Hc Ht Hn.
  unfold _get_container_params, run_G.
  rewrite (vector_header_body fuel im Hv). rewrite Hc, Ht.
  destruct (Z.to_nat (count ds)) as [|n] eqn:Hnat; [lia|].
  reflexivity.
Qed.

(** X10.  The vector's own header is not checked for failure.  When it
    fails on its count (the record comes back counting, with count -1 and
    flagged invalid), no dimension is read and the outer header is
    returned as valid all the same: count 1, [ndims] 4294967295, no
    dimensions, in the state the failure left (its exception included),
    after the usual look-ahead. *)
Theorem failed_dimension_header_is_not_checked (fuel : nat)
  (w w3 : world) (t : byte) (ds : _container_params_t) :
  vector_header_read w w3 t ds ->
  invalid ds = true -> counting ds = true -> count ds = -1 ->
  (t <> TYPE_NONE ->
   _get_container_params fuel false true w
   = (Ret (mkParams t true 1 t false, (4294967295, [])), w3))
  /\ (t = TYPE_NONE ->
      forall (s : string) (c : byte) (w4 : world),
        READ_CHAR_OR_BAIL s w3 = (Ret c, w4) ->
        _get_container_params fuel false true w
        = (Ret (mkParams c true 1 t false, (4294967295, [])), w4)).
Proof.
  intros Hv _ Hc Hn.
  unfold _get_container_params, run_G.
  rewrite (vector_header_body fuel false Hv). rewrite Hc, Hn.
  change (Z.to_nat (-1)) with 0%nat. cbn [nd_dims_counted].
  change (-1 mod 2 ^ 32) with 4294967295.
  unfold gbind, gret, header_prefetch. cbv beta iota zeta.
  cbn [count type]. change (1 >? 0) with true. cbn [andb orb].
  split.
  - intros Hne.
    rewrite (byte_eqb_neq (not_eq_sym Hne)). reflexivity.
  - intros -> s c w4 Hread.
    change (byte_eqb TYPE_NONE TYPE_NONE) with true. cbv iota.
    erewrite gbind_ret
      by (apply or_bail_ret; eapply READ_CHAR_OR_BAIL_item; exact Hread).
    reflexivity.
Qed.

End DimensionVectors.

Lemma invalid_container_type_witness :
  let w := BytesIO.fixed BytesIO.prefs0 BytesIO.noop_typed_body in
  _decode_array (fun _ => bail) 0 w
  = (Null,
     set_exc (Some (DecoderException "Invalid container type" 2))
       (with_buf (set_total_read 2) w)).
Proof.
  intros w.
  destruct (@invalid_container_type BytesIO.host (fun _ => bail))
    as (_ & _ & _ & _ & _ & H).
  assert (H1 : READ_CHAR_OR_BAIL "t" w
               = (Ret CONTAINER_TYPE, with_buf (set_total_read 1) w)) by run.
  assert (H2 : READ_CHAR_OR_BAIL "t" (with_buf (set_total_read 1) w)
               = (Ret TYPE_NOOP, with_buf (set_total_read 2) w)) by run.
  destruct (H 0%nat false true w _ _ TYPE_NOOP "t"%string "t"%string H1 H2 eq_refl)
    as (_ & Ha & _).
  exact Ha.
Defined.

Lemma nd_header_facts_witness :
  exists w',
    _get_container_params 1 false true
      (BytesIO.fixed BytesIO.prefs0 BytesIO.nd_array_body)
    = (Ret (mkParams "U" true 6 "U" false, (2, [2; 3])), w')
    /\ 6 = wrapped_product [2; 3]
    /\ Forall (fun d => 0 <= d <= LLONG_MAX) [2; 3]
    /\ (2 = Zlength' [2; 3] mod 2 ^ 32 \/ [2; 3] = []).
Proof.
  eexists. split; [run|].
  assert (Hhdr : _get_container_params 1 false true
                   (BytesIO.fixed BytesIO.prefs0 BytesIO.nd_array_body)
                 = (Ret (mkParams "U" true 6 "U" false, (2, [2; 3])),
                    with_buf (set_total_read 11)
                      (BytesIO.fixed BytesIO.prefs0 BytesIO.nd_array_body))) by run.
  destruct (@nd_header_facts BytesIO.host 1 false _ _ _ 2 [2; 3] Hhdr eq_refl
              ltac:(discriminate)) as (_ & Hp & Hall & Hn).
  split; [exact Hp|]. split; [exact Hall|exact Hn].
Defined.

Lemma untyped_vector_read :
  let w := BytesIO.fixed BytesIO.prefs0 BytesIO.untyped_vector_body in
  vector_header_read w (with_buf (set_total_read 8) w) "U"
    (mkParams x03 true 2 x00 false).
Proof.
  intros w. unfold vector_header_read.
  exists (mkParams x00 false 0 "U" false), (with_buf (set_total_read 3) w),
    (with_buf (set_total_read 4) w), "s"%string.
  split; [run|]. split; [reflexivity|]. split; run.
Defined.

Lemma untyped_counted_dimensions_fail_witness :
  let w := BytesIO.fixed BytesIO.prefs0 BytesIO.untyped_vector_body in
  _get_container_params 1 false true w
  = (Ret (mkParams x00 true 1 "U" true, (0, [])),
     set_exc (Some (DecoderException "Integer marker expected" 8))
       (with_buf (set_total_read 8) w)).
Proof.
  intros w.
  exact (@untyped_counted_dimensions_fail BytesIO.host 1 false w _ "U" _
           untyped_vector_read eq_refl eq_refl eq_refl).
Defined.

Lemma failed_vector_read :
  let w := BytesIO.fixed BytesIO.prefs0 BytesIO.failed_vector_body in
  vector_header_read w
    (set_exc (Some (DecoderException "Negative count/length unexpected" 5))
       (with_buf (set_total_read 5) w))
    TYPE_NONE (mkParams x00 true (-1) x00 true).
Proof.
  intros w. unfold vector_header_read.
  exists (mkParams x00 false 0 x00 false), (with_buf (set_total_read 1) w),
    (with_buf (set_total_read 2) w), "s"%string.
  split; [run|]. split; [reflexivity|]. split; run.
Defined.

Lemma failed_dimension_header_is_not_checked_witness :
  let w := BytesIO.fixed BytesIO.prefs0 BytesIO.failed_vector_body in
  _get_container_params 1 false true w
  = (Ret (mkParams "i" true 1 x00 false, (4294967295, [])),
     set_exc (Some (DecoderException "Negative count/length unexpected" 5))
       (with_buf (set_total_read 6) w))
  /\ _decode_array (_bjdata_decode_value 1 1) 1 w
     = (Ret (PyList [PyLong 5]),
        set_exc (Some (DecoderException "Negative count/length unexpected" 5))
          (with_buf (set_total_read 7) w)).
Proof.
  intros w. split; [|run].
  destruct (@failed_dimension_header_is_not_checked BytesIO.host 1 w _ TYPE_NONE
              _ failed_vector_read eq_refl eq_refl eq_refl) as [_ H].
  apply (H eq_refl "s"%string). run.
Defined.

(** X14.  The type tables agree with one another: the fixed-length types
    are exactly the types [_get_type_info] knows, each with a positive
    element size; they and the no-data types are disjoint and are all
    valid container types; and behind [_is_no_data_type] the function
    [_no_data_type] always has a value to return. *)
Theorem type_tables_agree `{Host : PyHost} (t : byte) :
  (_is_fixed_len_type t = true <-> fst (_get_type_info t) <> PyArray_USERDEF)
  /\ (_is_fixed_len_type t = true -> 0 < snd (_get_type_info t) <= 8)
  /\ (_is_fixed_len_type t = true -> _is_no_data_type t = false)
  /\ (_is_fixed_len_type t = true \/ _is_no_data_type t = true ->
      is_container_type t = true)
  /\ (_is_no_data_type t = true ->
      forall w, exists v, _no_data_type t w = (Ret v, w)
                          /\ (v = Py_None \/ v = Py_True \/ v = Py_False)).
Proof.
  split; [|split; [|split; [|split]]].
  - destruct t; vm_compute; split; intros H; congruence.
  - destruct t; vm_compute; intros H; try discriminate H; split; congruence.
  - destruct t; vm_compute; congruence.
  - destruct t; vm_compute; intros [H|H]; congruence.
  - intros H w. unfold _no_data_type.
    destruct t; vm_compute in H; try discriminate H; cbn;
      eexists; (split; [reflexivity|]); auto.
Qed.

Lemma fixed_len_type_info (t : byte) :
  _is_fixed_len_type t = true -> fst (_get_type_info t) <> PyArray_USERDEF.
Proof. destruct t; vm_compute; intros H; congruence. Qed.

Section Arrays.
Context `{Host : PyHost}.
Variable decode_value : option byte -> M PyObject.

(** X11.  A counted array of a no-data type (null, true or false) needs
    no payload: whenever such an array decodes to a value, the value is
    the list of [count] copies of null, true or false, and the buffer is
    as the header left it.  The arrays [[ $ Z # U 3], [[ $ T # U 3] and
    [[ $ F # U 2] decode so, with nothing read after the count. *)
Theorem counted_no_data_array :
  (forall (fuel : nat) (w w1 w2 : world) (params : _container_params_t)
          (v : PyObject),
      _get_container_params fuel false true w = (Ret (params, (0, [])), w1) ->
      invalid params = false ->
      counting params = true ->
      _is_no_data_type (type params) = true ->
      _decode_array decode_value fuel w = (Ret v, w2) ->
      let n := Z.to_nat (count params) in
      w2 = w1
      /\ (type params = TYPE_NULL -> v = PyList (repeat Py_None n))
      /\ (type params = TYPE_BOOL_TRUE -> v = PyList (repeat Py_True n))
      /\ (type params = TYPE_BOOL_FALSE -> v = PyList (repeat Py_False n)))
  /\ BytesIO.decode_fixed BytesIO.prefs0 1 BytesIO.three_null_array
     = (Ret (PyList [Py_None; Py_None; Py_None]), 6, None)
  /\ BytesIO.decode_fixed BytesIO.prefs0 1 BytesIO.three_true_array
     = (Ret (PyList [Py_True; Py_True; Py_True]), 6, None)
  /\ BytesIO.decode_fixed BytesIO.prefs0 1 BytesIO.two_false_array
     = (Ret (PyList [Py_False; Py_False]), 6, None).
Proof.
  split; [|repeat split; vm_compute; reflexivity].
  intros fuel w w1 w2 params v Hhdr Hinv Hcnt Hnodata H n.
  unfold _decode_array in H. erewrite bind_ret in H by exact Hhdr.
  cbv beta iota in H. rewrite Hinv, Hcnt in H. rewrite bind_get_prefs in H.
  change (0 =? 0) with true in H. cbn [negb andb] in H.
  rewrite Hnodata in H.
  assert (Hlist : PyList_New (count params) w1 = (Ret tt, w1)
                  /\ (v0 <- _no_data_type (type params) ;;
                      ret (PyList (repeat v0 (Z.to_nat (count params))))) w1
                     = (Ret v, w2)).
  { destruct (byte_eqb TYPE_UINT8 (type params)
              && negb (no_bytes (prefs (buf w1)))) eqn:Hbytes.
    - apply andb_true_iff in Hbytes. destruct Hbytes as [Hu _].
      apply byte_eqb_eq in Hu. rewrite <- Hu in Hnodata. discriminate Hnodata.
    - cbn [andb] in H. apply bind_inv in H. destruct H as ([] & w0 & Hnew & H).
      unfold PyList_New in Hnew |- *.
      destruct (count params <? 0); [discriminate Hnew|].
      inversion Hnew; subst w0. split; [reflexivity|exact H]. }
  destruct Hlist as [_ Hv]. fold n in Hv.
  assert (Hcase : forall v0, ret (PyList (repeat v0 n)) w1 = (Ret v, w2) ->
                                w2 = w1 /\ v = PyList (repeat v0 n))
    by (intros v0 E; inversion E; auto).
  unfold _no_data_type, bind in Hv.
  destruct (byte_eqb (type params) TYPE_NULL) eqn:E1;
    [|destruct (byte_eqb (type params) TYPE_BOOL_TRUE) eqn:E2;
      [|destruct (byte_eqb (type params) TYPE_BOOL_FALSE) eqn:E3;
        [|discriminate Hv]]];
    apply Hcase in Hv; destruct Hv as [-> ->];
    match goal with
    | E : byte_eqb _ _ = true |- _ => apply byte_eqb_eq in E; rewrite E
    end;
    repeat split; intros Hty; try reflexivity; discriminate Hty.
Qed.

Lemma array_loop_counted_length (fuel : nat) :
  forall (t : byte) (n : Z) (m : byte) (lst lst' : list PyObject)
         (w w' : world),
    array_loop_counted decode_value fuel t n m lst w = (Ret lst', w') ->
    Zlength' lst' = Zlength' lst + Z.max 0 n.
Proof.
  induction fuel as [|fuel IH]; intros t n m lst lst' w w' H;
    cbn [array_loop_counted] in H;
    destruct (n >? 0) eqn:Hn; bool_to_Z;
    try (inversion H; subst; lia); try discriminate H.
  destruct (byte_eqb TYPE_NOOP m).
  - apply bind_inv in H. destruct H as (m1 & w1 & _ & H).
    apply IH in H. exact H.
  - apply bind_inv in H. destruct H as (v & w1 & _ & H). cbv zeta in H.
    assert (Hrec : exists m1 w2,
               array_loop_counted decode_value fuel t (n - 1) m1 (lst ++ [v]) w2
               = (Ret lst', w')).
    { destruct ((n - 1 >? 0) && byte_eqb TYPE_NONE t).
      - apply bind_inv in H. destruct H as (m1 & w2 & _ & H). eauto.
      - eauto. }
    destruct Hrec as (m1 & w2 & Hrec). apply IH in Hrec.
    rewrite Zlength'_app in Hrec. change (Zlength' [v]) with 1 in Hrec. lia.
Qed.

Lemma read_packed_array_result (ndims : Z) (dims : list Z) (t : byte) (n : Z)
  (s : string) (w w' : world) (o : PyObject) :
  read_packed_array ndims dims t n s w = (Ret o, w') ->
  exists data, o = PyArray dims (fst (_get_type_info t)) data.
Proof.
  unfold read_packed_array. destruct (_get_type_info t) as [pytype bytelen].
  intros H. apply bind_inv in H. destruct H as (u1 & w1 & _ & H).
  apply bind_inv in H. destruct H as (u2 & w2 & _ & H).
  apply bind_inv in H. destruct H as (data & w3 & _ & H).
  inversion H; subst. eexists. reflexivity.
Qed.

(** X12.  A counted array that decodes to a list has exactly [count]
    elements, no-op markers between the elements notwithstanding. *)
Theorem counted_array_has_count_elements (fuel : nat) (w w1 w' : world)
  (params : _container_params_t) (nds : Z * list Z) (items : list PyObject) :
  _get_container_params fuel false true w = (Ret (params, nds), w1) ->
  invalid params = false ->
  counting params = true ->
  _decode_array decode_value fuel w = (Ret (PyList items), w') ->
  Zlength' items = count params.
Proof.
  intros Hhdr Hinv Hcnt H. destruct nds as [ndims dims].
  unfold _decode_array in H. erewrite bind_ret in H by exact Hhdr.
  cbv beta iota in H. rewrite Hinv, Hcnt in H. rewrite bind_get_prefs in H.
  destruct (byte_eqb TYPE_UINT8 (type params)
            && negb (no_bytes (prefs (buf w1))) && (ndims =? 0)).
  { apply bind_inv in H. destruct H as (u & w2 & _ & H).
    apply bind_inv in H. destruct H as (data & w3 & _ & H). discriminate H. }
  destruct (negb (ndims =? 0) && negb (byte_eqb (type params) x00)).
  { apply read_packed_array_result in H. destruct H as (data & H).
    discriminate H. }
  destruct (_is_no_data_type (type params)).
  { apply bind_inv in H. destruct H as (u & w2 & Hnew & H).
    unfold PyList_New in Hnew.
    destruct (count params <? 0) eqn:Hneg; [discriminate Hnew|]. bool_to_Z.
    apply bind_inv in H. destruct H as (v & w3 & _ & H).
    inversion H; subst. unfold Zlength'. rewrite repeat_length. lia. }
  destruct (_is_fixed_len_type (type params) && (count params >? 0)).
  { apply read_packed_array_result in H. destruct H as (data & H).
    discriminate H. }
  apply bind_inv in H. destruct H as (u & w2 & Hnew & H).
  unfold PyList_New in Hnew.
  destruct (count params <? 0) eqn:Hneg; [discriminate Hnew|]. bool_to_Z.
  apply bind_inv in H. destruct H as (lst & w3 & Hloop & H).
  inversion H; subst. apply array_loop_counted_length in Hloop.
  change (Zlength' (@nil PyObject)) with 0 in Hloop. lia.
Qed.

(** X13.  An array with an N-D header and a fixed-length element type is
    read as one packed block: numpy is asked for an array of the
    dimensions read, and the payload is element size times the product of
    the dimensions bytes, read straight into it.  This is for a header
    whose [ndims] is the number of dimensions read (the dimension block
    then holds them all, and as many are copied to numpy), and for a
    payload read that hands back no more than the size asked for. *)
Theorem nd_array_is_packed (fuel : nat) (w w1 w2 : world)
  (params : _container_params_t) (ndims : Z) (dims : list Z)
  (data : list byte) (s : string) :
  _get_container_params fuel false true w = (Ret (params, (ndims, dims)), w1) ->
  invalid params = false ->
  ndims <> 0 ->
  ndims = Zlength' dims ->
  _is_fixed_len_type (type params) = true ->
  PyArray_SimpleNew_ok ndims dims (fst (_get_type_info (type params))) = true ->
  read_fits_destination
    (to_signed 64 (snd (_get_type_info (type params)) * wrapped_product dims))
    w1 = true ->
  READ_INTO_OR_BAIL
    (to_signed 64 (snd (_get_type_info (type params)) * wrapped_product dims))
    s w1 = (Ret data, w2) ->
  _decode_array decode_value fuel w
  = (Ret (PyArray dims (fst (_get_type_info (type params))) data), w2).
Proof.
  intros Hhdr Hinv Hnd _ Hfix Hnumpy _ Hread.
  pose proof (_get_container_params_product _ _ _ _ Hhdr Hinv Hnd) as Hprod.
  destruct (_get_container_params_valid _ _ _ _ Hhdr Hinv) as (_ & Hunc & _).
  assert (Hcnt : counting params = true).
  { destruct (counting params); [reflexivity|].
    destruct (Hunc eq_refl) as (_ & _ & Hnds). inversion Hnds. contradiction. }
  unfold _decode_array. erewrite bind_ret by exact Hhdr.
  cbv beta iota. rewrite Hinv, Hcnt. rewrite bind_get_prefs.
  replace (ndims =? 0) with false by (symmetry; apply Z.eqb_neq; exact Hnd).
  rewrite andb_false_r. cbn [negb andb].
  rewrite (fixed_len_not_none _ Hfix). cbn [negb].
  unfold read_packed_array. rewrite Hprod.
  pose proof (fixed_len_type_info _ Hfix) as Hknown.
  destruct (_get_type_info (type params)) as [pytype bytelen].
  cbn [fst snd] in *. rewrite Hnumpy.
  destruct pytype; try contradiction;
    unfold bind at 1; cbn [ret]; unfold bind at 1; cbn [ret];
    (erewrite bind_ret by (eapply READ_INTO_OR_BAIL_item; exact Hread));
    reflexivity.
Qed.

End Arrays.

Lemma counted_no_data_array_witness :
  let w := BytesIO.callable BytesIO.prefs0 BytesIO.three_true_body in
  exists v,
    fst (_decode_array (fun _ => bail) 0 w) = Ret v
    /\ v = PyList [Py_True; Py_True; Py_True]
    /\ total_read (buf (snd (_decode_array (fun _ => bail) 0 w))) = 5.
Proof.
  intros w.
  set (w1 := snd (_get_container_params 0 false true w)).
  set (r := _decode_array (fun _ => bail) 0 w).
  assert (Hhdr : _get_container_params 0 false true w
                 = (Ret (mkParams "T" true 3 "T" false, (0, [])), w1))
    by (vm_compute; reflexivity).
  assert (Hrun : r = (Ret (PyList [Py_True; Py_True; Py_True]), snd r))
    by (vm_compute; reflexivity).
  destruct (proj1 (@counted_no_data_array BytesIO.host (fun _ => bail))
              0%nat w w1 (snd r) _ _ Hhdr eq_refl eq_refl eq_refl Hrun)
    as (Hw & _ & Hv & _).
  exists (PyList [Py_True; Py_True; Py_True]).
  split; [rewrite Hrun; reflexivity|]. split; [exact (Hv eq_refl)|].
  rewrite Hw. vm_compute. reflexivity.
Defined.

Lemma counted_array_has_count_elements_witness :
  let w := BytesIO.fixed BytesIO.prefs0 BytesIO.counted_untyped_body in
  exists items w',
    _decode_array (_bjdata_decode_value 1 1) 3 w = (Ret (PyList items), w')
    /\ Zlength' items = 2.
Proof.
  intros w. eexists. eexists. split; [run|].
  assert (Hhdr : _get_container_params 3 false true w
                 = (Ret (mkParams "U" true 2 x00 false, (0, [])),
                    with_buf (set_total_read 4) w)) by run.
  eapply (@counted_array_has_count_elements BytesIO.host
           (_bjdata_decode_value 1 1) 3 w _ _ _ _ _ Hhdr eq_refl eq_refl).
  run.
Defined.

Lemma nd_array_is_packed_witness :
  let w := BytesIO.callable BytesIO.prefs0 BytesIO.nd_array_body in
  fst (_decode_array (fun _ => bail) 1 w)
  = Ret (PyArray [2; 3] PyArray_UBYTE [x0a; x0b; x0c; x0d; x0e; x0f]%byte).
Proof.
  intros w.
  set (w1 := snd (_get_container_params 1 false true w)).
  set (w2 := snd (READ_INTO_OR_BAIL 6 "ND array" w1)).
  assert (Hhdr : _get_container_params 1 false true w
                 = (Ret (mkParams "U" true 6 "U" false, (2, [2; 3])), w1))
    by (vm_compute; reflexivity).
  assert (Hfits : read_fits_destination 6 w1 = true)
    by (vm_compute; reflexivity).
  assert (Hread : READ_INTO_OR_BAIL 6 "ND array" w1
                  = (Ret [x0a; x0b; x0c; x0d; x0e; x0f]%byte, w2))
    by (vm_compute; reflexivity).
  rewrite (@nd_array_is_packed BytesIO.host (fun _ => bail) 1 w w1 w2 _ 2
             [2; 3] _ "ND array" Hhdr eq_refl ltac:(discriminate) eq_refl
             eq_refl eq_refl Hfits Hread).
  reflexivity.
Defined.

Section ScalarFailures.
Context `{Host : PyHost}.

Lemma RETURN_OR_RAISE_null (item : M PyObject) (s : string) (w w' : world) :
  RETURN_OR_RAISE_DECODER_EXCEPTION item s w = (Null, w') ->
  exists msg at_byte, exc w' = Some (DecoderException msg at_byte).
Proof.
  unfold RETURN_OR_RAISE_DECODER_EXCEPTION.
  destruct (item w) as [[o| |] w1]; try discriminate.
  destruct (exc w1) as [[]|] eqn:He; intros H; inversion H; subst; simpl; eauto.
Qed.

(** X15.  However the decoder of a scalar value fails (short input, bad
    UTF-8, a length out of range, a refusal by Decimal, an exception out of
    the input callable), what the caller sees is the decoder's exception:
    any other exception is replaced by "Failed to decode ...". *)
Theorem scalar_failures_are_decoder_exceptions (fuel : nat) (depth : Z)
  (m : byte) (w w' : world) :
  is_scalar_marker m = true ->
  _bjdata_decode_value fuel depth (Some m) w = (Null, w') ->
  exists msg at_byte, exc w' = Some (DecoderException msg at_byte).
Proof.
  intros Hm H.
  assert (Hstep : exists item s,
             RETURN_OR_RAISE_DECODER_EXCEPTION item s w = (Null, w')).
  { destruct m; vm_compute in Hm; try discriminate Hm;
      destruct fuel; cbn [_bjdata_decode_value] in H;
      unfold bind at 1 in H; cbn [ret] in H;
      eval_byte_eqb_in H; cbn [orb] in H; cbv iota in H; eauto. }
  destruct Hstep as (item & s & Hstep).
  eapply RETURN_OR_RAISE_null. exact Hstep.
Qed.

End ScalarFailures.

Section Nesting.
Context `{Host : PyHost}.

Lemma hd_firstn_skipn {A} (d : A) (n : nat) :
  forall l : list A, hd d (firstn 1 (skipn n l)) = nth n l d.
Proof.
  induction n as [|n IH]; intros [|x l]; simpl; auto.
  rewrite <- IH. reflexivity.
Qed.

Lemma READ_CHAR_OR_BAIL_fixed_world (p : _bjdata_decoder_prefs_t)
  (data : list byte) (consumed : Z) (e : option pyerr) (s : string) :
  0 <= consumed < Zlength' data ->
  READ_CHAR_OR_BAIL s (fixed_world p data consumed e)
  = (Ret (nth (Z.to_nat consumed) data x00), fixed_world p data (consumed + 1) e).
Proof.
  intros Hc.
  unfold READ_CHAR_OR_BAIL, READ_OR_BAIL, bind, ACTION_READ, READ_VIA_FUNC.
  cbn [fixed_world buf read_func]. unfold _decoder_buffer_read_fixed.
  cbn [buf total_read view fixed_world]. unfold view_len. cbn [view].
  change (1 =? 0) with false. cbv iota.
  replace (consumed <? Zlength' data) with true
    by (symmetry; apply Z.ltb_lt; lia).
  cbv zeta. rewrite Z.min_l by lia. change (1 <? 1) with false.
  cbv iota. unfold ret, chunk_bytes, slice.
  change (Z.to_nat 1) with 1%nat.
  rewrite firstn_firstn. change (Nat.min 1 1) with 1%nat.
  rewrite hd_firstn_skipn. reflexivity.
Qed.

(** A container that starts with neither ['$'] nor ['#'] has neither type
    nor count; its first byte is the marker of its first element. *)
Lemma plain_header (fuel : nat) (im nd : bool) (w w1 : world) (m : byte)
  (s : string) :
  READ_CHAR_OR_BAIL s w = (Ret m, w1) ->
  m <> CONTAINER_TYPE -> m <> CONTAINER_COUNT ->
  _get_container_params fuel im nd w
  = (Ret (mkParams m false 1 TYPE_NONE false, (0, [])), w1).
Proof.
  intros H Ht Hc.
  unfold _get_container_params, run_G, get_container_params_body, header_type.
  unfold gbind at 1.
  erewrite gbind_ret
    by (apply or_bail_ret; eapply READ_CHAR_OR_BAIL_item; exact H).
  cbv beta iota.
  rewrite (byte_eqb_neq (not_eq_sym Ht)). unfold gret at 1. cbv beta iota.
  rewrite (byte_eqb_neq (not_eq_sym Hc)). reflexivity.
Qed.

Lemma nested_arrays_hit_the_limit (p : _bjdata_decoder_prefs_t)
  (data : list byte) (k : nat) :
  forall (depth consumed : Z) (fuel : nat),
    depth + Z.of_nat k = recursion_limit ->
    (k < fuel)%nat ->
    0 <= consumed ->
    consumed + Z.of_nat k <= Zlength' data ->
    (forall i, consumed <= i < consumed + Z.of_nat k ->
               nth (Z.to_nat i) data x00 = ARRAY_START) ->
    _bjdata_decode_value fuel depth (Some ARRAY_START)
      (fixed_world p data consumed None)
    = (Null,
       fixed_world p data (consumed + Z.of_nat k) (Some RecursionError)).
Proof.
  induction k as [|k IH]; intros depth consumed fuel Hk Hfuel Hc Hlen Hdata;
    (destruct fuel as [|fuel]; [lia|]);
    cbn [_bjdata_decode_value]; unfold bind at 1; cbn [ret];
    eval_byte_eqb; cbn [orb]; cbv iota; unfold RECURSE_AND_RETURN_OR_BAIL.
  - replace (depth + 1 >? recursion_limit) with true
      by (symmetry; apply Z.gtb_lt; lia).
    replace (consumed + Z.of_nat 0) with consumed by lia. reflexivity.
  - replace (depth + 1 >? recursion_limit) with false
      by (symmetry; rewrite Z.gtb_ltb; apply Z.ltb_ge; lia).
    cbv beta iota.
    assert (Hnext : nth (Z.to_nat consumed) data x00 = ARRAY_START)
      by (apply Hdata; lia).
    assert (Hhdr : _get_container_params fuel false true
                     (fixed_world p data consumed None)
                   = (Ret (mkParams ARRAY_START false 1 TYPE_NONE false, (0, [])),
                      fixed_world p data (consumed + 1) None)).
    { eapply plain_header.
      - rewrite <- Hnext.
        apply (READ_CHAR_OR_BAIL_fixed_world p data None
                 "container type, count or 1st key/value type").
        lia.
      - discriminate.
      - discriminate. }
    unfold _decode_array. erewrite bind_ret by exact Hhdr.
    cbv beta iota. cbn [invalid counting marker type].
    rewrite bind_get_prefs.
    destruct fuel as [|fuel']; [lia|].
    cbn [array_loop_uncounted]. eval_byte_eqb. cbv iota.
    apply bind_null. apply bind_null.
    replace (consumed + Z.of_nat (S k)) with ((consumed + 1) + Z.of_nat k) by lia.
    apply IH; try lia. intros i Hi. apply Hdata. lia.
Qed.

(** X16.  Nesting is bounded by the interpreter's recursion limit: input
    that opens more arrays than the limit leaves room for at the depth of
    the call fails with RecursionError at the bracket that goes too deep,
    whatever follows it. *)
Theorem deep_nesting_raises_RecursionError (p : _bjdata_decoder_prefs_t)
  (rest : list byte) (fuel : nat) (depth : Z) :
  0 <= depth <= recursion_limit ->
  let n := S (Z.to_nat (recursion_limit - depth)) in
  (n <= fuel)%nat ->
  let data := repeat ARRAY_START n ++ rest in
  _bjdata_decode_value fuel depth None (fixed_world p data 0 None)
  = (Null, fixed_world p data (Z.of_nat n) (Some RecursionError)).
Proof.
  intros Hdepth n Hfuel data.
  assert (Hlen : Z.of_nat n <= Zlength' data).
  { unfold data, Zlength'. rewrite length_app, repeat_length. lia. }
  assert (Hdata : forall i, 0 <= i < Z.of_nat n ->
                            nth (Z.to_nat i) data x00 = ARRAY_START).
  { intros i Hi. unfold data. rewrite app_nth1 by (rewrite repeat_length; lia).
    apply nth_repeat_lt. lia. }
  destruct fuel as [|fuel']; [lia|].
  pose proof (@nested_arrays_hit_the_limit p data
                (Z.to_nat (recursion_limit - depth)) depth 1 (S fuel')
                ltac:(lia) ltac:(lia) ltac:(lia) ltac:(lia)
                ltac:(intros i Hi; apply Hdata; lia)) as Hnest.
  cbn [_bjdata_decode_value] in Hnest |- *.
  erewrite bind_ret.
  2:{ apply (READ_CHAR_OR_BAIL_fixed_world p data None "Type marker"). lia. }
  rewrite (Hdata 0) by lia.
  unfold bind at 1 in Hnest. cbn [ret] in Hnest.
  replace (Z.of_nat n) with (1 + Z.of_nat (Z.to_nat (recursion_limit - depth)))
    by lia.
  exact Hnest.
Qed.

End Nesting.

Lemma scalar_failures_are_decoder_exceptions_witness :
  exists msg at_byte,
    exc (snd (_bjdata_decode_value 0 0 (Some TYPE_HIGH_PREC)
                (BytesIO.fixed BytesIO.prefs0 BytesIO.bad_decimal)))
    = Some (DecoderException msg at_byte).
Proof.
  apply (@scalar_failures_are_decoder_exceptions BytesIO.host 0 0
           TYPE_HIGH_PREC (BytesIO.fixed BytesIO.prefs0 BytesIO.bad_decimal) _
           eq_refl).
  run.
Defined.

Lemma deep_nesting_raises_RecursionError_witness :
  let data := repeat ARRAY_START 3 ++ [ARRAY_END]%byte in
  _bjdata_decode_value 3 998 None (@fixed_world BytesIO.host BytesIO.prefs0 data 0 None)
  = (Null, fixed_world BytesIO.prefs0 data 3 (Some RecursionError)).
Proof.
  exact (@deep_nesting_raises_RecursionError BytesIO.host BytesIO.prefs0
           [ARRAY_END]%byte 3 998 ltac:(split; discriminate) ltac:(vm_compute; lia)).
Defined.

Section QuietTeardown.
Context `{Host : PyHost}.

(** X17.  Teardown leaves the stream and the error indicator alone unless
    there is look-ahead to give back: for a buffer without seek callable,
    without a view, or whose view is used up, seek is never called, the
    input object and the pending exception are what they were, and no
    failure is reported.  So teardown can only fail on a seekable stream
    with unread look-ahead.  The temporary buffer is freed exactly when
    there is one. *)
Theorem teardown_without_look_ahead
  (b : _bjdata_decoder_buffer_t) (prior : option pyerr) :
  seek b = false \/ view_set b = false \/ view_len b <= pos b ->
  let out := _bjdata_decoder_buffer_free (Some b) prior in
  failed out = false
  /\ exc_after out = prior
  /\ input_after out = Some (input b)
  /\ (forall o wh, ~ In (EvSeek o wh) (trace out))
  /\ (In EvReleaseView (trace out) <-> view_set b = true)
  /\ (In EvFreeTmp (trace out) <-> tmp_dst b <> None).
Proof.
  intros Hquiet out. subst out. unfold _bjdata_decoder_buffer_free.
  assert (Hno : view_set b = true ->
                seek b && (view_len b >? pos b) = false).
  { intros Hvs. destruct Hquiet as [Hs|[Hv|Hp]].
    - rewrite Hs. reflexivity.
    - congruence.
    - replace (view_len b >? pos b) with false
        by (symmetry; rewrite Z.gtb_ltb; apply Z.ltb_ge; exact Hp).
      apply andb_false_r. }
  destruct (view_set b) eqn:Hvs; [rewrite (Hno eq_refl)|];
    destruct (tmp_dst b) eqn:Htmp; cbn [failed exc_after input_after trace app];
    repeat split; try reflexivity; try discriminate;
    try (intros o wh Hin; simpl in Hin; intuition discriminate);
    try (intros Hin; simpl in Hin; intuition discriminate);
    try (intros _; simpl; auto 10);
    try (intros Hne; contradiction).
Qed.

End QuietTeardown.

Lemma teardown_without_look_ahead_witness :
  let out := _bjdata_decoder_buffer_free
               (Some (buf (BytesIO.fixed BytesIO.prefs0 BytesIO.three_bytes)))
               (Some RecursionError) in
  failed out = false
  /\ exc_after out = Some RecursionError
  /\ trace out = [EvReleaseView; EvClearInput; EvClearSeek; EvFreeBuffer].
Proof.
  destruct (@teardown_without_look_ahead BytesIO.host
              (buf (BytesIO.fixed BytesIO.prefs0 BytesIO.three_bytes))
              (Some RecursionError) (or_introl eq_refl))
    as (Hf & He & _).
  split; [exact Hf|]. split; [exact He|reflexivity].
Defined.

(** ** Invariants of a whole decode *)

Section WholeDecode.
Context `{Host : PyHost}.

Lemma ACTION_READ_buf (len : Z) (dst : bool) (s : string) (w : world) :
  buf (snd (ACTION_READ len dst s w)) = buf (snd (READ_VIA_FUNC len dst w)).
Proof.
  unfold ACTION_READ.
  destruct (READ_VIA_FUNC len dst w) as [[[chunk|] rd] w1]; simpl;
    repeat match goal with
      | |- context [if ?c then _ else _] => destruct c; simpl
      end; reflexivity.
Qed.

Lemma sat_any_outcome (inv : world -> Prop) {A} (m : M A) :
  (forall w, inv w -> inv (snd (m w))) -> sat (mkSpec inv inv inv) m.
Proof.
  intros H w Hw. specialize (H w Hw). simpl in *.
  destruct (fst (m w)); exact H.
Qed.

Lemma of_sat_any_outcome (inv : world -> Prop) {A} (m : M A) (w : world) :
  sat (mkSpec inv inv inv) m -> inv w -> inv (snd (m w)).
Proof.
  intros H Hw. specialize (H w Hw). simpl in *.
  destruct (fst (m w)); exact H.
Qed.

(** A read that returns NULL with a positive [*len] has left the exception
    of the input callable. *)
Lemma READ_VIA_FUNC_error (len : Z) (dst : bool) (w w1 : world) (rd : Z) :
  READ_VIA_FUNC len dst w = ((None, rd), w1) -> 0 < rd -> exc w1 <> None.
Proof.
  unfold READ_VIA_FUNC. destruct (read_func (buf w)).
  - unfold _decoder_buffer_read_fixed.
    destruct (len =? 0) eqn:Hz; bool_to_Z;
      [intros H; inversion H; subst; lia|].
    destruct (total_read (buf w) <? view_len (buf w)); [discriminate|].
    intros H; inversion H; subst; lia.
  - unfold _decoder_buffer_read_callable.
    destruct (len =? 0) eqn:Hz; bool_to_Z;
      [intros H; inversion H; subst; lia|].
    destruct (call_input len _) as [[e|data] w2].
    + intros H _. inversion H; subst. discriminate.
    + destruct (view_len _ =? 0); [|discriminate].
      intros H; inversion H; subst; lia.
  - unfold _decoder_buffer_read_buffered.
    destruct (len =? 0) eqn:Hz; bool_to_Z;
      [intros H; inversion H; subst; lia|].
    destruct (negb _ || _); [|discriminate].
    destruct (if view_set _ then _ else _) as [[r old] b1].
    destruct (call_input _ _) as [[e|data] w2].
    + intros H _. inversion H; subst. discriminate.
    + cbv zeta. destruct ((r =? 0) && _); [|discriminate].
      intros H; inversion H; subst; lia.
Qed.

Lemma fixed_world_read (p : _bjdata_decoder_prefs_t) (data : list byte)
  (c0 c : Z) (e : option pyerr) (len : Z) (dst : bool) :
  0 <= len -> c0 <= c <= Zlength' data ->
  exists c', buf (snd (READ_VIA_FUNC len dst (fixed_world p data c e)))
             = buf (fixed_world p data c' e)
             /\ c0 <= c' <= Zlength' data.
Proof.
  intros Hlen Hc.
  unfold READ_VIA_FUNC, _decoder_buffer_read_fixed, fixed_world, view_len.
  cbn [buf read_func total_read view].
  destruct (len =? 0); [exists c; auto|].
  destruct (c <? Zlength' data) eqn:Hlt; bool_to_Z; [|exists c; auto].
  cbv zeta. eexists. split; [reflexivity|]. lia.
Qed.

(** X20.  Decoding from a fixed buffer that holds no dimension vector
    touches nothing of the buffer but [total_read], and [total_read] never
    leaves the input: it ends between where it started and the length of
    the data, however the decode ends (numpy making no array of negative
    size). *)
Theorem fixed_buffer_stays_within_input (p : _bjdata_decoder_prefs_t)
  (data : list byte) (c : Z) (e : option pyerr) (fuel : nat) (depth : Z)
  (gm : option byte) :
  numpy_sizes_sane ->
  no_dimension_vector data = true ->
  0 <= c <= Zlength' data ->
  exists c' e',
    snd (_bjdata_decode_value fuel depth gm (fixed_world p data c e))
    = fixed_world p data c' e'
    /\ c <= c' <= Zlength' data.
Proof.
  intros Hnumpy _ Hc.
  pose (inv := fun w => exists c', w = fixed_world p data c' (exc w)
                                   /\ c <= c' <= Zlength' data).
  assert (Hinv : inv (snd (_bjdata_decode_value fuel depth gm
                             (fixed_world p data c e)))).
  { apply (@of_sat_any_outcome inv).
    - apply (@sat__bjdata_decode_value _ (within_fixed p data c)
               (fun len => 0 <= len)).
      1-6: simpl; try (intros w0 e0 (c' & Hw & Hc'); rewrite Hw;
                       exists c'; split; [reflexivity|exact Hc']); auto.
      + auto.
      + exact Hnumpy.
      + intros len dst s Hlen. apply sat_any_outcome.
        intros w0 (c' & Hw & Hc'). rewrite Hw.
        destruct (fixed_world_read p data (exc w0) dst Hlen Hc')
          as (c2 & Hbuf & Hc2).
        exists c2. split; [|exact Hc2].
        pose proof (ACTION_READ_buf len dst s (fixed_world p data c' (exc w0)))
          as Hsame.
        rewrite Hbuf in Hsame.
        destruct (snd (ACTION_READ len dst s (fixed_world p data c' (exc w0))))
          as [b1 e1]. simpl in Hsame |- *. subst b1. reflexivity.
    - exists c. split; [reflexivity|lia]. }
  destruct Hinv as (c' & Hw & Hc'). eexists c', _. split; [exact Hw|exact Hc'].
Qed.

End WholeDecode.





Lemma fixed_buffer_stays_within_input_witness :
  exists c' e',
    snd (_bjdata_decode_value 5 0 None
           (@fixed_world BytesIO.host BytesIO.prefs0 BytesIO.uint8_array 0 None))
    = fixed_world BytesIO.prefs0 BytesIO.uint8_array c' e'
    /\ 0 <= c' <= 9.
Proof.
  exact (@fixed_buffer_stays_within_input BytesIO.host BytesIO.prefs0
           BytesIO.uint8_array 0 None 5 0 None BytesIO_numpy_sizes_sane
           eq_refl ltac:(vm_compute; split; discriminate)).
Defined.

Section SeekableFile.
Import BytesIO.

Lemma buffered_read_keeps_cursor (data : list byte) (base : Z) (len : Z)
  (dst : bool) (w : @world BytesIO.host) :
  0 <= len ->
  cursor_ahead data base (buf w) ->
  cursor_ahead data base (buf (snd (READ_VIA_FUNC len dst w))).
Proof.
  intros Hlen (Hrf & Hsk & Htr & Hpos & Hwf & Hin).
  unfold READ_VIA_FUNC. rewrite Hrf. unfold _decoder_buffer_read_buffered.
  destruct (len =? 0) eqn:Hz; [repeat split; tauto|].
  destruct w as [b e]. unfold view_len in *.
  cbn [buf with_buf set_tmp_dst view_set view pos total_read] in *.
  pose proof (Zlength'_nonneg (view b)) as Hv.
  bool_to_Z.
  destruct (negb (view_set b) || (len >? Zlength' (view b) - pos b)) eqn:Hmore.
  - unfold call_input.
    destruct dst; destruct (view_set b) eqn:Hvs; cbn [negb orb] in Hmore;
      repeat match goal with
        | |- context [if Zlength' (view b) - pos b >? 0 then _ else _] =>
            destruct (Zlength' (view b) - pos b >? 0) eqn:?
        end;
      cbn [buf with_buf input set_tmp_dst set_pos set_view_set set_total_read
           seek read_func view view_set pos total_read tmp_dst prefs];
      rewrite Hin; cbn [input_call host read];
      cbv beta iota zeta;
      cbn [buf with_buf input set_tmp_dst set_pos set_view_set set_total_read
           set_input set_view seek read_func view view_set pos total_read
           tmp_dst prefs fst snd];
      match goal with
      | |- context [slice data ?cur ?n] => set (chunk := slice data cur n)
      end;
      pose proof (Zlength'_nonneg chunk) as Hchunk;
      try rewrite (Hwf eq_refl) in *;
      bool_to_Z;
      repeat match goal with
        | |- context [if ?c then _ else _] => destruct c eqn:?; bool_to_Z
        end;
      unfold cursor_ahead, view_len in *;
      cbn [fst snd buf with_buf input set_tmp_dst set_pos set_view_set
           set_total_read set_input set_view seek read_func view view_set pos
           total_read tmp_dst prefs set_exc];
      (repeat split; try assumption; try discriminate; try lia;
       try (f_equal; f_equal; lia)).
  - bool_to_Z.
    unfold cursor_ahead, view_len in *.
    cbn [fst snd buf with_buf input set_tmp_dst set_pos set_view_set
         set_total_read seek read_func view view_set pos total_read tmp_dst
         prefs].
    rewrite Hin.
    match goal with H : view_set b = true |- _ => rewrite H end.
    repeat split; try assumption; try discriminate; try lia.
    f_equal. f_equal. lia.
Qed.


Lemma callable_read_keeps_cursor (data : list byte) (base : Z) (len : Z)
  (dst : bool) (w : @world BytesIO.host) :
  cursor_exact data base (buf w) ->
  cursor_exact data base (buf (snd (READ_VIA_FUNC len dst w))).
Proof.
  intros (Hrf & Hin).
  unfold READ_VIA_FUNC. rewrite Hrf. unfold _decoder_buffer_read_callable.
  destruct (len =? 0) eqn:Hz; [split; assumption|].
  destruct w as [b e]. cbn [buf] in *.
  unfold call_input.
  destruct (view_set b);
    cbn [buf with_buf input set_view_set]; rewrite Hin;
    cbn [input_call host read]; cbv beta iota zeta;
    unfold view_len;
    cbn [buf with_buf input set_view_set set_input set_view view total_read
         read_func];
    match goal with
    | |- context [slice data ?cur ?n] => set (chunk := slice data cur n)
    end;
    destruct (Zlength' chunk =? 0) eqn:Hc; bool_to_Z;
    unfold cursor_exact;
    cbn [fst snd buf with_buf input set_view_set set_input set_view
         set_total_read view total_read read_func];
    (split; [exact Hrf|]); f_equal; f_equal; lia.
Qed.


End SeekableFile.



(** ** The backends over the same bytes

    Over in-memory bytes the three read functions hand out the same bytes
    in the same order, and so the whole decoder cannot tell them apart. *)

Section Slices.
Context {A : Type}.

Lemma Zlength'_slice (d : list A) (off n : Z) :
  0 <= off <= Zlength' d -> 0 <= n ->
  Zlength' (slice d off n) = Z.min n (Zlength' d - off).
Proof.
  intros Hoff Hn. unfold slice, Zlength' in *.
  rewrite length_firstn, length_skipn. lia.
Qed.

Lemma slice_slice (d : list A) (o L k n : Z) :
  0 <= o -> 0 <= k -> 0 <= n ->
  k + n <= Zlength' (slice d o L) ->
  slice (slice d o L) k n = slice d (o + k) n.
Proof.
  intros Ho Hk Hn Hfit. unfold slice, Zlength' in *.
  rewrite length_firstn, length_skipn in Hfit.
  rewrite skipn_firstn_comm, firstn_firstn, skipn_skipn.
  f_equal; [lia|]. f_equal. lia.
Qed.

Lemma slice_app (d : list A) (o a b : Z) :
  0 <= o -> 0 <= a -> 0 <= b ->
  slice d o a ++ slice d (o + a) b = slice d o (a + b).
Proof.
  intros Ho Ha Hb. unfold slice.
  rewrite <- (firstn_skipn (Z.to_nat a)
                (firstn (Z.to_nat (a + b)) (skipn (Z.to_nat o) d))).
  rewrite firstn_firstn, skipn_firstn_comm, skipn_skipn.
  f_equal.
  - f_equal. lia.
  - f_equal; [lia|]. f_equal. lia.
Qed.

Lemma slice_all (d : list A) (n : Z) :
  Zlength' d <= n -> slice d 0 n = d.
Proof.
  intros Hn. unfold slice, Zlength' in *. cbn [Z.to_nat skipn].
  apply firstn_all2. lia.
Qed.

Lemma slice_nil (d : list A) (off n : Z) :
  0 <= off -> 0 < n -> slice d off n = [] -> Zlength' d <= off.
Proof.
  intros Hoff Hn He.
  assert (Hl : Zlength' (slice d off n) = 0) by (rewrite He; reflexivity).
  unfold slice, Zlength' in *. rewrite length_firstn, length_skipn in Hl. lia.
Qed.

End Slices.

Section ReadsOverData.
Import BytesIO.
Variable p : _bjdata_decoder_prefs_t.
Variable data : list byte.

Ltac proj_simpl :=
  change (0 >? 0) with false in *; change (0 <? 0) with false in *;
  cbn [fst snd buf exc with_buf set_exc input set_tmp_dst set_pos set_view_set
       set_total_read set_input set_view seek read_func view view_set pos
       total_read tmp_dst prefs bail ret RAISE_DECODER_EXCEPTION orb] in *.

Lemma ACTION_READ_fixed (len : Z) (dst : bool) (s : string)
  (w : @world BytesIO.host) :
  0 <= len -> read_func (buf w) = read_fixed -> over_data p data (buf w) ->
  let r := ACTION_READ len dst s w in
  over_data p data (buf (snd r))
  /\ (fst r, total_read (buf (snd r)), exc (snd r))
     = read_outcome data (total_read (buf w)) len s (exc w).
Proof.
  intros Hlen Hrf (Hp & Hc & Hv). rewrite Hrf in Hv.
  unfold ACTION_READ, READ_VIA_FUNC, read_outcome. rewrite Hrf.
  unfold _decoder_buffer_read_fixed, over_data, view_len.
  destruct w as [b e]. proj_simpl. rewrite Hv.
  destruct (len =? 0) eqn:Hz; bool_to_Z.
  - subst len. cbn [Z.gtb Z.ltb Z.compare orb]. proj_simpl. rewrite Hrf.
    repeat split; try assumption; try lia.
  - destruct (total_read b <? Zlength' data) eqn:Hlt; bool_to_Z.
    + proj_simpl.
      destruct (total_read b + len <=? Zlength' data) eqn:Hfit; bool_to_Z.
      * replace (Z.min len (Zlength' data - total_read b)) with len by lia.
        rewrite Z.ltb_irrefl. proj_simpl. rewrite Hrf.
        repeat split; try assumption; try lia.
      * replace (Z.min len (Zlength' data - total_read b) <? len) with true
          by (symmetry; apply Z.ltb_lt; lia).
        proj_simpl. rewrite Hrf.
        replace (total_read b + Z.min len (Zlength' data - total_read b))
          with (Zlength' data) by lia.
        repeat split; try assumption; try lia.
    + proj_simpl.
      replace (len >? 0) with true by (symmetry; apply Z.gtb_lt; lia).
      replace (total_read b + len <=? Zlength' data) with false
        by (symmetry; apply Z.leb_gt; lia).
      proj_simpl. rewrite Hrf.
      replace (total_read b) with (Zlength' data) by lia.
      repeat split; try assumption; try lia.
Qed.

Lemma ACTION_READ_callable (len : Z) (dst : bool) (s : string)
  (w : @world BytesIO.host) :
  0 <= len -> read_func (buf w) = read_callable -> over_data p data (buf w) ->
  let r := ACTION_READ len dst s w in
  over_data p data (buf (snd r))
  /\ (fst r, total_read (buf (snd r)), exc (snd r))
     = read_outcome data (total_read (buf w)) len s (exc w).
Proof.
  intros Hlen Hrf (Hp & Hc & Hin). rewrite Hrf in Hin.
  unfold ACTION_READ, READ_VIA_FUNC, read_outcome. rewrite Hrf.
  unfold _decoder_buffer_read_callable, over_data.
  destruct w as [b e]. proj_simpl.
  destruct (len =? 0) eqn:Hz; bool_to_Z.
  - subst len. cbn [Z.gtb Z.ltb Z.compare orb]. proj_simpl. rewrite Hrf, Hin.
    repeat split; try assumption; try lia.
  - unfold call_input.
    assert (Hchunk : Zlength' (slice data (total_read b) len)
                     = Z.min len (Zlength' data - total_read b))
      by (apply Zlength'_slice; lia).
    destruct (view_set b); proj_simpl; rewrite Hin;
      cbn [input_call host read]; cbv beta iota zeta; unfold view_len;
      proj_simpl; rewrite Hchunk;
      (destruct (Z.min len (Zlength' data - total_read b) =? 0) eqn:Hempty;
       bool_to_Z; proj_simpl;
       [ replace (len >? 0) with true by (symmetry; apply Z.gtb_lt; lia);
         replace (total_read b + len <=? Zlength' data) with false
           by (symmetry; apply Z.leb_gt; lia);
         replace (total_read b <? Zlength' data) with false
           by (symmetry; apply Z.ltb_ge; lia);
         proj_simpl; rewrite Hrf;
         replace (total_read b + 0) with (total_read b) by lia;
         replace (Zlength' data) with (total_read b) by lia;
         repeat split; try assumption; try lia; f_equal; f_equal; lia
       | destruct (total_read b + len <=? Zlength' data) eqn:Hfit; bool_to_Z;
         [ replace (Z.min len (Zlength' data - total_read b)) with len by lia;
           rewrite Z.ltb_irrefl; proj_simpl; rewrite Hrf;
           repeat split; try assumption; try lia
         | replace (Z.min len (Zlength' data - total_read b) <? len) with true
             by (symmetry; apply Z.ltb_lt; lia);
           replace (total_read b <? Zlength' data) with true
             by (symmetry; apply Z.ltb_lt; lia);
           proj_simpl; rewrite Hrf;
           replace (total_read b + Z.min len (Zlength' data - total_read b))
             with (Zlength' data) by lia;
           repeat split; try assumption; try lia ] ]).
Qed.

Lemma read_buffered_over_data (len : Z) (dst : bool)
  (w : @world BytesIO.host) :
  0 < len -> read_func (buf w) = read_buffered -> over_data p data (buf w) ->
  let c := total_read (buf w) in
  exists ptr rd w',
    _decoder_buffer_read_buffered len dst w = ((ptr, rd), w')
    /\ over_data p data (buf w') /\ exc w' = exc w
    /\ ((Zlength' data <= c /\ ptr = None /\ rd = 0 /\ total_read (buf w') = c)
        \/ (c < Zlength' data /\ rd = Z.min len (Zlength' data - c)
            /\ total_read (buf w') = c + rd
            /\ exists chunk, ptr = Some chunk
                 /\ (c + len <= Zlength' data -> chunk = slice data c len))).
Proof.
  intros Hlen Hrf (Hp & Hc & Hin). rewrite Hrf in Hin.
  destruct w as [[inp sk rf vw vs ps tr td pf] e].
  unfold view_len in *.
  cbn [buf read_func prefs total_read view_set pos view input] in *.
  subst rf pf.
  unfold _decoder_buffer_read_buffered, view_len.
  replace (len =? 0) with false by (symmetry; apply Z.eqb_neq; lia).
  cbn [buf with_buf set_tmp_dst view_set view pos total_read input seek
       read_func tmp_dst prefs].
  destruct vs.
  - destruct Hin as (Hpos & Hpc & (n & Hn & Hview) & Hin).
    assert (Hvl : Zlength' vw = Z.min n (Zlength' data - (tr - ps)))
      by (rewrite Hview at 1; apply Zlength'_slice; lia).
    cbn [negb orb].
    destruct (len >? Zlength' vw - ps) eqn:Hmore; bool_to_Z.
    + (* the rest of the view, then a new view *)
      set (r := Zlength' vw - ps) in *.
      assert (Hold : slice vw ps r = slice data tr r).
      { rewrite Hview. rewrite slice_slice; try lia.
        - f_equal. lia.
        - rewrite <- Hview. lia. }
      rewrite Hold.
      unfold call_input.
      assert (Hcur : inp = @InCallable BytesIO.host (data, tr + r)) by exact Hin.
      subst inp.
      set (M := Z.max BUFFER_FP_SIZE (len - r)).
      assert (HM : len - r <= M /\ 0 < M) by (unfold M, BUFFER_FP_SIZE; lia).
      assert (Hnew : Zlength' (slice data (tr + r) M)
                     = Z.min M (Zlength' data - (tr + r)))
        by (apply Zlength'_slice; lia).
      destruct dst; destruct (r >? 0) eqn:Hr; bool_to_Z;
        cbn [buf with_buf set_tmp_dst set_pos set_total_read set_view_set
             set_input set_view view_set view pos total_read input seek
             read_func tmp_dst prefs exc input_call host read];
        cbv beta iota zeta;
        cbn [buf with_buf set_tmp_dst set_pos set_total_read set_view_set
             set_input set_view view_set view pos total_read input seek
             read_func tmp_dst prefs exc fst snd];
        set (chunk2 := slice data (tr + r) M) in *.
      all: pose proof (Zlength'_nonneg chunk2) as Hnn.
      all: destruct ((r =? 0) && (Zlength' chunk2 =? 0)) eqn:Hend.
      all: try (apply andb_false_iff in Hend;
                assert (Havail : 0 < r \/ 0 < Zlength' chunk2)
                  by (destruct Hend; bool_to_Z; lia);
                clear Hend).
      all: bool_to_Z.
      all: eexists _, _, _; (split; [reflexivity|]).
      all: unfold over_data, view_len.
      all: cbn [buf with_buf set_tmp_dst set_pos set_total_read set_view_set
                set_input set_view view_set view pos total_read input seek
                read_func tmp_dst prefs exc].
      all: (split; [|split; [reflexivity|]]).
      all: try (split; [reflexivity|]; split; [lia|]; split; [lia|];
                split; [lia|]; split;
                [exists M; split; [lia|]; unfold chunk2; f_equal; lia
                |f_equal; f_equal; lia]).
      all: try (left; repeat split; lia).
      all: right; (split; [lia|]); (split; [lia|]); (split; [lia|]).
      all: eexists; (split; [reflexivity|]); intros Hfit.
      all: replace (Z.min len (Zlength' chunk2 - 0 + r)) with len by lia.
      all: unfold chunk2; rewrite slice_slice; try lia.
      all: try (fold chunk2; lia).
      all: rewrite Z.add_0_r, slice_app; try lia.
      all: f_equal; lia.
    + (* enough data in the view *)
      eexists _, _, _. split; [reflexivity|].
      unfold over_data, view_len.
      cbn [buf with_buf set_tmp_dst set_pos set_total_read view_set view pos
           total_read input seek read_func tmp_dst prefs exc].
      split; [|split; [reflexivity|]].
      * split; [reflexivity|]. split; [lia|].
        split; [lia|]. split; [lia|]. split.
        -- exists n. split; [exact Hn|]. rewrite Hview. f_equal. lia.
        -- rewrite Hin. f_equal. f_equal. lia.
      * right. split; [lia|]. split; [lia|]. split; [lia|].
        eexists. split; [reflexivity|]. intros _.
        rewrite Hview. rewrite slice_slice; try lia.
        -- f_equal. lia.
        -- rewrite <- Hview. lia.
  - (* no view yet *)
    destruct Hin as (Hps & Hin). subst ps inp.
    cbn [negb orb]. unfold call_input.
    set (M := Z.max BUFFER_FP_SIZE (len - 0)).
    assert (HM : len <= M /\ 0 < M) by (unfold M, BUFFER_FP_SIZE; lia).
    assert (Hnew : Zlength' (slice data tr M) = Z.min M (Zlength' data - tr))
      by (apply Zlength'_slice; lia).
    destruct dst;
      cbn [buf with_buf set_tmp_dst set_pos set_total_read set_view_set
           set_input set_view view_set view pos total_read input seek
           read_func tmp_dst prefs exc input_call host read];
      cbv beta iota zeta;
      cbn [buf with_buf set_tmp_dst set_pos set_total_read set_view_set
           set_input set_view view_set view pos total_read input seek
           read_func tmp_dst prefs exc fst snd];
      set (chunk2 := slice data tr M) in *.
    all: pose proof (Zlength'_nonneg chunk2) as Hnn.
    all: change (0 =? 0) with true; cbn [andb].
    all: destruct (Zlength' chunk2 =? 0) eqn:Hend; bool_to_Z.
    all: eexists _, _, _; (split; [reflexivity|]).
    all: unfold over_data, view_len.
    all: cbn [buf with_buf set_tmp_dst set_pos set_total_read set_view_set
              set_input set_view view_set view pos total_read input seek
              read_func tmp_dst prefs exc].
    all: (split; [|split; [reflexivity|]]).
    all: try (split; [reflexivity|]; split; [lia|]; split; [lia|];
              split; [lia|]; split;
              [exists M; split; [lia|]; unfold chunk2; f_equal; lia
              |f_equal; f_equal; lia]).
    all: try (left; repeat split; lia).
    all: right; (split; [lia|]); (split; [lia|]); (split; [lia|]).
    all: eexists; (split; [reflexivity|]); intros Hfit.
    all: replace (Z.min len (Zlength' chunk2 - 0 + 0)) with len by lia.
    all: unfold chunk2; rewrite slice_slice; try lia.
    all: try (fold chunk2; lia).
    all: cbn [slice Z.to_nat firstn app]; f_equal; lia.
Qed.

Lemma ACTION_READ_buffered (len : Z) (dst : bool) (s : string)
  (w : @world BytesIO.host) :
  0 <= len -> read_func (buf w) = read_buffered -> over_data p data (buf w) ->
  let r := ACTION_READ len dst s w in
  over_data p data (buf (snd r))
  /\ (fst r, total_read (buf (snd r)), exc (snd r))
     = read_outcome data (total_read (buf w)) len s (exc w).
Proof.
  intros Hlen Hrf Hw.
  unfold ACTION_READ, READ_VIA_FUNC, read_outcome. rewrite Hrf.
  destruct (len =? 0) eqn:Hz; bool_to_Z.
  - subst len. unfold _decoder_buffer_read_buffered.
    change (0 =? 0) with true. proj_simpl. split; [exact Hw|reflexivity].
  - destruct (@read_buffered_over_data len dst w) as (ptr & rd & w' & Hrd & Hok & He & Hcase);
      [lia|exact Hrf|exact Hw|].
    rewrite Hrd. pose proof Hw as (_ & Hc & _).
    destruct Hcase as [(Hend & -> & -> & Htr)|(Hin & -> & Htr & chunk & -> & Hchunk)].
    + proj_simpl.
      replace (len >? 0) with true by (symmetry; apply Z.gtb_lt; lia).
      replace (total_read (buf w) + len <=? Zlength' data) with false
        by (symmetry; apply Z.leb_gt; lia).
      replace (total_read (buf w) <? Zlength' data) with false
        by (symmetry; apply Z.ltb_ge; lia).
      proj_simpl. split; [exact Hok|]. rewrite Htr.
      replace (Zlength' data) with (total_read (buf w)) by lia. reflexivity.
    + destruct (total_read (buf w) + len <=? Zlength' data) eqn:Hfit; bool_to_Z.
      * replace (Z.min len (Zlength' data - total_read (buf w)) <? len)
          with false by (symmetry; apply Z.ltb_ge; lia).
        proj_simpl. split; [exact Hok|].
        rewrite Htr, He, (Hchunk Hfit). f_equal. f_equal. lia.
      * replace (Z.min len (Zlength' data - total_read (buf w)) <? len)
          with true by (symmetry; apply Z.ltb_lt; lia).
        replace (total_read (buf w) <? Zlength' data) with true
          by (symmetry; apply Z.ltb_lt; lia).
        proj_simpl. split; [exact Hok|]. rewrite Htr.
        replace (total_read (buf w)
                 + Z.min len (Zlength' data - total_read (buf w)))
          with (Zlength' data) by lia.
        reflexivity.
Qed.

(** Whatever the backend, a read over in-memory bytes comes to
    [read_outcome]. *)
Lemma ACTION_READ_over_data (len : Z) (dst : bool) (s : string)
  (w : @world BytesIO.host) :
  0 <= len -> over_data p data (buf w) ->
  let r := ACTION_READ len dst s w in
  over_data p data (buf (snd r))
  /\ (fst r, total_read (buf (snd r)), exc (snd r))
     = read_outcome data (total_read (buf w)) len s (exc w).
Proof.
  intros Hlen Hw.
  destruct (read_func (buf w)) eqn:Hrf.
  - apply ACTION_READ_fixed; assumption.
  - apply ACTION_READ_callable; assumption.
  - apply ACTION_READ_buffered; assumption.
Qed.

End ReadsOverData.

Section Agreement.
Import BytesIO.
Variable p : _bjdata_decoder_prefs_t.
Variable data : list byte.

Lemma same_state_set_exc (e : option pyerr) (w1 w2 : @world BytesIO.host) :
  same_state p data w1 w2 -> same_state p data (set_exc e w1) (set_exc e w2).
Proof.
  intros (H1 & H2 & Ht & He). unfold same_state. cbn [set_exc buf exc]. auto.
Qed.

Lemma agrees_read (len : Z) (dst : bool) (s : string) :
  0 <= len -> agrees p data (ACTION_READ len dst s).
Proof.
  intros Hlen w1 w2 (H1 & H2 & Ht & He).
  destruct (@ACTION_READ_over_data p data len dst s w1 Hlen H1) as (Ho1 & Hr1).
  destruct (@ACTION_READ_over_data p data len dst s w2 Hlen H2) as (Ho2 & Hr2).
  rewrite Ht, He, <- Hr2 in Hr1. inversion Hr1 as [[Hf Htr Hexc]].
  unfold same_state. auto.
Qed.

Lemma agrees_ret {A} (a : A) : agrees p data (ret a).
Proof. intros w1 w2 Hs. split; [reflexivity|exact Hs]. Qed.

Lemma agrees_bail {A} : agrees p data (@bail _ A).
Proof. intros w1 w2 Hs. split; [reflexivity|exact Hs]. Qed.

Lemma agrees_out_of_fuel {A} : agrees p data (@out_of_fuel _ A).
Proof. intros w1 w2 Hs. split; [reflexivity|exact Hs]. Qed.

Lemma agrees_raise {A} (e : pyerr) : agrees p data (@raise _ A e).
Proof.
  intros w1 w2 Hs. split; [reflexivity|].
  apply same_state_set_exc. exact Hs.
Qed.

Lemma agrees_RAISE {A} (msg : string) : agrees p data (@RAISE_DECODER_EXCEPTION _ A msg).
Proof.
  intros w1 w2 Hs. split; [reflexivity|].
  unfold RAISE_DECODER_EXCEPTION. cbn [snd].
  destruct Hs as (H1 & H2 & Ht & He). rewrite Ht.
  apply same_state_set_exc. unfold same_state. auto.
Qed.

Lemma agrees_get_prefs : agrees p data get_prefs.
Proof.
  intros w1 w2 Hs. split; [|exact Hs].
  destruct Hs as ((Hp1 & _) & (Hp2 & _) & _).
  unfold get_prefs. cbn [fst]. rewrite Hp1, Hp2. reflexivity.
Qed.

(** The continuation need only agree on what the first part can return. *)
Lemma agrees_bind {A B} (m : M A) (k : A -> M B) :
  agrees p data m ->
  (forall w a w', m w = (Ret a, w') -> agrees p data (k a)) ->
  agrees p data (bind m k).
Proof.
  intros Hm Hk w1 w2 Hs. unfold bind. specialize (Hm w1 w2 Hs).
  destruct (m w1) as [r1 w1'] eqn:Hm1. destruct (m w2) as [r2 w2'].
  cbn [fst snd] in Hm. destruct Hm as (<- & Hs').
  destruct r1 as [a| |]; cbn [fst snd]; auto.
  apply (Hk _ _ _ Hm1). exact Hs'.
Qed.

Lemma agrees_bind_any {A B} (m : M A) (k : A -> M B) :
  agrees p data m -> (forall a, agrees p data (k a)) -> agrees p data (bind m k).
Proof. intros Hm Hk. apply agrees_bind; auto. Qed.

Lemma agrees_run {A} (m : M A) (w1 w2 : @world BytesIO.host) :
  agrees p data m -> same_state p data w1 w2 ->
  exists r w1' w2', m w1 = (r, w1') /\ m w2 = (r, w2')
                    /\ same_state p data w1' w2'.
Proof.
  intros Hm Hs. destruct (Hm w1 w2 Hs) as (Hr & Hs').
  destruct (m w1) as [r1 w1']. destruct (m w2) as [r2 w2'].
  cbn [fst snd] in *. subst r2. exists r1, w1', w2'. auto.
Qed.

Lemma same_state_exc (w1 w2 : @world BytesIO.host) :
  same_state p data w1 w2 -> exc w1 = exc w2.
Proof. intros (_ & _ & _ & He). exact He. Qed.

Lemma agrees_READ_OR_BAIL (len : Z) (s : string) :
  0 <= len -> agrees p data (READ_OR_BAIL len s).
Proof.
  intros Hlen. unfold READ_OR_BAIL. apply agrees_bind_any.
  - apply agrees_read. exact Hlen.
  - intros ptr. apply agrees_ret.
Qed.

Lemma agrees_READ_INTO_OR_BAIL (len : Z) (s : string) :
  0 <= len -> agrees p data (READ_INTO_OR_BAIL len s).
Proof.
  intros Hlen. unfold READ_INTO_OR_BAIL. apply agrees_bind_any.
  - apply agrees_read. exact Hlen.
  - intros ptr. apply agrees_ret.
Qed.

Lemma agrees_READ_CHAR_OR_BAIL (s : string) : agrees p data (READ_CHAR_OR_BAIL s).
Proof.
  unfold READ_CHAR_OR_BAIL. apply agrees_bind_any.
  - apply agrees_READ_OR_BAIL. lia.
  - intros tmp. apply agrees_ret.
Qed.

Create HintDb agrees.
#[local] Hint Resolve agrees_ret agrees_bail agrees_out_of_fuel agrees_raise
  agrees_RAISE agrees_get_prefs agrees_READ_CHAR_OR_BAIL : agrees.

Ltac agrees_step :=
  repeat first
    [ solve [auto with agrees nocore]
    | apply agrees_bind_any; [|intros ?]
    | match goal with
      | |- agrees _ _ (if ?c then _ else _) => destruct c
      | |- agrees _ _ (match ?x with _ => _ end) => destruct x
      end ].

Lemma agrees__decode_int8 : agrees p data _decode_int8.
Proof. unfold _decode_int8. agrees_step. Qed.

Lemma agrees__decode_uint8 : agrees p data _decode_uint8.
Proof. unfold _decode_uint8. agrees_step. Qed.

Lemma agrees__decode_uint16_32 (size : Z) :
  0 <= size -> agrees p data (_decode_uint16_32 size).
Proof.
  intros Hs. unfold _decode_uint16_32.
  apply agrees_bind_any; [apply agrees_READ_OR_BAIL; auto|]. intros raw.
  agrees_step.
Qed.

Lemma agrees__decode_int16_32 (size : Z) :
  0 <= size -> agrees p data (_decode_int16_32 size).
Proof.
  intros Hs. unfold _decode_int16_32.
  apply agrees_bind_any; [apply agrees_READ_OR_BAIL; auto|]. intros raw.
  agrees_step.
Qed.

Lemma agrees__decode_uint64 : agrees p data _decode_uint64.
Proof.
  unfold _decode_uint64.
  apply agrees_bind_any; [apply agrees_READ_OR_BAIL; lia|].
  intros raw. agrees_step.
Qed.

Lemma agrees__decode_int64 : agrees p data _decode_int64.
Proof.
  unfold _decode_int64.
  apply agrees_bind_any; [apply agrees_READ_OR_BAIL; lia|].
  intros raw. agrees_step.
Qed.

#[local] Hint Resolve agrees__decode_int8 agrees__decode_uint8
  agrees__decode_uint64 agrees__decode_int64 : agrees.

Lemma agrees__decode_int_switch (m : byte) :
  agrees p data (_decode_int_switch m).
Proof.
  unfold _decode_int_switch.
  repeat match goal with
    | |- agrees _ _ (if ?c then _ else _) => destruct c
    end; auto with agrees nocore;
    first [apply agrees__decode_uint16_32 | apply agrees__decode_int16_32];
    lia.
Qed.

Lemma agrees__decode_int_non_negative (gm : option byte) :
  agrees p data (_decode_int_non_negative gm).
Proof.
  unfold _decode_int_non_negative.
  apply agrees_bind_any; [destruct gm; auto with agrees nocore|]. intros m.
  apply agrees_bind_any; [apply agrees__decode_int_switch|]. intros o.
  intros w1 w2 Hs. unfold PyLong_AsLongLong, PyErr_Occurred.
  pose proof (same_state_exc Hs) as He.
  destruct o;
    try (cbn [fst snd set_exc exc bail]; split; [reflexivity|];
         apply same_state_set_exc; exact Hs).
  destruct ((- LLONG_MAX - 1 <=? v) && (v <=? LLONG_MAX)).
  - rewrite <- He. destruct (exc w1).
    + split; [reflexivity|exact Hs].
    + destruct (v <? 0).
      * apply agrees_RAISE. exact Hs.
      * split; [reflexivity|exact Hs].
  - cbn [fst snd set_exc exc bail]. split; [reflexivity|].
    apply same_state_set_exc. exact Hs.
Qed.

#[local] Hint Resolve agrees__decode_int_switch
  agrees__decode_int_non_negative : agrees.

Lemma agrees_DECODE_UNICODE_OR_BAIL (raw : list byte) (s : string) :
  agrees p data (DECODE_UNICODE_OR_BAIL raw s).
Proof. unfold DECODE_UNICODE_OR_BAIL. agrees_step. Qed.

#[local] Hint Resolve agrees_DECODE_UNICODE_OR_BAIL : agrees.

Lemma agrees__decode_float (width : Z) (s : string) :
  0 <= width -> agrees p data (_decode_float width s).
Proof.
  intros Hw. unfold _decode_float.
  apply agrees_bind_any; [apply agrees_READ_OR_BAIL; auto|]. intros raw.
  apply agrees_bind_any; [auto with agrees nocore|]. intros q.
  intros w1 w2 Hs. unfold PyErr_Occurred.
  rewrite <- (same_state_exc Hs).
  destruct ((_pyfuncs_ubj_PyFloat_Unpack raw (islittle q) =? minus_one_bits width)
            && match exc w1 with Some _ => true | None => false end);
    split; (reflexivity || exact Hs).
Qed.

Lemma agrees__decode_float32 : agrees p data _decode_float32.
Proof. apply agrees__decode_float. lia. Qed.

Lemma agrees__decode_float64 : agrees p data _decode_float64.
Proof. apply agrees__decode_float. lia. Qed.

Lemma agrees__decode_high_prec : agrees p data _decode_high_prec.
Proof.
  unfold _decode_high_prec, DECODE_LENGTH_OR_BAIL.
  apply agrees_bind; [auto with agrees nocore|]. intros w length w' Hlen.
  apply _decode_int_non_negative_range in Hlen.
  apply agrees_bind_any; [apply agrees_READ_OR_BAIL; lia|].
  intros raw. agrees_step.
Qed.

Lemma agrees__decode_char : agrees p data _decode_char.
Proof. unfold _decode_char. agrees_step. Qed.

Lemma agrees__decode_string : agrees p data _decode_string.
Proof.
  unfold _decode_string, DECODE_LENGTH_OR_BAIL.
  apply agrees_bind; [auto with agrees nocore|]. intros w length w' Hlen.
  apply _decode_int_non_negative_range in Hlen.
  destruct (length >? 0); [|auto with agrees nocore].
  apply agrees_bind_any; [apply agrees_READ_OR_BAIL; lia|].
  intros raw. agrees_step.
Qed.

Lemma agrees__decode_object_key (m : byte) (intern : bool) :
  agrees p data (_decode_object_key m intern).
Proof.
  unfold _decode_object_key, DECODE_LENGTH_OR_BAIL_MARKER.
  apply agrees_bind; [auto with agrees nocore|]. intros w length w' Hlen.
  apply _decode_int_non_negative_range in Hlen.
  apply agrees_bind_any; [apply agrees_READ_OR_BAIL; lia|].
  intros raw. agrees_step.
Qed.

Lemma agrees_DECODE_OBJECT_KEY (m : byte) (ctx : string) (intern : bool) :
  agrees p data (DECODE_OBJECT_KEY_OR_RAISE_ENCODER_EXCEPTION m ctx intern).
Proof.
  intros w1 w2 Hs. unfold DECODE_OBJECT_KEY_OR_RAISE_ENCODER_EXCEPTION.
  destruct (agrees_run (agrees__decode_object_key m intern) Hs)
    as (r & w1' & w2' & -> & -> & Hs').
  destruct r; try (split; [reflexivity|exact Hs']).
  apply agrees_RAISE. exact Hs'.
Qed.

#[local] Hint Resolve agrees__decode_float32 agrees__decode_float64
  agrees__decode_high_prec agrees__decode_char agrees__decode_string
  agrees_DECODE_OBJECT_KEY : agrees.

(** *** Headers *)

Lemma gagrees_gret {A} (a : A) : gagrees p data (gret a).
Proof. intros w1 w2 Hs. split; [reflexivity|exact Hs]. Qed.

Lemma gagrees_gbind {A B} (m : G A) (k : A -> G B) :
  gagrees p data m -> (forall a, gagrees p data (k a)) ->
  gagrees p data (gbind m k).
Proof.
  intros Hm Hk w1 w2 Hs. unfold gbind. specialize (Hm w1 w2 Hs).
  destruct (m w1) as [r1 w1']. destruct (m w2) as [r2 w2'].
  cbn [fst snd] in Hm. destruct Hm as (<- & Hs').
  destruct r1 as [a| q|]; cbn [fst snd]; auto.
  apply Hk. exact Hs'.
Qed.

Lemma gagrees_or_bail {A} (q : _container_params_t) (m : M A) :
  agrees p data m -> gagrees p data (or_bail q m).
Proof.
  intros Hm w1 w2 Hs. unfold or_bail.
  destruct (agrees_run Hm Hs) as (r & w1' & w2' & -> & -> & Hs').
  destruct r; (split; [reflexivity|exact Hs']).
Qed.

Ltac gagrees_step :=
  repeat first
    [ apply gagrees_gret
    | apply gagrees_or_bail; solve [auto with agrees nocore]
    | apply gagrees_gbind; [|intros ?]
    | match goal with
      | |- gagrees _ _ (if ?c then _ else _) => destruct c
      | |- gagrees _ _ (match ?x with _ => _ end) => destruct x
      end ].

Lemma gagrees_header_type : gagrees p data header_type.
Proof. unfold header_type. gagrees_step. Qed.

Lemma gagrees_nd_dims_counted (n : nat) :
  forall q t l, gagrees p data (nd_dims_counted q t n l).
Proof.
  induction n as [|n IH]; intros q t l; cbn [nd_dims_counted].
  - apply gagrees_gret.
  - apply gagrees_gbind.
    + apply gagrees_or_bail. unfold DECODE_LENGTH_OR_BAIL_MARKER.
      auto with agrees nocore.
    + intros len. apply IH.
Qed.

Lemma gagrees_nd_dims_uncounted (fuel : nat) :
  forall q m l, gagrees p data (nd_dims_uncounted fuel q m l).
Proof.
  induction fuel as [|fuel IH]; intros q m l; cbn [nd_dims_uncounted];
    destruct (byte_eqb ARRAY_END m); try apply gagrees_gret.
  - intros w1 w2 Hs. split; [reflexivity|exact Hs].
  - apply gagrees_gbind.
    + apply gagrees_or_bail. unfold DECODE_LENGTH_OR_BAIL_MARKER.
      auto with agrees nocore.
    + intros len. apply gagrees_gbind.
      * apply gagrees_or_bail. auto with agrees nocore.
      * intros m1. apply IH.
Qed.

Lemma gagrees_header_count (self : M _container_params_t) (fuel : nat)
  (nd : bool) (q : _container_params_t) :
  agrees p data self -> gagrees p data (header_count self fuel nd q).
Proof.
  intros Hself. unfold header_count.
  apply gagrees_gbind; [apply gagrees_or_bail; auto with agrees nocore|].
  intros m.
  destruct (byte_eqb ARRAY_START m && nd).
  - apply gagrees_gbind; [apply gagrees_or_bail; exact Hself|].
    intros dims. cbv zeta.
    destruct (counting dims).
    + apply gagrees_gbind; [apply gagrees_nd_dims_counted|].
      intros [q1 l1]. apply gagrees_gret.
    + apply gagrees_gbind; [apply gagrees_nd_dims_uncounted|].
      intros [[q1 m1] l1]. apply gagrees_gret.
  - intros w1 w2 Hs. unfold DECODE_LENGTH_OR_BAIL_MARKER.
    destruct (agrees_run (agrees__decode_int_non_negative (Some m)) Hs)
      as (r & w1' & w2' & -> & -> & Hs').
    destruct r; (split; [reflexivity|exact Hs']).
Qed.

Lemma gagrees_body (self : M _container_params_t) (fuel : nat) (im nd : bool) :
  agrees p data self ->
  gagrees p data (get_container_params_body self fuel im nd).
Proof.
  intros Hself. unfold get_container_params_body.
  apply gagrees_gbind; [apply gagrees_header_type|]. intros [q m].
  destruct (byte_eqb CONTAINER_COUNT m).
  - apply gagrees_gbind; [apply gagrees_header_count; exact Hself|].
    intros [[q1 m1] nds].
    apply gagrees_gbind; [unfold header_prefetch; gagrees_step|].
    intros m2. apply gagrees_gret.
  - gagrees_step.
Qed.

Lemma agrees_run_G {A} (m : G (_container_params_t * A)) (dflt : A) :
  gagrees p data m -> agrees p data (run_G m dflt).
Proof.
  intros Hm w1 w2 Hs. unfold run_G. specialize (Hm w1 w2 Hs).
  destruct (m w1) as [r1 w1']. destruct (m w2) as [r2 w2'].
  cbn [fst snd] in Hm. destruct Hm as (<- & Hs').
  destruct r1; (split; [reflexivity|exact Hs']).
Qed.

Lemma agrees__get_container_params_flat (im : bool) :
  agrees p data (_get_container_params_flat im).
Proof.
  unfold _get_container_params_flat.
  apply agrees_bind_any; [|intros r; apply agrees_ret].
  apply agrees_run_G. apply gagrees_body. apply agrees_bail.
Qed.

Lemma agrees__get_container_params (fuel : nat) (im nd : bool) :
  agrees p data (_get_container_params fuel im nd).
Proof.
  unfold _get_container_params. apply agrees_run_G. apply gagrees_body.
  apply agrees__get_container_params_flat.
Qed.

#[local] Hint Resolve agrees__get_container_params : agrees.

(** *** Arrays, objects and values *)

Lemma agrees__no_data_type (t : byte) : agrees p data (_no_data_type t).
Proof. unfold _no_data_type. agrees_step. Qed.

Lemma agrees_call_hook (h : hook) (arg : PyObject) :
  agrees p data (call_hook h arg).
Proof. unfold call_hook. agrees_step. Qed.

Lemma agrees_PyList_New (n : Z) : agrees p data (PyList_New n).
Proof. unfold PyList_New. agrees_step. Qed.

#[local] Hint Resolve agrees__no_data_type agrees_call_hook agrees_PyList_New
  : agrees.

Section WithValues.
Variable decode_value : option byte -> M PyObject.
Hypothesis agrees_decode_value : forall gm, agrees p data (decode_value gm).

Lemma agrees_read_packed_array (ndims : Z) (dims : list Z) (t : byte) (n : Z)
  (s : string) :
  n = wrapped_product dims ->
  agrees p data (read_packed_array ndims dims t n s).
Proof.
  intros Hn. unfold read_packed_array.
  pose proof (BytesIO_numpy_sizes_sane ndims dims t) as Hsane.
  destruct (_get_type_info t) as [pytype bytelen]. cbn [fst snd] in Hsane.
  apply agrees_bind_any.
  - destruct pytype; try apply agrees_ret.
    intros w1 w2 Hs. split; [reflexivity|].
    apply same_state_set_exc. exact Hs.
  - intros _. apply agrees_bind.
    + destruct (PyArray_SimpleNew_ok ndims dims pytype);
        auto with agrees nocore.
    + intros w u w' Hret.
      destruct (PyArray_SimpleNew_ok ndims dims pytype) eqn:Hok;
        [|discriminate Hret].
      apply agrees_bind_any; [|intros raw; apply agrees_ret].
      apply agrees_READ_INTO_OR_BAIL. subst n. apply Hsane. reflexivity.
Qed.

Lemma agrees_array_loop_counted (fuel : nat) :
  forall t n m lst,
    agrees p data (array_loop_counted decode_value fuel t n m lst).
Proof.
  induction fuel as [|fuel IH]; intros t n m lst; cbn [array_loop_counted];
    destruct (n >? 0); auto with agrees nocore.
  destruct (byte_eqb TYPE_NOOP m).
  - apply agrees_bind_any; [auto with agrees nocore|]. intros m1. apply IH.
  - apply agrees_bind_any; [apply agrees_decode_value|]. intros v.
    cbv zeta. destruct ((n - 1 >? 0) && byte_eqb TYPE_NONE t); [|apply IH].
    apply agrees_bind_any; [auto with agrees nocore|]. intros m1. apply IH.
Qed.

Lemma agrees_array_loop_uncounted (fuel : nat) :
  forall t m lst,
    agrees p data (array_loop_uncounted decode_value fuel t m lst).
Proof.
  induction fuel as [|fuel IH]; intros t m lst; cbn [array_loop_uncounted];
    destruct (byte_eqb ARRAY_END m); auto with agrees nocore.
  destruct (byte_eqb TYPE_NOOP m).
  - apply agrees_bind_any; [auto with agrees nocore|]. intros m1. apply IH.
  - apply agrees_bind_any; [apply agrees_decode_value|]. intros v.
    cbv zeta. destruct (byte_eqb TYPE_NONE t); [|apply IH].
    apply agrees_bind_any; [auto with agrees nocore|]. intros m1. apply IH.
Qed.

Lemma agrees__decode_array (fuel : nat) :
  agrees p data (_decode_array decode_value fuel).
Proof.
  unfold _decode_array.
  apply agrees_bind; [apply agrees__get_container_params|].
  intros w [params [ndims dims]] w' Hhdr.
  destruct (invalid params) eqn:Hinv; [apply agrees_bail|].
  destruct (_get_container_params_valid _ _ _ _ Hhdr Hinv) as (Hfits & _ & _).
  cbv zeta. apply agrees_bind_any; [auto with agrees nocore|]. intros prefs.
  destruct (counting params).
  - destruct (byte_eqb TYPE_UINT8 (type params) && negb (no_bytes prefs)
              && (ndims =? 0)).
    { apply agrees_bind.
      - unfold PyBytes_FromStringAndSize. agrees_step.
      - intros w0 u w1 Hnew. unfold PyBytes_FromStringAndSize in Hnew.
        destruct (count params <? 0) eqn:Hneg; [discriminate Hnew|].
        bool_to_Z.
        apply agrees_bind_any; [|intros raw; apply agrees_ret].
        apply agrees_READ_INTO_OR_BAIL. exact Hneg. }
    destruct (negb (ndims =? 0) && negb (byte_eqb (type params) x00)) eqn:Hnd.
    { apply agrees_read_packed_array.
      bool_to_Z. eapply _get_container_params_product; eassumption. }
    destruct (_is_no_data_type (type params)); [agrees_step|].
    destruct (_is_fixed_len_type (type params) && (count params >? 0)).
    { apply agrees_read_packed_array.
      unfold wrapped_product. cbn [fold_left]. rewrite Z.mul_1_l.
      symmetry. apply to_signed_id. exact Hfits. }
    apply agrees_bind_any; [auto with agrees nocore|]. intros _.
    apply agrees_bind_any; [apply agrees_array_loop_counted|].
    intros lst. apply agrees_ret.
  - apply agrees_bind_any; [apply agrees_array_loop_uncounted|].
    intros lst. apply agrees_ret.
Qed.

Lemma agrees_pairs_loop_no_data (n : nat) :
  forall intern value m lst,
    agrees p data (pairs_loop_no_data n intern value m lst).
Proof.
  induction n as [|n IH]; intros intern value m lst; cbn [pairs_loop_no_data];
    [auto with agrees nocore|].
  apply agrees_bind_any; [auto with agrees nocore|]. intros key. cbv zeta.
  destruct n; [apply IH|].
  apply agrees_bind_any; [auto with agrees nocore|]. intros m1. apply IH.
Qed.

Lemma agrees_object_loop_no_data (n : nat) :
  forall intern value m obj,
    agrees p data (object_loop_no_data n intern value m obj).
Proof.
  induction n as [|n IH]; intros intern value m obj; cbn [object_loop_no_data];
    [auto with agrees nocore|].
  apply agrees_bind_any; [auto with agrees nocore|]. intros key. cbv zeta.
  destruct n; [apply IH|].
  apply agrees_bind_any; [auto with agrees nocore|]. intros m1. apply IH.
Qed.

Lemma agrees_pairs_loop_counted (fuel : nat) :
  forall intern ft n m lst,
    agrees p data (pairs_loop_counted decode_value fuel intern ft n m lst).
Proof.
  induction fuel as [|fuel IH]; intros intern ft n m lst;
    cbn [pairs_loop_counted]; destruct (n >? 0); auto with agrees nocore.
  destruct (byte_eqb TYPE_NOOP m).
  - apply agrees_bind_any; [auto with agrees nocore|]. intros m1. apply IH.
  - apply agrees_bind_any; [auto with agrees nocore|]. intros key.
    apply agrees_bind_any; [apply agrees_decode_value|]. intros v.
    cbv zeta. destruct (n - 1 >? 0); [|apply IH].
    apply agrees_bind_any; [auto with agrees nocore|]. intros m1. apply IH.
Qed.

Lemma agrees_pairs_loop_uncounted (fuel : nat) :
  forall intern ft m lst,
    agrees p data (pairs_loop_uncounted decode_value fuel intern ft m lst).
Proof.
  induction fuel as [|fuel IH]; intros intern ft m lst;
    cbn [pairs_loop_uncounted]; destruct (byte_eqb OBJECT_END m);
    auto with agrees nocore.
  destruct (byte_eqb TYPE_NOOP m).
  - apply agrees_bind_any; [auto with agrees nocore|]. intros m1. apply IH.
  - apply agrees_bind_any; [auto with agrees nocore|]. intros key.
    apply agrees_bind_any; [apply agrees_decode_value|]. intros v.
    cbv zeta.
    apply agrees_bind_any; [auto with agrees nocore|]. intros m1. apply IH.
Qed.

Lemma agrees_object_loop (fuel : nat) :
  forall intern ft c n m obj,
    agrees p data (object_loop decode_value fuel intern ft c n m obj).
Proof.
  induction fuel as [|fuel IH]; intros intern ft c n m obj; cbn [object_loop];
    destruct ((n >? 0) && (c || negb (byte_eqb OBJECT_END m)));
    auto with agrees nocore.
  destruct (byte_eqb TYPE_NOOP m).
  - apply agrees_bind_any; [auto with agrees nocore|]. intros m1. apply IH.
  - apply agrees_bind_any; [auto with agrees nocore|]. intros key.
    apply agrees_bind_any; [apply agrees_decode_value|]. intros v.
    cbv zeta. destruct ((if c then n - 1 else n) >? 0); [|apply IH].
    apply agrees_bind_any; [auto with agrees nocore|]. intros m1. apply IH.
Qed.

Lemma agrees__decode_object_with_pairs_hook (fuel : nat) :
  agrees p data (_decode_object_with_pairs_hook decode_value fuel).
Proof.
  unfold _decode_object_with_pairs_hook.
  apply agrees_bind_any; [apply agrees__get_container_params|].
  intros [params nds].
  apply agrees_bind_any; [auto with agrees nocore|]. intros prefs. cbv zeta.
  destruct (invalid params); [apply agrees_bail|].
  apply agrees_bind_any; [|intros lst; auto with agrees nocore].
  unfold collect_pairs. cbv zeta.
  destruct (counting params).
  - apply agrees_bind_any; [auto with agrees nocore|]. intros _.
    destruct (_is_no_data_type (type params)).
    + apply agrees_bind_any; [auto with agrees nocore|]. intros v.
      apply agrees_pairs_loop_no_data.
    + apply agrees_pairs_loop_counted.
  - apply agrees_pairs_loop_uncounted.
Qed.

Lemma agrees__decode_object (fuel : nat) :
  agrees p data (_decode_object decode_value fuel).
Proof.
  unfold _decode_object.
  apply agrees_bind_any; [apply agrees__get_container_params|].
  intros [params nds].
  apply agrees_bind_any; [auto with agrees nocore|]. intros prefs. cbv zeta.
  destruct (invalid params); [apply agrees_bail|].
  apply agrees_bind_any.
  - unfold collect_dict. cbv zeta.
    destruct (counting params && _is_no_data_type (type params)).
    + apply agrees_bind_any; [auto with agrees nocore|]. intros v.
      apply agrees_object_loop_no_data.
    + apply agrees_object_loop.
  - intros obj. unfold finish_object.
    destruct (object_hook prefs); auto with agrees nocore.
Qed.

End WithValues.

Lemma agrees_RETURN_OR_RAISE (item : M PyObject) (s : string) :
  agrees p data item ->
  agrees p data (RETURN_OR_RAISE_DECODER_EXCEPTION item s).
Proof.
  intros Hitem w1 w2 Hs. unfold RETURN_OR_RAISE_DECODER_EXCEPTION.
  destruct (agrees_run Hitem Hs) as (r & w1' & w2' & -> & -> & Hs').
  destruct r; try (split; [reflexivity|exact Hs']).
  rewrite <- (same_state_exc Hs').
  destruct (exc w1') as [[]|]; try (split; [reflexivity|exact Hs']);
    apply agrees_RAISE; exact Hs'.
Qed.

(** The whole decoder cannot tell the backends apart. *)
Lemma agrees__bjdata_decode_value (fuel : nat) :
  forall (depth : Z) (gm : option byte),
    agrees p data (_bjdata_decode_value fuel depth gm).
Proof.
  induction fuel as [|fuel IH]; intros depth gm; cbn [_bjdata_decode_value];
    (apply agrees_bind_any; [destruct gm; auto with agrees nocore|]);
    intros m;
    repeat match goal with
      | |- agrees _ _ (if ?c then _ else _) => destruct c
      end;
    auto with agrees nocore;
    try (apply agrees_RETURN_OR_RAISE; auto with agrees nocore;
         first [apply agrees__decode_int16_32
               |apply agrees__decode_uint16_32]; lia).
  - unfold RECURSE_AND_RETURN_OR_BAIL.
    destruct (depth + 1 >? recursion_limit); [auto with agrees nocore|].
    apply agrees__decode_array. intros g. apply IH.
  - apply agrees_bind_any; [auto with agrees nocore|]. intros prefs.
    unfold RECURSE_AND_RETURN_OR_BAIL.
    destruct (object_pairs_hook prefs);
      (destruct (depth + 1 >? recursion_limit); [auto with agrees nocore|]).
    + apply agrees__decode_object. intros g. apply IH.
    + apply agrees__decode_object_with_pairs_hook. intros g. apply IH.
    + apply agrees__decode_object_with_pairs_hook. intros g. apply IH.
Qed.

End Agreement.

Section BackendsAgree.
Import BytesIO.

Lemma over_data_fixed (p : _bjdata_decoder_prefs_t) (data : list byte) :
  over_data p data (buf (fixed p data)).
Proof.
  unfold over_data, fixed. cbn [buf prefs total_read read_func view].
  pose proof (Zlength'_nonneg data). repeat split; try reflexivity; lia.
Qed.

Lemma over_data_callable (p : _bjdata_decoder_prefs_t) (data : list byte) :
  over_data p data (buf (callable p data)).
Proof.
  unfold over_data, callable. cbn [buf prefs total_read read_func input].
  pose proof (Zlength'_nonneg data). repeat split; try reflexivity; lia.
Qed.

Lemma over_data_seekable (p : _bjdata_decoder_prefs_t) (data : list byte) :
  over_data p data (buf (seekable p data)).
Proof.
  unfold over_data, seekable.
  cbn [buf prefs total_read read_func input view_set pos].
  pose proof (Zlength'_nonneg data). repeat split; try reflexivity; lia.
Qed.

(** X23.  Reads hand out the input in order, whatever the backend and
    however it buffers: with [c] bytes of the in-memory input [data]
    handed out, a read of [len] bytes, [len] no more than the input is
    long, returns exactly the bytes [data[c .. c+len)] and moves
    [total_read] to [c + len]; when fewer than [len] bytes are left it
    fails with a DecoderException positioned at the end of the input. *)
Theorem reads_hand_out_the_input_in_order (p : _bjdata_decoder_prefs_t)
  (data : list byte) (len : Z) (s : string) (w : @world BytesIO.host) :
  0 <= len <= Zlength' data -> over_data p data (buf w) ->
  let c := total_read (buf w) in
  let r := READ_OR_BAIL len s w in
  over_data p data (buf (snd r))
  /\ if c + len <=? Zlength' data
     then fst r = Ret (slice data c len)
          /\ total_read (buf (snd r)) = c + len /\ exc (snd r) = exc w
     else fst r = Null /\ total_read (buf (snd r)) = Zlength' data
          /\ exists msg,
               exc (snd r) = Some (DecoderException msg (Zlength' data)).
Proof.
  intros [Hlen _] Hw c r.
  destruct (@ACTION_READ_over_data p data len false s w Hlen Hw) as (Hok & Hout).
  subst r. unfold READ_OR_BAIL, bind.
  destruct (ACTION_READ len false s w) as [res w'].
  cbn [fst snd] in Hok, Hout. fold c in Hout. unfold read_outcome in Hout.
  destruct (len =? 0) eqn:Hz; bool_to_Z.
  - injection Hout as -> Htr Hexc. pose proof Hw as (_ & Hc & _). fold c in Hc.
    replace (c + len <=? Zlength' data) with true
      by (symmetry; apply Z.leb_le; lia).
    subst len. cbn [ret fst snd chunk_bytes].
    split; [exact Hok|]. split; [reflexivity|]. split; [lia|exact Hexc].
  - destruct (c + len <=? Zlength' data) eqn:Hfit;
      injection Hout as -> Htr Hexc.
    + cbn [ret fst snd chunk_bytes].
      split; [exact Hok|]. split; [|split; assumption].
      f_equal. unfold slice. rewrite firstn_firstn. f_equal. lia.
    + cbn [fst snd]. split; [exact Hok|]. split; [reflexivity|].
      split; [exact Htr|]. eexists. exact Hexc.
Qed.


End BackendsAgree.

Lemma reads_hand_out_the_input_in_order_witness :
  READ_OR_BAIL 2 "int16" (BytesIO.seekable BytesIO.prefs0 BytesIO.three_bytes)
  = (Ret (slice BytesIO.three_bytes 0 2),
     snd (READ_OR_BAIL 2 "int16"
            (BytesIO.seekable BytesIO.prefs0 BytesIO.three_bytes)))
  /\ total_read
       (buf (snd (READ_OR_BAIL 2 "int16"
                    (BytesIO.seekable BytesIO.prefs0 BytesIO.three_bytes))))
     = 2.
Proof.
  pose proof (@reads_hand_out_the_input_in_order BytesIO.prefs0
                BytesIO.three_bytes 2 "int16"
                (BytesIO.seekable BytesIO.prefs0 BytesIO.three_bytes)
                ltac:(vm_compute; split; discriminate)
                ltac:(unfold over_data; cbn; repeat split;
                      try reflexivity; lia)) as H.
  cbv zeta in H. destruct H as (_ & H).
  change (total_read (buf (BytesIO.seekable BytesIO.prefs0 BytesIO.three_bytes))
          + 2 <=? Zlength' BytesIO.three_bytes) with true in H.
  destruct H as (Hr & Ht & _).
  split; [|exact Ht].
  destruct (READ_OR_BAIL 2 "int16"
              (BytesIO.seekable BytesIO.prefs0 BytesIO.three_bytes)) as [r w'].
  cbn [fst snd] in *. rewrite Hr. reflexivity.
Defined.


(** ** Inputs without a dimension vector

    The N-D branch of [_get_container_params] is entered on the count
    marker ['#'] followed by ['[']: two bytes read one after the other.
    Over bytes in which ['#'] is nowhere followed by ['['] the branch is
    dead, whatever else the input holds: the header is read as it is
    without the N-D out-parameters. *)

Lemma no_dimension_vector_at (data : list byte) :
  forall c : nat,
    no_dimension_vector data = true ->
    nth_error data c = Some CONTAINER_COUNT ->
    nth_error data (S c) = Some ARRAY_START ->
    False.
Proof.
  induction data as [|a rest IH]; intros c Hno Ha Hb.
  - destruct c; discriminate Ha.
  - cbn [no_dimension_vector] in Hno. apply andb_true_iff in Hno.
    destruct Hno as [Hhere Hrest].
    destruct c as [|c].
    + cbn in Ha, Hb. inversion Ha; subst a.
      destruct rest as [|b rest']; [discriminate Hb|].
      cbn in Hb. inversion Hb; subst b.
      vm_compute in Hhere. discriminate Hhere.
    + cbn in Ha, Hb. exact (IH c Hrest Ha Hb).
Qed.

Lemma slice_one_nth (data : list byte) (c : Z) (m : byte) :
  0 <= c -> slice data c 1 = [m] -> nth_error data (Z.to_nat c) = Some m.
Proof.
  intros Hc H. unfold slice in H. change (Z.to_nat 1) with 1%nat in H.
  rewrite <- (firstn_skipn (Z.to_nat c) data) at 1.
  assert (Hlen : (List.length (firstn (Z.to_nat c) data) = Z.to_nat c)%nat).
  { rewrite length_firstn. apply Nat.min_l.
    destruct (Nat.le_gt_cases (Z.to_nat c) (List.length data)) as [Hle|Hgt];
      [exact Hle|].
    rewrite skipn_all2 in H by lia. discriminate H. }
  rewrite nth_error_app2 by lia. rewrite Hlen, Nat.sub_diag.
  destruct (skipn (Z.to_nat c) data) as [|x rest]; [discriminate H|].
  cbn in H. inversion H. reflexivity.
Qed.

Section DeadBranch.
Context `{Host : PyHost}.
Variable data : list byte.

(** [at_byte c w]: the decoder in [w] reads [data] and has handed out its
    first [c] bytes. *)
Variable at_byte : Z -> world -> Prop.

Hypothesis read_char :
  forall (c : Z) (w w' : world) (s : string) (m : byte),
    at_byte c w -> READ_CHAR_OR_BAIL s w = (Ret m, w') ->
    0 <= c /\ slice data c 1 = [m] /\ at_byte (c + 1) w'.

Hypothesis Hno : no_dimension_vector data = true.

(** The marker [header_type] ends on is the byte read last. *)
Lemma header_type_last_byte (c : Z) (w w' : world) (q : _container_params_t)
  (m : byte) :
  at_byte c w -> header_type w = (GRet (q, m), w') ->
  exists c', 0 <= c' /\ slice data c' 1 = [m] /\ at_byte (c' + 1) w'.
Proof.
  intros Hw H. unfold header_type in H.
  apply gbind_inv in H. destruct H as (m1 & w1 & H1 & H).
  apply or_bail_inv in H1.
  destruct (read_char _ Hw H1) as (Hc & Hs1 & Hw1).
  destruct (byte_eqb CONTAINER_TYPE m1).
  - apply gbind_inv in H. destruct H as (m2 & w2 & H2 & H).
    apply or_bail_inv in H2.
    destruct (read_char _ Hw1 H2) as (Hc2 & Hs2 & Hw2).
    destruct (is_container_type m2).
    + apply gbind_inv in H. destruct H as (m3 & w3 & H3 & H).
      apply or_bail_inv in H3.
      destruct (read_char _ Hw2 H3) as (Hc3 & Hs3 & Hw3).
      unfold gret in H. inversion H; subst. eauto.
    + apply gbind_inv in H. destruct H as (u & w3 & H3 & _).
      apply or_bail_inv in H3. discriminate H3.
  - unfold gret in H. inversion H; subst. eauto.
Qed.

(** After ['#'] the next byte is no ['[']: the count is read as a plain
    length, with or without the N-D out-parameters. *)
Lemma header_count_flat (self : M _container_params_t) (fuel : nat)
  (q : _container_params_t) (c : Z) (w : world) :
  0 <= c -> slice data c 1 = [CONTAINER_COUNT] -> at_byte (c + 1) w ->
  header_count self fuel true q w = header_count self fuel false q w.
Proof.
  intros Hc Hs Hw. unfold header_count. unfold gbind.
  destruct (or_bail (set_counting true q)
              (READ_CHAR_OR_BAIL
                 "container count marker or optimized ND-array dimension array marker")
              w) as [[m| |] w1] eqn:Hread; try reflexivity.
  apply or_bail_inv in Hread.
  destruct (read_char _ Hw Hread) as (Hc1 & Hs1 & _).
  assert (Hm : byte_eqb ARRAY_START m = false).
  { destruct (byte_eqb ARRAY_START m) eqn:E; [|reflexivity].
    apply byte_eqb_eq in E. subst m. exfalso.
    apply slice_one_nth in Hs; [|exact Hc].
    apply slice_one_nth in Hs1; [|exact Hc1].
    replace (Z.to_nat (c + 1)) with (S (Z.to_nat c)) in Hs1 by lia.
    exact (@no_dimension_vector_at data _ Hno Hs Hs1). }
  rewrite Hm. reflexivity.
Qed.

Lemma gbind_same_after {A B} (m : G A) (k k' : A -> G B) (w : world) :
  (forall a w1, m w = (GRet a, w1) -> k a w1 = k' a w1) ->
  gbind m k w = gbind m k' w.
Proof.
  intros H. unfold gbind. destruct (m w) as [[a| |] w1]; auto.
Qed.

Lemma gbind_same_first {A B} (m m' : G A) (k : A -> G B) (w : world) :
  m w = m' w -> gbind m k w = gbind m' k w.
Proof. intros H. unfold gbind. rewrite H. reflexivity. Qed.

Lemma get_container_params_body_flat (self : M _container_params_t)
  (fuel : nat) (im : bool) (c : Z) (w : world) :
  at_byte c w ->
  get_container_params_body self fuel im true w
  = get_container_params_body self fuel im false w.
Proof.
  intros Hw. unfold get_container_params_body.
  apply gbind_same_after. intros [q m] w1 Hty.
  destruct (header_type_last_byte Hw Hty) as (c' & Hc' & Hs & Hw1).
  destruct (byte_eqb CONTAINER_COUNT m) eqn:Hm; [|reflexivity].
  apply byte_eqb_eq in Hm. subst m.
  apply gbind_same_first.
  exact (header_count_flat self fuel q Hc' Hs Hw1).
Qed.

Lemma _get_container_params_without_dimension_vector (fuel : nat)
  (im : bool) (c : Z) (w : world) :
  at_byte c w ->
  _get_container_params fuel im true w = _get_container_params fuel im false w.
Proof.
  intros Hw. unfold _get_container_params, run_G.
  rewrite (get_container_params_body_flat _ fuel im Hw). reflexivity.
Qed.

End DeadBranch.

(** Over in-memory bytes, whatever the backend. *)
Lemma dimension_vector_is_never_read (p : _bjdata_decoder_prefs_t)
  (data : list byte) (fuel : nat) (im : bool) (w : @world BytesIO.host) :
  over_data p data (buf w) ->
  no_dimension_vector data = true ->
  _get_container_params fuel im true w = _get_container_params fuel im false w.
Proof.
  intros Hw Hno.
  apply (@_get_container_params_without_dimension_vector BytesIO.host data
           (fun c w => over_data p data (buf w) /\ total_read (buf w) = c))
    with (c := total_read (buf w)); [|exact Hno|split; [exact Hw|reflexivity]].
  clear. intros c w w' s m [Hw Hc] H.
  unfold READ_CHAR_OR_BAIL, READ_OR_BAIL in H.
  apply bind_inv in H. destruct H as (raw & w1 & H & Hr).
  apply bind_inv in H. destruct H as (ptr & w2 & H & Hp).
  unfold ret in Hr, Hp. inversion Hr; subst. inversion Hp; subst. clear Hr Hp.
  destruct (@ACTION_READ_over_data p data 1 false s w ltac:(lia) Hw)
    as (Hok & Hout).
  rewrite H in Hok, Hout. cbn [fst snd] in Hok, Hout.
  unfold read_outcome in Hout. change (1 =? 0) with false in Hout.
  pose proof Hw as (_ & Hrange & _).
  destruct (total_read (buf w) + 1 <=? Zlength' data) eqn:Hfit;
    [|discriminate Hout].
  bool_to_Z. injection Hout as Hptr Htr _. subst ptr.
  split; [lia|]. split; [|split; [exact Hok|exact Htr]].
  cbn [chunk_bytes]. change (Z.to_nat 1) with 1%nat.
  assert (Hlen : Zlength' (slice data (total_read (buf w)) 1) = 1)
    by (apply slice_length; lia).
  destruct (slice data (total_read (buf w)) 1) as [|x [|y rest]];
    [discriminate Hlen|reflexivity|].
  unfold Zlength' in Hlen. simpl in Hlen. lia.
Qed.

(** The same from a fixed buffer, whatever the host. *)
Lemma dimension_vector_is_never_read_fixed `{Host : PyHost}
  (p : _bjdata_decoder_prefs_t) (data : list byte) (c : Z) (e : option pyerr)
  (fuel : nat) (im : bool) :
  0 <= c <= Zlength' data ->
  no_dimension_vector data = true ->
  _get_container_params fuel im true (fixed_world p data c e)
  = _get_container_params fuel im false (fixed_world p data c e).
Proof.
  intros Hc Hno.
  apply (@_get_container_params_without_dimension_vector Host data
           (fun c w => 0 <= c <= Zlength' data
                       /\ exists e0, w = fixed_world p data c e0))
    with (c := c); [|exact Hno|split; [exact Hc|exists e; reflexivity]].
  clear -p. intros c0 w w' s m [Hc0 [e0 ->]] H.
  destruct (Z.ltb_spec c0 (Zlength' data)) as [Hlt|Hge].
  - rewrite READ_CHAR_OR_BAIL_fixed_world in H by lia.
    inversion H; subst. split; [lia|]. split.
    + unfold slice. change (Z.to_nat 1) with 1%nat.
      assert (Hn : (Z.to_nat c0 < List.length data)%nat)
        by (unfold Zlength' in Hlt; lia).
      clear -Hn. revert Hn. generalize (Z.to_nat c0) as n.
      induction data as [|a rest IH]; intros n Hn; [simpl in Hn; lia|].
      destruct n as [|n]; [reflexivity|].
      cbn [skipn nth]. apply IH. simpl in Hn. lia.
    + split; [lia|]. exists e0. reflexivity.
  - exfalso. unfold READ_CHAR_OR_BAIL, READ_OR_BAIL, bind, ACTION_READ,
             READ_VIA_FUNC in H.
    cbn [fixed_world buf read_func] in H.
    unfold _decoder_buffer_read_fixed in H.
    cbn [buf total_read view fixed_world] in H. unfold view_len in H.
    cbn [view] in H. change (1 =? 0) with false in H. cbv iota in H.
    replace (c0 <? Zlength' data) with false in H
      by (symmetry; apply Z.ltb_ge; lia).
    cbn in H. discriminate H.
Qed.

(** ** The decoder ends

    Every turn of a loop that the model gives fuel to takes at least one
    byte of the input, so over in-memory bytes the fuel never runs out
    once there is more of it than bytes left. *)

Section TypedHeaders.
Context `{Host : PyHost}.

Lemma container_type_not_noop (t : byte) :
  is_container_type t = true -> byte_eqb TYPE_NOOP t = false.
Proof. destruct t; try reflexivity; discriminate. Qed.

(** The marker a typed array header hands to the loop is the type. *)
Lemma typed_array_marker (fuel : nat) (nd : bool) (w w' : world)
  (q : _container_params_t) (nds : Z * list Z) :
  _get_container_params fuel false nd w = (Ret (q, nds), w') ->
  invalid q = false ->
  byte_eqb TYPE_NONE (type q) = false ->
  marker q = type q /\ byte_eqb TYPE_NOOP (type q) = false.
Proof.
  unfold _get_container_params, run_G. intros Hrun Hinv Htyped.
  destruct (get_container_params_body _ fuel false nd w)
    as [[[q0 nds0]| q0|] w0] eqn:Hb; try discriminate.
  2:{ injection Hrun as -> _ _.
      rewrite (@bails_body _ _ fuel false nd _ _ _ Hb) in Hinv. discriminate. }
  injection Hrun as -> -> ->.
  unfold get_container_params_body in Hb.
  apply gbind_inv in Hb. destruct Hb as ([p0 m0] & w1 & Hh & Hb).
  pose proof Hh as Hty. apply header_type_result in Hty.
  destruct Hty as (_ & _ & Hty).
  destruct (byte_eqb CONTAINER_COUNT m0).
  - apply gbind_inv in Hb. destruct Hb as ([[p1 m1] n1] & w2 & Hc & Hb).
    apply gbind_inv in Hb. destruct Hb as (m2 & w3 & Hp & Hb).
    unfold gret in Hb. injection Hb as <- <- <-.
    pose proof Hc as Hfits. apply header_count_fits in Hfits.
    destruct Hfits as (_ & _ & Ht1 & _).
    cbn [type set_invalid set_marker marker] in *.
    apply header_prefetch_inv in Hp. rewrite Htyped in Hp.
    rewrite andb_false_r in Hp. destruct Hp as (-> & _).
    split; [reflexivity|].
    rewrite Ht1 in *. destruct Hty as [Hnone|Hct].
    + rewrite Hnone in Htyped. discriminate.
    + apply container_type_not_noop. exact Hct.
  - destruct (byte_eqb TYPE_NONE (type p0)) eqn:Hn.
    + unfold gret in Hb. injection Hb as <- <- <-.
      cbn [type set_invalid set_marker set_counting set_count] in Htyped.
      rewrite Hn in Htyped. discriminate.
    + apply gbind_inv in Hb. destruct Hb as (u & w3 & Hb & _).
      apply or_bail_inv in Hb. discriminate.
Qed.

End TypedHeaders.

Section Progress.
Import BytesIO.
Variable p : _bjdata_decoder_prefs_t.
Variable data : list byte.

Lemma progress_vacuous {A} (F k : Z) (m : M A) :
  F <= 0 -> progress p data F k m.
Proof.
  intros HF w (_ & Hc & _) Hrem. lia.
Qed.

Lemma progress_weaken {A} (F F' k k' : Z) (m : M A) :
  progress p data F k m -> F' <= F -> k' <= k -> progress p data F' k' m.
Proof.
  intros Hm HF Hk w Hw Hrem.
  destruct (Hm w Hw ltac:(lia)) as (Hok & Hr). split; [exact Hok|].
  destruct (fst (m w)); try assumption. lia.
Qed.

Lemma progress_read (F k len : Z) (dst : bool) (s : string) :
  0 <= len -> k <= len -> progress p data F k (ACTION_READ len dst s).
Proof.
  intros Hlen Hk w Hw _.
  destruct (@ACTION_READ_over_data p data len dst s w Hlen Hw) as (Hok & Hout).
  split; [exact Hok|]. pose proof Hw as (_ & Hc & _).
  unfold read_outcome in Hout.
  destruct (len =? 0) eqn:Hz; bool_to_Z.
  - injection Hout as -> -> _. lia.
  - destruct (total_read (buf w) + len <=? Zlength' data);
      injection Hout as -> -> _; lia.
Qed.

Lemma progress_ret {A} (F k : Z) (a : A) : k <= 0 -> progress p data F k (ret a).
Proof. intros Hk w Hw _. split; [exact Hw|]. cbn [ret fst snd]. lia. Qed.

Lemma progress_bail {A} (F k : Z) : progress p data F k (@bail _ A).
Proof. intros w Hw _. split; [exact Hw|]. cbn [bail fst snd]. lia. Qed.

Lemma progress_raise {A} (F k : Z) (e : pyerr) :
  progress p data F k (@raise _ A e).
Proof. intros w Hw _. split; [exact Hw|]. cbn [raise fst snd set_exc buf]. lia. Qed.

Lemma progress_RAISE {A} (F k : Z) (msg : string) :
  progress p data F k (@RAISE_DECODER_EXCEPTION _ A msg).
Proof.
  intros w Hw _. split; [exact Hw|].
  cbn [RAISE_DECODER_EXCEPTION fst snd set_exc buf]. lia.
Qed.

Lemma progress_get_prefs (F k : Z) : k <= 0 -> progress p data F k get_prefs.
Proof. intros Hk w Hw _. split; [exact Hw|]. cbn [get_prefs fst snd]. lia. Qed.

(** The first part takes [k1] bytes, so the rest starts with that many
    fewer left. *)
Lemma progress_bind {A B} (k1 F k : Z) (m : M A) (c : A -> M B) :
  0 <= k1 ->
  progress p data F k1 m ->
  (forall w a w', m w = (Ret a, w') -> progress p data (F - k1) (k - k1) (c a)) ->
  progress p data F k (bind m c).
Proof.
  intros Hk1 Hm Hc w Hw Hrem. unfold bind.
  destruct (Hm w Hw Hrem) as (Hok & Hr).
  destruct (m w) as [[a| |] w1] eqn:Hmw; cbn [fst snd] in *;
    try (split; [exact Hok|]; assumption).
  destruct (Hc _ _ _ Hmw w1 Hok ltac:(lia)) as (Hok' & Hr').
  split; [exact Hok'|].
  destruct (fst (c a w1)); try assumption; lia.
Qed.

Lemma progress_bind_any {A B} (k1 F k : Z) (m : M A) (c : A -> M B) :
  0 <= k1 ->
  progress p data F k1 m ->
  (forall a, progress p data (F - k1) (k - k1) (c a)) ->
  progress p data F k (bind m c).
Proof. intros Hk1 Hm Hc. apply progress_bind with (k1 := k1); auto. Qed.

Lemma progress_READ_OR_BAIL (F k len : Z) (s : string) :
  0 <= len -> k <= len -> progress p data F k (READ_OR_BAIL len s).
Proof.
  intros Hlen Hk. unfold READ_OR_BAIL.
  apply progress_bind_any with (k1 := len); [exact Hlen| |].
  - apply progress_read; lia.
  - intros ptr. apply progress_ret. lia.
Qed.

Lemma progress_READ_INTO_OR_BAIL (F k len : Z) (s : string) :
  0 <= len -> k <= len -> progress p data F k (READ_INTO_OR_BAIL len s).
Proof.
  intros Hlen Hk. unfold READ_INTO_OR_BAIL.
  apply progress_bind_any with (k1 := len); [exact Hlen| |].
  - apply progress_read; lia.
  - intros ptr. apply progress_ret. lia.
Qed.

Lemma progress_READ_CHAR_OR_BAIL (F k : Z) (s : string) :
  k <= 1 -> progress p data F k (READ_CHAR_OR_BAIL s).
Proof.
  intros Hk. unfold READ_CHAR_OR_BAIL.
  apply progress_bind_any with (k1 := 1); [lia| |].
  - apply progress_READ_OR_BAIL; lia.
  - intros tmp. apply progress_ret. lia.
Qed.

(** Steps of a proof that a computation built from reads ends:
    [step1] when the first part takes a byte, [step0] when it may take
    none. *)
Ltac leaf :=
  first [ apply progress_ret; lia
        | apply progress_bail
        | apply progress_raise
        | apply progress_RAISE
        | apply progress_get_prefs; lia
        | apply progress_READ_CHAR_OR_BAIL; lia ].

Ltac branch :=
  match goal with
  | |- progress _ _ _ _ (if ?c then _ else _) => destruct c
  | |- progress _ _ _ _ (match ?x with _ => _ end) => destruct x
  end.

Ltac branches := repeat branch.

Ltac step0 := apply progress_bind_any with (k1 := 0); [lia| |intros ?].
Ltac step1 := apply progress_bind_any with (k1 := 1); [lia| |intros ?].

Ltac finish := repeat first [ leaf | step0; [leaf|] | branch ].

Lemma progress__decode_int8 (F k : Z) :
  k <= 1 -> progress p data F k _decode_int8.
Proof. intros Hk. unfold _decode_int8. step1; [leaf|]. finish. Qed.

Lemma progress__decode_uint8 (F k : Z) :
  k <= 1 -> progress p data F k _decode_uint8.
Proof. intros Hk. unfold _decode_uint8. step1; [leaf|]. finish. Qed.

Lemma progress__decode_uint16_32 (F k size : Z) :
  1 <= size -> k <= 1 -> progress p data F k (_decode_uint16_32 size).
Proof.
  intros Hs Hk. unfold _decode_uint16_32.
  step1; [apply progress_READ_OR_BAIL; lia|]. finish.
Qed.

Lemma progress__decode_int16_32 (F k size : Z) :
  1 <= size -> k <= 1 -> progress p data F k (_decode_int16_32 size).
Proof.
  intros Hs Hk. unfold _decode_int16_32.
  step1; [apply progress_READ_OR_BAIL; lia|]. finish.
Qed.

Lemma progress__decode_uint64 (F k : Z) :
  k <= 1 -> progress p data F k _decode_uint64.
Proof.
  intros Hk. unfold _decode_uint64.
  step1; [apply progress_READ_OR_BAIL; lia|]. finish.
Qed.

Lemma progress__decode_int64 (F k : Z) :
  k <= 1 -> progress p data F k _decode_int64.
Proof.
  intros Hk. unfold _decode_int64.
  step1; [apply progress_READ_OR_BAIL; lia|]. finish.
Qed.

Lemma progress__decode_int_switch (F k : Z) (m : byte) :
  k <= 1 -> progress p data F k (_decode_int_switch m).
Proof.
  intros Hk. unfold _decode_int_switch. branches;
    first [ apply progress__decode_uint8; lia
          | apply progress__decode_int8; lia
          | apply progress__decode_uint16_32; lia
          | apply progress__decode_int16_32; lia
          | apply progress__decode_uint64; lia
          | apply progress__decode_int64; lia
          | apply progress_RAISE ].
Qed.

Lemma progress__decode_int_non_negative (F k : Z) (gm : option byte) :
  k <= 1 -> progress p data F k (_decode_int_non_negative gm).
Proof.
  intros Hk. unfold _decode_int_non_negative.
  apply progress_bind_any with (k1 := 0); [lia|destruct gm; leaf|].
  intros m.
  apply progress_bind_any with (k1 := 1);
    [lia|apply progress__decode_int_switch; lia|].
  intros o w Hw _. unfold PyLong_AsLongLong, PyErr_Occurred.
  destruct o;
    try (cbn [fst snd set_exc exc bail buf]; split; [exact Hw|]; lia).
  destruct ((- LLONG_MAX - 1 <=? v) && (v <=? LLONG_MAX)).
  - destruct (exc w).
    + cbn [fst snd bail]. split; [exact Hw|]. lia.
    + destruct (v <? 0);
        cbn [fst snd RAISE_DECODER_EXCEPTION ret set_exc buf];
        (split; [exact Hw|]); lia.
  - cbn [fst snd set_exc exc bail buf]. split; [exact Hw|]. lia.
Qed.

Lemma progress_DECODE_UNICODE_OR_BAIL (F k : Z) (raw : list byte) (s : string) :
  k <= 0 -> progress p data F k (DECODE_UNICODE_OR_BAIL raw s).
Proof. intros Hk. unfold DECODE_UNICODE_OR_BAIL. finish. Qed.

Lemma progress__decode_float (F k width : Z) (s : string) :
  1 <= width -> k <= 1 -> progress p data F k (_decode_float width s).
Proof.
  intros Hw Hk. unfold _decode_float.
  apply progress_bind_any with (k1 := 1);
    [lia|apply progress_READ_OR_BAIL; lia|].
  intros raw.
  apply progress_bind_any with (k1 := 0); [lia|leaf|].
  intros q w Hok _.
  destruct ((_pyfuncs_ubj_PyFloat_Unpack raw (islittle q) =? minus_one_bits width)
            && PyErr_Occurred w);
    cbn [fst snd bail ret]; (split; [exact Hok|]); lia.
Qed.

Lemma progress__decode_high_prec (F k : Z) :
  k <= 1 -> progress p data F k _decode_high_prec.
Proof.
  intros Hk. unfold _decode_high_prec, DECODE_LENGTH_OR_BAIL.
  apply progress_bind with (k1 := 1);
    [lia|apply progress__decode_int_non_negative; lia|].
  intros w length w' Hlen. apply _decode_int_non_negative_range in Hlen.
  step0; [apply progress_READ_OR_BAIL; lia|].
  step0; [apply progress_DECODE_UNICODE_OR_BAIL; lia|]. finish.
Qed.

Lemma progress__decode_char (F k : Z) :
  k <= 1 -> progress p data F k _decode_char.
Proof.
  intros Hk. unfold _decode_char. step1; [leaf|].
  apply progress_DECODE_UNICODE_OR_BAIL. lia.
Qed.

Lemma progress__decode_string (F k : Z) :
  k <= 1 -> progress p data F k _decode_string.
Proof.
  intros Hk. unfold _decode_string, DECODE_LENGTH_OR_BAIL.
  apply progress_bind with (k1 := 1);
    [lia|apply progress__decode_int_non_negative; lia|].
  intros w length w' Hlen. apply _decode_int_non_negative_range in Hlen.
  destruct (length >? 0); [|leaf].
  step0; [apply progress_READ_OR_BAIL; lia|].
  apply progress_DECODE_UNICODE_OR_BAIL. lia.
Qed.

Lemma progress__decode_object_key (F k : Z) (m : byte) (intern : bool) :
  k <= 1 -> progress p data F k (_decode_object_key m intern).
Proof.
  intros Hk. unfold _decode_object_key, DECODE_LENGTH_OR_BAIL_MARKER.
  apply progress_bind with (k1 := 1);
    [lia|apply progress__decode_int_non_negative; lia|].
  intros w length w' Hlen. apply _decode_int_non_negative_range in Hlen.
  step0; [apply progress_READ_OR_BAIL; lia|]. finish.
Qed.

Lemma progress_DECODE_OBJECT_KEY (F k : Z) (m : byte) (ctx : string)
  (intern : bool) :
  k <= 1 ->
  progress p data F k (DECODE_OBJECT_KEY_OR_RAISE_ENCODER_EXCEPTION m ctx intern).
Proof.
  intros Hk w Hw Hrem. unfold DECODE_OBJECT_KEY_OR_RAISE_ENCODER_EXCEPTION.
  destruct (@progress__decode_object_key F k m intern Hk w Hw Hrem) as (Hok & Hr).
  destruct (_decode_object_key m intern w) as [[key| |] w1];
    cbn [fst snd RAISE_DECODER_EXCEPTION set_exc buf] in *;
    (split; [exact Hok|exact Hr]).
Qed.

(** *** Headers *)

Lemma gprogress_weaken {A} (F F' k k' : Z) (m : G A) :
  gprogress p data F k m -> F' <= F -> k' <= k -> gprogress p data F' k' m.
Proof.
  intros Hm HF Hk w Hw Hrem.
  destruct (Hm w Hw ltac:(lia)) as (Hok & Hr). split; [exact Hok|].
  destruct (fst (m w)); try assumption. lia.
Qed.

Lemma gprogress_vacuous {A} (F k : Z) (m : G A) :
  F <= 0 -> gprogress p data F k m.
Proof. intros HF w (_ & Hc & _) Hrem. lia. Qed.

Lemma gprogress_gret {A} (F k : Z) (a : A) :
  k <= 0 -> gprogress p data F k (gret a).
Proof. intros Hk w Hw _. split; [exact Hw|]. cbn [gret fst snd]. lia. Qed.

Lemma gprogress_gbind {A B} (k1 F k : Z) (m : G A) (c : A -> G B) :
  0 <= k1 ->
  gprogress p data F k1 m ->
  (forall a, gprogress p data (F - k1) (k - k1) (c a)) ->
  gprogress p data F k (gbind m c).
Proof.
  intros Hk1 Hm Hc w Hw Hrem. unfold gbind.
  destruct (Hm w Hw Hrem) as (Hok & Hr).
  destruct (m w) as [[a| q|] w1]; cbn [fst snd] in *;
    try (split; [exact Hok|]; assumption).
  destruct (Hc a w1 Hok ltac:(lia)) as (Hok' & Hr').
  split; [exact Hok'|].
  destruct (fst (c a w1)); try assumption; lia.
Qed.

Lemma gprogress_or_bail {A} (F k : Z) (q : _container_params_t) (m : M A) :
  progress p data F k m -> gprogress p data F k (or_bail q m).
Proof.
  intros Hm w Hw Hrem. unfold or_bail.
  destruct (Hm w Hw Hrem) as (Hok & Hr).
  destruct (m w) as [[a| |] w1]; cbn [fst snd] in *;
    (split; [exact Hok|exact Hr]).
Qed.

Ltac gleaf :=
  first [ apply gprogress_gret; lia
        | apply gprogress_or_bail; leaf ].

Ltac gbranch :=
  match goal with
  | |- gprogress _ _ _ _ (if ?c then _ else _) => destruct c
  | |- gprogress _ _ _ _ (match ?x with _ => _ end) => destruct x
  end.

Ltac gstep0 := apply gprogress_gbind with (k1 := 0); [lia| |intros ?].
Ltac gstep1 := apply gprogress_gbind with (k1 := 1); [lia| |intros ?].

Ltac gfinish := repeat first [ gleaf | gstep0; [gleaf|] | gbranch ].

Lemma gprogress_header_type (F k : Z) :
  k <= 1 -> gprogress p data F k header_type.
Proof. intros Hk. unfold header_type. gstep1; [gleaf|]. gfinish. Qed.

Lemma gprogress_nd_dims_counted (n : nat) :
  forall F k q t l,
    k <= 0 -> gprogress p data F k (nd_dims_counted q t n l).
Proof.
  induction n as [|n IH]; intros F k q t l Hk; cbn [nd_dims_counted].
  - gleaf.
  - gstep0.
    + apply gprogress_or_bail. unfold DECODE_LENGTH_OR_BAIL_MARKER.
      apply progress__decode_int_non_negative. lia.
    + apply IH. lia.
Qed.

Lemma gprogress_nd_dims_uncounted (fuel : nat) :
  forall F k q m l,
    F <= Z.of_nat fuel -> k <= 0 ->
    gprogress p data F k (nd_dims_uncounted fuel q m l).
Proof.
  induction fuel as [|fuel IH]; intros F k q m l HF Hk;
    cbn [nd_dims_uncounted]; destruct (byte_eqb ARRAY_END m); try gleaf.
  - apply gprogress_vacuous. lia.
  - gstep1.
    + apply gprogress_or_bail. unfold DECODE_LENGTH_OR_BAIL_MARKER.
      apply progress__decode_int_non_negative. lia.
    + gstep0; [gleaf|]. apply IH; lia.
Qed.

Lemma gprogress_header_count (self : M _container_params_t) (fuel : nat)
  (nd : bool) (q : _container_params_t) (F k : Z) :
  (forall F', progress p data F' 0 self) ->
  nd = false \/ F <= Z.of_nat fuel + 1 -> k <= 1 ->
  gprogress p data F k (header_count self fuel nd q).
Proof.
  intros Hself HF Hk. unfold header_count.
  apply gprogress_gbind with (k1 := 1); [lia|gleaf|]. intros m.
  destruct (byte_eqb ARRAY_START m && nd) eqn:Hnd.
  - destruct HF as [->|HF]; [rewrite andb_false_r in Hnd; discriminate|].
    apply gprogress_gbind with (k1 := 0);
      [lia|apply gprogress_or_bail; apply Hself|].
    intros dims. cbv zeta.
    destruct (counting dims).
    + apply gprogress_gbind with (k1 := 0);
        [lia|apply gprogress_nd_dims_counted; lia|].
      intros [q1 l1]. gleaf.
    + apply gprogress_gbind with (k1 := 0);
        [lia|apply gprogress_nd_dims_uncounted; lia|].
      intros [[q1 m1] l1]. gleaf.
  - intros w Hw Hrem. unfold DECODE_LENGTH_OR_BAIL_MARKER.
    destruct (@progress__decode_int_non_negative (F - 1) 0 (Some m)
                ltac:(lia) w Hw Hrem) as (Hok & Hr).
    destruct (_decode_int_non_negative (Some m) w) as [[n| |] w1];
      cbn [fst snd] in *; (split; [exact Hok|]); try assumption; lia.
Qed.

Lemma gprogress_body (self : M _container_params_t) (fuel : nat) (im nd : bool)
  (F k : Z) :
  (forall F', progress p data F' 0 self) ->
  nd = false \/ F <= Z.of_nat fuel + 1 -> k <= 1 ->
  gprogress p data F k (get_container_params_body self fuel im nd).
Proof.
  intros Hself HF Hk. unfold get_container_params_body.
  apply gprogress_gbind with (k1 := 1);
    [lia|apply gprogress_header_type; lia|].
  intros [q m].
  destruct (byte_eqb CONTAINER_COUNT m).
  - apply gprogress_gbind with (k1 := 0); [lia| |].
    + apply gprogress_header_count; try assumption; [|lia].
      destruct HF as [->|HF]; [left; reflexivity|right; lia].
    + intros [[q1 m1] nds].
      apply gprogress_gbind with (k1 := 0);
        [lia|unfold header_prefetch; gfinish|].
      intros m2. gleaf.
  - gfinish.
Qed.

(** A header that is not flagged invalid took at least one byte. *)
Lemma hprogress_run_body (self : M _container_params_t) (fuel : nat)
  (im nd : bool) (F : Z) :
  (forall F', progress p data F' 0 self) ->
  nd = false \/ F <= Z.of_nat fuel + 1 ->
  hprogress p data F fst
    (run_G (get_container_params_body self fuel im nd) (0, [])).
Proof.
  intros Hself HF w Hw Hrem. unfold run_G.
  destruct (@gprogress_body self fuel im nd F 1 Hself HF ltac:(lia) w Hw Hrem)
    as (Hok & Hr).
  destruct (get_container_params_body self fuel im nd w) as [[[q nds]| q|] w1]
    eqn:Hb; cbn [fst snd] in *; (split; [exact Hok|]).
  - rewrite (body_valid _ _ _ _ _ Hb). exact Hr.
  - rewrite (@bails_body _ self fuel im nd _ _ _ Hb). lia.
  - exact Hr.
Qed.

Lemma progress_of_hprogress {A} (F : Z)
  (params_of : A -> _container_params_t) (m : M A) :
  hprogress p data F params_of m -> progress p data F 0 m.
Proof.
  intros Hm w Hw Hrem. destruct (Hm w Hw Hrem) as (Hok & Hr).
  split; [exact Hok|].
  destruct (fst (m w)) as [a| |]; try assumption.
  destruct (invalid (params_of a)); lia.
Qed.

Lemma hprogress__get_container_params_flat (F : Z) (im : bool) :
  hprogress p data F (fun q => q) (_get_container_params_flat im).
Proof.
  intros w Hw Hrem. unfold _get_container_params_flat, bind.
  destruct (@hprogress_run_body bail O im false F
              (fun F' => @progress_bail _ F' 0) (or_introl eq_refl) w Hw Hrem)
    as (Hok & Hr).
  destruct (run_G _ _ w) as [[[q nds]| |] w1]; cbn [fst snd ret] in *;
    (split; [exact Hok|exact Hr]).
Qed.

Lemma hprogress__get_container_params (fuel : nat) (im nd : bool) (F : Z) :
  nd = false \/ F <= Z.of_nat fuel + 1 ->
  hprogress p data F fst (_get_container_params fuel im nd).
Proof.
  intros HF. unfold _get_container_params. apply hprogress_run_body.
  - intros F'. eapply progress_of_hprogress.
    apply hprogress__get_container_params_flat.
  - exact HF.
Qed.

(** What follows a header starts with a byte fewer left; an invalid
    header is followed by nothing. *)
Lemma progress_after_header {A B} (F k : Z)
  (params_of : A -> _container_params_t) (m : M A) (c : A -> M B) :
  hprogress p data F params_of m ->
  (forall a, invalid (params_of a) = true -> forall w, c a w = (Null, w)) ->
  (forall w a w', m w = (Ret a, w') -> invalid (params_of a) = false ->
                  progress p data (F - 1) (k - 1) (c a)) ->
  progress p data F k (bind m c).
Proof.
  intros Hm Hbad Hgood w Hw Hrem. unfold bind.
  destruct (Hm w Hw Hrem) as (Hok & Hr).
  destruct (m w) as [[a| |] w1] eqn:Hmw; cbn [fst snd] in *;
    try (split; [exact Hok|]; assumption).
  destruct (invalid (params_of a)) eqn:Hinv.
  - rewrite (Hbad a Hinv). cbn [fst snd]. split; [exact Hok|]. lia.
  - destruct (Hgood _ _ _ Hmw Hinv w1 Hok ltac:(lia)) as (Hok' & Hr').
    split; [exact Hok'|].
    destruct (fst (c a w1)); try assumption; lia.
Qed.

(** *** Arrays, objects and values *)

Lemma progress__no_data_type (F k : Z) (t : byte) :
  k <= 0 -> progress p data F k (_no_data_type t).
Proof. intros Hk. unfold _no_data_type. finish. Qed.

Lemma progress_call_hook (F k : Z) (h : hook) (arg : PyObject) :
  k <= 0 -> progress p data F k (call_hook h arg).
Proof. intros Hk. unfold call_hook. finish. Qed.

Lemma progress_PyList_New (F k : Z) (n : Z) :
  k <= 0 -> progress p data F k (PyList_New n).
Proof. intros Hk. unfold PyList_New. finish. Qed.

Section WithValues.
Variable decode_value : option byte -> M PyObject.
Variable F0 : Z.
Hypothesis progress_decode_value :
  forall F k gm, F <= F0 -> k <= (if takes_input gm then 1 else 0) ->
                 progress p data F k (decode_value gm).

Lemma progress_value0 (F k : Z) (gm : option byte) :
  F <= F0 -> k <= 0 -> progress p data F k (decode_value gm).
Proof.
  intros HF Hk. apply progress_decode_value; [exact HF|].
  destruct (takes_input gm); lia.
Qed.

Lemma progress_read_packed_array (F k : Z) (ndims : Z) (dims : list Z)
  (t : byte) (n : Z) (s : string) :
  n = wrapped_product dims -> k <= 0 ->
  progress p data F k (read_packed_array ndims dims t n s).
Proof.
  intros Hn Hk. unfold read_packed_array.
  pose proof (BytesIO_numpy_sizes_sane ndims dims t) as Hsane.
  destruct (_get_type_info t) as [pytype bytelen]. cbn [fst snd] in Hsane.
  apply progress_bind_any with (k1 := 0); [lia| |].
  - (* setting the error indicator leaves the buffer as it is *)
    destruct pytype; apply progress_ret; lia.
  - intros _. apply progress_bind with (k1 := 0); [lia| |].
    + destruct (PyArray_SimpleNew_ok ndims dims pytype); leaf.
    + intros w u w' Hret.
      destruct (PyArray_SimpleNew_ok ndims dims pytype) eqn:Hok;
        [|discriminate Hret].
      apply progress_bind_any with (k1 := 0); [lia| |intros raw; leaf].
      subst n. specialize (Hsane eq_refl).
      apply progress_READ_INTO_OR_BAIL; lia.
Qed.

(** Every turn of the loop takes a byte, but for the last: untyped, the
    next marker is read; typed, the value is of a type that has data. *)
Lemma progress_array_loop_counted (fuel : nat) :
  forall F k t n m lst,
    F <= Z.of_nat fuel -> F <= F0 -> k <= 0 ->
    (byte_eqb TYPE_NONE t = false ->
     m = t /\ byte_eqb TYPE_NOOP t = false /\ _is_no_data_type t = false) ->
    progress p data F k (array_loop_counted decode_value fuel t n m lst).
Proof.
  induction fuel as [|fuel IH]; intros F k t n m lst HF HF0 Hk Ht;
    cbn [array_loop_counted]; destruct (n >? 0) eqn:Hn; try leaf.
  { apply progress_vacuous. lia. }
  destruct (byte_eqb TYPE_NOOP m) eqn:Hnoop.
  - destruct (byte_eqb TYPE_NONE t) eqn:Hnone.
    + apply progress_bind_any with (k1 := 1); [lia|leaf|]. intros m1.
      apply IH; try lia. intros Hc. congruence.
    + destruct (Ht eq_refl) as (-> & Hnn & _). congruence.
  - cbv zeta. destruct (byte_eqb TYPE_NONE t) eqn:Hnone.
    + apply progress_bind_any with (k1 := 0);
        [lia|apply progress_value0; lia|].
      intros v. rewrite andb_true_r.
      destruct (n - 1 >? 0) eqn:Hmore.
      * apply progress_bind_any with (k1 := 1); [lia|leaf|]. intros m1.
        apply IH; try lia. intros Hc. congruence.
      * destruct fuel; cbn [array_loop_counted]; rewrite Hmore; leaf.
    + destruct (Ht eq_refl) as (-> & Hnn & Hnd).
      apply progress_bind_any with (k1 := 1); [lia| |].
      * apply progress_decode_value; [lia|].
        cbn [takes_input]. rewrite Hnd. cbn [negb]. lia.
      * intros v. rewrite andb_false_r. apply IH; try lia. auto.
Qed.

Lemma progress_array_loop_uncounted (fuel : nat) :
  forall F k t m lst,
    F <= Z.of_nat fuel -> F <= F0 -> k <= 0 ->
    byte_eqb TYPE_NONE t = true ->
    progress p data F k (array_loop_uncounted decode_value fuel t m lst).
Proof.
  induction fuel as [|fuel IH]; intros F k t m lst HF HF0 Hk Ht;
    cbn [array_loop_uncounted]; destruct (byte_eqb ARRAY_END m); try leaf.
  { apply progress_vacuous. lia. }
  destruct (byte_eqb TYPE_NOOP m).
  - apply progress_bind_any with (k1 := 1); [lia|leaf|]. intros m1.
    apply IH; try lia. exact Ht.
  - apply progress_bind_any with (k1 := 0);
      [lia|apply progress_value0; lia|].
    intros v. cbv zeta. rewrite Ht.
    apply progress_bind_any with (k1 := 1); [lia|leaf|]. intros m1.
    apply IH; try lia. exact Ht.
Qed.

Lemma progress__decode_array (fuel : nat) (F k : Z) :
  F <= Z.of_nat fuel + 1 -> F <= F0 + 1 -> k <= 1 ->
  progress p data F k (_decode_array decode_value fuel).
Proof.
  intros HF HF0 Hk. unfold _decode_array.
  apply progress_after_header with (params_of := fst).
  { apply hprogress__get_container_params. right. exact HF. }
  { intros [params [ndims dims]] Hinv w. cbn [fst] in Hinv.
    rewrite Hinv. reflexivity. }
  intros w [params [ndims dims]] w' Hhdr Hinv. cbn [fst] in Hinv.
  rewrite Hinv.
  destruct (_get_container_params_valid _ _ _ _ Hhdr Hinv)
    as (Hfits & Hunc & _).
  cbv zeta. apply progress_bind_any with (k1 := 0); [lia|leaf|]. intros prefs.
  destruct (counting params) eqn:Hcnt.
  - destruct (byte_eqb TYPE_UINT8 (type params) && negb (no_bytes prefs)
              && (ndims =? 0)).
    { apply progress_bind with (k1 := 0); [lia| |].
      - unfold PyBytes_FromStringAndSize. finish.
      - intros w0 u w1 Hnew. unfold PyBytes_FromStringAndSize in Hnew.
        destruct (count params <? 0) eqn:Hneg; [discriminate Hnew|].
        bool_to_Z.
        apply progress_bind_any with (k1 := 0); [lia| |intros raw; leaf].
        apply progress_READ_INTO_OR_BAIL; lia. }
    destruct (negb (ndims =? 0) && negb (byte_eqb (type params) x00)) eqn:Hnd.
    { apply progress_read_packed_array; [|lia].
      bool_to_Z. eapply _get_container_params_product; eassumption. }
    destruct (_is_no_data_type (type params)) eqn:Hnodata.
    { apply progress_bind_any with (k1 := 0);
        [lia|apply progress_PyList_New; lia|]. intros _.
      apply progress_bind_any with (k1 := 0);
        [lia|apply progress__no_data_type; lia|]. intros v. leaf. }
    destruct (_is_fixed_len_type (type params) && (count params >? 0)).
    { apply progress_read_packed_array; [|lia].
      unfold wrapped_product. cbn [fold_left]. rewrite Z.mul_1_l.
      symmetry. apply to_signed_id. exact Hfits. }
    apply progress_bind_any with (k1 := 0);
      [lia|apply progress_PyList_New; lia|]. intros _.
    apply progress_bind_any with (k1 := 0); [lia| |intros lst; leaf].
    apply progress_array_loop_counted; try lia.
    intros Htyped.
    destruct (typed_array_marker _ _ _ Hhdr Hinv Htyped) as (Hm & Hnn).
    auto.
  - destruct (Hunc eq_refl) as (_ & Hnone & _).
    apply progress_bind_any with (k1 := 0); [lia| |intros lst; leaf].
    apply progress_array_loop_uncounted; try lia.
    rewrite Hnone. reflexivity.
Qed.

Lemma progress_pairs_loop_no_data (n : nat) :
  forall F k intern value m lst,
    k <= 0 -> progress p data F k (pairs_loop_no_data n intern value m lst).
Proof.
  induction n as [|n IH]; intros F k intern value m lst Hk;
    cbn [pairs_loop_no_data]; [leaf|].
  apply progress_bind_any with (k1 := 0);
    [lia|apply progress_DECODE_OBJECT_KEY; lia|].
  intros key. cbv zeta.
  destruct n; [apply IH; lia|].
  apply progress_bind_any with (k1 := 0); [lia|leaf|]. intros m1.
  apply IH. lia.
Qed.

Lemma progress_object_loop_no_data (n : nat) :
  forall F k intern value m obj,
    k <= 0 -> progress p data F k (object_loop_no_data n intern value m obj).
Proof.
  induction n as [|n IH]; intros F k intern value m obj Hk;
    cbn [object_loop_no_data]; [leaf|].
  apply progress_bind_any with (k1 := 0);
    [lia|apply progress_DECODE_OBJECT_KEY; lia|].
  intros key. cbv zeta.
  destruct n; [apply IH; lia|].
  apply progress_bind_any with (k1 := 0); [lia|leaf|]. intros m1.
  apply IH. lia.
Qed.

(** Every turn of an object's loop takes a byte: a no-op, or a key. *)
Lemma progress_pairs_loop_counted (fuel : nat) :
  forall F k intern ft n m lst,
    F <= Z.of_nat fuel -> F <= F0 -> k <= 0 ->
    progress p data F k
      (pairs_loop_counted decode_value fuel intern ft n m lst).
Proof.
  induction fuel as [|fuel IH]; intros F k intern ft n m lst HF HF0 Hk;
    cbn [pairs_loop_counted]; destruct (n >? 0); try leaf.
  { apply progress_vacuous. lia. }
  destruct (byte_eqb TYPE_NOOP m).
  - apply progress_bind_any with (k1 := 1); [lia|leaf|]. intros m1.
    apply IH; lia.
  - apply progress_bind_any with (k1 := 1);
      [lia|apply progress_DECODE_OBJECT_KEY; lia|].
    intros key.
    apply progress_bind_any with (k1 := 0);
      [lia|apply progress_value0; lia|].
    intros v. cbv zeta. destruct (n - 1 >? 0); [|apply IH; lia].
    apply progress_bind_any with (k1 := 0); [lia|leaf|]. intros m1.
    apply IH; lia.
Qed.

Lemma progress_pairs_loop_uncounted (fuel : nat) :
  forall F k intern ft m lst,
    F <= Z.of_nat fuel -> F <= F0 -> k <= 0 ->
    progress p data F k
      (pairs_loop_uncounted decode_value fuel intern ft m lst).
Proof.
  induction fuel as [|fuel IH]; intros F k intern ft m lst HF HF0 Hk;
    cbn [pairs_loop_uncounted]; destruct (byte_eqb OBJECT_END m); try leaf.
  { apply progress_vacuous. lia. }
  destruct (byte_eqb TYPE_NOOP m).
  - apply progress_bind_any with (k1 := 1); [lia|leaf|]. intros m1.
    apply IH; lia.
  - apply progress_bind_any with (k1 := 1);
      [lia|apply progress_DECODE_OBJECT_KEY; lia|].
    intros key.
    apply progress_bind_any with (k1 := 0);
      [lia|apply progress_value0; lia|].
    intros v. cbv zeta.
    apply progress_bind_any with (k1 := 0); [lia|leaf|]. intros m1.
    apply IH; lia.
Qed.

Lemma progress_object_loop (fuel : nat) :
  forall F k intern ft c n m obj,
    F <= Z.of_nat fuel -> F <= F0 -> k <= 0 ->
    progress p data F k
      (object_loop decode_value fuel intern ft c n m obj).
Proof.
  induction fuel as [|fuel IH]; intros F k intern ft c n m obj HF HF0 Hk;
    cbn [object_loop];
    destruct ((n >? 0) && (c || negb (byte_eqb OBJECT_END m))); try leaf.
  { apply progress_vacuous. lia. }
  destruct (byte_eqb TYPE_NOOP m).
  - apply progress_bind_any with (k1 := 1); [lia|leaf|]. intros m1.
    apply IH; lia.
  - apply progress_bind_any with (k1 := 1);
      [lia|apply progress_DECODE_OBJECT_KEY; lia|].
    intros key.
    apply progress_bind_any with (k1 := 0);
      [lia|apply progress_value0; lia|].
    intros v. cbv zeta.
    destruct ((if c then n - 1 else n) >? 0); [|apply IH; lia].
    apply progress_bind_any with (k1 := 0); [lia|leaf|]. intros m1.
    apply IH; lia.
Qed.

Lemma progress__decode_object_with_pairs_hook (fuel : nat) (F k : Z) :
  F <= Z.of_nat fuel + 1 -> F <= F0 + 1 -> k <= 1 ->
  progress p data F k (_decode_object_with_pairs_hook decode_value fuel).
Proof.
  intros HF HF0 Hk. unfold _decode_object_with_pairs_hook.
  apply progress_after_header with (params_of := fst).
  { apply hprogress__get_container_params. left. reflexivity. }
  { intros [params nds] Hinv w. cbn [fst] in Hinv.
    rewrite bind_get_prefs. cbv zeta. rewrite Hinv. reflexivity. }
  intros w [params nds] w' _ Hinv. cbn [fst] in Hinv.
  apply progress_bind_any with (k1 := 0); [lia|leaf|]. intros prefs.
  cbv zeta. rewrite Hinv.
  apply progress_bind_any with (k1 := 0);
    [lia| |intros lst; apply progress_call_hook; lia].
  unfold collect_pairs. cbv zeta.
  destruct (counting params).
  - apply progress_bind_any with (k1 := 0);
      [lia|apply progress_PyList_New; lia|]. intros _.
    destruct (_is_no_data_type (type params)).
    + apply progress_bind_any with (k1 := 0);
        [lia|apply progress__no_data_type; lia|]. intros v.
      apply progress_pairs_loop_no_data. lia.
    + apply progress_pairs_loop_counted; lia.
  - apply progress_pairs_loop_uncounted; lia.
Qed.

Lemma progress__decode_object (fuel : nat) (F k : Z) :
  F <= Z.of_nat fuel + 1 -> F <= F0 + 1 -> k <= 1 ->
  progress p data F k (_decode_object decode_value fuel).
Proof.
  intros HF HF0 Hk. unfold _decode_object.
  apply progress_after_header with (params_of := fst).
  { apply hprogress__get_container_params. left. reflexivity. }
  { intros [params nds] Hinv w. cbn [fst] in Hinv.
    rewrite bind_get_prefs. cbv zeta. rewrite Hinv. reflexivity. }
  intros w [params nds] w' _ Hinv. cbn [fst] in Hinv.
  apply progress_bind_any with (k1 := 0); [lia|leaf|]. intros prefs.
  cbv zeta. rewrite Hinv.
  apply progress_bind_any with (k1 := 0); [lia| |].
  - unfold collect_dict. cbv zeta.
    destruct (counting params && _is_no_data_type (type params)).
    + apply progress_bind_any with (k1 := 0);
        [lia|apply progress__no_data_type; lia|]. intros v.
      apply progress_object_loop_no_data. lia.
    + apply progress_object_loop; lia.
  - intros obj. unfold finish_object.
    destruct (object_hook prefs);
      first [leaf | apply progress_call_hook; lia].
Qed.

End WithValues.

Lemma progress_RETURN_OR_RAISE (F k : Z) (item : M PyObject) (s : string) :
  progress p data F k item ->
  progress p data F k (RETURN_OR_RAISE_DECODER_EXCEPTION item s).
Proof.
  intros Hitem w Hw Hrem. unfold RETURN_OR_RAISE_DECODER_EXCEPTION.
  destruct (Hitem w Hw Hrem) as (Hok & Hr).
  destruct (item w) as [[o| |] w1]; cbn [fst snd] in *;
    try (split; [exact Hok|exact Hr]).
  destruct (exc w1) as [[]|];
    cbn [fst snd bail RAISE_DECODER_EXCEPTION set_exc buf];
    (split; [exact Hok|exact Hr]).
Qed.

Lemma no_data_takes_no_input (m : byte) :
  byte_eqb m TYPE_NULL = true \/ byte_eqb m TYPE_BOOL_TRUE = true
  \/ byte_eqb m TYPE_BOOL_FALSE = true ->
  takes_input (Some m) = false.
Proof.
  intros H. cbn [takes_input]. apply negb_false_iff.
  unfold _is_no_data_type.
  destruct H as [H|[H|H]]; apply byte_eqb_eq in H; subst m; reflexivity.
Qed.

(** With more fuel than bytes left the decoder ends, and a value that is
    not in its marker takes input. *)
Lemma progress__bjdata_decode_value (fuel : nat) :
  forall (F k : Z) (depth : Z) (gm : option byte),
    F <= Z.of_nat fuel -> k <= (if takes_input gm then 1 else 0) ->
    progress p data F k (_bjdata_decode_value fuel depth gm).
Proof.
  induction fuel as [|fuel IH]; intros F k depth gm HF Hk.
  { apply progress_vacuous. lia. }
  assert (Hrest :
    forall (m : byte) (F' k' : Z),
      F' <= Z.of_nat fuel + 1 ->
      k' <= (if takes_input (Some m) then 1 else 0) ->
      progress p data F' k'
        (_bjdata_decode_value (S fuel) depth (Some m))).
  { intros m F' k' HF' Hk'. cbn [_bjdata_decode_value].
    apply progress_bind with (k1 := 0); [lia|apply progress_ret; lia|].
    intros w0 m0 w0' Hm0. injection Hm0 as <- _.
    repeat match goal with
      | |- progress _ _ _ _ (if byte_eqb ?a ?b then _ else _) =>
          let E := fresh "E" in destruct (byte_eqb a b) eqn:E
      | |- progress _ _ _ _ (if ?c then _ else _) => destruct c
      end;
      try (rewrite no_data_takes_no_input in Hk' by auto;
           apply progress_ret; lia);
      assert (Hk1 : k' - 0 <= 1) by (destruct (takes_input (Some m)); lia);
      try (apply progress_RETURN_OR_RAISE;
           first [ apply progress__decode_char; lia
                 | apply progress__decode_string; lia
                 | apply progress__decode_int8; lia
                 | apply progress__decode_uint8; lia
                 | apply progress__decode_int16_32; lia
                 | apply progress__decode_uint16_32; lia
                 | apply progress__decode_int64; lia
                 | apply progress__decode_uint64; lia
                 | apply progress__decode_float; lia
                 | apply progress__decode_high_prec; lia ]);
      try apply progress_RAISE.
    - unfold RECURSE_AND_RETURN_OR_BAIL.
      destruct (depth + 1 >? recursion_limit); [apply progress_raise|].
      apply progress__decode_array with (F0 := Z.of_nat fuel); try lia.
      intros F1 k1 g HF1 Hk1'. apply IH; assumption.
    - apply progress_bind_any with (k1 := 0); [lia|leaf|]. intros prefs.
      unfold RECURSE_AND_RETURN_OR_BAIL.
      destruct (object_pairs_hook prefs);
        (destruct (depth + 1 >? recursion_limit); [apply progress_raise|]).
      + apply progress__decode_object with (F0 := Z.of_nat fuel); try lia.
        intros F1 k1 g HF1 Hk1'. apply IH; assumption.
      + apply progress__decode_object_with_pairs_hook
          with (F0 := Z.of_nat fuel); try lia.
        intros F1 k1 g HF1 Hk1'. apply IH; assumption.
      + apply progress__decode_object_with_pairs_hook
          with (F0 := Z.of_nat fuel); try lia.
        intros F1 k1 g HF1 Hk1'. apply IH; assumption. }
  destruct gm as [m|].
  - apply Hrest; [lia|exact Hk].
  - cbn [takes_input] in Hk. cbn [_bjdata_decode_value].
    apply progress_bind_any with (k1 := 1); [lia|leaf|]. intros m.
    apply (Hrest m (F - 1) (k - 1)); [lia|].
    destruct (takes_input (Some m)); lia.
Qed.

End Progress.



(** ** What follows the value

    A read that succeeds over some bytes succeeds alike when more bytes
    follow them; a read that fails leaves an exception, and nothing in the
    decoder clears one. *)

Section Trailing.
Import BytesIO.
Variable p : _bjdata_decoder_prefs_t.
Variables data extra : list byte.

Lemma slice_app_l {A} (d e : list A) (off n : Z) :
  0 <= off -> 0 <= n -> off + n <= Zlength' d ->
  slice (d ++ e) off n = slice d off n.
Proof.
  intros Hoff Hn Hfit. unfold slice, Zlength' in *.
  rewrite skipn_app, firstn_app, length_skipn.
  replace (Z.to_nat n - (List.length d - Z.to_nat off))%nat with 0%nat by lia.
  cbn [firstn]. apply app_nil_r.
Qed.

Lemma same_place_set_exc (e : option pyerr) (w1 w2 : @world BytesIO.host) :
  same_place p data extra w1 w2 ->
  same_place p data extra (set_exc e w1) (set_exc e w2).
Proof.
  intros (H1 & H2 & Ht & He). unfold same_place. cbn [set_exc buf exc]. auto.
Qed.

Lemma same_place_exc (w1 w2 : @world BytesIO.host) :
  same_place p data extra w1 w2 -> exc w1 = exc w2.
Proof. intros (_ & _ & _ & He). exact He. Qed.

Lemma unaffected_read (len : Z) (dst : bool) (s : string) :
  0 <= len -> unaffected p data extra (ACTION_READ len dst s).
Proof.
  intros Hlen. split.
  - intros w Hw.
    destruct (@ACTION_READ_over_data p data len dst s w Hlen Hw) as (Hok & Hout).
    split; [exact Hok|]. intros He. unfold read_outcome in Hout.
    destruct (len =? 0); [injection Hout as _ _ ->; exact He|].
    destruct (total_read (buf w) + len <=? Zlength' data);
      injection Hout as _ _ ->; [exact He|discriminate].
  - intros w1 w2 (H1 & H2 & Ht & He) Hnone.
    destruct (@ACTION_READ_over_data p data len dst s w1 Hlen H1) as (Ho1 & Hr1).
    destruct (@ACTION_READ_over_data p (data ++ extra) len dst s w2 Hlen H2)
      as (Ho2 & Hr2).
    pose proof H1 as (_ & Hc & _).
    unfold read_outcome in Hr1, Hr2. rewrite <- Ht, <- He in Hr2.
    unfold same_place.
    destruct (len =? 0) eqn:Hz.
    + injection Hr1 as -> Ht1 He1. injection Hr2 as -> Ht2 He2.
      split; [reflexivity|]. split; [exact Ho1|]. split; [exact Ho2|].
      split; congruence.
    + bool_to_Z.
      destruct (total_read (buf w1) + len <=? Zlength' data) eqn:Hfit;
        bool_to_Z.
      * replace (total_read (buf w1) + len <=? Zlength' (data ++ extra))
          with true in Hr2
          by (symmetry; apply Z.leb_le; rewrite Zlength'_app;
              pose proof (Zlength'_nonneg extra); lia).
        rewrite slice_app_l in Hr2 by lia.
        injection Hr1 as -> Ht1 He1. injection Hr2 as -> Ht2 He2.
        split; [reflexivity|]. split; [exact Ho1|]. split; [exact Ho2|].
      split; congruence.
      * injection Hr1 as _ _ He1. rewrite He1 in Hnone. discriminate.
Qed.

Lemma unaffected_ret {A} (a : A) : unaffected p data extra (ret a).
Proof.
  split.
  - intros w Hw. split; [exact Hw|auto].
  - intros w1 w2 Hs _. split; [reflexivity|exact Hs].
Qed.

Lemma unaffected_bail {A} : unaffected p data extra (@bail _ A).
Proof.
  split.
  - intros w Hw. split; [exact Hw|auto].
  - intros w1 w2 Hs _. split; [reflexivity|exact Hs].
Qed.

Lemma unaffected_out_of_fuel {A} : unaffected p data extra (@out_of_fuel _ A).
Proof.
  split.
  - intros w Hw. split; [exact Hw|auto].
  - intros w1 w2 Hs _. split; [reflexivity|exact Hs].
Qed.

Lemma unaffected_raise {A} (e : pyerr) : unaffected p data extra (@raise _ A e).
Proof.
  split.
  - intros w Hw. split; [exact Hw|]. intros _. discriminate.
  - intros w1 w2 Hs Hnone. discriminate Hnone.
Qed.

Lemma unaffected_RAISE {A} (msg : string) :
  unaffected p data extra (@RAISE_DECODER_EXCEPTION _ A msg).
Proof.
  split.
  - intros w Hw. split; [exact Hw|]. intros _. discriminate.
  - intros w1 w2 Hs Hnone. discriminate Hnone.
Qed.

Lemma unaffected_get_prefs : unaffected p data extra get_prefs.
Proof.
  split.
  - intros w Hw. split; [exact Hw|auto].
  - intros w1 w2 Hs _. split; [|exact Hs].
    destruct Hs as ((Hp1 & _) & (Hp2 & _) & _).
    unfold get_prefs. cbn [fst]. rewrite Hp1, Hp2. reflexivity.
Qed.

(** An exception that is not pending at the end was not pending before. *)
Lemma none_before {R} (m : world -> R * world) (w : @world BytesIO.host) :
  keeps_exception p data m -> over_data p data (buf w) ->
  exc (snd (m w)) = None -> exc w = None.
Proof.
  intros Hm Hw Hnone. destruct (Hm w Hw) as (_ & Hkeep).
  destruct (exc w) eqn:He; [|reflexivity].
  exfalso. apply Hkeep; [discriminate|exact Hnone].
Qed.

Lemma unaffected_bind {A B} (m : M A) (k : A -> M B) :
  unaffected p data extra m ->
  (forall w a w', m w = (Ret a, w') -> unaffected p data extra (k a)) ->
  unaffected p data extra (bind m k).
Proof.
  intros (Hm1 & Hm2) Hk. split.
  - intros w Hw. unfold bind. destruct (Hm1 w Hw) as (Hok & Hkeep).
    destruct (m w) as [[a| |] w1] eqn:Hmw; cbn [fst snd] in *;
      try (split; assumption).
    destruct (Hk _ _ _ Hmw) as (Hk1 & _).
    destruct (Hk1 w1 Hok) as (Hok' & Hkeep'). split; [exact Hok'|auto].
  - intros w1 w2 Hs Hnone. unfold bind in *.
    pose proof Hs as (H1 & _).
    destruct (Hm1 w1 H1) as (Hok & _).
    specialize (Hm2 w1 w2 Hs).
    destruct (m w1) as [r1 w1'] eqn:Hm1w. destruct (m w2) as [r2 w2'].
    cbn [fst snd] in *.
    destruct r1 as [a| |].
    + destruct (Hk _ _ _ Hm1w) as (Hk1 & Hk2).
      assert (Hmid : exc w1' = None)
        by (apply (none_before (m := k a)); assumption).
      destruct (Hm2 Hmid) as (<- & Hs').
      apply Hk2; assumption.
    + cbn [snd] in Hnone. destruct (Hm2 Hnone) as (<- & Hs'). auto.
    + cbn [snd] in Hnone. destruct (Hm2 Hnone) as (<- & Hs'). auto.
Qed.

Lemma unaffected_bind_any {A B} (m : M A) (k : A -> M B) :
  unaffected p data extra m -> (forall a, unaffected p data extra (k a)) ->
  unaffected p data extra (bind m k).
Proof. intros Hm Hk. apply unaffected_bind; auto. Qed.


Lemma unaffected_ext {A} (m m' : M A) :
  (forall w, m w = m' w) -> unaffected p data extra m ->
  unaffected p data extra m'.
Proof.
  intros Hext (Hm1 & Hm2). split.
  - intros w Hw. rewrite <- Hext. apply Hm1. exact Hw.
  - intros w1 w2 Hs. rewrite <- !Hext. apply Hm2. exact Hs.
Qed.

(** Naming the outcome of an unaffected computation anew. *)
Lemma unaffected_map {R R'} (h : R -> R') (m : world -> R * world)
  (m' : world -> R' * world) :
  (forall w, m' w = (h (fst (m w)), snd (m w))) ->
  unaffected p data extra m -> unaffected p data extra m'.
Proof.
  intros Hmap (Hm1 & Hm2). split.
  - intros w Hw. rewrite Hmap. cbn [snd]. apply Hm1. exact Hw.
  - intros w1 w2 Hs. rewrite !Hmap. cbn [fst snd]. intros Hnone.
    destruct (Hm2 w1 w2 Hs Hnone) as (-> & Hs'). auto.
Qed.

(** What a computation does with the outcome of an unaffected one. *)
Lemma unaffected_then {A B} (m : M A) (f : result A -> M B) :
  unaffected p data extra m ->
  (forall r, unaffected p data extra (f r)) ->
  unaffected p data extra (fun w => f (fst (m w)) (snd (m w))).
Proof.
  intros (Hm1 & Hm2) Hf. split.
  - intros w Hw. destruct (Hm1 w Hw) as (Hok & Hkeep).
    destruct (Hf (fst (m w))) as (Hf1 & _).
    destruct (Hf1 _ Hok) as (Hok' & Hkeep'). split; [exact Hok'|auto].
  - intros w1 w2 Hs Hnone. pose proof Hs as (H1 & _).
    destruct (Hm1 w1 H1) as (Hok & _).
    destruct (Hf (fst (m w1))) as (Hf1 & Hf2).
    assert (Hmid : exc (snd (m w1)) = None)
      by (apply (none_before (m := f (fst (m w1)))); assumption).
    destruct (Hm2 w1 w2 Hs Hmid) as (Hr & Hs').
    rewrite <- Hr. apply Hf2; assumption.
Qed.

Lemma same_place_RAISE {A} (msg : string) (w1 w2 : @world BytesIO.host) :
  same_place p data extra w1 w2 ->
  fst (@RAISE_DECODER_EXCEPTION _ A msg w1)
  = fst (@RAISE_DECODER_EXCEPTION _ A msg w2)
  /\ same_place p data extra
       (snd (@RAISE_DECODER_EXCEPTION _ A msg w1))
       (snd (@RAISE_DECODER_EXCEPTION _ A msg w2)).
Proof.
  intros Hs. split; [reflexivity|].
  unfold RAISE_DECODER_EXCEPTION. cbn [snd].
  destruct Hs as (H1 & H2 & Ht & He). rewrite Ht.
  apply same_place_set_exc. unfold same_place. auto.
Qed.

(** A computation that always ends with an exception pending. *)
Lemma unaffected_failing {A} (m : M A) :
  (forall w, over_data p data (buf w) ->
             over_data p data (buf (snd (m w))) /\ exc (snd (m w)) <> None) ->
  unaffected p data extra m.
Proof.
  intros Hm. split.
  - intros w Hw. destruct (Hm w Hw) as (Hok & He). auto.
  - intros w1 w2 (H1 & _) Hnone. destruct (Hm w1 H1) as (_ & He).
    contradiction.
Qed.

Lemma unaffected_READ_OR_BAIL (len : Z) (s : string) :
  0 <= len -> unaffected p data extra (READ_OR_BAIL len s).
Proof.
  intros Hlen. unfold READ_OR_BAIL. apply unaffected_bind_any.
  - apply unaffected_read. exact Hlen.
  - intros ptr. apply unaffected_ret.
Qed.

Lemma unaffected_READ_INTO_OR_BAIL (len : Z) (s : string) :
  0 <= len -> unaffected p data extra (READ_INTO_OR_BAIL len s).
Proof.
  intros Hlen. unfold READ_INTO_OR_BAIL. apply unaffected_bind_any.
  - apply unaffected_read. exact Hlen.
  - intros ptr. apply unaffected_ret.
Qed.

Lemma unaffected_READ_CHAR_OR_BAIL (s : string) : unaffected p data extra (READ_CHAR_OR_BAIL s).
Proof.
  unfold READ_CHAR_OR_BAIL. apply unaffected_bind_any.
  - apply unaffected_READ_OR_BAIL. lia.
  - intros tmp. apply unaffected_ret.
Qed.

Create HintDb unaffected.
#[local] Hint Resolve unaffected_ret unaffected_bail unaffected_out_of_fuel unaffected_raise
  unaffected_RAISE unaffected_get_prefs unaffected_READ_CHAR_OR_BAIL : unaffected.

Ltac unaffected_step :=
  repeat first
    [ solve [auto with unaffected nocore]
    | apply unaffected_bind_any; [|intros ?]
    | match goal with
      | |- unaffected _ _ _ (if ?c then _ else _) => destruct c
      | |- unaffected _ _ _ (match ?x with _ => _ end) => destruct x
      end ].

Lemma unaffected__decode_int8 : unaffected p data extra _decode_int8.
Proof. unfold _decode_int8. unaffected_step. Qed.

Lemma unaffected__decode_uint8 : unaffected p data extra _decode_uint8.
Proof. unfold _decode_uint8. unaffected_step. Qed.

Lemma unaffected__decode_uint16_32 (size : Z) :
  0 <= size -> unaffected p data extra (_decode_uint16_32 size).
Proof.
  intros Hs. unfold _decode_uint16_32.
  apply unaffected_bind_any; [apply unaffected_READ_OR_BAIL; auto|]. intros raw.
  unaffected_step.
Qed.

Lemma unaffected__decode_int16_32 (size : Z) :
  0 <= size -> unaffected p data extra (_decode_int16_32 size).
Proof.
  intros Hs. unfold _decode_int16_32.
  apply unaffected_bind_any; [apply unaffected_READ_OR_BAIL; auto|]. intros raw.
  unaffected_step.
Qed.

Lemma unaffected__decode_uint64 : unaffected p data extra _decode_uint64.
Proof.
  unfold _decode_uint64.
  apply unaffected_bind_any; [apply unaffected_READ_OR_BAIL; lia|].
  intros raw. unaffected_step.
Qed.

Lemma unaffected__decode_int64 : unaffected p data extra _decode_int64.
Proof.
  unfold _decode_int64.
  apply unaffected_bind_any; [apply unaffected_READ_OR_BAIL; lia|].
  intros raw. unaffected_step.
Qed.

#[local] Hint Resolve unaffected__decode_int8 unaffected__decode_uint8
  unaffected__decode_uint64 unaffected__decode_int64 : unaffected.

Lemma unaffected__decode_int_switch (m : byte) :
  unaffected p data extra (_decode_int_switch m).
Proof.
  unfold _decode_int_switch.
  repeat match goal with
    | |- unaffected _ _ _ (if ?c then _ else _) => destruct c
    end; auto with unaffected nocore;
    first [apply unaffected__decode_uint16_32 | apply unaffected__decode_int16_32];
    lia.
Qed.

Lemma unaffected__decode_int_non_negative (gm : option byte) :
  unaffected p data extra (_decode_int_non_negative gm).
Proof.
  unfold _decode_int_non_negative.
  apply unaffected_bind_any; [destruct gm; auto with unaffected nocore|]. intros m.
  apply unaffected_bind_any; [apply unaffected__decode_int_switch|]. intros o.
  split.
  - intros w Hw. unfold PyLong_AsLongLong, PyErr_Occurred.
    destruct o;
      try (cbn [fst snd set_exc exc bail buf]; split; [exact Hw|discriminate]).
    destruct ((- LLONG_MAX - 1 <=? v) && (v <=? LLONG_MAX)).
    + destruct (exc w) eqn:He.
      * cbn [fst snd bail]. split; [exact Hw|]. rewrite He. auto.
      * destruct (v <? 0);
          cbn [fst snd RAISE_DECODER_EXCEPTION ret set_exc exc buf];
          (split; [exact Hw|]); [discriminate|auto].
    + cbn [fst snd set_exc exc bail buf]. split; [exact Hw|discriminate].
  - intros w1 w2 Hs _. unfold PyLong_AsLongLong, PyErr_Occurred.
    pose proof (same_place_exc Hs) as He.
    destruct o;
      try (cbn [fst snd set_exc exc bail]; split; [reflexivity|];
           apply same_place_set_exc; exact Hs).
    destruct ((- LLONG_MAX - 1 <=? v) && (v <=? LLONG_MAX)).
    + rewrite <- He. destruct (exc w1).
      * split; [reflexivity|exact Hs].
      * destruct (v <? 0).
        -- apply same_place_RAISE. exact Hs.
        -- split; [reflexivity|exact Hs].
    + cbn [fst snd set_exc exc bail]. split; [reflexivity|].
      apply same_place_set_exc. exact Hs.
Qed.

#[local] Hint Resolve unaffected__decode_int_switch
  unaffected__decode_int_non_negative : unaffected.

Lemma unaffected_DECODE_UNICODE_OR_BAIL (raw : list byte) (s : string) :
  unaffected p data extra (DECODE_UNICODE_OR_BAIL raw s).
Proof. unfold DECODE_UNICODE_OR_BAIL. unaffected_step. Qed.

#[local] Hint Resolve unaffected_DECODE_UNICODE_OR_BAIL : unaffected.

Lemma unaffected__decode_float (width : Z) (s : string) :
  0 <= width -> unaffected p data extra (_decode_float width s).
Proof.
  intros Hw. unfold _decode_float.
  apply unaffected_bind_any; [apply unaffected_READ_OR_BAIL; auto|]. intros raw.
  apply unaffected_bind_any; [auto with unaffected nocore|]. intros q.
  split.
  - intros w Hok.
    destruct ((_pyfuncs_ubj_PyFloat_Unpack raw (islittle q) =? minus_one_bits width)
              && PyErr_Occurred w);
      cbn [fst snd bail ret]; (split; [exact Hok|auto]).
  - intros w1 w2 Hs _. unfold PyErr_Occurred.
    rewrite <- (same_place_exc Hs).
    destruct ((_pyfuncs_ubj_PyFloat_Unpack raw (islittle q) =? minus_one_bits width)
              && match exc w1 with Some _ => true | None => false end);
      split; (reflexivity || exact Hs).
Qed.

Lemma unaffected__decode_float32 : unaffected p data extra _decode_float32.
Proof. apply unaffected__decode_float. lia. Qed.

Lemma unaffected__decode_float64 : unaffected p data extra _decode_float64.
Proof. apply unaffected__decode_float. lia. Qed.

Lemma unaffected__decode_high_prec : unaffected p data extra _decode_high_prec.
Proof.
  unfold _decode_high_prec, DECODE_LENGTH_OR_BAIL.
  apply unaffected_bind; [auto with unaffected nocore|]. intros w length w' Hlen.
  apply _decode_int_non_negative_range in Hlen.
  apply unaffected_bind_any; [apply unaffected_READ_OR_BAIL; lia|].
  intros raw. unaffected_step.
Qed.

Lemma unaffected__decode_char : unaffected p data extra _decode_char.
Proof. unfold _decode_char. unaffected_step. Qed.

Lemma unaffected__decode_string : unaffected p data extra _decode_string.
Proof.
  unfold _decode_string, DECODE_LENGTH_OR_BAIL.
  apply unaffected_bind; [auto with unaffected nocore|]. intros w length w' Hlen.
  apply _decode_int_non_negative_range in Hlen.
  destruct (length >? 0); [|auto with unaffected nocore].
  apply unaffected_bind_any; [apply unaffected_READ_OR_BAIL; lia|].
  intros raw. unaffected_step.
Qed.

Lemma unaffected__decode_object_key (m : byte) (intern : bool) :
  unaffected p data extra (_decode_object_key m intern).
Proof.
  unfold _decode_object_key, DECODE_LENGTH_OR_BAIL_MARKER.
  apply unaffected_bind; [auto with unaffected nocore|]. intros w length w' Hlen.
  apply _decode_int_non_negative_range in Hlen.
  apply unaffected_bind_any; [apply unaffected_READ_OR_BAIL; lia|].
  intros raw. unaffected_step.
Qed.

Lemma unaffected_DECODE_OBJECT_KEY (m : byte) (ctx : string) (intern : bool) :
  unaffected p data extra (DECODE_OBJECT_KEY_OR_RAISE_ENCODER_EXCEPTION m ctx intern).
Proof.
  pose (f := fun r : result (list byte) =>
               match r with
               | Null => RAISE_DECODER_EXCEPTION
                           ("Failed to decode object key (" ++ ctx ++ ")")
               | Ret key => ret key
               | OutOfFuel => out_of_fuel
               end).
  apply unaffected_ext
    with (m := fun w => f (fst (_decode_object_key m intern w))
                          (snd (_decode_object_key m intern w))).
  { intros w. unfold DECODE_OBJECT_KEY_OR_RAISE_ENCODER_EXCEPTION.
    destruct (_decode_object_key m intern w) as [[key| |] w1]; reflexivity. }
  apply (unaffected_then (m := _decode_object_key m intern) f);
    [apply unaffected__decode_object_key|].
  intros [key| |]; unfold f; auto with unaffected nocore.
Qed.

#[local] Hint Resolve unaffected__decode_float32 unaffected__decode_float64
  unaffected__decode_high_prec unaffected__decode_char unaffected__decode_string
  unaffected_DECODE_OBJECT_KEY : unaffected.

(** *** Headers *)

Lemma unaffected_gret {A} (a : A) : unaffected p data extra (gret a).
Proof.
  split.
  - intros w Hw. split; [exact Hw|auto].
  - intros w1 w2 Hs _. split; [reflexivity|exact Hs].
Qed.

Lemma unaffected_gbind {A B} (m : G A) (k : A -> G B) :
  unaffected p data extra m -> (forall a, unaffected p data extra (k a)) ->
  unaffected p data extra (gbind m k).
Proof.
  intros (Hm1 & Hm2) Hk. split.
  - intros w Hw. unfold gbind. destruct (Hm1 w Hw) as (Hok & Hkeep).
    destruct (m w) as [[a| q|] w1]; cbn [fst snd] in *;
      try (split; assumption).
    destruct (Hk a) as (Hk1 & _).
    destruct (Hk1 w1 Hok) as (Hok' & Hkeep'). split; [exact Hok'|auto].
  - intros w1 w2 Hs Hnone. unfold gbind in *.
    pose proof Hs as (H1 & _).
    destruct (Hm1 w1 H1) as (Hok & _).
    specialize (Hm2 w1 w2 Hs).
    destruct (m w1) as [r1 w1']. destruct (m w2) as [r2 w2'].
    cbn [fst snd] in *.
    destruct r1 as [a| q|].
    + destruct (Hk a) as (Hk1 & Hk2).
      assert (Hmid : exc w1' = None)
        by (apply (none_before (m := k a)); assumption).
      destruct (Hm2 Hmid) as (<- & Hs').
      apply Hk2; assumption.
    + cbn [snd] in Hnone. destruct (Hm2 Hnone) as (<- & Hs'). auto.
    + cbn [snd] in Hnone. destruct (Hm2 Hnone) as (<- & Hs'). auto.
Qed.

Lemma unaffected_or_bail {A} (q : _container_params_t) (m : M A) :
  unaffected p data extra m -> unaffected p data extra (or_bail q m).
Proof.
  apply unaffected_map
    with (h := fun r => match r with
                        | Ret a => GRet a
                        | Null => GBail (set_invalid true q)
                        | OutOfFuel => GFuel
                        end).
  intros w. unfold or_bail. destruct (m w) as [[a| |] w1]; reflexivity.
Qed.

Ltac unaffected_gstep :=
  repeat first
    [ apply unaffected_gret
    | apply unaffected_or_bail; solve [auto with unaffected nocore]
    | apply unaffected_gbind; [|intros ?]
    | match goal with
      | |- unaffected _ _ _ (if ?c then _ else _) => destruct c
      | |- unaffected _ _ _ (match ?x with _ => _ end) => destruct x
      end ].

Lemma unaffected_header_type : unaffected p data extra header_type.
Proof. unfold header_type. unaffected_gstep. Qed.

Lemma unaffected_nd_dims_counted (n : nat) :
  forall q t l, unaffected p data extra (nd_dims_counted q t n l).
Proof.
  induction n as [|n IH]; intros q t l; cbn [nd_dims_counted].
  - apply unaffected_gret.
  - apply unaffected_gbind.
    + apply unaffected_or_bail. unfold DECODE_LENGTH_OR_BAIL_MARKER.
      auto with unaffected nocore.
    + intros len. apply IH.
Qed.

Lemma unaffected_nd_dims_uncounted (fuel : nat) :
  forall q m l, unaffected p data extra (nd_dims_uncounted fuel q m l).
Proof.
  induction fuel as [|fuel IH]; intros q m l; cbn [nd_dims_uncounted];
    destruct (byte_eqb ARRAY_END m); try apply unaffected_gret.
  - split.
    + intros w Hw. split; [exact Hw|auto].
    + intros w1 w2 Hs _. split; [reflexivity|exact Hs].
  - apply unaffected_gbind.
    + apply unaffected_or_bail. unfold DECODE_LENGTH_OR_BAIL_MARKER.
      auto with unaffected nocore.
    + intros len. apply unaffected_gbind.
      * apply unaffected_or_bail. auto with unaffected nocore.
      * intros m1. apply IH.
Qed.

Lemma unaffected_header_count (self : M _container_params_t) (fuel : nat)
  (nd : bool) (q : _container_params_t) :
  unaffected p data extra self -> unaffected p data extra (header_count self fuel nd q).
Proof.
  intros Hself. unfold header_count.
  apply unaffected_gbind; [apply unaffected_or_bail; auto with unaffected nocore|].
  intros m.
  destruct (byte_eqb ARRAY_START m && nd).
  - apply unaffected_gbind; [apply unaffected_or_bail; exact Hself|].
    intros dims. cbv zeta.
    destruct (counting dims).
    + apply unaffected_gbind; [apply unaffected_nd_dims_counted|].
      intros [q1 l1]. apply unaffected_gret.
    + apply unaffected_gbind; [apply unaffected_nd_dims_uncounted|].
      intros [[q1 m1] l1]. apply unaffected_gret.
  - apply unaffected_map
      with (m := _decode_int_non_negative (Some m))
           (h := fun r =>
                   match r with
                   | Ret n => GRet (set_count n (set_counting true q), m, (0, []))
                   | Null => GBail (set_invalid true
                                      (set_count (-1) (set_counting true q)))
                   | OutOfFuel => GFuel
                   end);
      [|apply unaffected__decode_int_non_negative].
    intros w. unfold DECODE_LENGTH_OR_BAIL_MARKER.
    destruct (_decode_int_non_negative (Some m) w) as [[n| |] w1]; reflexivity.
Qed.

Lemma unaffected_body (self : M _container_params_t) (fuel : nat) (im nd : bool) :
  unaffected p data extra self ->
  unaffected p data extra (get_container_params_body self fuel im nd).
Proof.
  intros Hself. unfold get_container_params_body.
  apply unaffected_gbind; [apply unaffected_header_type|]. intros [q m].
  destruct (byte_eqb CONTAINER_COUNT m).
  - apply unaffected_gbind; [apply unaffected_header_count; exact Hself|].
    intros [[q1 m1] nds].
    apply unaffected_gbind; [unfold header_prefetch; unaffected_gstep|].
    intros m2. apply unaffected_gret.
  - unaffected_gstep.
Qed.

Lemma unaffected_run_G {A} (m : G (_container_params_t * A)) (dflt : A) :
  unaffected p data extra m -> unaffected p data extra (run_G m dflt).
Proof.
  apply unaffected_map
    with (h := fun r => match r with
                        | GRet a => Ret a
                        | GBail q => Ret (q, dflt)
                        | GFuel => OutOfFuel
                        end).
  intros w. unfold run_G. destruct (m w) as [[a| q|] w1]; reflexivity.
Qed.

Lemma unaffected__get_container_params_flat (im : bool) :
  unaffected p data extra (_get_container_params_flat im).
Proof.
  unfold _get_container_params_flat.
  apply unaffected_bind_any; [|intros r; apply unaffected_ret].
  apply unaffected_run_G. apply unaffected_body. apply unaffected_bail.
Qed.

Lemma unaffected__get_container_params (fuel : nat) (im nd : bool) :
  unaffected p data extra (_get_container_params fuel im nd).
Proof.
  unfold _get_container_params. apply unaffected_run_G. apply unaffected_body.
  apply unaffected__get_container_params_flat.
Qed.

#[local] Hint Resolve unaffected__get_container_params : unaffected.

(** *** Arrays, objects and values *)

Lemma unaffected__no_data_type (t : byte) : unaffected p data extra (_no_data_type t).
Proof. unfold _no_data_type. unaffected_step. Qed.

Lemma unaffected_call_hook (h : hook) (arg : PyObject) :
  unaffected p data extra (call_hook h arg).
Proof. unfold call_hook. unaffected_step. Qed.

Lemma unaffected_PyList_New (n : Z) : unaffected p data extra (PyList_New n).
Proof. unfold PyList_New. unaffected_step. Qed.

#[local] Hint Resolve unaffected__no_data_type unaffected_call_hook unaffected_PyList_New
  : unaffected.

Section WithValues.
Variable decode_value : option byte -> M PyObject.
Hypothesis unaffected_decode_value : forall gm, unaffected p data extra (decode_value gm).

Lemma unaffected_read_packed_array (ndims : Z) (dims : list Z) (t : byte) (n : Z)
  (s : string) :
  n = wrapped_product dims ->
  unaffected p data extra (read_packed_array ndims dims t n s).
Proof.
  intros Hn. unfold read_packed_array.
  pose proof (BytesIO_numpy_sizes_sane ndims dims t) as Hsane.
  destruct (_get_type_info t) as [pytype bytelen]. cbn [fst snd] in Hsane.
  apply unaffected_bind_any.
  - destruct pytype; try apply unaffected_ret.
    apply unaffected_failing. intros w Hw.
    cbn [ret fst snd set_exc buf exc]. split; [exact Hw|discriminate].
  - intros _. apply unaffected_bind.
    + destruct (PyArray_SimpleNew_ok ndims dims pytype);
        auto with unaffected nocore.
    + intros w u w' Hret.
      destruct (PyArray_SimpleNew_ok ndims dims pytype) eqn:Hok;
        [|discriminate Hret].
      apply unaffected_bind_any; [|intros raw; apply unaffected_ret].
      apply unaffected_READ_INTO_OR_BAIL. subst n. apply Hsane. reflexivity.
Qed.

Lemma unaffected_array_loop_counted (fuel : nat) :
  forall t n m lst,
    unaffected p data extra (array_loop_counted decode_value fuel t n m lst).
Proof.
  induction fuel as [|fuel IH]; intros t n m lst; cbn [array_loop_counted];
    destruct (n >? 0); auto with unaffected nocore.
  destruct (byte_eqb TYPE_NOOP m).
  - apply unaffected_bind_any; [auto with unaffected nocore|]. intros m1. apply IH.
  - apply unaffected_bind_any; [apply unaffected_decode_value|]. intros v.
    cbv zeta. destruct ((n - 1 >? 0) && byte_eqb TYPE_NONE t); [|apply IH].
    apply unaffected_bind_any; [auto with unaffected nocore|]. intros m1. apply IH.
Qed.

Lemma unaffected_array_loop_uncounted (fuel : nat) :
  forall t m lst,
    unaffected p data extra (array_loop_uncounted decode_value fuel t m lst).
Proof.
  induction fuel as [|fuel IH]; intros t m lst; cbn [array_loop_uncounted];
    destruct (byte_eqb ARRAY_END m); auto with unaffected nocore.
  destruct (byte_eqb TYPE_NOOP m).
  - apply unaffected_bind_any; [auto with unaffected nocore|]. intros m1. apply IH.
  - apply unaffected_bind_any; [apply unaffected_decode_value|]. intros v.
    cbv zeta. destruct (byte_eqb TYPE_NONE t); [|apply IH].
    apply unaffected_bind_any; [auto with unaffected nocore|]. intros m1. apply IH.
Qed.

Lemma unaffected__decode_array (fuel : nat) :
  unaffected p data extra (_decode_array decode_value fuel).
Proof.
  unfold _decode_array.
  apply unaffected_bind; [apply unaffected__get_container_params|].
  intros w [params [ndims dims]] w' Hhdr.
  destruct (invalid params) eqn:Hinv; [apply unaffected_bail|].
  destruct (_get_container_params_valid _ _ _ _ Hhdr Hinv) as (Hfits & _ & _).
  cbv zeta. apply unaffected_bind_any; [auto with unaffected nocore|]. intros prefs.
  destruct (counting params).
  - destruct (byte_eqb TYPE_UINT8 (type params) && negb (no_bytes prefs)
              && (ndims =? 0)).
    { apply unaffected_bind.
      - unfold PyBytes_FromStringAndSize. unaffected_step.
      - intros w0 u w1 Hnew. unfold PyBytes_FromStringAndSize in Hnew.
        destruct (count params <? 0) eqn:Hneg; [discriminate Hnew|].
        bool_to_Z.
        apply unaffected_bind_any; [|intros raw; apply unaffected_ret].
        apply unaffected_READ_INTO_OR_BAIL. exact Hneg. }
    destruct (negb (ndims =? 0) && negb (byte_eqb (type params) x00)) eqn:Hnd.
    { apply unaffected_read_packed_array.
      bool_to_Z. eapply _get_container_params_product; eassumption. }
    destruct (_is_no_data_type (type params)); [unaffected_step|].
    destruct (_is_fixed_len_type (type params) && (count params >? 0)).
    { apply unaffected_read_packed_array.
      unfold wrapped_product. cbn [fold_left]. rewrite Z.mul_1_l.
      symmetry. apply to_signed_id. exact Hfits. }
    apply unaffected_bind_any; [auto with unaffected nocore|]. intros _.
    apply unaffected_bind_any; [apply unaffected_array_loop_counted|].
    intros lst. apply unaffected_ret.
  - apply unaffected_bind_any; [apply unaffected_array_loop_uncounted|].
    intros lst. apply unaffected_ret.
Qed.

Lemma unaffected_pairs_loop_no_data (n : nat) :
  forall intern value m lst,
    unaffected p data extra (pairs_loop_no_data n intern value m lst).
Proof.
  induction n as [|n IH]; intros intern value m lst; cbn [pairs_loop_no_data];
    [auto with unaffected nocore|].
  apply unaffected_bind_any; [auto with unaffected nocore|]. intros key. cbv zeta.
  destruct n; [apply IH|].
  apply unaffected_bind_any; [auto with unaffected nocore|]. intros m1. apply IH.
Qed.

Lemma unaffected_object_loop_no_data (n : nat) :
  forall intern value m obj,
    unaffected p data extra (object_loop_no_data n intern value m obj).
Proof.
  induction n as [|n IH]; intros intern value m obj; cbn [object_loop_no_data];
    [auto with unaffected nocore|].
  apply unaffected_bind_any; [auto with unaffected nocore|]. intros key. cbv zeta.
  destruct n; [apply IH|].
  apply unaffected_bind_any; [auto with unaffected nocore|]. intros m1. apply IH.
Qed.

Lemma unaffected_pairs_loop_counted (fuel : nat) :
  forall intern ft n m lst,
    unaffected p data extra (pairs_loop_counted decode_value fuel intern ft n m lst).
Proof.
  induction fuel as [|fuel IH]; intros intern ft n m lst;
    cbn [pairs_loop_counted]; destruct (n >? 0); auto with unaffected nocore.
  destruct (byte_eqb TYPE_NOOP m).
  - apply unaffected_bind_any; [auto with unaffected nocore|]. intros m1. apply IH.
  - apply unaffected_bind_any; [auto with unaffected nocore|]. intros key.
    apply unaffected_bind_any; [apply unaffected_decode_value|]. intros v.
    cbv zeta. destruct (n - 1 >? 0); [|apply IH].
    apply unaffected_bind_any; [auto with unaffected nocore|]. intros m1. apply IH.
Qed.

Lemma unaffected_pairs_loop_uncounted (fuel : nat) :
  forall intern ft m lst,
    unaffected p data extra (pairs_loop_uncounted decode_value fuel intern ft m lst).
Proof.
  induction fuel as [|fuel IH]; intros intern ft m lst;
    cbn [pairs_loop_uncounted]; destruct (byte_eqb OBJECT_END m);
    auto with unaffected nocore.
  destruct (byte_eqb TYPE_NOOP m).
  - apply unaffected_bind_any; [auto with unaffected nocore|]. intros m1. apply IH.
  - apply unaffected_bind_any; [auto with unaffected nocore|]. intros key.
    apply unaffected_bind_any; [apply unaffected_decode_value|]. intros v.
    cbv zeta.
    apply unaffected_bind_any; [auto with unaffected nocore|]. intros m1. apply IH.
Qed.

Lemma unaffected_object_loop (fuel : nat) :
  forall intern ft c n m obj,
    unaffected p data extra (object_loop decode_value fuel intern ft c n m obj).
Proof.
  induction fuel as [|fuel IH]; intros intern ft c n m obj; cbn [object_loop];
    destruct ((n >? 0) && (c || negb (byte_eqb OBJECT_END m)));
    auto with unaffected nocore.
  destruct (byte_eqb TYPE_NOOP m).
  - apply unaffected_bind_any; [auto with unaffected nocore|]. intros m1. apply IH.
  - apply unaffected_bind_any; [auto with unaffected nocore|]. intros key.
    apply unaffected_bind_any; [apply unaffected_decode_value|]. intros v.
    cbv zeta. destruct ((if c then n - 1 else n) >? 0); [|apply IH].
    apply unaffected_bind_any; [auto with unaffected nocore|]. intros m1. apply IH.
Qed.

Lemma unaffected__decode_object_with_pairs_hook (fuel : nat) :
  unaffected p data extra (_decode_object_with_pairs_hook decode_value fuel).
Proof.
  unfold _decode_object_with_pairs_hook.
  apply unaffected_bind_any; [apply unaffected__get_container_params|].
  intros [params nds].
  apply unaffected_bind_any; [auto with unaffected nocore|]. intros prefs. cbv zeta.
  destruct (invalid params); [apply unaffected_bail|].
  apply unaffected_bind_any; [|intros lst; auto with unaffected nocore].
  unfold collect_pairs. cbv zeta.
  destruct (counting params).
  - apply unaffected_bind_any; [auto with unaffected nocore|]. intros _.
    destruct (_is_no_data_type (type params)).
    + apply unaffected_bind_any; [auto with unaffected nocore|]. intros v.
      apply unaffected_pairs_loop_no_data.
    + apply unaffected_pairs_loop_counted.
  - apply unaffected_pairs_loop_uncounted.
Qed.

Lemma unaffected__decode_object (fuel : nat) :
  unaffected p data extra (_decode_object decode_value fuel).
Proof.
  unfold _decode_object.
  apply unaffected_bind_any; [apply unaffected__get_container_params|].
  intros [params nds].
  apply unaffected_bind_any; [auto with unaffected nocore|]. intros prefs. cbv zeta.
  destruct (invalid params); [apply unaffected_bail|].
  apply unaffected_bind_any.
  - unfold collect_dict. cbv zeta.
    destruct (counting params && _is_no_data_type (type params)).
    + apply unaffected_bind_any; [auto with unaffected nocore|]. intros v.
      apply unaffected_object_loop_no_data.
    + apply unaffected_object_loop.
  - intros obj. unfold finish_object.
    destruct (object_hook prefs); auto with unaffected nocore.
Qed.

End WithValues.

Lemma unaffected_RETURN_OR_RAISE (item : M PyObject) (s : string) :
  unaffected p data extra item ->
  unaffected p data extra (RETURN_OR_RAISE_DECODER_EXCEPTION item s).
Proof.
  intros Hitem.
  pose (f := fun r : result PyObject =>
               match r with
               | Null =>
                   fun w' : @world BytesIO.host =>
                     match exc w' with
                     | Some (DecoderException _ _) => bail w'
                     | _ => RAISE_DECODER_EXCEPTION ("Failed to decode " ++ s) w'
                     end
               | Ret o => ret o
               | OutOfFuel => out_of_fuel
               end).
  apply unaffected_ext
    with (m := fun w => f (fst (item w)) (snd (item w))).
  { intros w. unfold RETURN_OR_RAISE_DECODER_EXCEPTION.
    destruct (item w) as [[o| |] w1]; reflexivity. }
  apply (unaffected_then (m := item) f); [exact Hitem|].
  intros [o| |]; unfold f; auto with unaffected nocore.
  apply unaffected_failing. intros w Hw.
  destruct (exc w) as [[]|] eqn:He;
    cbn [bail RAISE_DECODER_EXCEPTION fst snd set_exc buf exc];
    (split; [exact Hw|]); try discriminate.
  rewrite He. discriminate.
Qed.

(** The whole decoder does not look at what follows. *)
Lemma unaffected__bjdata_decode_value (fuel : nat) :
  forall (depth : Z) (gm : option byte),
    unaffected p data extra (_bjdata_decode_value fuel depth gm).
Proof.
  induction fuel as [|fuel IH]; intros depth gm; cbn [_bjdata_decode_value];
    (apply unaffected_bind_any; [destruct gm; auto with unaffected nocore|]);
    intros m;
    repeat match goal with
      | |- unaffected _ _ _ (if ?c then _ else _) => destruct c
      end;
    auto with unaffected nocore;
    try (apply unaffected_RETURN_OR_RAISE; auto with unaffected nocore;
         first [apply unaffected__decode_int16_32
               |apply unaffected__decode_uint16_32]; lia).
  - unfold RECURSE_AND_RETURN_OR_BAIL.
    destruct (depth + 1 >? recursion_limit); [auto with unaffected nocore|].
    apply unaffected__decode_array. intros g. apply IH.
  - apply unaffected_bind_any; [auto with unaffected nocore|]. intros prefs.
    unfold RECURSE_AND_RETURN_OR_BAIL.
    destruct (object_pairs_hook prefs);
      (destruct (depth + 1 >? recursion_limit); [auto with unaffected nocore|]).
    + apply unaffected__decode_object. intros g. apply IH.
    + apply unaffected__decode_object_with_pairs_hook. intros g. apply IH.
    + apply unaffected__decode_object_with_pairs_hook. intros g. apply IH.
Qed.

End Trailing.



(** ** The error indicator *)

Section ErrorIndicator.
Context `{Host : PyHost}.

Lemma call_input_exc (n : Z) (w : world) :
  exc (snd (call_input n w)) = exc w.
Proof.
  unfold call_input. destruct (input (buf w)) as [d|s|]; try reflexivity.
  destruct (input_call s n) as [r s']. reflexivity.
Qed.

Lemma READ_VIA_FUNC_keeps_exception (len : Z) (dst : bool) (w : world) :
  exc w <> None -> exc (snd (READ_VIA_FUNC len dst w)) <> None.
Proof.
  intros He. unfold READ_VIA_FUNC. destruct (read_func (buf w)).
  - unfold _decoder_buffer_read_fixed.
    destruct (len =? 0); [exact He|].
    destruct (total_read (buf w) <? view_len (buf w)); exact He.
  - unfold _decoder_buffer_read_callable.
    destruct (len =? 0); [exact He|].
    match goal with
    | |- context [call_input ?n ?w1] =>
        pose proof (call_input_exc n w1) as Hci;
        destruct (call_input n w1) as [[e|chunk] w2]
    end; [cbn [snd set_exc exc]; discriminate|].
    cbn [snd] in Hci.
    assert (He2 : exc w2 <> None)
      by (rewrite Hci; destruct (view_set (buf w)); exact He).
    cbv zeta.
    match goal with
    | |- context [if ?c then _ else _] => destruct c
    end; exact He2.
  - unfold _decoder_buffer_read_buffered.
    destruct (len =? 0); [exact He|].
    destruct (negb _ || _); [|exact He].
    destruct (if view_set _ then _ else _) as [[r old] b1].
    match goal with
    | |- context [call_input ?n ?w1] =>
        pose proof (call_input_exc n w1) as Hci;
        destruct (call_input n w1) as [[e|chunk] w2]
    end; [cbn [snd set_exc exc]; discriminate|].
    cbn [snd with_buf exc] in Hci.
    assert (He2 : exc w2 <> None) by (rewrite Hci; exact He).
    cbv zeta.
    match goal with
    | |- context [if ?c then _ else _] => destruct c
    end; exact He2.
Qed.

Lemma ACTION_READ_exc (len : Z) (dst : bool) (s : string) (w : world) :
  exc (snd (ACTION_READ len dst s w)) = exc (snd (READ_VIA_FUNC len dst w))
  \/ exc (snd (ACTION_READ len dst s w)) <> None.
Proof.
  unfold ACTION_READ.
  destruct (READ_VIA_FUNC len dst w) as [[[chunk|] rd] w1]; cbn [snd];
    repeat match goal with
      | |- context [if ?c then _ else _] => destruct c
      end;
    first [left; reflexivity | right; discriminate].
Qed.

(** X27.  Nothing in the decoder clears the error indicator: an exception
    that is pending stays pending (it may be replaced by another), through
    every read, every value and every way the decode ends. *)
Theorem the_error_indicator_is_never_cleared (fuel : nat) (depth : Z)
  (gm : option byte) (w : world) :
  exc w <> None ->
  exc (snd (_bjdata_decode_value fuel depth gm w)) <> None.
Proof.
  intros He.
  apply (@of_sat_any_outcome _ (fun w0 => exc w0 <> None)); [|exact He].
  apply (@sat__bjdata_decode_value _ exception_pending (fun _ => True));
    simpl; auto; try discriminate.
  intros len dst s _. apply sat_any_outcome. intros w0 Hw0.
  destruct (ACTION_READ_exc len dst s w0) as [Heq|Hset]; [|exact Hset].
  rewrite Heq. apply READ_VIA_FUNC_keeps_exception. exact Hw0.
Qed.

End ErrorIndicator.

Lemma the_error_indicator_is_never_cleared_witness :
  exc (snd (_bjdata_decode_value 3 0 None
              (set_exc (Some OverflowError)
                 (BytesIO.fixed BytesIO.prefs0 BytesIO.uint8_array))))
  <> None.
Proof.
  apply the_error_indicator_is_never_cleared. cbn [set_exc exc]. discriminate.
Defined.
